(* ===== verification/_CoqProject ===== *)
-Q . S2P
Prelude.v
Replay.v
Tai64n.v
RateLimiter.v
Env.v
Text.v
Pools.v
Shutdown.v
Crypto.v
Wire.v
Cookie.v
State.v
Demo.v
Names.v
Gso.v
Control.v
StdNetBind.v
IndexTable.v
Noise.v
Agreement.v
Timers.v
Send.v
NetSink.v
Receive.v
Lifecycle.v
Buffers.v
Ownership.v
Retransmission.v
Net.v
Socket.v
Invariant.v
Keys.v
Flow.v
Frame.v
System.v
Pipeline.v
Scenario.v
Sealed.v
Leftover.v
Safety.v
Behaviour.v
Delivery.v
Erasure.v
OnWire.v
EndToEnd.v
