(* ===== verification/Prelude.v ===== *)
(** * A verification development for noisysockets

    noisysockets carries the WireGuard protocol inside a Go program: a transport
    (src/internal/transport) that performs Noise IK handshakes with its peers,
    encrypts the packets of a source/sink (a user-space network stack) into UDP
    datagrams and decrypts the datagrams that arrive.  This library models that
    transport, the packages it is built from and the socket that puts them
    together as executable functions, and proves what makes them correct.

    ** The program and its model

    The packages without state of the transport's:
    - Prelude.v: machine integers with their wrap-around, byte strings and their
      endian codecs, Go's [time] arithmetic, IP addresses, the state monad [M]
      with its notation, tactics and hint databases.
    - Replay.v: src/internal/replay, the sliding-window replay filter.
    - Tai64n.v: src/internal/tai64n, the time stamps of initiations.
    - RateLimiter.v: src/internal/ratelimiter, token buckets per source address
      and the goroutine that collects them.
    - Env.v: the clock and the random sources, as oracles with a position.
    - Crypto.v: noise-helpers.go and noise_types.go.  BLAKE2s, X25519 and the two
      AEADs come from golang.org/x/crypto: class [Crypto] has their operations,
      class [CryptoLaws] their documented behaviour (output lengths, the
      Diffie-Hellman equation, opening what was sealed); [Toy] is an instance.
    - Wire.v: the messages of noise-protocol.go with the encodings
      [binary.Read]/[binary.Write] give them, and the padding of send.go.
    - Cookie.v: cookie.go, MACs and cookies of both sides.
    - Text.v: the text form of keys (noise_types.go), and what is used of Go's
      base64, strconv, net and netip: addresses, hosts and ports as text.
    - Pools.v: pools.go, the wait pool, as a transition system of threads.

    The transport itself, one file per source file:
    - State.v: the structs of transport.go, peer.go, keypair.go,
      noise-protocol.go, timers.go and the queue elements.  What Go shares by
      pointer (peers, keypairs, containers) lives in finite maps from addresses;
      channels are lists.  [Bind] and [SourceSink] are the interfaces of conn.go
      and source_sink.go, as classes every handler is parametric in.
    - IndexTable.v: indextable.go.
    - Noise.v: the four message functions of noise-protocol.go,
      [BeginSymmetricSession], [ReceivedWithKeypair], [DeleteKeypair].
    - Timers.v: timers.go, the timers and the hooks that set them.
    - Send.v: send.go, and the methods of peer.go and pools.go it uses.
    - Receive.v: receive.go.
    - Lifecycle.v: the expiration functions of timers.go, and peer.go,
      transport.go and channels.go: start, stop, key erasure, peers, keys, the
      socket, up, down and close.
    - System.v: a transition system over all of the above.  A state is a
      transport with the container map of the reading routine; an action is one
      turn of a routine (one element taken from its channel), one expiration of a
      timer, or one call of an exported method.
    - Buffers.v: the inbound flow of receive.go and channels.go once more, by
      address: the message buffers, elements and containers that are taken from
      the pools of pools.go, handed on by pointer, written into and given back, as
      a transition system of readers, workers, receivers and finalizers that
      abstracts from keys and peers' state; Ownership.v has its invariant.
    - Shutdown.v: the goroutines, WaitGroups and channels (channels.go,
      [NewTransport], [BindUpdate], [Start], [Stop], [Close]), as a transition
      system of its own that abstracts from the packets.

    What the transport is connected to:
    - Gso.v and StdNetBind.v: src/internal/conn/bind_std.go, the UDP sockets with
      segmentation offload, an instance of [Bind].  The calls of the operating
      system are a class [OS], what they put on the wire a class [OSLaws].
    - Control.v: the control data of messages (gso_linux.go) and the options of
      a socket (controlfns.go, controlfns_linux.go, features_linux.go), over the
      layout of control messages (class [Cmsg], laws [CmsgLaws]) and the option
      calls (class [SockOpts], laws [SockOptsLaws]).
    - Names.v: the text of endpoints, receive functions, peers and states
      (bind_std.go, conn.go, peer.go), with [endpoint_text], [receive_names].
    - NetSink.v: src/source_sink.go, the packets of the user-space network stack
      routed to peers, an instance of [SourceSink] over gVisor's operations
      (class [Stack]).
    - Net.v: src/net.go and src/dns.go, looking up hosts, connecting, listening
      and DNS over the TCP of the stack and the DNS client (class [Gonet]).
    - Socket.v: src/noisysocket.go, [NewNoisySocket] over the sink, the transport
      and the bind; the constructor of src/source_sink.go; the configuration
      (src/config).

    Demo.v and Scenario.v hold concrete instances and runs for the witnesses.
    Frame.v says what the hooks of the timers leave alone, for the proofs about
    one turn of a routine.  Pipeline.v has the invariant of the outbound queues,
    Sealed.v its consequences for every run, Delivery.v the way of a batch from
    one transport to another, OnWire.v the same over the UDP bind, EndToEnd.v over
    bind and network stack of both sides, Leftover.v two runs that go wrong,
    Erasure.v what is left of a peer that is stopped.

    ** What is proved

    - Key agreement (Agreement.v): a handshake between two configured transports
      succeeds and gives both sides matching keys and indices.
    - Safety of every run (Safety.v, over the invariant of Invariant.v that
      Keys.v, Flow.v and System.v prove of each handler): no nonce is used twice
      with a key, no counter is accepted twice, the index table is exactly the
      set of indices in use, peers carry the keys they are looked up by, the
      queues that drop are bounded.
    - The way of a packet (Pipeline.v, Sealed.v, Delivery.v, OnWire.v,
      EndToEnd.v): a container of packets has one owner at a time, is locked from
      its numbering until it is encrypted, and the sender of a peer always gets it
      in the end; whatever is handed to the bind is a message of the handshake or sealed under a nonce of
      its own.  The packets of one read leave as one batch in order and with the
      UDP bind are on the wire as such, and a batch that arrives is written in
      order to the sink of the other side; put together, what waits in the stack of
      one host is injected into the stack of the other.
    - Behaviour of single operations (Behaviour.v): encryption and decryption
      are inverse, nonces are assigned in order, the staging loop ends, replayed
      initiations, bad MACs and messages under load are turned away without a
      change of state, sessions rotate the three keypairs as they should, a
      closed transport is inert.
    - The socket as a whole (Socket.v, Net.v): what [NewNoisySocket] returns is
      up and routes to its own peers only, what it keeps is well formed, a peer
      is dialed by name at the addresses it was configured with, connecting and
      resolving end, deadlines are shared as they should be.
    - Ends (Shutdown.v, Retransmission.v): no routine sends on a closed queue, a
      transport that is being closed comes to rest with every routine ended, and
      a handshake without an answer is given up.
    - Erasure (Erasure.v): a transport that is closed or taken down leaves no
      session and no secret of a handshake in its peers.
    - The pools (Pools.v): no object is handed out twice, bounds are kept.
    - Buffers (Ownership.v): each buffer, element and container of the inbound
      flow is in one place, and what is read through a pointer is what was put
      there for its reader, so that the values of Receive.v are what the program
      sees.
    - The sockets: coalescing and splitting of datagrams are transparent, with
      the control data the program writes and reads (Control.v), a send puts
      exactly its batch on the wire (StdNetBind.v); packets go to the peer
      that owns their destination (NetSink.v).
    - The packages: the replay filter refines a window over a set of counters,
      the limiter admits no more than its rate and its collector is invisible,
      stamps order as the clock does, messages survive the wire, a cookie that
      is issued is accepted.
    - Flaws the model shows, each a closed run: a packet that leaves in the clear
      and a reading routine that waits for ever, both after a read whose packets
      could not be sent (Leftover.v); an index 0 that is handed out and
      lost, a container staged twice (Behaviour.v); an IPv6 address truncated by
      a pooled buffer, a retry that asks for segmentation again, a port reported
      as 0 (StdNetBind.v); a stray packet that closes the transport and makes the
      writers behind it panic (NetSink.v); DNS servers with IPv6 addresses that
      are never reached, a listener on the wrong port (Net.v); keys of the wrong
      length that are accepted (Text.v); ports cut to 16 bits, a transport left
      open by an error (Socket.v); a wake-up lost by a bounded pool (Pools.v).

    ** Reading the model

    Ghost state: [t_assigned] records the nonces given to packets, [t_sealed] those
    the encryption workers have used and [t_accepted] the counters the receivers
    have accepted, each with its keypair; [t_stuck] records that a search was cut
    off.  No handler reads them.

    Locks of containers: a container of packets is locked by [SendStagedPackets]
    and unlocked by the worker that encrypts it; a sender that finds the lock
    taken is [Blocked].  [SendStagedPackets] itself takes the lock without looking:
    [containers_owned] shows that it is free, in every run in which
    [RoutineReadFromSourceSink] starts its reads with an empty [elemsByPeer]
    ([settled_run]).  Leftover.v shows what happens otherwise.

    Fuel: the clearing loop of the replay filter gets one more round than the ring
    has blocks, and [SendStagedPackets] two rounds per staged container and three
    more; both are proved to be enough, as are the rounds of [getGSOSize] and
    [PrettyName], one per byte.  [NewIndexForHandshake] loops until the
    random source yields a free index, for which there is no bound; the model
    tries 64 times and then sets [t_stuck], and the theorems on the index table
    are about runs in which that does not happen.  [DialContext] calls itself
    through the DNS client; [dialing_terminates] shows that two levels are
    enough.

    Interleaving: a turn runs to its end before the next begins.  The order of
    turns is arbitrary; interleavings inside a turn, which the source's mutexes
    and atomics govern, are modelled where they are the point: the accesses of
    Pools.v and the steps of Shutdown.v and Buffers.v interleave freely.  A channel that blocks its sender when
    full is a list without bound; a channel whose sender drops is bounded.

    A map of Go is iterated in an order the language leaves open; the model
    takes the order of [map_to_list].  Distinct slices do not overlap, except
    where the source makes them (splitting in place, pooled address buffers).

    Not modelled: system calls and the layout of control messages, which are the
    operating system's, and the empty functions that stand for them on other
    systems (gso_default.go, features_default.go, errors_default.go); the gVisor
    stack, the DNS client and the YAML decoder,
    which are parameters; logging; the outbound elements and their buffers as
    objects of the pools (their containers are: Pipeline.v); examples and
    benchmarks. *)
From Stdlib Require Import Bool.Bool Strings.Byte.
From stdpp Require Import prelude gmap list strings.
Open Scope Z_scope.

(** ** Machine integers

    Go's fixed-width integers are integers of [Z] kept in range by an explicit
    wrap-around, written exactly where the source computes in that width. *)

Definition two64 : Z := 2 ^ 64.
Definition u64 (z : Z) : Z := z mod two64.
Definition u32 (z : Z) : Z := z mod 2 ^ 32.
Definition u16 (z : Z) : Z := z mod 2 ^ 16.
Definition i64 (z : Z) : Z := (z + 2 ^ 63) mod two64 - 2 ^ 63.
Definition maxInt64 : Z := 2 ^ 63 - 1.
Definition minInt64 : Z := - 2 ^ 63.

(** ** Bytes and byte strings *)

Abbreviation bytes := (list Byte.byte).

Definition Z_of_byte (b : Byte.byte) : Z := Z.of_N (Byte.to_N b).
Definition byte_of_Z (z : Z) : Byte.byte :=
  match Byte.of_N (Z.to_N (z mod 256)) with Some b => b | None => Byte.x00 end.
Definition zero_bytes (n : nat) : bytes := replicate n Byte.x00.

#[global] Instance byte_eq_dec : EqDecision Byte.byte := Byte.byte_eq_dec.
#[global] Program Instance byte_countable : Countable Byte.byte :=
  inj_countable Byte.to_N Byte.of_N _.
Next Obligation. intros b. apply Byte.of_to_N. Qed.

(** [binary.LittleEndian.PutUint32/64] and [Uint32/64]; the same for
    [binary.BigEndian]. *)
Fixpoint le_put (n : nat) (z : Z) : bytes :=
  match n with
  | O => []
  | S n => byte_of_Z z :: le_put n (z / 256)
  end.
Fixpoint le_get (l : bytes) : Z :=
  match l with
  | [] => 0
  | b :: l => Z_of_byte b + 256 * le_get l
  end.
Definition be_put (n : nat) (z : Z) : bytes := rev (le_put n z).
Definition be_get (l : bytes) : Z := le_get (rev l).

(** [l[a:b]] and [copy(l[off:], new)] on a byte string. *)
Definition slice {A} (a b : nat) (l : list A) : list A := take (b - a) (drop a l).
Definition splice {A} (off : nat) (new l : list A) : list A :=
  take off l ++ new ++ drop (off + length new) l.

(** The ASCII bytes of a Go string constant. *)
Fixpoint string_bytes (s : string) : bytes :=
  match s with
  | EmptyString => []
  | String a s => Ascii.byte_of_ascii a :: string_bytes s
  end.

(** ** time.Time and time.Duration

    An instant is a number of nanoseconds since the Unix epoch; the zero
    [time.Time] is the start of year 1.  A [time.Duration] is an int64 of
    nanoseconds and [Time.Sub] saturates, as package time documents. *)

Abbreviation Time := Z (only parsing).
Abbreviation Duration := Z (only parsing).
Definition Nanosecond : Duration := 1.
Definition Millisecond : Duration := 1000000.
Definition Second : Duration := 1000000000.
Definition zeroTime : Time := -62135596800 * Second.
Definition time_Sub (t u : Time) : Duration := Z.max minInt64 (Z.min maxInt64 (t - u)).
Definition time_Add (t : Time) (d : Duration) : Time := t + d.
Definition time_Unix (t : Time) : Z := t / Second.
Definition time_Nanosecond (t : Time) : Z := t mod Second.

(** ** netip.Addr

    The zero [Addr], an IPv4 address (4 bytes) or an IPv6 address (16 bytes and
    a zone); [==] on [Addr] is equality of these values. *)

Inductive Addr :=
| AddrZero
| Addr4 (b : bytes)
| Addr6 (b : bytes) (zone : string).

Definition addr_Is4 (a : Addr) : bool := match a with Addr4 _ => true | _ => false end.
Definition addr_Is6 (a : Addr) : bool := match a with Addr6 _ _ => true | _ => false end.

#[global] Instance Addr_eq_dec : EqDecision Addr.
Proof. solve_decision. Defined.
#[global] Program Instance Addr_countable : Countable Addr :=
  inj_countable
    (fun a => match a with
              | AddrZero => None
              | Addr4 b => Some (b, None)
              | Addr6 b z => Some (b, Some z)
              end)
    (fun o => match o with
              | None => Some AddrZero
              | Some (b, None) => Some (Addr4 b)
              | Some (b, Some z) => Some (Addr6 b z)
              end) _.
Next Obligation. by intros []. Qed.

(** ** A state monad with its notation

    Handlers thread the whole state; [ret], [bind] and the [let*] notation
    make the model read in the order of the source. *)

Definition M (S A : Type) : Type := S -> S * A.
Definition ret {S A} (a : A) : M S A := fun s => (s, a).
Definition bind {S A B} (m : M S A) (k : A -> M S B) : M S B :=
  fun s => let '(s', a) := m s in k a s'.
Definition gets {S A} (f : S -> A) : M S A := fun s => (s, f s).
Definition modify {S} (f : S -> S) : M S unit := fun s => (f s, tt).
Definition whenM {S} (b : bool) (m : M S unit) : M S unit := if b then m else ret tt.
Fixpoint forM {S A} (l : list A) (f : A -> M S unit) : M S unit :=
  match l with
  | [] => ret tt
  | a :: l => bind (f a) (fun _ => forM l f)
  end.

Declare Scope go_scope.
Delimit Scope go_scope with go.
Notation "'let*' x ':=' m 'in' k" := (bind m (fun x => k))
  (at level 10, x pattern, m at level 100, k at level 200,
   format "'[v' 'let*'  x  ':='  m  'in' '/' k ']'") : go_scope.
Notation "m ';;;' k" := (bind m (fun _ => k))
  (at level 199, right associativity, format "'[v' m ';;;' '/' k ']'") : go_scope.
Open Scope go_scope.

(** [preserves P m]: running [m] keeps the state predicate [P]. *)
Definition preserves {S A} (P : S -> Prop) (m : M S A) : Prop :=
  forall s, P s -> P (fst (m s)).

(** [frame f m]: running [m] does not change what [f] observes. *)
Definition frame {S A B} (f : S -> B) (m : M S A) : Prop :=
  forall s, f (fst (m s)) = f s.

Create HintDb preserves.
Create Rewrite HintDb bytes.

(** [lia] with the equations of the divisions and remainders in the context. *)
Ltac lia_div := Z.div_mod_to_equations; lia.

(** ** Lemmas on bytes *)

Lemma Z_of_byte_range b : 0 <= Z_of_byte b < 256.
Proof. unfold Z_of_byte. pose proof (Byte.to_N_bounded b). lia. Qed.

Lemma Z_of_byte_of_Z z : Z_of_byte (byte_of_Z z) = z mod 256.
Proof.
  unfold Z_of_byte, byte_of_Z.
  pose proof (Z.mod_pos_bound z 256 ltac:(lia)).
  destruct (Byte.of_N (Z.to_N (z mod 256))) as [b|] eqn:E.
  - apply Byte.to_of_N in E. lia.
  - apply Byte.of_N_None_iff in E. lia.
Qed.

Lemma byte_of_Z_of_byte b : byte_of_Z (Z_of_byte b) = b.
Proof.
  unfold byte_of_Z. rewrite Z.mod_small by apply Z_of_byte_range.
  unfold Z_of_byte. rewrite N2Z.id. by rewrite Byte.of_to_N.
Qed.

Lemma Z_of_byte_inj b1 b2 : Z_of_byte b1 = Z_of_byte b2 -> b1 = b2.
Proof.
  intros E. rewrite <- (byte_of_Z_of_byte b1), <- (byte_of_Z_of_byte b2). by f_equal.
Qed.

(** A decidable property of all bytes is checked by computation. *)
Definition all_bytes : bytes := map (fun n => byte_of_Z (Z.of_nat n)) (List.seq 0 256).

Lemma byte_forall (P : Byte.byte -> bool) :
  forallb P all_bytes = true -> forall b, P b = true.
Proof.
  intros H b. rewrite forallb_forall in H. apply H. unfold all_bytes. apply in_map_iff.
  exists (Z.to_nat (Z_of_byte b)). pose proof (Z_of_byte_range b). split.
  - rewrite Z2Nat.id by lia. apply byte_of_Z_of_byte.
  - apply in_seq. lia.
Qed.

Lemma length_le_put n z : length (le_put n z) = n.
Proof. revert z; induction n; intros; simpl; auto. Qed.

Lemma length_be_put n z : length (be_put n z) = n.
Proof. unfold be_put. by rewrite length_rev, length_le_put. Qed.

Lemma length_zero_bytes n : length (zero_bytes n) = n.
Proof. apply length_replicate. Qed.

Lemma le_get_cons b l : le_get (b :: l) = Z_of_byte b + 256 * le_get l.
Proof. done. Qed.

Lemma le_get_bound l : 0 <= le_get l < 256 ^ Z.of_nat (length l).
Proof.
  induction l as [|b l IH]; simpl; [lia|].
  pose proof (Z_of_byte_range b).
  rewrite Nat2Z.inj_succ, Z.pow_succ_r by lia. lia.
Qed.

Lemma le_get_put n z : le_get (le_put n z) = z mod 256 ^ Z.of_nat n.
Proof.
  revert z; induction n as [|n IH]; intros z; simpl.
  - by rewrite Z.mod_1_r.
  - rewrite IH, Z_of_byte_of_Z, Nat2Z.inj_succ, Z.pow_succ_r by lia.
    rewrite Z.rem_mul_r; lia.
Qed.

Lemma le_put_get l : le_put (length l) (le_get l) = l.
Proof.
  induction l as [|b l IH]; simpl; [done|].
  pose proof (Z_of_byte_range b). f_equal.
  - apply Z_of_byte_inj. rewrite Z_of_byte_of_Z.
    rewrite (Z.mul_comm 256), Z.mod_add, Z.mod_small; lia.
  - rewrite (Z.mul_comm 256), Z.div_add, Z.div_small, Z.add_0_l; by try lia.
Qed.

Lemma be_get_put n z : be_get (be_put n z) = z mod 256 ^ Z.of_nat n.
Proof. unfold be_get, be_put. by rewrite rev_involutive, le_get_put. Qed.

Lemma be_put_get l : be_put (length l) (be_get l) = l.
Proof.
  unfold be_put, be_get. rewrite <- (length_rev l), le_put_get.
  apply rev_involutive.
Qed.

#[export] Hint Rewrite length_le_put length_be_put length_zero_bytes
  @length_app @length_take @length_drop @length_replicate : bytes.

#[global] Arguments le_put : simpl never.
#[global] Arguments le_get : simpl never.
#[global] Arguments be_put : simpl never.
#[global] Arguments be_get : simpl never.
#[global] Arguments zero_bytes : simpl never.
#[global] Arguments slice : simpl never.
#[global] Arguments splice : simpl never.

(** ** Lemmas on slices *)

Lemma length_slice {A} a b (l : list A) :
  (a <= b)%nat -> (b <= length l)%nat -> length (slice a b l) = (b - a)%nat.
Proof. unfold slice. intros. rewrite length_take, length_drop. lia. Qed.

Lemma length_splice {A} off (new l : list A) :
  (off + length new <= length l)%nat -> length (splice off new l) = length l.
Proof.
  unfold splice. intros. rewrite !length_app, length_take, length_drop. lia.
Qed.

Lemma take_splice {A} n off (new l : list A) :
  (n <= off)%nat -> (off <= length l)%nat -> take n (splice off new l) = take n l.
Proof.
  intros. unfold splice. rewrite take_app_le by (rewrite length_take; lia).
  rewrite take_take. f_equal. lia.
Qed.

Lemma slice_splice {A} off (new l : list A) :
  (off <= length l)%nat -> slice off (off + length new) (splice off new l) = new.
Proof.
  intros. unfold slice, splice.
  rewrite drop_app_ge by (rewrite length_take; lia).
  rewrite length_take, Nat.min_l, Nat.sub_diag, drop_0 by lia.
  replace (off + length new - off)%nat with (length new) by lia.
  apply take_app_length.
Qed.

Lemma slice_app_l {A} (l1 l2 : list A) n :
  n = length l1 -> slice 0 n (l1 ++ l2) = l1.
Proof. intros ->. unfold slice. rewrite Nat.sub_0_r. simpl. apply take_app_length. Qed.

Lemma slice_all {A} (l : list A) n : n = length l -> slice 0 n l = l.
Proof. intros ->. unfold slice. rewrite Nat.sub_0_r, drop_0. by apply take_ge. Qed.

Lemma slice_app_r {A} (l1 l2 : list A) a b :
  (length l1 <= a)%nat -> slice a b (l1 ++ l2) = slice (a - length l1) (b - length l1) l2.
Proof.
  intros. unfold slice. rewrite drop_app_ge by lia. f_equal. lia.
Qed.

Lemma slice_split {A} (l : list A) a b c :
  (a <= b)%nat -> (b <= c)%nat -> slice a b l ++ slice b c l = slice a c l.
Proof.
  intros. unfold slice.
  replace (drop b l) with (drop (b - a) (drop a l)) by (rewrite drop_drop; f_equal; lia).
  rewrite take_take_drop. f_equal. lia.
Qed.

(** ** Lemmas on integers and time *)

Lemma u64_small z : 0 <= z < two64 -> u64 z = z.
Proof. apply Z.mod_small. Qed.

Lemma u64_range z : 0 <= u64 z < two64.
Proof. apply Z.mod_pos_bound. done. Qed.

Lemma u32_small z : 0 <= z < 2 ^ 32 -> u32 z = z.
Proof. apply Z.mod_small. Qed.

Lemma i64_small z : minInt64 <= z <= maxInt64 -> i64 z = z.
Proof.
  unfold i64, minInt64, maxInt64, two64. intros. rewrite Z.mod_small; lia.
Qed.

Lemma time_Sub_exact t u : minInt64 <= t - u <= maxInt64 -> time_Sub t u = t - u.
Proof. unfold time_Sub. lia. Qed.

(** ** Lemmas on the monad *)

Lemma preserves_ret {S A} (P : S -> Prop) (a : A) : preserves P (ret a).
Proof. by intros s H. Qed.

Lemma preserves_gets {S A} (P : S -> Prop) (f : S -> A) : preserves P (gets f).
Proof. by intros s H. Qed.

Lemma preserves_bind {S A B} (P : S -> Prop) (m : M S A) (k : A -> M S B) :
  preserves P m -> (forall a, preserves P (k a)) -> preserves P (bind m k).
Proof.
  intros Hm Hk s Hs. unfold bind. specialize (Hm s Hs).
  destruct (m s) as [s' a]. by apply Hk.
Qed.

Lemma preserves_when {S} (P : S -> Prop) b (m : M S unit) :
  preserves P m -> preserves P (whenM b m).
Proof. intros Hm. destruct b; [done|apply preserves_ret]. Qed.

Lemma preserves_forM {S A} (P : S -> Prop) (l : list A) f :
  (forall a, preserves P (f a)) -> preserves P (forM l f).
Proof.
  intros Hf. induction l; simpl; [apply preserves_ret|].
  apply preserves_bind; auto.
Qed.

#[export] Hint Resolve preserves_ret preserves_gets : preserves.

(** Walks a handler: splits binds, conditionals and matches, and closes the
    leaves with the hints of the [preserves] database. *)
Ltac preserves_step :=
  match goal with
  | |- preserves _ (ret _) => apply preserves_ret
  | |- preserves _ (gets _) => apply preserves_gets
  | |- preserves _ (bind _ _) => apply preserves_bind; [|intros ?]
  | |- preserves _ (whenM _ _) => apply preserves_when
  | |- preserves _ (forM _ _) => apply preserves_forM; intros ?
  | |- preserves _ (match ?x with _ => _ end) => destruct x eqn:?
  | |- preserves _ _ => solve [eauto with preserves]
  end.
Ltac preserves_tac := repeat preserves_step.
