(* ===== verification/Replay.v ===== *)
(** The anti-replay filter of internal/replay/replay.go (RFC 6479): the ring of
    64-bit blocks with its sliding window, an abstract window (the set of the
    counters accepted so far) and the refinement between the two. *)
From S2P Require Import Prelude.
From stdpp Require Import prelude gmap list.
Open Scope Z_scope.

Module Replay.

Definition blockBitLog : Z := 6.
Definition blockBits : Z := Z.shiftl 1 blockBitLog.
Definition ringBlocks : Z := Z.shiftl 1 7.
Definition windowSize : Z := (ringBlocks - 1) * blockBits.
Definition blockMask : Z := ringBlocks - 1.
Definition bitMask : Z := blockBits - 1.

(** [type Filter struct]: [ring] has [ringBlocks] blocks. *)
Record Filter := mkFilter { last : Z; ring : list Z }.

(** The zero value of [Filter]. *)
Definition zeroFilter : Filter := mkFilter 0 (replicate (Z.to_nat ringBlocks) 0).

Definition ring_get (r : list Z) (i : Z) : Z := default 0 (r !! Z.to_nat i).
Definition ring_set (r : list Z) (i v : Z) : list Z := <[Z.to_nat i := v]> r.

Definition Reset (f : Filter) : Filter := mkFilter 0 (ring_set (ring f) 0 0).

(** [for i := current + 1; i <= current+diff; i++ { f.ring[i&blockMask] = 0 }];
    [None] is running out of fuel. *)
Fixpoint clear_loop (fuel : nat) (i bound : Z) (r : list Z) : option (list Z) :=
  match fuel with
  | O => None
  | S fuel =>
      if i <=? bound
      then clear_loop fuel (u64 (i + 1)) bound (ring_set r (Z.land i blockMask) 0)
      else Some r
  end.

(** Enough for the [ringBlocks] iterations the cap on [diff] leaves, and the
    final test. *)
Definition clear_fuel : nat := 129.

(** [// check and set bit]: the tail of [ValidateCounter]. *)
Definition check_and_set (f : Filter) (counter : Z) : Filter * bool :=
  let indexBlock := Z.land (Z.shiftr counter blockBitLog) blockMask in
  let indexBit := Z.land counter bitMask in
  let old := ring_get (ring f) indexBlock in
  let new := Z.lor old (u64 (Z.shiftl 1 indexBit)) in
  (mkFilter (last f) (ring_set (ring f) indexBlock new), negb (old =? new)).

(** [ValidateCounter]; [None] would be a run out of fuel in the clearing loop
    (it never happens: [ValidateCounter_total]). *)
Definition ValidateCounter (f : Filter) (counter limit : Z) : option (Filter * bool) :=
  if limit <=? counter then Some (f, false)
  else
    let indexBlock := Z.shiftr counter blockBitLog in
    if last f <? counter then
      let current := Z.shiftr (last f) blockBitLog in
      let diff := u64 (indexBlock - current) in
      let diff := if ringBlocks <? diff then ringBlocks else diff in
      match clear_loop clear_fuel (u64 (current + 1)) (u64 (current + diff)) (ring f) with
      | None => None
      | Some r => Some (check_and_set (mkFilter counter r) counter)
      end
    else if windowSize <? u64 (last f - counter) then Some (f, false)
    else Some (check_and_set f counter).

(** The total function the receiver uses. *)
Definition validate (f : Filter) (counter limit : Z) : Filter * bool :=
  default (f, false) (ValidateCounter f counter limit).

(** A sequence of calls and their answers. *)
Fixpoint validate_all (f : Filter) (calls : list (Z * Z)) : Filter * list bool :=
  match calls with
  | [] => (f, [])
  | (c, limit) :: calls =>
      let '(f1, b) := validate f c limit in
      let '(f2, bs) := validate_all f1 calls in
      (f2, b :: bs)
  end.

(** ** The abstract window *)

Record Window := mkWindow { w_last : Z; w_seen : gset Z }.
Definition empty_window : Window := mkWindow 0 ∅.

Definition spec_validate (w : Window) (counter limit : Z) : Window * bool :=
  if limit <=? counter then (w, false)
  else if w_last w <? counter then (mkWindow counter ({[counter]} ∪ w_seen w), true)
  else if windowSize <? w_last w - counter then (w, false)
  else if bool_decide (counter ∈ w_seen w) then (w, false)
  else (mkWindow (w_last w) ({[counter]} ∪ w_seen w), true).

Fixpoint spec_validate_all (w : Window) (calls : list (Z * Z)) : Window * list bool :=
  match calls with
  | [] => (w, [])
  | (c, limit) :: calls =>
      let '(w1, b) := spec_validate w c limit in
      let '(w2, bs) := spec_validate_all w1 calls in
      (w2, b :: bs)
  end.

(** The counters that were answered [true]. *)
Fixpoint accepted (calls : list (Z * Z)) (bs : list bool) : list Z :=
  match calls, bs with
  | (c, _) :: calls, b :: bs => if b then c :: accepted calls bs else accepted calls bs
  | _, _ => []
  end.

(** ** Invariant and simulation relation *)

Definition is_u64 (z : Z) : Prop := 0 <= z < two64.

Definition filter_wf (f : Filter) : Prop :=
  is_u64 (last f) /\ length (ring f) = Z.to_nat ringBlocks.

(** The bit of counter [c] in the ring. *)
Definition bit_of (f : Filter) (c : Z) : bool :=
  Z.testbit (ring_get (ring f) ((c / 64) mod 128)) (c mod 64).

(** The blocks of the window are those at most 127 behind the block of [last];
    in them, a bit is set exactly when its counter has been accepted. *)
Definition simulates (f : Filter) (w : Window) : Prop :=
  filter_wf f /\ last f = w_last w /\
  (forall c, c ∈ w_seen w -> 0 <= c <= w_last w) /\
  (forall c, 0 <= c -> c / 64 <= last f / 64 < c / 64 + 128 ->
     bit_of f c = bool_decide (c ∈ w_seen w)).

(** ** Ring lemmas *)

Lemma land_blockMask i : 0 <= i -> Z.land i blockMask = i mod 128.
Proof. intros. change blockMask with (Z.ones 7). by rewrite Z.land_ones by lia. Qed.

Lemma land_bitMask i : 0 <= i -> Z.land i bitMask = i mod 64.
Proof. intros. change bitMask with (Z.ones 6). by rewrite Z.land_ones by lia. Qed.

Lemma shiftr_block i : Z.shiftr i blockBitLog = i / 64.
Proof. unfold blockBitLog. by rewrite Z.shiftr_div_pow2 by lia. Qed.

Lemma ring_get_set_eq r i v :
  0 <= i -> i < Z.of_nat (length r) -> ring_get (ring_set r i v) i = v.
Proof. intros. unfold ring_get, ring_set. rewrite list_lookup_insert_eq; [done|lia]. Qed.

Lemma ring_get_set_ne r i j v :
  0 <= i -> 0 <= j -> i <> j -> ring_get (ring_set r i v) j = ring_get r j.
Proof. intros. unfold ring_get, ring_set. rewrite list_lookup_insert_ne; [done|lia]. Qed.

Lemma length_ring_set r i v : length (ring_set r i v) = length r.
Proof. apply length_insert. Qed.

(** The clearing loop zeroes the blocks [i..bound] and no others. *)
Lemma clear_loop_spec fuel i bound r :
  0 <= i -> bound < two64 - 1 -> length r = 128%nat ->
  0 <= bound - i + 1 < Z.of_nat fuel ->
  exists r', clear_loop fuel i bound r = Some r' /\ length r' = 128%nat /\
    (forall j, 0 <= j -> ring_get r j = 0 -> ring_get r' j = 0) /\
    (forall k, i <= k <= bound -> ring_get r' (k mod 128) = 0) /\
    (forall j, 0 <= j -> (forall k, i <= k <= bound -> k mod 128 <> j) ->
       ring_get r' j = ring_get r j).
Proof.
  revert i r. induction fuel as [|fuel IH]; intros i r Hi Hb Hlen Hf; [lia|simpl].
  destruct (Z.leb_spec i bound); [|exists r; repeat split; auto; lia].
  rewrite u64_small by (unfold two64 in *; lia).
  rewrite land_blockMask by lia.
  pose proof (Z.mod_pos_bound i 128 ltac:(lia)).
  destruct (IH (i + 1) (ring_set r (i mod 128) 0)) as (r' & Hr & Hl & Hkeep & Hz & Hk);
    [lia|lia|by rewrite length_ring_set|lia|].
  exists r'. repeat split; auto.
  - intros j Hj Hz0. apply Hkeep; [done|].
    destruct (decide (j = i mod 128)) as [->|]; [apply ring_get_set_eq; lia|].
    rewrite ring_get_set_ne; lia.
  - intros k Hkr. destruct (decide (k = i)) as [->|]; [|apply Hz; lia].
    apply Hkeep; [lia|]. apply ring_get_set_eq; lia.
  - intros j Hj Hne. rewrite Hk; [|done|intros; apply Hne; lia].
    apply ring_get_set_ne; [lia|done|]. apply Hne. lia.
Qed.

(** Setting the bit of [c] changes that bit and no other bit of the window. *)
Lemma check_and_set_spec f c :
  0 <= c -> filter_wf f ->
  let '(f', b) := check_and_set f c in
  last f' = last f /\ filter_wf f' /\ b = negb (bit_of f c) /\ bit_of f' c = true /\
  (forall d, 0 <= d -> d <> c -> Z.abs (d / 64 - c / 64) < 128 -> bit_of f' d = bit_of f d).
Proof.
  intros Hc [Hl Hr]. unfold check_and_set. rewrite shiftr_block, land_blockMask, land_bitMask
    by (try apply Z.div_pos; lia).
  pose proof (Z.mod_pos_bound (c / 64) 128 ltac:(lia)) as Hi.
  pose proof (Z.mod_pos_bound c 64 ltac:(lia)) as Hb.
  rewrite u64_small.
  2: { rewrite Z.shiftl_1_l. split; [lia|]. apply Z.pow_lt_mono_r; lia. }
  change (Z.to_nat ringBlocks) with 128%nat in Hr. unfold bit_of. simpl.
  set (old := ring_get (ring f) ((c / 64) mod 128)).
  split; [done|]. split; [by split; [|simpl; rewrite length_ring_set]|].
  assert (Hset : forall n, 0 <= n -> Z.testbit (Z.lor old (Z.shiftl 1 (c mod 64))) n =
                      Z.testbit old n || (n =? c mod 64)).
  { intros n Hn. by rewrite Z.lor_spec, Z.shiftl_1_l, Z.pow2_bits_eqb, Z.eqb_sym by lia. }
  split; [|split].
  - destruct (Z.testbit old (c mod 64)) eqn:E; destruct (Z.eqb_spec old
      (Z.lor old (Z.shiftl 1 (c mod 64)))) as [Eq|Ne]; auto.
    + exfalso. apply Ne. apply Z.bits_inj'. intros n Hn. rewrite Hset by done.
      destruct (Z.eqb_spec n (c mod 64)) as [->|]; [by rewrite E|by rewrite orb_false_r].
    + rewrite Eq, Hset, Z.eqb_refl, orb_true_r in E by lia. done.
  - rewrite ring_get_set_eq by lia. rewrite Hset by lia. by rewrite Z.eqb_refl, orb_true_r.
  - intros d Hd Hne Hnear.
    destruct (decide (d / 64 = c / 64)) as [E|Hblk].
    + rewrite E, ring_get_set_eq by lia. rewrite Hset by (apply Z.mod_pos_bound; lia).
      fold old. replace (d mod 64 =? c mod 64) with false; [by rewrite orb_false_r|].
      symmetry. apply Z.eqb_neq. rewrite (Z.mod_eq d), (Z.mod_eq c), E by lia. lia.
    + rewrite ring_get_set_ne; [done|lia|apply Z.mod_pos_bound; lia|].
      intros E. apply Hblk. rewrite (Z.div_mod (d / 64) 128), (Z.div_mod (c / 64) 128), E by lia.
      rewrite (Z.mod_eq (c / 64)), (Z.mod_eq (d / 64)) in E by lia. lia.
Qed.

(** ** The step simulation *)

Lemma validate_behind f w c :
  simulates f w -> 0 <= c <= last f -> last f - c <= windowSize ->
  c / 64 <= last f / 64 < c / 64 + 128.
Proof.
  intros _ Hc Hw. change windowSize with 8128 in Hw.
  pose proof (Z.div_le_mono c (last f) 64 ltac:(lia) ltac:(lia)).
  pose proof (Z.div_mod c 64 ltac:(lia)). pose proof (Z.div_mod (last f) 64 ltac:(lia)).
  pose proof (Z.mod_pos_bound c 64 ltac:(lia)).
  pose proof (Z.mod_pos_bound (last f) 64 ltac:(lia)). lia.
Qed.

(** Accepting [c] in both worlds keeps the simulation. *)
Lemma simulates_set f w c :
  simulates f w -> 0 <= c <= last f -> c / 64 <= last f / 64 < c / 64 + 128 ->
  simulates (fst (check_and_set f c)) (mkWindow (w_last w) ({[c]} ∪ w_seen w)) /\
  snd (check_and_set f c) = negb (bool_decide (c ∈ w_seen w)).
Proof.
  intros (Hwf & Hl & Hs & Hb) Hc Hblk.
  pose proof (check_and_set_spec f c ltac:(lia) Hwf) as H.
  destruct (check_and_set f c) as [f' b]. destruct H as (Hl' & Hwf' & -> & Hset & Hother).
  simpl. split; [|by rewrite Hb by lia].
  split; [done|]. simpl. rewrite Hl'. split; [done|].
  split; [intros d [->%elem_of_singleton|Hd]%elem_of_union; [lia|by apply Hs]|].
  intros d Hd Hdb. destruct (decide (d = c)) as [->|Hne].
  - rewrite Hset. symmetry. apply bool_decide_eq_true. by apply elem_of_union_l, elem_of_singleton.
  - rewrite Hother, Hb by lia. apply bool_decide_ext.
    rewrite elem_of_union, elem_of_singleton. tauto.
Qed.

(** Moving the window forward to [c] clears exactly the blocks it enters. *)
Lemma clear_loop_move f c :
  filter_wf f -> last f < c -> is_u64 c ->
  exists r,
    clear_loop clear_fuel (u64 (last f / 64 + 1))
      (u64 (last f / 64 + (if ringBlocks <? u64 (c / 64 - last f / 64) then ringBlocks
                           else u64 (c / 64 - last f / 64)))) (ring f) = Some r /\
    length r = 128%nat /\
    (forall b, last f / 64 < b -> b <= c / 64 < b + 128 -> ring_get r (b mod 128) = 0) /\
    (forall b, 0 <= b <= last f / 64 -> c / 64 < b + 128 ->
       ring_get r (b mod 128) = ring_get (ring f) (b mod 128)).
Proof.
  intros [Hu Hlen] Hlt Hc. unfold is_u64 in *.
  assert (Hblk : last f / 64 <= c / 64) by (apply Z.div_le_mono; lia).
  assert (0 <= last f / 64) by (apply Z.div_pos; lia).
  assert (c / 64 < 2 ^ 58) by (apply Z.div_lt_upper_bound; unfold two64 in *; lia).
  change ringBlocks with 128 in *.
  rewrite (u64_small (c / 64 - last f / 64)) by (unfold two64; lia).
  set (diff := if 128 <? _ then 128 else _).
  assert (Hd : diff = Z.min 128 (c / 64 - last f / 64)).
  { unfold diff. destruct (Z.ltb_spec 128 (c / 64 - last f / 64)); lia. }
  rewrite !u64_small by (unfold two64; lia).
  destruct (clear_loop_spec clear_fuel (last f / 64 + 1) (last f / 64 + diff) (ring f))
    as (r & Hr & Hrl & _ & Hz & Hk);
    [lia|unfold two64; lia|done|unfold clear_fuel; lia|].
  exists r. split; [done|]. split; [done|]. split.
  - intros b Hb1 Hb. destruct (decide (b <= last f / 64 + diff)) as [|Hfar]; [apply Hz; lia|].
    set (k := last f / 64 + 1 + (b - last f / 64 - 1) mod 128).
    pose proof (Z.mod_pos_bound (b - last f / 64 - 1) 128 ltac:(lia)).
    replace (b mod 128) with (k mod 128); [apply Hz; unfold k; lia|].
    unfold k. rewrite Zplus_mod_idemp_r. f_equal. lia.
  - intros b Hb Hnear. apply Hk; [apply Z.mod_pos_bound; lia|]. intros k Hkr E.
    rewrite (Z.mod_eq k), (Z.mod_eq b) in E by lia. lia.
Qed.

Lemma simulates_move f w c r :
  simulates f w -> last f < c -> is_u64 c -> length r = 128%nat ->
  (forall b, last f / 64 < b -> b <= c / 64 < b + 128 -> ring_get r (b mod 128) = 0) ->
  (forall b, 0 <= b <= last f / 64 -> c / 64 < b + 128 ->
     ring_get r (b mod 128) = ring_get (ring f) (b mod 128)) ->
  simulates (mkFilter c r) (mkWindow c (w_seen w)).
Proof.
  intros (_ & Hl & Hs & Hb) Hlt Hc Hlen Hz Hk. split; [by split|]. simpl. split; [done|].
  split; [intros d Hd'; specialize (Hs d Hd'); lia|].
  intros d Hd0 Hdb. unfold bit_of. simpl.
  destruct (decide (d / 64 <= last f / 64)) as [Hold|Hnew].
  - rewrite Hk by (try apply conj; try apply Z.div_pos; lia).
    apply Hb; [lia|]. pose proof (Z.div_le_mono (last f) c 64). lia.
  - rewrite Hz, Z.testbit_0_l by lia. symmetry. apply bool_decide_eq_false.
    intros Hin. apply Hs in Hin. pose proof (Z.div_le_mono d (last f) 64). lia.
Qed.

Lemma ValidateCounter_step f w c limit :
  simulates f w -> is_u64 c ->
  exists f' b, ValidateCounter f c limit = Some (f', b) /\
    simulates f' (fst (spec_validate w c limit)) /\ b = snd (spec_validate w c limit).
Proof.
  intros Hsim Hc. assert (Hl := proj1 (proj2 Hsim)). unfold is_u64 in Hc.
  unfold ValidateCounter, spec_validate. rewrite <- Hl, !shiftr_block.
  destruct (Z.leb_spec limit c); [by exists f, false|].
  destruct (Z.ltb_spec (last f) c) as [Hlt|Hge].
  - destruct (clear_loop_move f c (proj1 Hsim) Hlt Hc) as (r & -> & Hlen & Hz & Hk).
    pose proof (simulates_move f w c r Hsim Hlt Hc Hlen Hz Hk) as Hsim'.
    destruct (simulates_set (mkFilter c r) (mkWindow c (w_seen w)) c Hsim') as [Hs Hb];
      [simpl; lia|simpl; lia|].
    destruct (check_and_set (mkFilter c r) c) as [f' b]. exists f', b. split; [done|].
    split; [done|]. simpl in Hb. rewrite Hb, bool_decide_false; [done|].
    intros Hin. apply (proj1 (proj2 (proj2 Hsim))) in Hin. lia.
  - assert (Hu := proj1 (proj1 Hsim)). unfold is_u64 in Hu.
    rewrite u64_small by lia.
    destruct (Z.ltb_spec windowSize (last f - c)); [by exists f, false|].
    pose proof (validate_behind f w c Hsim ltac:(lia) ltac:(lia)) as Hblk.
    destruct (simulates_set f w c Hsim ltac:(lia) Hblk) as [Hs Hb].
    destruct (check_and_set f c) as [f' b] eqn:E. exists f', b. split; [done|].
    simpl in Hb, Hs. rewrite Hb.
    destruct (bool_decide_reflect (c ∈ w_seen w)) as [Hin|]; simpl; [|by rewrite Hl].
    split; [|done]. replace w with (mkWindow (w_last w) ({[c]} ∪ w_seen w)); [done|].
    destruct w; simpl in *. f_equal. apply subseteq_union_1_L.
    by intros ? ->%elem_of_singleton.
Qed.

(** Any filter that has been reset stands for the empty window, whatever its
    other blocks hold. *)
Lemma simulates_Reset f : length (ring f) = 128%nat -> simulates (Reset f) empty_window.
Proof.
  intros Hlen. split; [split; [done|simpl; by rewrite length_ring_set]|].
  simpl. split; [done|]. split; [set_solver|].
  intros c Hc Hblk. change (0 / 64) with 0 in Hblk.
  assert (c / 64 = 0) as E by (pose proof (Z.div_pos c 64); lia).
  unfold bit_of, Reset. simpl. rewrite E, Z.mod_0_l by lia.
  rewrite ring_get_set_eq, Z.testbit_0_l by lia.
  symmetry. by apply bool_decide_eq_false.
Qed.

Lemma validate_all_refines f w calls :
  simulates f w -> Forall (fun cl => is_u64 cl.1) calls ->
  simulates (fst (validate_all f calls)) (fst (spec_validate_all w calls)) /\
  snd (validate_all f calls) = snd (spec_validate_all w calls).
Proof.
  intros Hs Hc. revert f w Hs. induction Hc as [|[c l] calls Hc _ IH]; intros f w Hs; [done|].
  simpl. unfold validate.
  destruct (ValidateCounter_step f w c l Hs Hc) as (f' & b & -> & Hs' & Hb). simpl.
  destruct (spec_validate w c l) as [w1 b1]. simpl in *.
  destruct (IH f' w1 Hs') as [IH1 IH2].
  destruct (validate_all f' calls), (spec_validate_all w1 calls). simpl in *. by subst.
Qed.

(** In the abstract window, what is accepted was not seen before and is seen
    afterwards. *)
Lemma spec_accepted_fresh w calls :
  (forall c, c ∈ w_seen w -> c <= w_last w) ->
  NoDup (accepted calls (snd (spec_validate_all w calls))) /\
  (forall c, c ∈ accepted calls (snd (spec_validate_all w calls)) -> c ∉ w_seen w).
Proof.
  revert w. induction calls as [|[c l] calls IH]; intros w Hw; simpl.
  { split; [constructor|set_solver]. }
  assert (Hstep : forall w' b, spec_validate w c l = (w', b) ->
    (forall d, d ∈ w_seen w' -> d <= w_last w') /\
    (if b then (c ∉ w_seen w) /\ w_seen w' = {[c]} ∪ w_seen w else w' = w)).
  { intros w' b. unfold spec_validate.
    destruct (l <=? c); [by intros [= <- <-]|].
    destruct (Z.ltb_spec (w_last w) c).
    { intros [= <- <-]. simpl. split; [|split; [|done]].
      - intros d [->%elem_of_singleton|Hd%Hw]%elem_of_union; lia.
      - intros Hd%Hw. lia. }
    destruct (windowSize <? w_last w - c); [by intros [= <- <-]|].
    case_bool_decide; intros [= <- <-]; [done|]. simpl. split; [|done].
    intros d [->%elem_of_singleton|Hd%Hw]%elem_of_union; lia. }
  destruct (spec_validate w c l) as [w1 b] eqn:E.
  destruct (Hstep w1 b eq_refl) as [Hw1 Hb]. specialize (IH w1 Hw1).
  destruct (spec_validate_all w1 calls) as [w2 bs]. simpl in *.
  destruct IH as [IH1 IH2], b; [destruct Hb as [Hnc Heq]|by subst].
  rewrite Heq in IH2. split.
  - constructor; [|done]. intros Hin%IH2. set_solver.
  - intros d [->|Hd%IH2]%elem_of_cons; set_solver.
Qed.

Lemma validate_accepts_once f calls :
  length (ring f) = 128%nat -> Forall (fun cl => is_u64 cl.1) calls ->
  NoDup (accepted calls (snd (validate_all (Reset f) calls))).
Proof.
  intros Hf Hc.
  rewrite (proj2 (validate_all_refines _ _ _ (simulates_Reset f Hf) Hc)).
  apply spec_accepted_fresh. set_solver.
Qed.

(** ** Properties *)

(** C8. [ValidateCounter] refines the abstract window: after a
    [Reset] of any filter (whatever its other blocks hold), every sequence of
    calls gets the answers of the specification, which accepts a counter
    exactly when it is below the limit, not older than the window and not
    accepted before. *)
Theorem ValidateCounter_refines f calls :
  length (ring f) = 128%nat -> Forall (fun cl => is_u64 cl.1) calls ->
  snd (validate_all (Reset f) calls) = snd (spec_validate_all empty_window calls).
Proof. intros Hf Hc. by apply validate_all_refines; [apply simulates_Reset|]. Qed.

Lemma ValidateCounter_refines_witness :
  snd (validate_all (Reset (mkFilter 7 (replicate 128 (-1))))
         [(0, 100); (70, 100); (70, 100); (3, 100); (9000, 10000); (71, 10000); (100, 100)])
  = [true; true; false; true; true; false; false].
Proof.
  rewrite (ValidateCounter_refines (mkFilter 7 (replicate 128 (-1))));
    [vm_compute; reflexivity|reflexivity|].
  repeat (constructor; [by vm_compute|]). constructor.
Defined.

(** No counter is ever accepted twice by one filter: the counters
    answered [true] in any sequence of calls after a [Reset] are distinct. *)
Theorem replay_rejected f calls :
  length (ring f) = 128%nat -> Forall (fun cl => is_u64 cl.1) calls ->
  NoDup (accepted calls (snd (validate_all (Reset f) calls))).
Proof. apply validate_accepts_once. Qed.

Lemma replay_rejected_witness :
  NoDup (accepted [(5, 10); (5, 10); (6, 10); (5, 10)]
           (snd (validate_all (Reset zeroFilter) [(5, 10); (5, 10); (6, 10); (5, 10)]))).
Proof.
  apply (replay_rejected zeroFilter); [reflexivity|].
  repeat (constructor; [by vm_compute|]). constructor.
Defined.

(** The clearing loop of [ValidateCounter] never runs past
    its fuel: on every well-formed filter every call with a uint64 counter
    returns, leaves a well-formed filter, and moves [last] to the greater of
    [last] and the counter unless it refuses the counter outright. *)
Theorem ValidateCounter_total f c limit :
  filter_wf f -> is_u64 c ->
  exists f' b, ValidateCounter f c limit = Some (f', b) /\ filter_wf f' /\
    last f' = (if limit <=? c then last f else Z.max (last f) c).
Proof.
  intros Hwf Hc. unfold ValidateCounter. rewrite !shiftr_block.
  destruct (limit <=? c); [by exists f, false|].
  assert (Hcs : forall g, filter_wf g -> exists f' b,
    Some (check_and_set g c) = Some (f', b) /\ filter_wf f' /\ last f' = last g).
  { intros g Hg. pose proof (check_and_set_spec g c ltac:(unfold is_u64 in Hc; lia) Hg) as H.
    destruct (check_and_set g c) as [f' b]. exists f', b. naive_solver. }
  destruct (Z.ltb_spec (last f) c) as [Hlt|].
  - destruct (clear_loop_move f c Hwf Hlt Hc) as (r & -> & Hlen & _).
    rewrite Z.max_r by lia. by apply (Hcs (mkFilter c r)).
  - rewrite Z.max_l by lia. case_match; [by exists f, false|by apply Hcs].
Qed.

Lemma ValidateCounter_total_witness :
  exists f' b, ValidateCounter zeroFilter (two64 - 1) two64 = Some (f', b) /\ filter_wf f' /\
    last f' = two64 - 1.
Proof.
  apply (ValidateCounter_total zeroFilter (two64 - 1) two64); by vm_compute.
Defined.

End Replay.
