(* ===== verification/Tai64n.v ===== *)
(** TAI64N timestamps, internal/tai64n/tai64n.go: 12 big-endian bytes, whitened to
    about 16 ms, compared as byte strings. *)
From S2P Require Import Prelude.
From stdpp Require Import prelude list.
Open Scope Z_scope.

Module Tai64n.

Definition TimestampSize : nat := 12.
Definition base : Z := 0x400000000000000a.
Definition whitenerMask : Z := 0x1000000 - 1.

(** [type Timestamp [TimestampSize]byte]. *)
Abbreviation Timestamp := bytes (only parsing).
Definition zeroTimestamp : Timestamp := zero_bytes TimestampSize.

(** [x &^ m] on uint32. *)
Definition and_not (x m : Z) : Z := Z.ldiff x m.

Definition stamp (t : Time) : Timestamp :=
  let secs := u64 (base + u64 (time_Unix t)) in
  let nano := and_not (u32 (time_Nanosecond t)) whitenerMask in
  be_put 8 secs ++ be_put 4 nano.

(** [bytes.Compare]: the lexicographic order. *)
Fixpoint bytes_compare (a b : bytes) : comparison :=
  match a, b with
  | [], [] => Eq
  | [], _ :: _ => Lt
  | _ :: _, [] => Gt
  | x :: a, y :: b =>
      match Z.compare (Z_of_byte x) (Z_of_byte y) with
      | Eq => bytes_compare a b
      | c => c
      end
  end.

Definition After (t1 t2 : Timestamp) : bool :=
  match bytes_compare t1 t2 with Gt => true | _ => false end.

(** The instant [String] prints:
    [time.Unix(int64(Uint64(t[:8])-base), int64(Uint32(t[8:12])))]. *)
Definition time_of (t : Timestamp) : Time :=
  i64 (u64 (be_get (slice 0 8 t) - base)) * Second + be_get (slice 8 12 t).

(** The whitened instant: nanoseconds rounded down to a multiple of 2^24. *)
Definition whiten (t : Time) : Time :=
  time_Unix t * Second + time_Nanosecond t / 2 ^ 24 * 2 ^ 24.

(** The instants of the next 2^61 seconds around the epoch, for which the
    64-bit label of the second does not wrap. *)
Definition in_range (t : Time) : Prop := - 2 ^ 61 <= time_Unix t < 2 ^ 61.

(** ** Lemmas *)

Lemma be_get_cons x l : be_get (x :: l) = Z_of_byte x * 256 ^ Z.of_nat (length l) + be_get l.
Proof.
  unfold be_get. simpl. generalize (rev l) (length_rev l). intros r Hr.
  rewrite <- Hr. clear Hr. induction r as [|y r IH]; simpl.
  { rewrite le_get_cons. unfold le_get. lia. }
  rewrite !le_get_cons, IH. rewrite Nat2Z.inj_succ, Z.pow_succ_r by lia. lia.
Qed.

Lemma be_get_bound l : 0 <= be_get l < 256 ^ Z.of_nat (length l).
Proof. unfold be_get. rewrite <- length_rev. apply le_get_bound. Qed.

(** Byte strings of one length compare as the numbers they denote. *)
Lemma bytes_compare_be a b :
  length a = length b -> bytes_compare a b = Z.compare (be_get a) (be_get b).
Proof.
  revert b; induction a as [|x a IH]; intros [|y b]; try done.
  intros [= Hl]. rewrite !be_get_cons, Hl. simpl.
  pose proof (be_get_bound a). pose proof (be_get_bound b). rewrite Hl in *.
  pose proof (Z_of_byte_range x). pose proof (Z_of_byte_range y).
  set (B := 256 ^ Z.of_nat (length b)) in *.
  destruct (Z.compare_spec (Z_of_byte x) (Z_of_byte y)) as [E|L|G].
  - rewrite E, IH by done. by rewrite Z.add_compare_mono_l.
  - symmetry. apply Z.compare_lt_iff. nia.
  - symmetry. apply Z.compare_gt_iff. nia.
Qed.

Lemma be_get_app a b :
  be_get (a ++ b) = be_get a * 256 ^ Z.of_nat (length b) + be_get b.
Proof.
  induction a as [|x a IH]; simpl; [done|].
  rewrite !be_get_cons, IH, length_app, Nat2Z.inj_add, Z.pow_add_r by lia. lia.
Qed.

Lemma length_stamp t : length (stamp t) = TimestampSize.
Proof. unfold stamp. by autorewrite with bytes. Qed.

Lemma nanosecond_bound t : 0 <= time_Nanosecond t < Second.
Proof. apply Z.mod_pos_bound. done. Qed.

Lemma and_not_whitener n :
  0 <= n < 2 ^ 32 -> and_not n whitenerMask = n / 2 ^ 24 * 2 ^ 24.
Proof.
  intros Hn. unfold and_not. change whitenerMask with (Z.ones 24).
  by rewrite Z.ldiff_ones_r, Z.shiftr_div_pow2, Z.shiftl_mul_pow2 by lia.
Qed.

Lemma nano_white t :
  and_not (u32 (time_Nanosecond t)) whitenerMask = time_Nanosecond t / 2 ^ 24 * 2 ^ 24.
Proof.
  pose proof (nanosecond_bound t) as H. change Second with 1000000000 in H.
  rewrite u32_small by lia. apply and_not_whitener. lia.
Qed.

(** The number a stamp denotes. *)
Lemma be_get_stamp t :
  in_range t ->
  be_get (stamp t) = (base + time_Unix t) * 2 ^ 32 + time_Nanosecond t / 2 ^ 24 * 2 ^ 24.
Proof.
  intros Hr. unfold in_range in Hr. unfold stamp.
  pose proof (nanosecond_bound t) as H. change Second with 1000000000 in H.
  rewrite be_get_app, !be_get_put, length_be_put, nano_white.
  unfold u64. rewrite Zplus_mod_idemp_r.
  change (256 ^ Z.of_nat 8) with (2 ^ 64). change (256 ^ Z.of_nat 4) with (2 ^ 32).
  unfold two64. rewrite Z.mod_mod by lia.
  rewrite (Z.mod_small (base + time_Unix t)) by (unfold base; lia).
  rewrite Z.mod_small; [done|].
  change (2 ^ 24) with 16777216. change (2 ^ 32) with 4294967296. lia_div.
Qed.

Lemma whiten_order t1 t2 :
  in_range t1 -> in_range t2 ->
  (whiten t2 < whiten t1 <-> be_get (stamp t2) < be_get (stamp t1)).
Proof.
  intros H1 H2. rewrite !be_get_stamp by done. unfold whiten.
  pose proof (nanosecond_bound t1) as N1. pose proof (nanosecond_bound t2) as N2.
  revert N1 N2. change Second with 1000000000. change (2 ^ 24) with 16777216.
  change (2 ^ 32) with 4294967296. intros. clear H1 H2.
  generalize dependent (time_Nanosecond t1). generalize dependent (time_Nanosecond t2).
  generalize (time_Unix t1) (time_Unix t2). intros. lia_div.
Qed.

Lemma whiten_mono t1 t2 : t1 <= t2 -> whiten t1 <= whiten t2.
Proof.
  intros H. unfold whiten, time_Unix, time_Nanosecond, Second in *.
  pose proof (Z.div_mod t1 1000000000). pose proof (Z.div_mod t2 1000000000).
  change (2 ^ 24) with 16777216. lia_div.
Qed.

Lemma After_number t1 t2 :
  length t1 = length t2 -> After t1 t2 = (be_get t2 <? be_get t1).
Proof.
  intros Hl. unfold After. rewrite bytes_compare_be by done.
  destruct (Z.compare_spec (be_get t1) (be_get t2)); symmetry;
    [apply Z.ltb_ge|apply Z.ltb_ge|apply Z.ltb_lt]; lia.
Qed.

Lemma After_irrefl t : After t t = false.
Proof. rewrite After_number by done. apply Z.ltb_irrefl. Qed.

Lemma After_trans t1 t2 t3 :
  length t1 = TimestampSize -> length t2 = TimestampSize -> length t3 = TimestampSize ->
  After t1 t2 = true -> After t2 t3 = true -> After t1 t3 = true.
Proof. intros. rewrite After_number in *; try congruence. lia. Qed.

(** ** Properties *)

(** Comparing two stamps as byte strings is comparing the
    whitened instants: [After] of the stamp of [t1] over that of [t2] holds
    exactly when [t1] is later than [t2] at the granularity of 2^24 ns; a clock
    that does not go back never produces an earlier stamp. *)
Theorem After_stamp_order t1 t2 :
  in_range t1 -> in_range t2 ->
  (After (stamp t1) (stamp t2) = true <-> whiten t2 < whiten t1) /\
  (t1 <= t2 -> After (stamp t1) (stamp t2) = false).
Proof.
  intros H1 H2. rewrite After_number by by rewrite !length_stamp.
  pose proof (whiten_order t1 t2 H1 H2). split; [rewrite Z.ltb_lt; tauto|].
  intros Hle%whiten_mono. apply Z.ltb_ge. lia.
Qed.

Lemma After_stamp_order_witness :
  After (stamp (1700000000 * Second + 2 ^ 24)) (stamp (1700000000 * Second)) = true.
Proof.
  apply (After_stamp_order (1700000000 * Second + 2 ^ 24) (1700000000 * Second));
    by vm_compute.
Defined.

(** The instant printed for a stamp is the stamped instant
    with its nanoseconds rounded down to a multiple of 2^24: the second is
    exact and less than 17 ms are lost. *)
Theorem stamp_time_roundtrip t :
  in_range t ->
  time_of (stamp t) = whiten t /\ 0 <= t - time_of (stamp t) < 2 ^ 24.
Proof.
  intros Hr. assert (E : time_of (stamp t) = whiten t).
  { unfold time_of, stamp. rewrite slice_app_l by by rewrite length_be_put.
    rewrite slice_app_r by (rewrite length_be_put; lia). rewrite length_be_put.
    rewrite slice_all by by rewrite length_be_put.
    rewrite !be_get_put, nano_white. unfold in_range in Hr.
    pose proof (nanosecond_bound t) as H. change Second with 1000000000 in H.
    change (256 ^ Z.of_nat 8) with two64. change (256 ^ Z.of_nat 4) with (2 ^ 32).
    unfold u64. rewrite Zplus_mod_idemp_r, Z.mod_mod by done.
    rewrite Zminus_mod_idemp_l. replace (base + time_Unix t - base) with (time_Unix t) by lia.
    unfold i64. rewrite Zplus_mod_idemp_l. fold (u64 (time_Unix t + 2 ^ 63)).
    rewrite u64_small by (unfold two64; lia). unfold whiten.
    rewrite Z.mod_small by (change (2 ^ 24) with 16777216; lia_div). f_equal. lia. }
  split; [done|]. rewrite E. unfold whiten, time_Unix, time_Nanosecond.
  pose proof (Z.div_mod t Second ltac:(done)). change (2 ^ 24) with 16777216. lia_div.
Qed.

Lemma stamp_time_roundtrip_witness :
  time_of (stamp (1700000000 * Second + 123456789)) = whiten (1700000000 * Second + 123456789).
Proof. by apply (stamp_time_roundtrip (1700000000 * Second + 123456789)). Defined.

End Tai64n.
