(* ===== verification/RateLimiter.v ===== *)
(** The token-bucket limiter of internal/ratelimiter/ratelimiter.go: one bucket
    per source address, refilled at one token per nanosecond, and the
    garbage-collection routine that forgets idle sources. *)
From S2P Require Import Prelude.
From stdpp Require Import prelude gmap list strings.
Open Scope Z_scope.

Module RateLimiter.

Definition packetsPerSecond : Z := 20.
Definition packetsBurstable : Z := 5.
Definition garbageCollectTime : Duration := Second.
Definition packetCost : Z := 1000000000 / packetsPerSecond.
Definition maxTokens : Z := packetCost * packetsBurstable.

Record RatelimiterEntry := mkEntry { lastTime : Time; tokens : Z }.

(** The collector of a limiter: [GcNone] before [Init] ([stopReset] and [table]
    nil), [GcRunning ticking] while its goroutine runs ([ticking]: the ticker is
    started), [GcClosed] once [stopReset] is closed. *)
Inductive Collector := GcNone | GcRunning (ticking : bool) | GcClosed.

Record Ratelimiter := mkRate { collector : Collector; table : gmap Addr RatelimiterEntry }.

Definition zeroRatelimiter : Ratelimiter := mkRate GcNone ∅.

(** [Init]: a fresh table and a collector whose ticker is stopped (a collector
    that was running is told to return); after a [Close] it panics. *)
Definition Init (rate : Ratelimiter) : option Ratelimiter :=
  match collector rate with
  | GcClosed => None
  | GcNone | GcRunning _ => Some (mkRate (GcRunning false) ∅)
  end.

(** [Close]; closing [stopReset] twice panics. *)
Definition Close (rate : Ratelimiter) : option Ratelimiter :=
  match collector rate with
  | GcNone => Some rate
  | GcRunning _ => Some (mkRate GcClosed (table rate))
  | GcClosed => None
  end.

(** [cleanup]; [now k] is what [timeNow] answers while the entry of [k] is
    visited. *)
Definition cleanup (rate : Ratelimiter) (now : Addr -> Time) : Ratelimiter * bool :=
  let t := filter (fun kv : Addr * RatelimiterEntry =>
                     ~ garbageCollectTime < time_Sub (now kv.1) (lastTime kv.2)) (table rate) in
  (mkRate (collector rate) t, bool_decide (size t = 0%nat)).

(** The collector's branches [case _, ok := <-stopReset] (with [ok]: a reset)
    and [case <-ticker.C]. *)
Definition gc_reset (rate : Ratelimiter) : option Ratelimiter :=
  match collector rate with
  | GcRunning _ => Some (mkRate (GcRunning true) (table rate))
  | GcNone | GcClosed => None
  end.
Definition gc_tick (rate : Ratelimiter) (now : Addr -> Time) : Ratelimiter :=
  match collector rate with
  | GcRunning true =>
      let '(rate, empty) := cleanup rate now in
      mkRate (GcRunning (negb empty)) (table rate)
  | _ => rate
  end.

(** [Allow]; [None] is a panic (a nil table, or a send on a closed channel).
    Each path reads the clock once: [now]. *)
Definition Allow (rate : Ratelimiter) (ip : Addr) (now : Time) : option (Ratelimiter * bool) :=
  match table rate !! ip with
  | None =>
      let entry := mkEntry now (maxTokens - packetCost) in
      match collector rate with
      | GcNone => None
      | _ =>
          let rate := mkRate (collector rate) (<[ip := entry]> (table rate)) in
          if bool_decide (size (table rate) = 1%nat)
          then option_map (fun r => (r, true)) (gc_reset rate)
          else Some (rate, true)
      end
  | Some entry =>
      let tk := i64 (tokens entry + time_Sub now (lastTime entry)) in
      let tk := if maxTokens <? tk then maxTokens else tk in
      if packetCost <? tk
      then Some (mkRate (collector rate) (<[ip := mkEntry now (tk - packetCost)]> (table rate)), true)
      else Some (mkRate (collector rate) (<[ip := mkEntry now tk]> (table rate)), false)
  end.

(** ** Runs: calls of [Allow] and ticks of the collector, in time order *)

Inductive Event :=
| EvAllow (ip : Addr) (now : Time)
| EvTick (now : Addr -> Time).

(** The run of a list of events; the answers of [Allow] for [ip] are counted. *)
Fixpoint run (ip : Addr) (rate : Ratelimiter) (evs : list Event) : option (Ratelimiter * Z) :=
  match evs with
  | [] => Some (rate, 0)
  | EvAllow a now :: evs =>
      match Allow rate a now with
      | None => None
      | Some (rate, ok) =>
          match run ip rate evs with
          | None => None
          | Some (rate, n) => Some (rate, n + (if bool_decide (a = ip) && ok then 1 else 0))
          end
      end
  | EvTick now :: evs => run ip (gc_tick rate now) evs
  end.

(** [timed t evs u]: the clock goes from [t] to [u] without going back. *)
Inductive timed : Time -> list Event -> Time -> Prop :=
| timed_nil t : timed t [] t
| timed_allow t ip now evs u : t <= now -> timed now evs u -> timed t (EvAllow ip now :: evs) u
| timed_tick t now t' evs u :
    t <= t' -> (forall k, t <= now k <= t') -> timed t' evs u -> timed t (EvTick now :: evs) u.

(** ** Invariants *)

(** Every bucket is within its bounds and was filled between [t0] and [t]. *)
Definition entry_ok (t0 t : Time) (e : RatelimiterEntry) : Prop :=
  0 <= tokens e <= maxTokens /\ t0 <= lastTime e <= t.
Definition rate_ok (t0 t : Time) (rate : Ratelimiter) : Prop :=
  (exists b, collector rate = GcRunning b) /\
  (table rate <> ∅ -> collector rate = GcRunning true) /\
  map_Forall (fun _ => entry_ok t0 t) (table rate).

(** The times of a run of up to 2^62 ns (146 years): [Sub] is exact and the
    int64 sum of tokens does not wrap. *)
Definition horizon : Duration := 2 ^ 62.

(** The credit of a source at [t]: the tokens it would have if it were refilled
    at [t]; an unknown source has a full bucket. *)
Definition credit (rate : Ratelimiter) (ip : Addr) (t : Time) : Z :=
  match table rate !! ip with
  | None => maxTokens
  | Some e => Z.min maxTokens (tokens e + (t - lastTime e))
  end.

(** ** Lemmas *)

Lemma refill_exact t0 t e now :
  entry_ok t0 t e -> t <= now -> now <= t0 + horizon ->
  i64 (tokens e + time_Sub now (lastTime e)) = tokens e + (now - lastTime e).
Proof.
  intros [Ht Hl] H1 H2. unfold horizon, maxTokens, packetCost, packetsPerSecond,
    packetsBurstable in *. change (1000000000 / 20) with 50000000 in *.
  rewrite time_Sub_exact by (unfold minInt64, maxInt64; lia).
  apply i64_small. unfold minInt64, maxInt64; lia.
Qed.

Lemma entry_ok_mono t0 t t' e : t <= t' -> entry_ok t0 t e -> entry_ok t0 t' e.
Proof. unfold entry_ok. lia. Qed.

Lemma rate_ok_mono t0 t t' rate : t <= t' -> rate_ok t0 t rate -> rate_ok t0 t' rate.
Proof.
  intros Hle (Hc & Ht & He). split; [done|]. split; [done|].
  eapply map_Forall_impl; [exact He|]. intros k e. by apply entry_ok_mono.
Qed.

Lemma rate_ok_insert t0 t b tb ip e :
  map_Forall (fun _ => entry_ok t0 t) tb -> entry_ok t0 t e -> b = true ->
  rate_ok t0 t (mkRate (GcRunning b) (<[ip := e]> tb)).
Proof.
  intros Hf He ->. split; [by eexists|]. split; [done|]. by apply map_Forall_insert_2.
Qed.

(** What [Allow] does, on every branch, for a limiter in order. *)
Lemma Allow_spec t0 t rate ip now :
  rate_ok t0 t rate -> t0 <= t <= now -> now <= t0 + horizon ->
  exists rate' ok, Allow rate ip now = Some (rate', ok) /\
    ok = (packetCost <? credit rate ip now) /\
    table rate' = <[ip := mkEntry now (credit rate ip now - if ok then packetCost else 0)]> (table rate) /\
    rate_ok t0 now rate'.
Proof.
  intros ([b Hb] & Ht & Hf) H1 H2. unfold Allow, credit.
  assert (Hf' : map_Forall (fun _ => entry_ok t0 now) (table rate)).
  { eapply map_Forall_impl; [exact Hf|]. intros k e. apply entry_ok_mono. lia. }
  destruct (table rate !! ip) as [e|] eqn:E.
  - assert (He := Hf ip e E). simpl in He.
    rewrite (refill_exact t0 t e now) by (done || lia).
    assert (Hb' : b = true).
    { assert (collector rate = GcRunning true) as Hc; [|congruence].
      apply Ht. intros Hempty. by rewrite Hempty, lookup_empty in E. }
    assert (Hmin : (if maxTokens <? tokens e + (now - lastTime e) then maxTokens
                    else tokens e + (now - lastTime e)) =
                   Z.min maxTokens (tokens e + (now - lastTime e))).
    { destruct (Z.ltb_spec maxTokens (tokens e + (now - lastTime e))); lia. }
    rewrite Hmin, Hb, Hb'. set (tk := Z.min _ _).
    assert (0 <= tk <= maxTokens) by (unfold tk, entry_ok in *; lia).
    destruct (Z.ltb_spec packetCost tk); (eexists _, _; split; [done|]; split; [done|]).
    + split; [done|]. apply rate_ok_insert; [done| |done].
      change packetCost with 50000000 in *. unfold entry_ok; simpl; lia.
    + split; [by rewrite Z.sub_0_r|]. apply rate_ok_insert; [done| |done].
      unfold entry_ok; simpl; lia.
  - rewrite Hb. simpl. change (packetCost <? maxTokens) with true.
    assert (He : entry_ok t0 now (mkEntry now (maxTokens - packetCost))).
    { split; simpl; [by vm_compute|lia]. }
    case_bool_decide as Hsz; simpl; (eexists _, _; split; [done|]; split; [done|]; split; [done|]).
    + by apply rate_ok_insert.
    + apply rate_ok_insert; [done|done|].
      assert (collector rate = GcRunning true) as Hc; [|congruence].
      apply Ht. intros Hempty. apply Hsz. rewrite map_size_insert_None, Hempty by done. by rewrite map_size_empty.
Qed.

Lemma cleanup_lookup rate now ip :
  table (fst (cleanup rate now)) !! ip =
  match table rate !! ip with
  | Some e => if bool_decide (garbageCollectTime < time_Sub (now ip) (lastTime e))
              then None else Some e
  | None => None
  end.
Proof.
  simpl. destruct (table rate !! ip) as [e|] eqn:E.
  - case_bool_decide as Hd.
    + apply map_lookup_filter_None. right. intros e' He'. simplify_eq. simpl. tauto.
    + apply map_lookup_filter_Some. done.
  - apply map_lookup_filter_None. by left.
Qed.

(** Forgetting an idle source does not change its credit. *)
Lemma credit_cleanup t0 t rate now ip t' :
  rate_ok t0 t rate -> t <= now ip <= t' -> t' <= t0 + horizon ->
  credit (fst (cleanup rate now)) ip t' = credit rate ip t'.
Proof.
  intros (_ & _ & Hf) Hn Ht'. unfold credit. rewrite cleanup_lookup.
  destruct (table rate !! ip) as [e|] eqn:E; [|done].
  assert (He := Hf ip e E). simpl in He. unfold entry_ok in He.
  case_bool_decide as Hd; [|done].
  rewrite time_Sub_exact in Hd
    by (unfold minInt64, maxInt64, horizon in *; lia).
  change maxTokens with 250000000 in *. unfold garbageCollectTime, Second in Hd. lia.
Qed.

Lemma rate_ok_tick t0 t t' rate now :
  rate_ok t0 t rate -> t <= t' -> rate_ok t0 t' (gc_tick rate now).
Proof.
  intros Hok Hle. unfold gc_tick.
  destruct (collector rate) as [|[]|] eqn:E; try (by eapply rate_ok_mono).
  simpl. split; [by eexists|]. simpl. split.
  - intros Hne. rewrite bool_decide_false; [done|]. by rewrite map_size_empty_iff.
  - intros k e [He _]%map_lookup_filter_Some. eapply entry_ok_mono; [done|].
    by apply (proj2 (proj2 Hok) k).
Qed.

Lemma credit_tick t0 t rate now ip t' :
  rate_ok t0 t rate -> t <= now ip <= t' -> t' <= t0 + horizon ->
  credit (gc_tick rate now) ip t' = credit rate ip t'.
Proof.
  intros Hok Hn Ht'. rewrite <- (credit_cleanup t0 t rate now ip t') by done.
  unfold gc_tick. destruct (collector rate) as [|[]|] eqn:E; [|done| |];
    rewrite (credit_cleanup t0 t) by done; done.
Qed.

Lemma credit_mono t0 t rate ip t1 t2 :
  rate_ok t0 t rate -> t1 <= t2 -> credit rate ip t2 <= credit rate ip t1 + (t2 - t1).
Proof. intros _ H. unfold credit. case_match; lia. Qed.

Lemma credit_bounds t0 t rate ip t' :
  rate_ok t0 t rate -> t <= t' -> 0 <= credit rate ip t' <= maxTokens.
Proof.
  intros (_ & _ & Hf) H. unfold credit. destruct (table rate !! ip) as [e|] eqn:E.
  - assert (He := Hf ip e E). unfold entry_ok in He. simpl in He. lia.
  - by vm_compute.
Qed.

(** The bucket pays for what it lets through. *)
Lemma run_pays t0 t u rate ip evs :
  timed t evs u -> rate_ok t0 t rate -> t0 <= t -> u <= t0 + horizon ->
  exists rate' n, run ip rate evs = Some (rate', n) /\ rate_ok t0 u rate' /\
    n * packetCost + credit rate' ip u <= credit rate ip t + (u - t).
Proof.
  intros Ht. revert rate.
  induction Ht as [t|t a now evs u Hle Ht IH|t now t' evs u Hle Hn Ht IH];
    intros rate Hok Ht0 Hu; simpl.
  - exists rate, 0. split; [done|]. split; [done|]. lia.
  - assert (now <= u) by (clear -Ht; induction Ht; lia).
    destruct (Allow_spec t0 t rate a now Hok) as (rate1 & ok & -> & Hk & Htb & Hok1); [lia|lia|].
    destruct (IH rate1 Hok1 ltac:(lia) Hu) as (rate2 & n & -> & Hok2 & Hpay).
    eexists rate2, _. split; [done|]. split; [done|].
    pose proof (credit_mono t0 t rate ip t now Hok Hle).
    assert (credit rate1 ip now =
            credit rate ip now - (if bool_decide (a = ip) && ok then packetCost else 0)) as Hc.
    { pose proof (credit_bounds t0 t rate ip now Hok Hle) as Hb.
      unfold credit at 1. rewrite Htb. case_bool_decide as Ha; simpl.
      - subst a. rewrite lookup_insert_eq. simpl.
        destruct ok; change packetCost with 50000000 in *; lia.
      - rewrite lookup_insert_ne by done. fold (credit rate ip now). lia. }
    destruct (bool_decide (a = ip) && ok); lia.
  - assert (t' <= u) by (clear -Ht; induction Ht; lia).
    destruct (IH (gc_tick rate now)) as (rate2 & n & -> & Hok2 & Hpay);
      [by eapply rate_ok_tick|lia|lia|].
    eexists _, _. split; [done|]. split; [done|].
    rewrite (credit_tick t0 t) in Hpay by (done || lia).
    pose proof (credit_mono t0 t rate ip t t' Hok Hle). lia.
Qed.

(** ** Properties *)



(** C28. Collecting idle entries is invisible: after a collection, a
    later [Allow] of any source gets the same answer, leaves the same bucket for
    that source, as if the collection had not run. *)
Theorem cleanup_transparent t0 t rate clock ip now :
  rate_ok t0 t rate -> t0 <= t -> (forall k, t <= clock k <= now) -> now <= t0 + horizon ->
  exists r1 r2 ok, Allow (gc_tick rate clock) ip now = Some (r1, ok) /\
    Allow rate ip now = Some (r2, ok) /\ table r1 !! ip = table r2 !! ip.
Proof.
  intros Hok H0 Hc Hn. pose proof (Hc ip) as Hip.
  destruct (Allow_spec t0 t rate ip now Hok) as (r2 & ok & E & -> & Ht2 & _); [lia|lia|].
  destruct (Allow_spec t0 now (gc_tick rate clock) ip now) as (r1 & ok & E' & -> & Ht1 & _);
    [eapply rate_ok_tick; [exact Hok|lia]|lia|lia|].
  rewrite (credit_tick t0 t) in * by (done || lia).
  exists r1, r2, (packetCost <? credit rate ip now). split; [done|]. split; [done|].
  by rewrite Ht1, Ht2, !lookup_insert_eq.
Qed.

Definition idle_rate : Ratelimiter :=
  mkRate (GcRunning true) {[ Addr4 [] := mkEntry 0 3; Addr6 [] String.EmptyString := mkEntry 900 7 ]}.

Lemma cleanup_transparent_witness :
  exists r1 r2 ok, Allow (gc_tick idle_rate (fun _ => 2 * Second)) (Addr4 []) (2 * Second) = Some (r1, ok) /\
    Allow idle_rate (Addr4 []) (2 * Second) = Some (r2, ok) /\
    table r1 !! Addr4 [] = table r2 !! Addr4 [].
Proof.
  apply (cleanup_transparent 0 1000); [|lia|intros; by vm_compute|by vm_compute].
  split; [by eexists|]. split; [done|].
  intros k e Hk. unfold idle_rate in Hk. simpl in Hk.
  apply lookup_insert_Some in Hk as [[<- <-]|[_ Hk]]; [by vm_compute|].
  apply lookup_singleton_Some in Hk as [<- <-]. by vm_compute.
Defined.

(** A source that leaves more than [packetCost] nanoseconds
    (50 ms) since its last call is always let through, and the state stays in
    order. *)
Theorem slow_source_never_limited t0 t rate ip now :
  rate_ok t0 t rate -> t0 <= t <= now -> now <= t0 + horizon ->
  (forall e, table rate !! ip = Some e -> packetCost < now - lastTime e) ->
  exists rate', Allow rate ip now = Some (rate', true) /\ rate_ok t0 now rate'.
Proof.
  intros Hok Ht Hn Hslow.
  destruct (Allow_spec t0 t rate ip now Hok Ht Hn) as (r & ok & -> & -> & _ & Hok').
  exists r. split; [|done]. do 2 f_equal. apply Z.ltb_lt. unfold credit.
  destruct (table rate !! ip) as [e|] eqn:E; [|by vm_compute].
  specialize (Hslow e eq_refl). destruct Hok as (_ & _ & Hf).
  assert (He := Hf ip e E). destruct He as [Htk _].
  assert (packetCost < maxTokens) by by vm_compute. lia.
Qed.

Lemma slow_source_never_limited_witness :
  exists rate', Allow idle_rate (Addr4 []) 60000000 = Some (rate', true) /\
    rate_ok 0 60000000 rate'.
Proof.
  apply (slow_source_never_limited 0 1000).
  - split; [by eexists|]. split; [done|].
    intros k e Hk. unfold idle_rate in Hk. simpl in Hk.
    apply lookup_insert_Some in Hk as [[<- <-]|[_ Hk]]; [by vm_compute|].
    apply lookup_singleton_Some in Hk as [<- <-]. by vm_compute.
  - lia.
  - by vm_compute.
  - intros e [= <-]. by vm_compute.
Defined.

End RateLimiter.
