(* ===== verification/Env.v ===== *)
(** The environment the code reads: the clock ([time.Now]), the system's random
    bytes ([crypto/rand.Read]) and [runtime.fastrandn], as oracles with a
    position.  Every read of the source is one read here, in the order of the
    source. *)
From S2P Require Import Prelude.
From stdpp Require Import prelude list.
Open Scope Z_scope.

Module Env.

(** [rng i] is the [i]-th call of [rand.Read]: what the buffer holds afterwards
    and whether the call failed (the buffer is arbitrary then). *)
Record Env := mkEnv {
  clock : nat -> Time;
  ticks : nat;
  rng : nat -> (nat -> Byte.byte) * bool;
  draws : nat;
  fast : nat -> Z;
  fasts : nat;
}.

Definition time_Now : M Env Time := fun e =>
  (mkEnv (clock e) (S (ticks e)) (rng e) (draws e) (fast e) (fasts e), clock e (ticks e)).

(** [time.Since(t)]. *)
Definition time_Since (t : Time) : M Env Duration :=
  let* now := time_Now in ret (time_Sub now t).

(** [rand.Read(buf[:n])]: the bytes of the buffer and whether there was an error. *)
Definition rand_Read (n : nat) : M Env (bytes * bool) := fun e =>
  let '(f, failed) := rng e (draws e) in
  (mkEnv (clock e) (ticks e) (rng e) (S (draws e)) (fast e) (fasts e),
   (map f (List.seq 0 n), failed)).

(** [fastrandn(n)]: a number below [n]. *)
Definition fastrandn (n : Z) : M Env Z := fun e =>
  (mkEnv (clock e) (ticks e) (rng e) (draws e) (fast e) (S (fasts e)), fast e (fasts e) mod n).

(** An environment for the concrete runs: a clock that advances by 1 ms at
    every read from [t], random bytes that depend on the draw and the position,
    no failure. *)
Definition demo_env (t : Time) (seed : Z) : Env :=
  mkEnv (fun i => t + Z.of_nat i * Millisecond) 0
        (fun i => (fun k => byte_of_Z (seed + 17 * Z.of_nat i + 5 * Z.of_nat k), false)) 0
        (fun i => Z.of_nat i) 0.

Lemma length_rand_Read n e : length (fst (snd (rand_Read n e))) = n.
Proof.
  unfold rand_Read. destruct (rng e (draws e)). simpl. by rewrite length_map, length_seq.
Qed.

(** The system's random source works and no draw of four bytes is zero. *)
Definition good_rng (r : nat -> (nat -> Byte.byte) * bool) : Prop :=
  forall i, snd (r i) = false /\ le_get (map (fst (r i)) (List.seq 0 4)) <> 0.

(** Reading the environment moves positions only; the source of random bytes
    stays the same. *)
Definition keeps_rng {A} (m : M Env A) : Prop := forall e, rng (fst (m e)) = rng e.

Lemma keeps_ret {A} (a : A) : keeps_rng (ret a).
Proof. done. Qed.
Lemma keeps_bind {A D} (m : M Env A) (k : A -> M Env D) :
  keeps_rng m -> (forall a, keeps_rng (k a)) -> keeps_rng (bind m k).
Proof.
  intros Hm Hk e. unfold bind. specialize (Hm e). destruct (m e) as [e' a]. simpl in *.
  by rewrite Hk, Hm.
Qed.
Lemma keeps_Now : keeps_rng time_Now.
Proof. done. Qed.
Lemma keeps_Since t : keeps_rng (time_Since t).
Proof. done. Qed.
Lemma keeps_Read n : keeps_rng (rand_Read n).
Proof. intros e. unfold rand_Read. by destruct (rng e (draws e)). Qed.
Lemma keeps_fastrandn n : keeps_rng (fastrandn n).
Proof. done. Qed.

#[export] Hint Resolve keeps_ret keeps_Now keeps_Since keeps_Read keeps_fastrandn : preserves.

End Env.

(** Walks a reader of the environment. *)
Ltac keeps_tac :=
  repeat ((apply Env.keeps_bind; [|intros ?]) || case_match); auto with preserves.
