(* ===== verification/Text.v ===== *)
(** Text forms: what the program uses of Go's encoding/base64, strconv, net and
    net/netip, and the text form of keys (internal/transport/noise_types.go).

    A Go string is a sequence of bytes; here it is a [string]. *)
From S2P Require Import Prelude.
From stdpp Require Import prelude list strings.
From Stdlib Require Import Ascii.
Open Scope Z_scope.

Module Text.

(** The code of a character. *)
Definition code (c : ascii) : Z := Z.of_N (N_of_ascii c).
Definition chr (z : Z) : ascii := ascii_of_N (Z.to_N z).

Lemma code_chr z : 0 <= z < 256 -> code (chr z) = z.
Proof. intros H. unfold code, chr. rewrite N_ascii_embedding; lia. Qed.

Definition between (a b : ascii) (c : ascii) : bool := (code a <=? code c) && (code c <=? code b).

(** ** encoding/base64, StdEncoding *)

(** The character of a 6-bit value and back. *)
Definition encode6 (v : Z) : ascii :=
  if v <? 26 then chr (code "A" + v)
  else if v <? 52 then chr (code "a" + (v - 26))
  else if v <? 62 then chr (code "0" + (v - 52))
  else if v =? 62 then "+"%char else "/"%char.

Definition decode6 (c : ascii) : option Z :=
  if between "A" "Z" c then Some (code c - code "A")
  else if between "a" "z" c then Some (code c - code "a" + 26)
  else if between "0" "9" c then Some (code c - code "0" + 52)
  else if Ascii.eqb c "+" then Some 62
  else if Ascii.eqb c "/" then Some 63
  else None.

(** Three bytes are four characters; the last one or two bytes are padded. *)
Fixpoint EncodeToString (src : bytes) : string :=
  match src with
  | [] => EmptyString
  | [b0] =>
      let val := Z_of_byte b0 * 2 ^ 16 in
      String (encode6 (val / 2 ^ 18)) (String (encode6 (val / 2 ^ 12 mod 64)) "==")
  | [b0; b1] =>
      let val := Z_of_byte b0 * 2 ^ 16 + Z_of_byte b1 * 2 ^ 8 in
      String (encode6 (val / 2 ^ 18)) (String (encode6 (val / 2 ^ 12 mod 64))
        (String (encode6 (val / 2 ^ 6 mod 64)) "="))
  | b0 :: b1 :: b2 :: src =>
      let val := Z_of_byte b0 * 2 ^ 16 + Z_of_byte b1 * 2 ^ 8 + Z_of_byte b2 in
      String (encode6 (val / 2 ^ 18)) (String (encode6 (val / 2 ^ 12 mod 64))
        (String (encode6 (val / 2 ^ 6 mod 64)) (String (encode6 (val mod 64)) (EncodeToString src))))
  end.

(** The decoder skips line breaks wherever they are. *)
Fixpoint strip_newlines (s : string) : string :=
  match s with
  | EmptyString => EmptyString
  | String c s =>
      if (code c =? 10) || (code c =? 13) then strip_newlines s else String c (strip_newlines s)
  end.

Definition byte_at (val shift : Z) : Byte.byte := byte_of_Z (val / 2 ^ shift).

(** Quanta of four characters; a padded one must be the last.  [None] is a
    [CorruptInputError]. *)
Fixpoint decode_quanta (s : string) : option bytes :=
  match s with
  | EmptyString => Some []
  | String c0 (String c1 (String c2 (String c3 s))) =>
      match decode6 c0, decode6 c1 with
      | Some v0, Some v1 =>
          match decode6 c2, decode6 c3 with
          | Some v2, Some v3 =>
              let val := v0 * 2 ^ 18 + v1 * 2 ^ 12 + v2 * 2 ^ 6 + v3 in
              match decode_quanta s with
              | Some l => Some (byte_at val 16 :: byte_at val 8 :: byte_at val 0 :: l)
              | None => None
              end
          | Some v2, None =>
              let val := v0 * 2 ^ 18 + v1 * 2 ^ 12 + v2 * 2 ^ 6 in
              if Ascii.eqb c3 "=" && (s =? EmptyString)%string
              then Some [byte_at val 16; byte_at val 8] else None
          | None, _ =>
              let val := v0 * 2 ^ 18 + v1 * 2 ^ 12 in
              if Ascii.eqb c2 "=" && Ascii.eqb c3 "=" && (s =? EmptyString)%string
              then Some [byte_at val 16] else None
          end
      | _, _ => None
      end
  | _ => None
  end.

Definition DecodeString (s : string) : option bytes := decode_quanta (strip_newlines s).

(** ** Keys (noise_types.go)

    [key] is the array the method is called on; [copy] fills as much of it as
    there is to copy. *)

Definition FromString (key : bytes) (src : string) : option bytes :=
  match DecodeString src with
  | None => None
  | Some b => Some (take (length key) (b ++ drop (length b) key))
  end.

Definition key_String (key : bytes) : string := EncodeToString key.

(** ** Facts *)

Lemma decode6_encode6 v : 0 <= v < 64 -> decode6 (encode6 v) = Some v.
Proof.
  intros H. rewrite <- (Z2Nat.id v) by lia.
  assert (Hall : forallb (fun n => bool_decide (decode6 (encode6 (Z.of_nat n)) = Some (Z.of_nat n)))
    (List.seq 0 64) = true) by (vm_compute; reflexivity).
  rewrite forallb_forall in Hall. specialize (Hall (Z.to_nat v)).
  apply bool_decide_eq_true in Hall; [done|]. apply in_seq. lia.
Qed.

(** A character of the alphabet is not a line break. *)
Definition plain (c : ascii) : bool := negb ((code c =? 10) || (code c =? 13)).

Lemma encode6_plain v : 0 <= v < 64 -> plain (encode6 v) = true.
Proof.
  intros H. rewrite <- (Z2Nat.id v) by lia.
  assert (Hall : forallb (fun n => plain (encode6 (Z.of_nat n))) (List.seq 0 64) = true)
    by (vm_compute; reflexivity).
  rewrite forallb_forall in Hall. apply Hall, in_seq. lia.
Qed.

Lemma strip_plain c s : plain c = true -> strip_newlines (String c s) = String c (strip_newlines s).
Proof. unfold plain. simpl. by destruct (_ || _). Qed.

Lemma byte_at_eq val shift b : Z_of_byte b = val / 2 ^ shift mod 256 -> byte_at val shift = b.
Proof. intros H. apply Z_of_byte_inj. unfold byte_at. by rewrite Z_of_byte_of_Z. Qed.

(** Lists by threes. *)
Lemma list_ind3 {A} (P : list A -> Prop) :
  P [] -> (forall a, P [a]) -> (forall a b, P [a; b]) ->
  (forall a b c l, P l -> P (a :: b :: c :: l)) -> forall l, P l.
Proof.
  intros H0 H1 H2 H3 l.
  enough (H : P l /\ (forall a, P (a :: l)) /\ (forall a b, P (a :: b :: l))) by apply H.
  induction l as [|x l (IH0 & IH1 & IH2)]; auto.
Qed.

Ltac plain_step :=
  rewrite strip_plain by (first [reflexivity | apply encode6_plain; lia_div]).
Ltac value_step := rewrite decode6_encode6 by lia_div.

Lemma decode_encode b : DecodeString (EncodeToString b) = Some b.
Proof.
  unfold DecodeString. induction b as [|b0|b0 b1|b0 b1 b2 b IH] using list_ind3; [done| | |];
    pose proof (Z_of_byte_range b0) as H0; try pose proof (Z_of_byte_range b1) as H1;
    try pose proof (Z_of_byte_range b2) as H2;
    cbn [EncodeToString]; repeat plain_step; cbn [decode_quanta strip_newlines]; repeat value_step.
  - simpl (decode6 "="). simpl. f_equal. f_equal. apply byte_at_eq. lia_div.
  - simpl. f_equal. f_equal; [|f_equal]; apply byte_at_eq; lia_div.
  - rewrite IH. f_equal. f_equal; [|f_equal; [|f_equal]]; apply byte_at_eq; lia_div.
Qed.

Lemma length_FromString key src k : FromString key src = Some k -> length k = length key.
Proof.
  unfold FromString. destruct (DecodeString src) as [b|]; [|done]. intros [= <-].
  rewrite length_take, length_app, length_drop. lia.
Qed.

(** ** strconv.Atoi *)

Definition digit (c : ascii) : option Z := if between "0" "9" c then Some (code c - code "0") else None.

Fixpoint digits (acc : Z) (s : string) : option Z :=
  match s with
  | EmptyString => Some acc
  | String c s => match digit c with Some d => digits (acc * 10 + d) s | None => None end
  end.

(** A sign, then at least one digit, and the value is an int. *)
Definition Atoi (s : string) : option Z :=
  let '(neg, s) :=
    match s with
    | String c rest => if Ascii.eqb c "-" then (true, rest) else if Ascii.eqb c "+" then (false, rest) else (false, s)
    | EmptyString => (false, s)
    end in
  match s with
  | EmptyString => None
  | _ =>
      match digits 0 s with
      | None => None
      | Some n =>
          let n := if neg then - n else n in
          if (minInt64 <=? n) && (n <=? maxInt64) then Some n else None
      end
  end.

(** ** net.SplitHostPort *)

Fixpoint index_char (c : ascii) (s : string) : option nat :=
  match s with
  | EmptyString => None
  | String x s => if Ascii.eqb x c then Some O else option_map S (index_char c s)
  end.

Fixpoint last_index (c : ascii) (s : string) : option nat :=
  match s with
  | EmptyString => None
  | String x s =>
      match last_index c s with
      | Some i => Some (S i)
      | None => if Ascii.eqb x c then Some O else None
      end
  end.

Fixpoint str_take (n : nat) (s : string) : string :=
  match n, s with
  | S n, String c s => String c (str_take n s)
  | _, _ => EmptyString
  end.
Fixpoint str_drop (n : nat) (s : string) : string :=
  match n, s with
  | S n, String _ s => str_drop n s
  | _, _ => s
  end.
Definition has_char (c : ascii) (s : string) : bool := match index_char c s with Some _ => true | None => false end.

(** [None] is the address error. *)
Definition SplitHostPort (hostport : string) : option (string * string) :=
  match last_index ":" hostport with
  | None => None
  | Some i =>
      let port := str_drop (S i) hostport in
      match hostport with
      | String "[" _ =>
          match index_char "]" hostport with
          | None => None
          | Some e =>
              if (S e =? i)%nat then
                let host := str_take (e - 1) (str_drop 1 hostport) in
                if has_char "[" (str_drop 1 hostport) then None
                else if has_char "]" (str_drop (S e) hostport) then None
                else Some (host, port)
              else None
          end
      | _ =>
          let host := str_take i hostport in
          if has_char ":" host || has_char "[" hostport || has_char "]" hostport then None
          else Some (host, port)
      end
  end.

(** ** netip.ParseAddr *)

(** The loop of [parseIPv4]: the octet being read, its number of digits, the
    octets before it. *)
Fixpoint parse_octets (val : Z) (digLen : nat) (fields : bytes) (s : string) : option bytes :=
  match s with
  | EmptyString =>
      if (length fields =? 3)%nat && (0 <? digLen)%nat then Some (fields ++ [byte_of_Z val]) else None
  | String c s =>
      match digit c with
      | Some d =>
          if (digLen =? 1)%nat && (val =? 0) then None
          else
            let val := val * 10 + d in
            if 255 <? val then None else parse_octets val (S digLen) fields s
      | None =>
          if Ascii.eqb c "." then
            if (digLen =? 0)%nat || (length fields =? 3)%nat then None
            else parse_octets 0 0 (fields ++ [byte_of_Z val]) s
          else None
      end
  end.

Definition parseIPv4 (s : string) : option bytes := parse_octets 0 0 [] s.

Definition hex_digit (c : ascii) : option Z :=
  if between "0" "9" c then Some (code c - code "0")
  else if between "a" "f" c then Some (code c - code "a" + 10)
  else if between "A" "F" c then Some (code c - code "A" + 10)
  else None.

(** A group of at most four hexadecimal digits: its value, its length, the rest. *)
Fixpoint hex_group (off : nat) (acc : Z) (s : string) : option (Z * nat * string) :=
  match s with
  | EmptyString => Some (acc, off, s)
  | String c rest =>
      match hex_digit c with
      | None => Some (acc, off, s)
      | Some d => if (3 <? off)%nat then None else hex_group (S off) (acc * 16 + d) rest
      end
  end.

(** The groups of [parseIPv6]: the bytes so far, where the ellipsis is, the rest
    of the text, which must end with the address.  A round adds two bytes. *)
Fixpoint parse_groups (fuel : nat) (ip : bytes) (ellipsis : option nat) (s : string)
  : option (bytes * option nat) :=
  match fuel with
  | O => match s with EmptyString => Some (ip, ellipsis) | _ => None end
  | S fuel =>
      match hex_group 0 0 s with
      | None => None
      | Some (acc, off, rest) =>
          if (off =? 0)%nat then None
          else
            match rest with
            | String "." _ =>
                if bool_decide (ellipsis = None) && negb (length ip =? 12)%nat then None
                else if (16 <? length ip + 4)%nat then None
                else match parseIPv4 s with
                     | Some b => Some (ip ++ b, ellipsis)
                     | None => None
                     end
            | _ =>
                let ip := ip ++ [byte_of_Z (acc / 256); byte_of_Z acc] in
                match rest with
                | EmptyString => Some (ip, ellipsis)
                | String ":" (String c s as rest) =>
                    if Ascii.eqb c ":" then
                      match ellipsis with
                      | Some _ => None
                      | None =>
                          match s with
                          | EmptyString => Some (ip, Some (length ip))
                          | _ => parse_groups fuel ip (Some (length ip)) s
                          end
                      end
                    else parse_groups fuel ip ellipsis rest
                | _ => None
                end
            end
      end
  end.

(** The ellipsis stands for at least one group of zeros. *)
Definition expand (ip : bytes) (ellipsis : option nat) : option bytes :=
  if (length ip <? 16)%nat then
    match ellipsis with
    | None => None
    | Some e => Some (take e ip ++ zero_bytes (16 - length ip) ++ drop e ip)
    end
  else match ellipsis with None => Some ip | Some _ => None end.

(** The text without its zone. *)
Definition parse6 (s : string) : option bytes :=
  let '(ellipsis, s') :=
    match s with
    | String ":" (String ":" rest) => (Some O, rest)
    | _ => (None, s)
    end in
  match ellipsis, s' with
  | Some _, EmptyString => Some (zero_bytes 16)
  | _, _ =>
      match parse_groups 8 [] ellipsis s' with
      | None => None
      | Some (ip, e) => expand ip e
      end
  end.

Definition parseIPv6 (input : string) : option Addr :=
  match index_char "%" input with
  | None => option_map (fun b => Addr6 b EmptyString) (parse6 input)
  | Some i =>
      match str_drop (S i) input with
      | EmptyString => None
      | zone => option_map (fun b => Addr6 b zone) (parse6 (str_take i input))
      end
  end.

(** The first of [.], [:] and [%] tells what is parsed. *)
Fixpoint addr_kind (s : string) : option ascii :=
  match s with
  | EmptyString => None
  | String c s =>
      if Ascii.eqb c "." || Ascii.eqb c ":" || Ascii.eqb c "%" then Some c else addr_kind s
  end.

Definition ParseAddr (s : string) : option Addr :=
  match addr_kind s with
  | Some "."%char => option_map Addr4 (parseIPv4 s)
  | Some ":"%char => parseIPv6 s
  | _ => None
  end.

(** ** netip.Addr.String *)

Definition digit_char (d : Z) : ascii := chr (code "0" + d).

Definition octet_String (v : Z) : string :=
  if v <? 10 then String (digit_char v) EmptyString
  else if v <? 100 then String (digit_char (v / 10)) (String (digit_char (v mod 10)) EmptyString)
  else String (digit_char (v / 100)) (String (digit_char (v / 10 mod 10)) (String (digit_char (v mod 10)) EmptyString)).

Fixpoint join (sep : string) (l : list string) : string :=
  match l with
  | [] => EmptyString
  | [x] => x
  | x :: l => (x +:+ sep +:+ join sep l)%string
  end.

Definition string4 (b : bytes) : string := join "." (map (fun x => octet_String (Z_of_byte x)) b).

Definition hex_char (d : Z) : ascii := if d <? 10 then chr (code "0" + d) else chr (code "a" + (d - 10)).

(** [appendHex]: a group without leading zeros. *)
Definition hex_String (x : Z) : string :=
  let d k := hex_char (x / 16 ^ k mod 16) in
  if x <? 16 then String (d 0) EmptyString
  else if x <? 256 then String (d 1) (String (d 0) EmptyString)
  else if x <? 4096 then String (d 2) (String (d 1) (String (d 0) EmptyString))
  else String (d 3) (String (d 2) (String (d 1) (String (d 0) EmptyString))).

(** The eight groups of an address. *)
Fixpoint groups (b : bytes) : list Z :=
  match b with
  | b0 :: b1 :: b => Z_of_byte b0 * 256 + Z_of_byte b1 :: groups b
  | _ => []
  end.

(** How many zeros a list begins with. *)
Fixpoint zero_run (l : list Z) : nat :=
  match l with
  | 0 :: l => S (zero_run l)
  | _ => O
  end.

(** The first longest run of at least two zeros, as its start and length; the
    run found so far is [best]. *)
Fixpoint longest_run (i : nat) (best : option (nat * nat)) (l : list Z) : option (nat * nat) :=
  match l with
  | [] => best
  | _ :: rest =>
      let n := zero_run l in
      let better := (2 <=? n)%nat && match best with None => true | Some (_, m) => (m <? n)%nat end in
      longest_run (S i) (if better then Some (i, n) else best) rest
  end.

Definition string6 (b : bytes) : string :=
  let gs := groups b in
  match longest_run 0 None gs with
  | None => join ":" (map hex_String gs)
  | Some (i, n) =>
      (join ":" (map hex_String (take i gs)) +:+ "::" +:+ join ":" (map hex_String (drop (i + n) gs)))%string
  end.

Definition is4In6 (b : bytes) : bool :=
  bool_decide (take 12 b = zero_bytes 10 ++ [Byte.xff; Byte.xff]).

Definition addr_String (a : Addr) : string :=
  match a with
  | AddrZero => "invalid IP"
  | Addr4 b => string4 b
  | Addr6 b zone =>
      let s := if is4In6 b then ("::ffff:" +:+ string4 (drop 12 b))%string else string6 b in
      match zone with EmptyString => s | _ => (s +:+ "%" +:+ zone)%string end
  end.

(** ** Addresses survive their text *)

Definition addr_wf (a : Addr) : Prop :=
  match a with
  | AddrZero => False
  | Addr4 b => length b = 4%nat
  | Addr6 b _ => length b = 16%nat
  end.

(** A property of the numbers below [n] is checked by computation. *)
Lemma below_forall n (P : Z -> bool) :
  forallb (fun k => P (Z.of_nat k)) (List.seq 0 n) = true -> forall z, 0 <= z < Z.of_nat n -> P z = true.
Proof.
  intros H z Hz. rewrite forallb_forall in H. rewrite <- (Z2Nat.id z) by lia. apply H, in_seq. lia.
Qed.

(** What the parsers see of a digit. *)
Definition digit_view (c : ascii) (d : Z) : bool :=
  bool_decide (digit c = Some d) && bool_decide (hex_digit c = Some d) &&
  negb (Ascii.eqb c "." || Ascii.eqb c ":" || Ascii.eqb c "%").
Definition hex_view (c : ascii) (d : Z) : bool :=
  bool_decide (hex_digit c = Some d) && negb (Ascii.eqb c "." || Ascii.eqb c ":" || Ascii.eqb c "%").

Lemma digit_char_view d : 0 <= d < 10 -> digit_view (digit_char d) d = true.
Proof. apply (below_forall 10 (fun d => digit_view (digit_char d) d)). vm_compute. reflexivity. Qed.

Lemma hex_char_view d : 0 <= d < 16 -> hex_view (hex_char d) d = true.
Proof. apply (below_forall 16 (fun d => hex_view (hex_char d) d)). vm_compute. reflexivity. Qed.

Lemma digit_facts d : 0 <= d < 10 ->
  digit (digit_char d) = Some d /\ hex_digit (digit_char d) = Some d /\
  Ascii.eqb (digit_char d) "." = false /\ Ascii.eqb (digit_char d) ":" = false /\ Ascii.eqb (digit_char d) "%" = false.
Proof.
  intros H. pose proof (digit_char_view d H) as V. unfold digit_view in V.
  rewrite !andb_true_iff, negb_true_iff, !orb_false_iff in V.
  destruct V as ((V1%bool_decide_eq_true & V2%bool_decide_eq_true) & (V3 & V4) & V5). done.
Qed.

Lemma hex_facts d : 0 <= d < 16 ->
  hex_digit (hex_char d) = Some d /\
  Ascii.eqb (hex_char d) "." = false /\ Ascii.eqb (hex_char d) ":" = false /\ Ascii.eqb (hex_char d) "%" = false.
Proof.
  intros H. pose proof (hex_char_view d H) as V. unfold hex_view in V.
  rewrite !andb_true_iff, negb_true_iff, !orb_false_iff in V.
  destruct V as (V1%bool_decide_eq_true & (V3 & V4) & V5). done.
Qed.

Lemma str_cons c s r : (String c s +:+ r)%string = String c (s +:+ r)%string.
Proof. done. Qed.
Lemma str_nil (r : string) : (EmptyString +:+ r)%string = r.
Proof. done. Qed.
Lemma str_nil_r (s : string) : (s +:+ EmptyString)%string = s.
Proof. induction s as [|c s IH]; [done|]. by rewrite str_cons, IH. Qed.
Lemma str_assoc (s r u : string) : ((s +:+ r) +:+ u)%string = (s +:+ (r +:+ u))%string.
Proof. induction s as [|c s IH]; [done|]. by rewrite !str_cons, IH. Qed.

(** *** Dotted decimal *)

Lemma octet_step b fields rest : exists n, (0 < n)%nat /\
  parse_octets 0 0 fields (octet_String (Z_of_byte b) +:+ rest)%string = parse_octets (Z_of_byte b) n fields rest.
Proof.
  pose proof (Z_of_byte_range b) as Hb. set (v := Z_of_byte b) in *. unfold octet_String.
  destruct (Z.ltb_spec v 10) as [H1|H1]; [|destruct (Z.ltb_spec v 100) as [H2|H2]].
  - exists 1%nat. split; [lia|]. rewrite str_cons, str_nil. cbn [parse_octets Nat.eqb andb]. destruct (digit_facts v) as [-> _]; [lia|].
    rewrite (proj2 (Z.ltb_ge _ _)) by lia. by rewrite Z.add_0_l.
  - exists 2%nat. split; [lia|]. rewrite !str_cons, str_nil. cbn [parse_octets].
    destruct (digit_facts (v / 10)) as [-> _]; [lia_div|]. destruct (digit_facts (v mod 10)) as [-> _]; [lia_div|].
    cbn [Nat.eqb andb]. rewrite (proj2 (Z.eqb_neq _ _)) by lia_div.
    rewrite !(proj2 (Z.ltb_ge _ _)) by lia_div. f_equal. lia_div.
  - exists 3%nat. split; [lia|]. rewrite !str_cons, str_nil. cbn [parse_octets].
    destruct (digit_facts (v / 100)) as [-> _]; [lia_div|]. destruct (digit_facts (v / 10 mod 10)) as [-> _]; [lia_div|].
    destruct (digit_facts (v mod 10)) as [-> _]; [lia_div|].
    cbn [Nat.eqb andb]. rewrite (proj2 (Z.eqb_neq _ _)) by lia_div.
    rewrite !(proj2 (Z.ltb_ge _ _)) by lia_div. f_equal. lia_div.
Qed.

Lemma parse_string4 b : length b = 4%nat -> parseIPv4 (string4 b) = Some b.
Proof.
  destruct b as [|b0 [|b1 [|b2 [|b3 [|]]]]]; try done. intros _. unfold parseIPv4, string4. cbn [map join].
  assert (Hdot : forall v n fields rest, (0 < n)%nat -> (length fields < 3)%nat ->
    parse_octets v n fields ("." +:+ rest)%string = parse_octets 0 0 (fields ++ [byte_of_Z v]) rest).
  { intros v n fields rest Hn Hf. rewrite str_cons, str_nil. simpl. rewrite (proj2 (Nat.eqb_neq n 0)), (proj2 (Nat.eqb_neq _ 3)) by lia. done. }
  destruct (octet_step b0 [] ("." +:+ octet_String (Z_of_byte b1) +:+ "." +:+ octet_String (Z_of_byte b2) +:+ "." +:+
    octet_String (Z_of_byte b3))%string) as (n0 & H0 & ->). rewrite Hdot by (simpl; lia).
  destruct (octet_step b1 ([] ++ [byte_of_Z (Z_of_byte b0)]) ("." +:+ octet_String (Z_of_byte b2) +:+ "." +:+
    octet_String (Z_of_byte b3))%string) as (n1 & H1 & ->). rewrite Hdot by (simpl; lia).
  destruct (octet_step b2 (([] ++ [byte_of_Z (Z_of_byte b0)]) ++ [byte_of_Z (Z_of_byte b1)]) ("." +:+
    octet_String (Z_of_byte b3))%string) as (n2 & H2 & ->). rewrite Hdot by (simpl; lia).
  destruct (octet_step b3 ((([] ++ [byte_of_Z (Z_of_byte b0)]) ++ [byte_of_Z (Z_of_byte b1)]) ++ [byte_of_Z (Z_of_byte b2)])
    EmptyString) as (n3 & H3 & E).
  rewrite str_nil_r in E. rewrite E. simpl. rewrite (proj2 (Nat.ltb_lt 0 n3)) by lia. simpl. by rewrite !byte_of_Z_of_byte.
Qed.

(** *** Groups of hexadecimal digits *)

(** What follows a group: nothing, or a character that is not a digit. *)
Definition ends_group (s : string) : Prop :=
  match s with EmptyString => True | String c _ => hex_digit c = None end.

Lemma hex_group_end n acc s : ends_group s -> hex_group n acc s = Some (acc, n, s).
Proof. destruct s as [|c s]; simpl; [done|]. by intros ->. Qed.

Lemma hex_group_run x rest : 0 <= x < 65536 -> ends_group rest ->
  exists n, (0 < n)%nat /\ hex_group 0 0 (hex_String x +:+ rest)%string = Some (x, n, rest).
Proof.
  intros Hx Hr. unfold hex_String. change (16 ^ 0) with 1. change (16 ^ 1) with 16.
  change (16 ^ 2) with 256. change (16 ^ 3) with 4096.
  assert (F : forall k, 0 < k -> hex_digit (hex_char (x / k mod 16)) = Some (x / k mod 16)).
  { intros k Hk. apply hex_facts. lia_div. }
  destruct (Z.ltb_spec x 16); [exists 1%nat|destruct (Z.ltb_spec x 256); [exists 2%nat|destruct (Z.ltb_spec x 4096); [exists 3%nat|exists 4%nat]]];
    (split; [lia|]); rewrite !str_cons, str_nil; cbn [hex_group]; rewrite !F by lia; cbn [Nat.ltb Nat.leb];
    rewrite hex_group_end by done; do 3 f_equal; lia_div.
Qed.

Definition pair_of (x : Z) : bytes := [byte_of_Z (x / 256); byte_of_Z x].

Definition groups_ok (gs : list Z) : Prop := Forall (fun x => 0 <= x < 65536) gs.

Lemma group_last fuel ip e x : 0 <= x < 65536 ->
  parse_groups (S fuel) ip e (hex_String x) = Some (ip ++ pair_of x, e).
Proof.
  intros Hx. destruct (hex_group_run x EmptyString Hx I) as (n & Hn & E). rewrite str_nil_r in E.
  cbn [parse_groups]. rewrite E. by rewrite (proj2 (Nat.eqb_neq n 0)) by lia.
Qed.

Lemma group_more fuel ip e x c rest : 0 <= x < 65536 -> Ascii.eqb c ":" = false ->
  parse_groups (S fuel) ip e (hex_String x +:+ String ":" (String c rest))%string =
  parse_groups fuel (ip ++ pair_of x) e (String c rest).
Proof.
  intros Hx Hc. destruct (hex_group_run x (String ":" (String c rest)) Hx eq_refl) as (n & Hn & E).
  cbn [parse_groups]. rewrite E, (proj2 (Nat.eqb_neq n 0)), Hc by lia. done.
Qed.

Lemma group_ellipsis fuel ip x rest : 0 <= x < 65536 ->
  parse_groups (S fuel) ip None (hex_String x +:+ String ":" (String ":" rest))%string =
  match rest with
  | EmptyString => Some (ip ++ pair_of x, Some (length (ip ++ pair_of x)))
  | _ => parse_groups fuel (ip ++ pair_of x) (Some (length (ip ++ pair_of x))) rest
  end.
Proof.
  intros Hx. destruct (hex_group_run x (String ":" (String ":" rest)) Hx eq_refl) as (n & Hn & E).
  cbn [parse_groups]. rewrite E, (proj2 (Nat.eqb_neq n 0)) by lia. done.
Qed.

(** A group begins with a digit, no separator. *)
Lemma hex_String_head x : 0 <= x < 65536 -> exists c s, hex_String x = String c s /\
  Ascii.eqb c "." = false /\ Ascii.eqb c ":" = false /\ Ascii.eqb c "%" = false.
Proof.
  intros Hx. unfold hex_String.
  destruct (_ <? _); [|destruct (_ <? _); [|destruct (_ <? _)]]; eexists _, _; (split; [reflexivity|]);
    apply hex_facts; lia_div.
Qed.

Lemma join_cons2 sep x y l : join sep (x :: y :: l) = (x +:+ sep +:+ join sep (y :: l))%string.
Proof. done. Qed.

Lemma join_head gs : groups_ok gs -> gs <> [] -> exists c s, join ":" (map hex_String gs) = String c s /\
  Ascii.eqb c ":" = false.
Proof.
  destruct gs as [|x [|y gs]]; [done| |]; intros [Hx _]%Forall_cons _;
    destruct (hex_String_head x Hx) as (c & s & E & _ & Hc & _); cbn [map join]; rewrite E; eauto.
Qed.

Lemma pairs_app ip x (gs : list Z) :
  (ip ++ pair_of x) ++ concat (map pair_of gs) = ip ++ concat (map pair_of (x :: gs)).
Proof. simpl. by rewrite <- app_assoc. Qed.

Lemma parse_join gs : forall fuel ip e, groups_ok gs -> gs <> [] -> (length gs <= fuel)%nat ->
  parse_groups fuel ip e (join ":" (map hex_String gs)) = Some (ip ++ concat (map pair_of gs), e).
Proof.
  induction gs as [|x gs IH]; intros fuel ip e Hok Hne Hf; [done|].
  apply Forall_cons in Hok as [Hx Hok]. destruct fuel as [|fuel]; [simpl in Hf; lia|].
  destruct gs as [|y gs]; [cbn [map join concat]; by rewrite app_nil_r, group_last|].
  destruct (join_head (y :: gs)) as (c & s & E & Hc); [done|done|].
  specialize (IH fuel (ip ++ pair_of x) e Hok). rewrite pairs_app in IH. rewrite <- IH by (simpl in *; lia || done).
  cbn [map] in *. rewrite join_cons2, E, str_cons, str_nil. by apply group_more.
Qed.

(** The groups before an ellipsis. *)
Lemma parse_join_ellipsis gs : forall fuel ip rest, groups_ok gs -> gs <> [] -> (length gs <= fuel)%nat ->
  parse_groups fuel ip None (join ":" (map hex_String gs) +:+ String ":" (String ":" rest))%string =
  let ip' := ip ++ concat (map pair_of gs) in
  match rest with
  | EmptyString => Some (ip', Some (length ip'))
  | _ => parse_groups (fuel - length gs) ip' (Some (length ip')) rest
  end.
Proof.
  induction gs as [|x gs IH]; intros fuel ip rest Hok Hne Hf; [done|].
  apply Forall_cons in Hok as [Hx Hok]. destruct fuel as [|fuel]; [simpl in Hf; lia|].
  destruct gs as [|y gs].
  { cbn [map join concat length]. rewrite app_nil_r, Nat.sub_succ, Nat.sub_0_r. by apply group_ellipsis. }
  destruct (join_head (y :: gs)) as (c & s & E & Hc); [done|done|].
  specialize (IH fuel (ip ++ pair_of x) rest Hok). rewrite pairs_app in IH.
  change (S fuel - length (x :: y :: gs))%nat with (fuel - length (y :: gs))%nat.
  rewrite <- IH by (simpl in *; lia || done).
  cbn [map] in *. rewrite join_cons2, E. rewrite !str_cons, str_nil, !str_assoc, !str_cons.
  by apply group_more.
Qed.

(** *** Runs of zeros *)

Lemma zero_run_spec l : (zero_run l <= length l)%nat /\ take (zero_run l) l = replicate (zero_run l) 0.
Proof. induction l as [|[| |] l [IH1 IH2]]; simpl; [done|split; [lia|by f_equal]|split; [lia|done]|split; [lia|done]]. Qed.

Definition run_ok (gs : list Z) (r : option (nat * nat)) : Prop :=
  match r with
  | None => True
  | Some (i, n) => (2 <= n)%nat /\ (i + n <= length gs)%nat /\ take n (drop i gs) = replicate n 0
  end.

Lemma longest_run_spec gs l : forall i best, drop i gs = l -> (i <= length gs)%nat -> run_ok gs best ->
  run_ok gs (longest_run i best l).
Proof.
  induction l as [|x l IH]; intros i best Hd Hi Hb; [done|]. cbn [longest_run].
  assert (Hlen : length (drop i gs) = S (length l)) by by rewrite Hd.
  rewrite length_drop in Hlen. apply IH; [|lia|].
  - rewrite <- Nat.add_1_r, <- drop_drop, Hd. done.
  - destruct (_ && _) eqn:E; [|done]. apply andb_true_iff in E as [E%Nat.leb_le _].
    destruct (zero_run_spec (x :: l)) as [H1 H2]. split; [done|]. rewrite Hd. split; [simpl in *; lia|done].
Qed.

Lemma groups_spec b : forall n, length b = (2 * n)%nat ->
  length (groups b) = n /\ groups_ok (groups b) /\ concat (map pair_of (groups b)) = b.
Proof.
  enough (H : forall n b, length b = (2 * n)%nat ->
    length (groups b) = n /\ groups_ok (groups b) /\ concat (map pair_of (groups b)) = b) by (intros n; apply H).
  induction n as [|n IH]; intros [|b0 [|b1 l]] Hl; simpl in Hl; try lia; [by repeat constructor|].
  destruct (IH l) as (H1 & H2 & H3); [lia|]. cbn [groups map concat length].
  pose proof (Z_of_byte_range b0). pose proof (Z_of_byte_range b1).
  split; [by rewrite H1|]. split; [constructor; [lia|done]|]. rewrite H3. unfold pair_of. simpl. f_equal; [|f_equal].
  - rewrite <- (byte_of_Z_of_byte b0) at 2. f_equal. lia_div.
  - apply Z_of_byte_inj. rewrite Z_of_byte_of_Z. lia_div.
Qed.

Lemma pairs_length gs : length (concat (map pair_of gs)) = (2 * length gs)%nat.
Proof. induction gs as [|x gs IH]; [done|]. simpl in *. lia. Qed.

Lemma pairs_zero n : concat (map pair_of (replicate n 0)) = zero_bytes (2 * n).
Proof.
  induction n as [|n IH]; [done|]. cbn [replicate map concat]. rewrite IH.
  replace (2 * S n)%nat with (S (S (2 * n))) by lia. done.
Qed.

(** The pieces of an address with a run of zeros. *)
Lemma run_pieces b i n : length b = 16%nat -> run_ok (groups b) (Some (i, n)) ->
  let pre := take i (groups b) in let suf := drop (i + n) (groups b) in
  groups_ok pre /\ groups_ok suf /\ (length pre + length suf + n = 8)%nat /\ length pre = i /\
  b = concat (map pair_of pre) ++ zero_bytes (2 * n) ++ concat (map pair_of suf).
Proof.
  intros Hb (Hn & Hle & Hz). destruct (groups_spec b 8 Hb) as (Hl & Hok & Hc). cbn zeta.
  rewrite Hl in Hle. split; [by apply Forall_take|]. split; [by apply Forall_drop|].
  rewrite length_take, length_drop, Hl. split; [lia|]. split; [lia|].
  rewrite <- pairs_zero, <- Hz, <- !concat_app, <- !map_app. rewrite <- Hc at 1. f_equal. f_equal.
  rewrite <- drop_drop, take_drop, take_drop. done.
Qed.

Lemma parse6_groups c s : Ascii.eqb c ":" = false ->
  parse6 (String c s) =
  match parse_groups 8 [] None (String c s) with None => None | Some (ip, e) => expand ip e end.
Proof. by destruct c as [[] [] [] [] [] [] [] []]. Qed.

Lemma parse_string6 b : length b = 16%nat -> parse6 (string6 b) = Some b.
Proof.
  intros Hb. destruct (groups_spec b 8 Hb) as (Hl & Hok & Hc). unfold string6.
  pose proof (longest_run_spec (groups b) _ 0 None eq_refl ltac:(lia) I) as Hr. rewrite drop_0 in Hr.
  destruct (longest_run 0 None (groups b)) as [[i n]|].
  - destruct (run_pieces b i n Hb Hr) as (Hp & Hs & Hlen & Hi & E). destruct Hr as (Hn & _).
    set (pre := take i (groups b)) in *. set (suf := drop (i + n) (groups b)) in *. rewrite E. clear E.
    pose proof (pairs_length pre) as Lp. pose proof (pairs_length suf) as Ls.
    assert (Hx : forall bp bs, length bp = (2 * length pre)%nat -> length bs = (2 * length suf)%nat ->
      expand (bp ++ bs) (Some (length bp)) = Some (bp ++ zero_bytes (2 * n) ++ bs)).
    { intros bp bs H1 H2. unfold expand. rewrite length_app, (proj2 (Nat.ltb_lt _ _)) by lia.
      rewrite take_app_length, drop_app_length. do 4 f_equal. lia. }
    rewrite !str_cons, str_nil. destruct (decide (pre = [])) as [Hpre|Hpre].
    + rewrite Hpre in *. cbn [map join concat]. rewrite str_nil. unfold parse6.
      destruct (decide (suf = [])) as [Hsuf|Hsuf].
      * rewrite Hsuf in *. cbn [map join concat]. simpl in Hlen. replace n with 8%nat by lia. done.
      * destruct (join_head suf) as (c & s & Ej & _); [done|done|].
        assert (Hj := parse_join suf 8 [] (Some 0%nat) Hs Hsuf ltac:(lia)). rewrite Ej in Hj |- *. rewrite Hj.
        apply (Hx [] (concat (map pair_of suf))); [done|done].
    + assert (Hne : exists c s, join ":" (map hex_String pre) = String c s /\ Ascii.eqb c ":" = false) by by apply join_head.
      destruct Hne as (c & s & Ej & Hcc). rewrite Ej, str_cons, parse6_groups by done.
      rewrite <- str_cons, <- Ej, parse_join_ellipsis by (done || lia). cbn zeta. rewrite app_nil_l.
      destruct (decide (suf = [])) as [Hsuf|Hsuf].
      * rewrite Hsuf in *. cbn [map join concat]. rewrite <- (app_nil_r (concat (map pair_of pre))) at 1.
        by apply Hx.
      * destruct (join_head suf) as (c' & s' & Ej' & _); [done|done|].
        assert (Hj := parse_join suf (8 - length pre) (concat (map pair_of pre))
          (Some (length (concat (map pair_of pre)))) Hs Hsuf ltac:(lia)). rewrite Ej' in Hj |- *. rewrite Hj.
        by apply Hx.
  - assert (Hne : groups b <> []) by (intros E; by rewrite E in Hl).
    destruct (join_head (groups b)) as (c & s & Ej & Hcc); [done|done|].
    assert (Hj := parse_join (groups b) 8 [] None Hok Hne ltac:(lia)). rewrite Ej in *.
    rewrite parse6_groups by done.
    rewrite Hj, app_nil_l, Hc. unfold expand. by rewrite Hb.
Qed.

(** *** Zones and the two families *)

Lemma index_app c (s r : string) : index_char c s = None ->
  index_char c (s +:+ r)%string = option_map (fun i => String.length s + i)%nat (index_char c r).
Proof.
  induction s as [|x s IH]; intros H; [rewrite str_nil; by destruct (index_char c r)|].
  rewrite str_cons. cbn [index_char String.length] in *. destruct (Ascii.eqb x c); [done|].
  destruct (index_char c s); [done|]. rewrite IH by done. by destruct (index_char c r).
Qed.

Lemma str_take_app (s r : string) : str_take (String.length s) (s +:+ r)%string = s.
Proof. induction s as [|c s IH]; [by destruct r|]. rewrite str_cons. simpl. by rewrite IH. Qed.
Lemma str_drop_app (s r : string) : str_drop (String.length s) (s +:+ r)%string = r.
Proof. induction s as [|c s IH]; [by destruct r|]. rewrite str_cons. simpl. by rewrite IH. Qed.

(** Text without separators, and without a zone. *)
Fixpoint no_separator (s : string) : bool :=
  match s with
  | EmptyString => true
  | String c s => negb (Ascii.eqb c "." || Ascii.eqb c ":" || Ascii.eqb c "%") && no_separator s
  end.

Lemma no_separator_kind s r : no_separator s = true -> addr_kind (s +:+ r)%string = addr_kind r.
Proof.
  induction s as [|c s IH]; intros H; [done|]. cbn [no_separator] in H. apply andb_true_iff in H as [H1%negb_true_iff H2].
  rewrite str_cons. cbn [addr_kind]. rewrite H1. by apply IH.
Qed.

Lemma no_separator_percent s : no_separator s = true -> index_char "%" s = None.
Proof.
  induction s as [|c s IH]; intros H; [done|]. cbn [no_separator] in H. apply andb_true_iff in H as [H1%negb_true_iff H2].
  rewrite !orb_false_iff in H1. cbn [index_char]. destruct H1 as [_ ->]. by rewrite IH.
Qed.

Lemma no_separator_hex x : 0 <= x < 65536 -> no_separator (hex_String x) = true.
Proof.
  intros Hx. assert (F : forall k, negb (Ascii.eqb (hex_char (x / k mod 16)) "." || Ascii.eqb (hex_char (x / k mod 16)) ":" ||
    Ascii.eqb (hex_char (x / k mod 16)) "%") = true).
  { intros k. destruct (hex_facts (x / k mod 16)) as (_ & -> & -> & ->); [|done]. apply Z.mod_pos_bound. lia. }
  unfold hex_String. destruct (_ <? _); [|destruct (_ <? _); [|destruct (_ <? _)]]; cbn [no_separator]; by rewrite !F.
Qed.

Lemma no_separator_octet b : no_separator (octet_String (Z_of_byte b)) = true.
Proof. apply (byte_forall (fun b => no_separator (octet_String (Z_of_byte b)))). vm_compute. reflexivity. Qed.

Lemma join_without c sep l : index_char c sep = None -> Forall (fun s => index_char c s = None) l ->
  index_char c (join sep l) = None.
Proof.
  intros Hs. induction 1 as [|x [|y l] Hx Hl IH]; [done|done|]. rewrite join_cons2.
  rewrite index_app by done. rewrite index_app by done. by rewrite IH.
Qed.

Lemma groups_percent gs : groups_ok gs -> index_char "%" (join ":" (map hex_String gs)) = None.
Proof.
  intros H. apply join_without; [done|]. apply Forall_map. eapply Forall_impl; [exact H|]. intros x Hx.
  by apply no_separator_percent, no_separator_hex.
Qed.

Lemma string4_percent b : index_char "%" (string4 b) = None.
Proof.
  apply join_without; [done|]. apply Forall_map, Forall_forall. intros x _.
  apply no_separator_percent, no_separator_octet.
Qed.

(** What an IPv6 text without zone is like. *)
Definition text6 (s : string) (b : bytes) : Prop :=
  index_char "%" s = None /\ (forall r, addr_kind (s +:+ r)%string = Some ":"%char) /\ parse6 s = Some b.

Lemma join_kind x y gs r : groups_ok (x :: y :: gs) ->
  addr_kind (join ":" (map hex_String (x :: y :: gs)) +:+ r)%string = Some ":"%char.
Proof.
  intros [Hx _]%Forall_cons. cbn [map]. rewrite join_cons2, !str_assoc.
  by rewrite no_separator_kind by by apply no_separator_hex.
Qed.

Lemma string6_text b : length b = 16%nat -> text6 (string6 b) b.
Proof.
  intros Hb. split; [|split; [|by apply parse_string6]].
  all: destruct (groups_spec b 8 Hb) as (Hl & Hok & _); unfold string6;
    destruct (longest_run 0 None (groups b)) as [[i n]|].
  - rewrite index_app by by apply groups_percent, Forall_take. rewrite index_app by done.
    by rewrite groups_percent by by apply Forall_drop.
  - by apply groups_percent.
  - intros r. rewrite str_assoc. assert (Hp : groups_ok (take i (groups b))) by by apply Forall_take.
    destruct (take i (groups b)) as [|x [|y gs]]; [done| |by apply join_kind].
    apply Forall_cons in Hp as [Hx _]. cbn [map join]. by rewrite no_separator_kind by by apply no_separator_hex.
  - intros r. destruct (groups b) as [|x [|y gs]]; [done..|by apply join_kind].
Qed.

Lemma octet_hex b rest : exists acc n, (0 < n)%nat /\
  hex_group 0 0 (octet_String (Z_of_byte b) +:+ String "." rest)%string = Some (acc, n, String "." rest).
Proof.
  pose proof (Z_of_byte_range b) as Hb. set (v := Z_of_byte b) in *. unfold octet_String.
  destruct (Z.ltb_spec v 10) as [H1|H1]; [|destruct (Z.ltb_spec v 100) as [H2|H2]];
    rewrite !str_cons, str_nil; cbn [hex_group].
  - destruct (digit_facts v) as (_ & -> & _); [lia|]. by eexists _, 1%nat; split; [lia|].
  - destruct (digit_facts (v / 10)) as (_ & -> & _); [lia_div|].
    destruct (digit_facts (v mod 10)) as (_ & -> & _); [lia_div|]. by eexists _, 2%nat; split; [lia|].
  - destruct (digit_facts (v / 100)) as (_ & -> & _); [lia_div|].
    destruct (digit_facts (v / 10 mod 10)) as (_ & -> & _); [lia_div|].
    destruct (digit_facts (v mod 10)) as (_ & -> & _); [lia_div|]. by eexists _, 3%nat; split; [lia|].
Qed.

Lemma parse_embedded fuel ip e b : length b = 4%nat -> (length ip + 4 <= 16)%nat ->
  parse_groups (S fuel) ip (Some e) (string4 b) = Some (ip ++ b, Some e).
Proof.
  intros Hb Hip. pose proof (parse_string4 b Hb) as H4.
  destruct b as [|b0 [|b1 b]]; [done..|].
  assert (E : exists rest, string4 (b0 :: b1 :: b) = (octet_String (Z_of_byte b0) +:+ String "." rest)%string)
    by (eexists; unfold string4; cbn [map]; rewrite join_cons2; done).
  destruct E as [rest E]. destruct (octet_hex b0 rest) as (acc & n & Hn & Eh). rewrite E in H4 |- *.
  cbn [parse_groups]. rewrite Eh, (proj2 (Nat.eqb_neq n 0)) by lia. cbn [andb].
  rewrite bool_decide_false by done. rewrite (proj2 (Nat.ltb_ge _ _)) by lia. by rewrite H4.
Qed.

Lemma string4_head b : length b = 4%nat -> exists c s, string4 b = String c s /\ Ascii.eqb c ":" = false.
Proof.
  destruct b as [|b0 [|b1 b]]; [done..|]. intros _. unfold string4. cbn [map]. rewrite join_cons2.
  pose proof (no_separator_octet b0) as H. destruct (octet_String (Z_of_byte b0)) as [|c s] eqn:E.
  - exfalso. revert E. unfold octet_String. by destruct (_ <? _); [|destruct (_ <? _)].
  - rewrite str_cons. eexists _, _. split; [done|]. cbn [no_separator] in H.
    apply andb_true_iff in H as [H%negb_true_iff _]. rewrite !orb_false_iff in H. apply H.
Qed.

Lemma mapped_text b : length b = 16%nat -> is4In6 b = true -> text6 ("::ffff:" +:+ string4 (drop 12 b))%string b.
Proof.
  intros Hb H4%bool_decide_eq_true. assert (Hd : length (drop 12 b) = 4%nat) by (rewrite length_drop; lia).
  split; [|split].
  - rewrite index_app by done. by rewrite string4_percent.
  - done.
  - destruct (string4_head _ Hd) as (c & s & E & Hc).
    unfold parse6. rewrite !str_cons, str_nil, E.
    change (String "f" (String "f" (String "f" (String "f" (String ":" (String c s))))))
      with (hex_String 65535 +:+ String ":" (String c s))%string.
    rewrite group_more by (lia || done). rewrite <- E, (parse_embedded 6) by (done || (simpl; lia)).
    unfold expand. rewrite (proj2 (Nat.ltb_lt _ _)) by (rewrite !length_app; simpl; lia).
    cbn [take drop app]. rewrite !length_app, Hd.
    transitivity (Some (take 12 b ++ drop 12 b)); [by rewrite H4|by rewrite take_drop].
Qed.

(** An address printed and parsed is the address. *)
Lemma ParseAddr_String a : addr_wf a -> ParseAddr (addr_String a) = Some a.
Proof.
  destruct a as [|b|b zone]; simpl; intros Hb; [done| |].
  - unfold ParseAddr. assert (K : addr_kind (string4 b) = Some "."%char).
    { destruct b as [|b0 [|b1 b]]; [done..|]. unfold string4. cbn [map]. rewrite join_cons2.
      by rewrite no_separator_kind by apply no_separator_octet. }
    by rewrite K, parse_string4.
  - set (s := if is4In6 b then _ else _).
    assert (Ht : text6 s b) by (unfold s; destruct (is4In6 b) eqn:E; [by apply mapped_text|by apply string6_text]).
    destruct Ht as (Hp & Hk & Hs). unfold ParseAddr, parseIPv6. destruct zone as [|c zone].
    + rewrite <- (str_nil_r s), Hk, str_nil_r, Hp, Hs. done.
    + rewrite Hk, index_app by done.
      replace (index_char "%" ("%" +:+ String c zone)%string) with (Some 0%nat) by done. cbn [option_map].
      rewrite Nat.add_0_r, str_take_app, Hs.
      replace (S (String.length s)) with (String.length (s +:+ "%"))%nat.
      2:{ clear. induction s as [|x s IH]; [done|]. rewrite str_cons. simpl. by rewrite IH. }
      by rewrite <- str_assoc, str_drop_app.
Qed.

(** ** What is parsed has the form of an address *)

Lemma parse_octets_length s : forall val digLen fields b, (length fields <= 3)%nat ->
  parse_octets val digLen fields s = Some b -> length b = 4%nat.
Proof.
  induction s as [|c s IH]; intros val digLen fields b Hf; cbn [parse_octets].
  - destruct (Nat.eqb_spec (length fields) 3); [|done]. destruct (0 <? digLen)%nat; [|done]. intros [= <-].
    rewrite length_app. simpl. lia.
  - destruct (digit c) as [d|].
    + destruct (_ && _); [done|]. cbn zeta. destruct (_ <? _); [done|]. by apply IH.
    + destruct (Ascii.eqb c "."); [|done]. destruct (digLen =? 0)%nat; [done|].
      destruct (Nat.eqb_spec (length fields) 3); [done|]. apply IH. rewrite length_app. simpl. lia.
Qed.

Lemma parse_groups_length fuel : forall ip e s b e', (length ip + 2 * fuel <= 16)%nat ->
  parse_groups fuel ip e s = Some (b, e') -> (length b <= 16)%nat.
Proof.
  induction fuel as [|fuel IH]; intros ip e s b e' Hl; cbn [parse_groups].
  { destruct s; [|done]. intros [= <- _]. lia. }
  destruct (hex_group 0 0 s) as [[[acc off] rest]|]; [|done]. destruct (off =? 0)%nat; [done|].
  set (ip' := ip ++ [byte_of_Z (acc / 256); byte_of_Z acc]).
  assert (Hip : (length ip' + 2 * fuel <= 16)%nat) by (unfold ip'; rewrite length_app; simpl; lia).
  assert (G : (match rest with
               | EmptyString => Some (ip', e)
               | String ":" (String c s as rest) =>
                   if Ascii.eqb c ":" then
                     match e with
                     | Some _ => None
                     | None => match s with EmptyString => Some (ip', Some (length ip'))
                                          | _ => parse_groups fuel ip' (Some (length ip')) s end
                     end
                   else parse_groups fuel ip' e rest
               | _ => None
               end) = Some (b, e') -> (length b <= 16)%nat).
  { destruct rest as [|x rest]; [intros [= <- _]; lia|].
    destruct x as [[] [] [] [] [] [] [] []]; try done. destruct rest as [|c rest]; [done|].
    destruct (Ascii.eqb c ":"); [|by apply IH]. destruct e; [done|]. destruct rest; [intros [= <- _]; lia|by apply IH]. }
  destruct rest as [|x rest]; [exact G|]. destruct x as [[] [] [] [] [] [] [] []]; try exact G.
  clear G. destruct (_ && _); [done|]. destruct (Nat.ltb_spec 16 (length ip + 4)); [done|].
  destruct (parseIPv4 s) as [v|] eqn:Ev; [|done]. intros [= <- _]. apply parse_octets_length in Ev; [|simpl; lia].
  rewrite length_app. lia.
Qed.

Lemma parse6_length s b : parse6 s = Some b -> length b = 16%nat.
Proof.
  unfold parse6. set (q := match s with String ":" (String ":" rest) => _ | _ => _ end). destruct q as [e s'].
  assert (G : match parse_groups 8 [] e s' with None => None | Some (ip, e) => expand ip e end = Some b -> length b = 16%nat).
  { destruct (parse_groups 8 [] e s') as [[ip e']|] eqn:E; [|done]. apply parse_groups_length in E; [|simpl; lia].
    unfold expand. destruct (Nat.ltb_spec (length ip) 16).
    - destruct e' as [k|]; [|done]. intros [= <-].
      rewrite !length_app, length_take, length_drop, length_zero_bytes. lia.
    - destruct e'; [done|]. intros [= <-]. lia. }
  destruct e; [|exact G]. destruct s'; [|exact G]. intros [= <-]. done.
Qed.

Lemma ParseAddr_wf s a : ParseAddr s = Some a -> addr_wf a.
Proof.
  unfold ParseAddr. destruct (addr_kind s) as [[[] [] [] [] [] [] [] []]|]; try done.
  - destruct (parseIPv4 s) as [b|] eqn:E; [|done]. intros [= <-]. by apply parse_octets_length in E; [|simpl; lia].
  - unfold parseIPv6. destruct (index_char "%" s) as [i|].
    + destruct (str_drop (S i) s) as [|c z]; [done|]. destruct (parse6 _) as [b|] eqn:E; [|done].
      intros [= <-]. by apply parse6_length in E.
    + destruct (parse6 s) as [b|] eqn:E; [|done]. intros [= <-]. by apply parse6_length in E.
Qed.

(** ** Hosts and ports that are split again *)

Lemma last_index_none c s : index_char c s = None -> last_index c s = None.
Proof.
  induction s as [|x s IH]; [done|]. cbn [index_char last_index]. destruct (Ascii.eqb x c); [done|].
  destruct (index_char c s); [done|]. intros _. by rewrite IH.
Qed.

Lemma last_index_app c s r : index_char c r = None ->
  last_index c (s +:+ String c r)%string = Some (String.length s).
Proof.
  intros H. induction s as [|x s IH].
  - rewrite str_nil. cbn [last_index]. by rewrite (last_index_none c r H), Ascii.eqb_refl.
  - rewrite str_cons. cbn [last_index String.length]. by rewrite IH.
Qed.

Lemma has_char_app c s r : has_char c (s +:+ r)%string = has_char c s || has_char c r.
Proof.
  unfold has_char. induction s as [|x s IH]; [done|]. rewrite str_cons. cbn [index_char].
  destruct (Ascii.eqb x c); [done|]. revert IH. by do 3 destruct (index_char c _).
Qed.

Lemma str_drop_after s c r : str_drop (S (String.length s)) (s +:+ String c r)%string = r.
Proof. induction s as [|x s IH]; [by destruct r|]. rewrite str_cons. exact IH. Qed.

(** A host or a port without the characters that [SplitHostPort] looks at. *)
Definition plain_text (s : string) : bool := negb (has_char ":" s || has_char "[" s || has_char "]" s).

Lemma plain_text_spec s : plain_text s = true <->
  has_char ":" s = false /\ has_char "[" s = false /\ has_char "]" s = false.
Proof. unfold plain_text. rewrite negb_true_iff, !orb_false_iff. tauto. Qed.

Lemma SplitHostPort_unbracketed s : (forall r, s <> String "["%char r) ->
  SplitHostPort s =
    match last_index ":" s with
    | None => None
    | Some i =>
        let host := str_take i s in
        if has_char ":" host || has_char "[" s || has_char "]" s then None else Some (host, str_drop (S i) s)
    end.
Proof.
  intros H. unfold SplitHostPort. destruct (last_index ":" s) as [i|]; [|done].
  destruct s as [|[[] [] [] [] [] [] [] []] s]; try done. by destruct (H s).
Qed.

Lemma SplitHostPort_plain host port : plain_text host = true -> plain_text port = true ->
  SplitHostPort (host +:+ String ":" port)%string = Some (host, port).
Proof.
  intros (H1 & H2 & H3)%plain_text_spec (P1 & P2 & P3)%plain_text_spec.
  rewrite SplitHostPort_unbracketed.
  - rewrite last_index_app by (unfold has_char in P1; by destruct (index_char ":" port)). cbn zeta.
    rewrite str_take_app, str_drop_after, !has_char_app, H1, H2, H3. cbn [orb].
    assert (E : forall c, Ascii.eqb ":" c = false -> has_char c (String ":" port) = has_char c port).
    { intros c Hc. unfold has_char. cbn [index_char]. rewrite Hc. by destruct (index_char c port). }
    by rewrite !E, P2, P3.
  - intros r E. destruct host as [|c host]; [done|]. rewrite str_cons in E. injection E as -> _. done.
Qed.

(** An IPv6 address in front of a port has too many colons. *)
Lemma SplitHostPort_addr6 b zone port : length b = 16%nat -> index_char ":" port = None ->
  SplitHostPort (addr_String (Addr6 b zone) +:+ String ":" port)%string = None.
Proof.
  intros Hb Hp. set (s := if is4In6 b then ("::ffff:" +:+ string4 (drop 12 b))%string else string6 b).
  assert (Ht : text6 s b) by (unfold s; destruct (is4In6 b) eqn:E; [by apply mapped_text|by apply string6_text]).
  destruct Ht as (_ & Hk & Hs).
  assert (Hc : has_char ":" s = true).
  { specialize (Hk EmptyString). rewrite str_nil_r in Hk. revert Hk. unfold has_char. clear.
    induction s as [|x s IH]; [done|]. cbn [addr_kind index_char]. destruct (Ascii.eqb x ":") eqn:E; [done|].
    destruct (_ || _ || _) eqn:E2; [intros [= ->]; done|]. intros H. specialize (IH H).
    by destruct (index_char ":" s). }
  assert (Hh : exists r, addr_String (Addr6 b zone) = (s +:+ r)%string).
  { simpl. fold s. destruct zone; [exists EmptyString; by rewrite str_nil_r|eauto]. }
  destruct Hh as [r ->]. rewrite SplitHostPort_unbracketed.
  - rewrite last_index_app by done. cbn zeta. by rewrite str_take_app, has_char_app, Hc.
  - intros x E. destruct s as [|c s]; [done|]. rewrite !str_cons in E. injection E as -> _. done.
Qed.

Lemma octet_plain b : plain_text (octet_String (Z_of_byte b)) = true.
Proof. apply (byte_forall (fun b => plain_text (octet_String (Z_of_byte b)))). vm_compute. reflexivity. Qed.

Lemma string4_plain b : plain_text (string4 b) = true.
Proof.
  assert (H : forall c, c ∈ [":"; "["; "]"]%char -> has_char c (string4 b) = false).
  { intros c Hc. unfold has_char, string4. rewrite join_without; [done| |].
    - by repeat (apply elem_of_cons in Hc as [->|Hc]; [done|]); apply elem_of_nil in Hc.
    - apply Forall_map, Forall_forall. intros x _. pose proof (octet_plain x) as (H1 & H2 & H3)%plain_text_spec.
      cut (has_char c (octet_String (Z_of_byte x)) = false); [unfold has_char; by destruct (index_char _ _)|].
      repeat (apply elem_of_cons in Hc as [->|Hc]; [done|]). by apply elem_of_nil in Hc. }
  apply plain_text_spec. by rewrite !H by set_solver.
Qed.

(** C30. The text form of a key is its base64 encoding: reading it back gives the
    key, whatever the array held before; and what is read from other text is the
    decoded bytes cut or filled up to the 32 bytes of the array, an error only
    when the text is not base64. *)
Theorem key_text key :
  length key = 32%nat ->
  (forall k, length k = 32%nat -> FromString key (key_String k) = Some k) /\
  (forall src, FromString key src =
     option_map (fun b => take 32 b ++ drop (length b) key) (DecodeString src)).
Proof.
  intros Hk. split.
  - intros k Hlen. unfold FromString, key_String. rewrite decode_encode. f_equal.
    rewrite Hk, take_app_le by lia. apply take_ge. lia.
  - intros src. unfold FromString. destruct (DecodeString src) as [b|]; [|done]. simpl. f_equal. rewrite Hk.
    rewrite take_app. f_equal. apply take_ge. rewrite length_drop. lia.
Qed.

(** An empty string is read as the zero key. *)
Lemma key_text_witness :
  FromString (zero_bytes 32) EmptyString = Some (zero_bytes 32) /\
  FromString (zero_bytes 32) (key_String (replicate 32 Byte.x2a)) = Some (replicate 32 Byte.x2a).
Proof.
  destruct (key_text (zero_bytes 32) eq_refl) as [H1 H2].
  split; [rewrite H2; reflexivity|apply H1; reflexivity].
Defined.

End Text.
