(* ===== verification/Pools.v ===== *)
(** The pools: src/internal/transport/pools.go.

    A [WaitPool] is a [sync.Pool] with a bound: [Get] counts under a lock and
    waits on a condition while the bound is reached, [Put] gives an object back,
    counts down and signals, without the lock.  The operations of several
    threads interleave at each access to the lock, the counter and the list of
    waiters; [pool_exec] is one such access of one thread.  Of package sync, the
    model has what its documentation says: a mutex, a condition whose [Wait]
    enters the list of waiters before it releases the lock and whose [Signal]
    wakes the first of the list, and a pool that gives any object put into it or
    a new one, and may drop objects. *)
From S2P Require Import Prelude.
From stdpp Require Import prelude list relations.
Open Scope Z_scope.

Module Pools.

(** Where a thread is in its call. *)
Inductive phase :=
| Idle
| Locked        (* Get: holds the lock, about to load the counter *)
| Full          (* Get: holds the lock, has seen no room, about to Wait *)
| Registered    (* Wait: in the list of waiters, about to unlock *)
| Asleep        (* Wait: unlocked; to lock again once it was signalled *)
| Room          (* Get: holds the lock, has seen room *)
| Counted       (* Get: has counted, about to unlock *)
| Taking        (* Get: about to take an object from the pool *)
| Returned      (* Put: has given the object back, about to count down *)
| Decremented.  (* Put: has counted down, about to signal *)

#[global] Instance phase_eq_dec : EqDecision phase.
Proof. solve_decision. Defined.

Record thread := mkThread { th_phase : phase; th_held : list nat }.

Record WaitPool := mkWaitPool {
  lock : option nat;          (* the thread that holds it *)
  count : Z;                  (* atomic.Uint32 *)
  waiters : list nat;         (* the condition's list *)
  free : list nat;            (* what is in the sync.Pool *)
  fresh : nat;                (* the next new object *)
  threads : list thread;
}.

(** A pool nobody has used yet, and [n] threads. *)
Definition NewWaitPool (n : nat) : WaitPool := mkWaitPool None 0 [] [] 0 (replicate n (mkThread Idle [])).

Inductive action :=
| Call_Get (i : nat)
| Load (i : nat)
| Wait_Add (i : nat)
| Wait_Unlock (i : nat)
| Wait_Lock (i : nat)
| Count (i : nat)
| Unlock (i : nat)
| Take (i : nat) (x : option nat)     (* an object of the pool, or a new one *)
| Call_Put (i : nat) (x : nat)
| Uncount (i : nat)
| Signal (i : nat)
| Collect (x : nat).                  (* the garbage collector empties the pool *)

Section WaitPool.
Context (max : Z).

Definition in_phase (s : WaitPool) (i : nat) (p : phase) : option (list nat) :=
  match threads s !! i with
  | Some th => if bool_decide (th_phase th = p) then Some (th_held th) else None
  | None => None
  end.

Definition remove_one (x : nat) (l : list nat) : list nat := list_difference l [x].

(** One access of a thread; [None] where it can not be made. *)
Definition pool_exec (a : action) (s : WaitPool) : option WaitPool :=
  let set i p held := <[i := mkThread p held]> (threads s) in
  match a with
  | Call_Get i =>
      held ← in_phase s i Idle;
      if max =? 0 then Some (mkWaitPool (lock s) (count s) (waiters s) (free s) (fresh s) (set i Taking held))
      else match lock s with
           | None => Some (mkWaitPool (Some i) (count s) (waiters s) (free s) (fresh s) (set i Locked held))
           | Some _ => None
           end
  | Load i =>
      held ← in_phase s i Locked;
      Some (mkWaitPool (lock s) (count s) (waiters s) (free s) (fresh s)
        (set i (if max <=? count s then Full else Room) held))
  | Wait_Add i =>
      held ← in_phase s i Full;
      Some (mkWaitPool (lock s) (count s) (waiters s ++ [i]) (free s) (fresh s) (set i Registered held))
  | Wait_Unlock i =>
      held ← in_phase s i Registered;
      Some (mkWaitPool None (count s) (waiters s) (free s) (fresh s) (set i Asleep held))
  | Wait_Lock i =>
      held ← in_phase s i Asleep;
      if bool_decide (i ∈ waiters s) then None
      else match lock s with
           | None => Some (mkWaitPool (Some i) (count s) (waiters s) (free s) (fresh s) (set i Locked held))
           | Some _ => None
           end
  | Count i =>
      held ← in_phase s i Room;
      Some (mkWaitPool (lock s) (u32 (count s + 1)) (waiters s) (free s) (fresh s) (set i Counted held))
  | Unlock i =>
      held ← in_phase s i Counted;
      Some (mkWaitPool None (count s) (waiters s) (free s) (fresh s) (set i Taking held))
  | Take i None =>
      held ← in_phase s i Taking;
      Some (mkWaitPool (lock s) (count s) (waiters s) (free s) (S (fresh s)) (set i Idle (fresh s :: held)))
  | Take i (Some x) =>
      held ← in_phase s i Taking;
      if bool_decide (x ∈ free s) then
        Some (mkWaitPool (lock s) (count s) (waiters s) (remove_one x (free s)) (fresh s) (set i Idle (x :: held)))
      else None
  | Call_Put i x =>
      held ← in_phase s i Idle;
      if bool_decide (x ∈ held) then
        Some (mkWaitPool (lock s) (count s) (waiters s) (x :: free s) (fresh s)
          (set i (if max =? 0 then Idle else Returned) (remove_one x held)))
      else None
  | Uncount i =>
      held ← in_phase s i Returned;
      Some (mkWaitPool (lock s) (u32 (count s + (2 ^ 32 - 1))) (waiters s) (free s) (fresh s) (set i Decremented held))
  | Signal i =>
      held ← in_phase s i Decremented;
      Some (mkWaitPool (lock s) (count s) (tail (waiters s)) (free s) (fresh s) (set i Idle held))
  | Collect x =>
      Some (mkWaitPool (lock s) (count s) (waiters s) (remove_one x (free s)) (fresh s) (threads s))
  end.

Fixpoint pool_exec_all (l : list action) (s : WaitPool) : option WaitPool :=
  match l with
  | [] => Some s
  | a :: l => s ← pool_exec a s; pool_exec_all l s
  end.

Inductive step (s s' : WaitPool) : Prop :=
| pool_step_exec a : pool_exec a s = Some s' -> step s s'.

Definition reachable (s : WaitPool) : Prop := exists n, rtc step (NewWaitPool n) s.

(** ** The invariant *)

(** The phases in which a thread holds the lock, and those in which it has been
    counted for an object it does not hold. *)
Definition locking (p : phase) : bool :=
  match p with Locked | Full | Registered | Room | Counted => true | _ => false end.
Definition owed (p : phase) : nat := match p with Counted | Taking | Returned => 1 | _ => 0 end.
Definition weight (th : thread) : nat := length (th_held th) + owed (th_phase th).
Definition weights (l : list thread) : nat := sum_list_with weight l.
Definition held_all (l : list thread) : list nat := concat (map th_held l).

Record pool_ok (s : WaitPool) : Prop := {
  ok_lock : forall i th, threads s !! i = Some th -> (lock s = Some i <-> locking (th_phase th) = true);
  ok_count : max <> 0 -> count s = Z.of_nat (weights (threads s)) /\ count s <= max;
  ok_room : max <> 0 -> forall i th, threads s !! i = Some th -> th_phase th = Room -> count s < max;
  ok_objects : NoDup (free s ++ held_all (threads s));
  ok_fresh : Forall (fun x => (x < fresh s)%nat) (free s ++ held_all (threads s));
}.

Lemma weights_insert l i th th' : l !! i = Some th ->
  (weights (<[i := th']> l) + weight th = weights l + weight th')%nat.
Proof.
  unfold weights. revert i. induction l as [|x l IH]; intros [|i] H; simpl in *; try done.
  - injection H as ->. lia.
  - specialize (IH i H). lia.
Qed.

Lemma held_insert l i th th' : l !! i = Some th ->
  held_all (<[i := th']> l) ++ th_held th ≡ₚ held_all l ++ th_held th'.
Proof.
  unfold held_all. revert i. induction l as [|x l IH]; intros [|i] H; simpl in *; try done.
  - injection H as ->. solve_Permutation.
  - rewrite <- !app_assoc. by rewrite (IH i H).
Qed.

Lemma NoDup_held l i th : l !! i = Some th -> NoDup (held_all l) -> NoDup (th_held th).
Proof.
  unfold held_all. revert i. induction l as [|x l IH]; intros [|i] H Hn; simpl in *; try done.
  - injection H as ->. by apply NoDup_app in Hn as [? _].
  - apply NoDup_app in Hn as (_ & _ & Hn). by apply (IH i).
Qed.

Lemma remove_one_perm x l : x ∈ l -> NoDup l -> x :: remove_one x l ≡ₚ l.
Proof.
  intros Hx Hl. apply NoDup_Permutation.
  - constructor; [|by apply NoDup_list_difference]. intros H%list_elem_of_difference. set_solver.
  - done.
  - intros y. rewrite elem_of_cons. unfold remove_one. rewrite list_elem_of_difference. destruct (decide (y = x)); set_solver.
Qed.

(** What a change of one thread has to respect. *)
Lemma pool_ok_update s i th th' lk ct ws fr nx extra :
  pool_ok s -> threads s !! i = Some th ->
  (lk = Some i <-> locking (th_phase th') = true) ->
  (forall j, j <> i -> lk = Some j <-> lock s = Some j) ->
  (max <> 0 -> ct + Z.of_nat (weight th) = count s + Z.of_nat (weight th') /\ ct <= max) ->
  (max <> 0 -> ct <= count s \/ lock s = Some i) ->
  (max <> 0 -> th_phase th' = Room -> ct < max) ->
  NoDup extra -> Forall (fun x => fresh s <= x < nx)%nat extra -> (fresh s <= nx)%nat ->
  fr ++ th_held th' ≡ₚ extra ++ free s ++ th_held th ->
  pool_ok (mkWaitPool lk ct ws fr nx (<[i := th']> (threads s))).
Proof.
  intros Hok Hi Hlk Hothers Hct Hdown Hroom Hnd Hex Hnx Hp.
  assert (Hall : fr ++ held_all (<[i := th']> (threads s)) ≡ₚ extra ++ free s ++ held_all (threads s)).
  { apply (Permutation_app_inv_r (th_held th)). rewrite <- !app_assoc, (held_insert _ i th th' Hi).
    rewrite (Permutation_app_comm (held_all _) (th_held th')), (app_assoc fr), Hp. solve_Permutation. }
  assert (Hget : forall j x, <[i := th']> (threads s) !! j = Some x ->
    (j = i /\ x = th') \/ (j <> i /\ threads s !! j = Some x)).
  { intros j x. destruct (decide (j = i)) as [->|Hne].
    - rewrite list_lookup_insert_eq by by eapply lookup_lt_Some. intros [= <-]. by left.
    - rewrite list_lookup_insert_ne by done. by right. }
  constructor; simpl.
  - intros j x [[-> ->]|[Hne Hj]]%Hget; [done|]. rewrite Hothers by done. by apply (ok_lock s Hok).
  - intros Hm. destruct (ok_count s Hok Hm) as [Hc _]. destruct (Hct Hm) as [H1 H2]. split; [|done].
    pose proof (weights_insert (threads s) i th th' Hi). lia.
  - intros Hm j x [[-> ->]|[Hne Hj]]%Hget Hx; [by apply Hroom|]. destruct (Hdown Hm) as [Hle|Hl].
    + pose proof (ok_room s Hok Hm j x Hj Hx). lia.
    + pose proof (proj2 (ok_lock s Hok j x Hj)) as Hl'. rewrite Hx, Hl in Hl'. by injection (Hl' eq_refl) as ->.
  - rewrite Hall. apply NoDup_app. split; [done|]. split; [|apply (ok_objects s Hok)].
    intros x Hx Hx'. pose proof (ok_fresh s Hok) as Hf. rewrite Forall_forall in Hf, Hex.
    specialize (Hf x Hx'). specialize (Hex x Hx). lia.
  - rewrite Hall. apply Forall_app. split.
    + eapply Forall_impl; [exact Hex|]. simpl. lia.
    + eapply Forall_impl; [apply (ok_fresh s Hok)|]. simpl. lia.
Qed.

Lemma in_phase_Some s i p held : in_phase s i p = Some held <-> threads s !! i = Some (mkThread p held).
Proof.
  unfold in_phase. destruct (threads s !! i) as [[q h]|]; [|done]. simpl. case_bool_decide; split; congruence.
Qed.

(** The lock is with the thread that says so, and with no other. *)
Lemma lock_holder s i p held : pool_ok s -> threads s !! i = Some (mkThread p held) ->
  if locking p then lock s = Some i else lock s <> Some i.
Proof.
  intros Hok Hi. pose proof (ok_lock s Hok i _ Hi) as H. simpl in H.
  destruct (locking p); [by apply H|]. by intros Hl%H.
Qed.

(** The cases in which no object moves. *)
Lemma pool_ok_quiet s i p p' held lk ct ws :
  pool_ok s -> threads s !! i = Some (mkThread p held) ->
  (lk = Some i <-> locking p' = true) ->
  (forall j, j <> i -> lk = Some j <-> lock s = Some j) ->
  (max <> 0 -> ct + Z.of_nat (owed p) = count s + Z.of_nat (owed p') /\ ct <= max) ->
  (max <> 0 -> ct <= count s \/ lock s = Some i) ->
  (max <> 0 -> p' = Room -> ct < max) ->
  pool_ok (mkWaitPool lk ct ws (free s) (fresh s) (<[i := mkThread p' held]> (threads s))).
Proof.
  intros Hok Hi H1 H2 H3 H4 H5. eapply (pool_ok_update s i _ _ _ _ _ _ _ []); try (done || by constructor).
  intros Hm. destruct (H3 Hm). unfold weight. simpl. lia.
Qed.

Lemma counted_positive s i th : pool_ok s -> max <> 0 -> threads s !! i = Some th ->
  Z.of_nat (weight th) <= count s.
Proof.
  intros Hok Hm Hi. destruct (ok_count s Hok Hm) as [-> _]. apply inj_le. unfold weights.
  revert i Hi. induction (threads s) as [|x l IH]; intros [|i] H; simpl in *; try done.
  - injection H as ->. lia.
  - specialize (IH i H). lia.
Qed.

Lemma pool_ok_collect s x : pool_ok s ->
  pool_ok (mkWaitPool (lock s) (count s) (waiters s) (remove_one x (free s)) (fresh s) (threads s)).
Proof.
  intros [H1 H2 H3 H4 H5]. constructor; simpl; try done.
  - apply NoDup_app in H4 as (N1 & N2 & N3). apply NoDup_app. split; [by apply NoDup_list_difference|].
    split; [|done]. intros y [Hy _]%list_elem_of_difference. by apply N2.
  - apply Forall_app in H5 as [F1 F2]. apply Forall_app. split; [by apply Forall_list_difference|done].
Qed.

Context (max_range : 0 <= max < 2 ^ 32).

Lemma take_pooled_ok s i held x : pool_ok s -> threads s !! i = Some (mkThread Taking held) -> x ∈ free s ->
  pool_ok (mkWaitPool (lock s) (count s) (waiters s) (remove_one x (free s)) (fresh s)
    (<[i := mkThread Idle (x :: held)]> (threads s))).
Proof.
  intros Hok Hi Hx. pose proof (lock_holder s i _ _ Hok Hi) as Hl. simpl in Hl.
  eapply (pool_ok_update s i _ _ _ _ _ _ _ []); try (done || by constructor).
  - intros Hm. destruct (ok_count s Hok Hm). unfold weight. simpl. lia.
  - simpl. rewrite <- Permutation_middle. simpl. change (x :: remove_one x (free s) ++ held) with
      ((x :: remove_one x (free s)) ++ held). rewrite remove_one_perm; [done|done|].
    by pose proof (ok_objects s Hok) as [? _]%NoDup_app.
Qed.

Lemma take_new_ok s i held : pool_ok s -> threads s !! i = Some (mkThread Taking held) ->
  pool_ok (mkWaitPool (lock s) (count s) (waiters s) (free s) (S (fresh s))
    (<[i := mkThread Idle (fresh s :: held)]> (threads s))).
Proof.
  intros Hok Hi. pose proof (lock_holder s i _ _ Hok Hi) as Hl. simpl in Hl.
  eapply (pool_ok_update s i _ _ _ _ _ _ _ [fresh s]); try (done || lia || (repeat constructor; lia || set_solver)).
  - intros Hm. destruct (ok_count s Hok Hm). unfold weight. simpl. lia.
  - simpl. by rewrite <- Permutation_middle.
Qed.

Lemma put_ok s i held x : pool_ok s -> threads s !! i = Some (mkThread Idle held) -> x ∈ held ->
  pool_ok (mkWaitPool (lock s) (count s) (waiters s) (x :: free s) (fresh s)
    (<[i := mkThread (if max =? 0 then Idle else Returned) (remove_one x held)]> (threads s))).
Proof.
  intros Hok Hi Hx. pose proof (lock_holder s i _ _ Hok Hi) as Hl. simpl in Hl.
  assert (Hp : x :: remove_one x held ≡ₚ held).
  { apply remove_one_perm; [done|]. pose proof (ok_objects s Hok) as (_ & _ & Hn)%NoDup_app.
    exact (NoDup_held _ _ _ Hi Hn). }
  eapply (pool_ok_update s i _ _ _ _ _ _ _ []); try (done || by constructor).
  - simpl. destruct (max =? 0); simpl; split; (done || tauto).
  - intros Hm. destruct (ok_count s Hok Hm). rewrite (proj2 (Z.eqb_neq _ _)) by done. unfold weight.
    simpl. apply Permutation_length in Hp. simpl in Hp. lia.
  - intros Hm. by rewrite (proj2 (Z.eqb_neq _ _)).
  - simpl. rewrite Permutation_middle, Hp. done.
Qed.

(** The counter goes down without a wrap, since the thread is counted. *)
Lemma uncount_exact s i held : pool_ok s -> threads s !! i = Some (mkThread Returned held) -> max <> 0 ->
  u32 (count s + (2 ^ 32 - 1)) = count s - 1.
Proof.
  intros Hok Hi Hm. pose proof (counted_positive s i _ Hok Hm Hi) as Hw. destruct (ok_count s Hok Hm).
  unfold weight in Hw. simpl in Hw. unfold u32.
  replace (count s + (2 ^ 32 - 1)) with (count s - 1 + 1 * 2 ^ 32) by lia.
  rewrite Z.mod_add by done. apply Z.mod_small. lia.
Qed.

(** Closes what [pool_ok_quiet] asks where the counter stays. *)
Ltac quiet_case Hc :=
  eapply pool_ok_quiet; try done;
  try (intros _; left; lia);
  try (let Hm := fresh in intros Hm; destruct (Hc Hm); simpl; lia);
  try (intros ? ?; split; congruence).

Lemma pool_exec_ok a s s' : pool_exec a s = Some s' -> pool_ok s -> pool_ok s'.
Proof.
  intros He Hok. pose proof (fun Hm => ok_count s Hok Hm) as Hc.
  destruct a as [i|i|i|i|i|i|i|i [x|]|i x|i|i|x]; simpl in He;
    try (destruct (in_phase s i _) as [held|] eqn:Hi; [|done]; apply in_phase_Some in Hi; simpl in He;
      pose proof (lock_holder s i _ _ Hok Hi) as Hl; simpl in Hl).
  - destruct (Z.eqb_spec max 0) as [Hm|Hm]; [injection He as <-; by eapply pool_ok_quiet|].
    destruct (lock s) eqn:El; [done|]. injection He as <-. quiet_case Hc.
  - injection He as <-. quiet_case Hc.
    + rewrite Hl. by destruct (max <=? count s).
    + intros Hm. destruct (Hc Hm). destruct (max <=? count s); simpl; lia.
    + intros _. destruct (Z.leb_spec max (count s)); [done|]. lia.
  - injection He as <-. quiet_case Hc.
  - injection He as <-. quiet_case Hc.
  - case_bool_decide; [done|]. destruct (lock s) eqn:El; [done|]. injection He as <-. quiet_case Hc.
  - injection He as <-. eapply pool_ok_quiet; try done; [|intros _; by right].
    intros Hm. pose proof (ok_room s Hok Hm i _ Hi eq_refl). destruct (Hc Hm).
    rewrite u32_small by lia. simpl. lia.
  - injection He as <-. quiet_case Hc.
  - case_bool_decide as Hx; [|done]. injection He as <-. by apply take_pooled_ok.
  - injection He as <-. by apply take_new_ok.
  - case_bool_decide as Hx; [|done]. injection He as <-. by apply put_ok.
  - injection He as <-. eapply pool_ok_quiet; try done; intros Hm; rewrite (uncount_exact s i held) by done.
    + destruct (Hc Hm). simpl. lia.
    + left. lia.
  - injection He as <-. quiet_case Hc.
  - injection He as <-. by apply pool_ok_collect.
Qed.

Lemma new_ok n : pool_ok (NewWaitPool n).
Proof.
  assert (Hh : held_all (replicate n (mkThread Idle [])) = []).
  { unfold held_all. induction n; simpl; auto. }
  constructor; simpl.
  - intros i th H. apply lookup_replicate in H as [-> _]. done.
  - intros Hm. split; [|lia]. unfold weights. induction n; simpl; auto.
  - intros Hm i th H. by apply lookup_replicate in H as [-> _].
  - rewrite Hh. constructor.
  - rewrite Hh. constructor.
Qed.

Lemma pool_reachable_ok s : reachable s -> pool_ok s.
Proof.
  intros [n H]. assert (Hok := new_ok n). induction H as [|x y z [a Ha] _ IH]; [done|].
  apply IH. by eapply pool_exec_ok.
Qed.

Lemma held_weights l : (length (held_all l) <= weights l)%nat.
Proof.
  unfold held_all, weights. induction l as [|th l IH]; simpl; [done|]. rewrite length_app. unfold weight at 1. lia.
Qed.

(** C18. However the calls interleave: no object is in two hands, or in a hand and
    in the pool; and a pool with a bound has never more objects out than the bound,
    its counter being the objects that are out or about to be, without a
    wrap-around. *)
Theorem pool_safe s :
  reachable s ->
  NoDup (free s ++ held_all (threads s)) /\
  (max <> 0 -> Z.of_nat (length (held_all (threads s))) <= count s <= max /\
               count s = Z.of_nat (weights (threads s))).
Proof.
  intros H%pool_reachable_ok. split; [apply (ok_objects s H)|]. intros Hm. destruct (ok_count s H Hm) as [Hc Hb].
  pose proof (held_weights (threads s)). lia.
Qed.

End WaitPool.

(** ** The pools of the transport *)

Definition PreallocatedBuffersPerPool : Z := 0.

(** The pools of the transport are made without a bound
    ([PreallocatedBuffersPerPool] is 0): a thread that calls [Get] in any state has
    an object after its own next two accesses, whatever the others do. *)
Theorem get_never_blocks s i held :
  threads s !! i = Some (mkThread Idle held) ->
  exists s', pool_exec_all PreallocatedBuffersPerPool [Call_Get i; Take i None] s = Some s' /\
    threads s' !! i = Some (mkThread Idle (fresh s :: held)).
Proof.
  intros Hi. unfold pool_exec_all, pool_exec, in_phase. rewrite Hi. cbn [th_phase th_held]. rewrite bool_decide_true by done.
  simpl. rewrite list_lookup_insert_eq by by eapply lookup_lt_Some. simpl.
  eexists. split; [done|]. simpl.
  apply list_lookup_insert_eq. rewrite length_insert. by eapply lookup_lt_Some.
Qed.

Lemma pool_exec_all_rtc max l : forall s s', pool_exec_all max l s = Some s' -> rtc (step max) s s'.
Proof.
  induction l as [|a l IH]; intros s s' H; simpl in H; [injection H as ->; constructor|].
  destruct (pool_exec max a s) as [s1|] eqn:E; [|done]. simpl in H. econstructor; [by exists a|by apply IH].
Qed.

(** Thread 1 finds the pool of one object empty; before it is among the waiters,
    thread 0 gives the object back and signals. *)
Definition lost_signal : list action :=
  [Call_Get 0; Load 0; Count 0; Unlock 0; Take 0 None;
   Call_Get 1; Load 1; Call_Put 0 0; Uncount 0; Signal 0; Wait_Add 1; Wait_Unlock 1].

(** A bounded pool can lose a wake-up, since [Put] counts down and signals
    without the lock: a thread is asleep although nothing is out, nobody is
    about to signal, and none of its own accesses can go on. *)
Theorem lost_wakeup :
  exists s, reachable 1 s /\ count s = 0 /\ held_all (threads s) = [] /\
    threads s = [mkThread Idle []; mkThread Asleep []] /\ lock s = None /\
    pool_exec 1 (Wait_Lock 1) s = None.
Proof.
  destruct (pool_exec_all 1 lost_signal (NewWaitPool 2)) as [s|] eqn:E; [|by vm_compute in E].
  exists s. split; [exists 2%nat; by eapply pool_exec_all_rtc|]. vm_compute in E. injection E as <-. by vm_compute.
Qed.

Lemma pool_safe_witness :
  exists s, reachable 1 s /\ NoDup (free s ++ held_all (threads s)) /\
    (1 <> 0 -> Z.of_nat (length (held_all (threads s))) <= count s <= 1 /\ count s = Z.of_nat (weights (threads s))).
Proof.
  destruct (pool_exec_all 1 (take 8 lost_signal) (NewWaitPool 2)) as [s|] eqn:E; [|by vm_compute in E].
  assert (Hr : reachable 1 s) by (exists 2%nat; by eapply pool_exec_all_rtc).
  exists s. split; [exact Hr|]. exact (pool_safe 1 ltac:(lia) s Hr).
Defined.

Lemma get_never_blocks_witness :
  exists s', pool_exec_all PreallocatedBuffersPerPool [Call_Get 1; Take 1 None] (NewWaitPool 3) = Some s' /\
    threads s' !! 1%nat = Some (mkThread Idle [0%nat]).
Proof. apply (get_never_blocks (NewWaitPool 3) 1 []). reflexivity. Defined.

End Pools.
