(* ===== verification/Shutdown.v ===== *)
(** Goroutines, queues and shutting down: src/internal/transport/channels.go,
    and what transport.go, peer.go, receive.go and send.go do with the counters
    of package sync.

    The queues of the transport are closed when their WaitGroup is at zero, so
    each routine that writes to one holds a reference.  The model has the
    routines as numbers, the WaitGroups and the queues' lengths, and as one step
    each access to them: starting and stopping routines, sending on a queue,
    waiting, closing, and the statements of [Close].  The packets themselves are
    modelled in the other files. *)
From S2P Require Import Prelude.
From stdpp Require Import prelude list relations.
From Stdlib Require Import ZifyBool.

Module Shutdown.

(** Where [Close] is; [Serving] before it is called. *)
Inductive Stage :=
| Serving
| At_sink        (* the state is stored; sourceSink.Close comes next *)
| At_bind        (* net.bind.Close *)
| At_net_wait    (* net.stopping.Wait *)
| At_peers       (* the peers are stopped *)
| At_encryption  (* queue.encryption.wg.Done *)
| At_decryption
| At_handshake
| At_state_wait  (* state.stopping.Wait *)
| At_limiter     (* rate.limiter.Close, close(transport.closed) *)
| Closed.

#[global] Instance Stage_eq_dec : EqDecision Stage.
Proof. solve_decision. Defined.

Definition rank (st : Stage) : nat :=
  match st with
  | Serving => 0 | At_sink => 1 | At_bind => 2 | At_net_wait => 3 | At_peers => 4 | At_encryption => 5
  | At_decryption => 6 | At_handshake => 7 | At_state_wait => 8 | At_limiter => 9 | Closed => 10
  end.

(** A queue: what is in its channel, its WaitGroup, and the goroutine of its
    constructor, which waits and then closes the channel. *)
Record queue := mkQueue { q_len : nat; q_wg : Z; q_waited : bool; q_closed : bool }.

(** [newOutboundQueue], and the like for the other two: one reference. *)
Definition newOutboundQueue : queue := mkQueue 0 1 false false.
Definition newInboundQueue : queue := mkQueue 0 1 false false.
Definition newHandshakeQueue : queue := mkQueue 0 1 false false.

(** [wg.Add]. *)
Definition wg_add (n : Z) (q : queue) : queue := mkQueue (q_len q) (q_wg q + n) (q_waited q) (q_closed q).

Record routines := mkRoutines {
  stage : Stage;
  reader : bool;                        (* RoutineReadFromSourceSink *)
  receivers : nat;                      (* RoutineReceiveIncoming *)
  encryptors : nat;
  decryptors : nat;
  handshakers : nat;
  running : nat;                        (* peers *)
  stopping : option (bool * bool);      (* the peer in Stop: its two routines *)
  encryption : queue;
  decryption : queue;
  handshake : queue;
  net_stopping : Z;                     (* net.stopping *)
  state_stopping : Z;                   (* state.stopping *)
  panicked : bool;                      (* a send on a closed channel, or a negative WaitGroup *)
}.

Section Shutdown.
Context (cpus : nat).

(** What [NewTransport] starts: a reference for each handshake worker and one for
    the reader. *)
Definition NewTransport_routines : routines :=
  mkRoutines Serving true 0 cpus cpus cpus 0 None
    (wg_add 1 (wg_add (Z.of_nat cpus) newOutboundQueue)) newInboundQueue newHandshakeQueue 0 1 false.

(** *** Setters *)

Definition upd_stage (st : Stage) (s : routines) : routines :=
  mkRoutines st (reader s) (receivers s) (encryptors s) (decryptors s) (handshakers s) (running s) (stopping s)
    (encryption s) (decryption s) (handshake s) (net_stopping s) (state_stopping s) (panicked s).
Definition upd_queues (e d h : queue) (s : routines) : routines :=
  mkRoutines (stage s) (reader s) (receivers s) (encryptors s) (decryptors s) (handshakers s) (running s) (stopping s)
    e d h (net_stopping s) (state_stopping s) (panicked s).
Definition upd_workers (e d h : nat) (s : routines) : routines :=
  mkRoutines (stage s) (reader s) (receivers s) e d h (running s) (stopping s)
    (encryption s) (decryption s) (handshake s) (net_stopping s) (state_stopping s) (panicked s).
Definition upd_inputs (r : bool) (n : nat) (s : routines) : routines :=
  mkRoutines (stage s) r n (encryptors s) (decryptors s) (handshakers s) (running s) (stopping s)
    (encryption s) (decryption s) (handshake s) (net_stopping s) (state_stopping s) (panicked s).
Definition upd_peers (n : nat) (p : option (bool * bool)) (s : routines) : routines :=
  mkRoutines (stage s) (reader s) (receivers s) (encryptors s) (decryptors s) (handshakers s) n p
    (encryption s) (decryption s) (handshake s) (net_stopping s) (state_stopping s) (panicked s).
Definition upd_waits (n st : Z) (s : routines) : routines :=
  mkRoutines (stage s) (reader s) (receivers s) (encryptors s) (decryptors s) (handshakers s) (running s) (stopping s)
    (encryption s) (decryption s) (handshake s) n st (panicked s).
Definition panic (b : bool) (s : routines) : routines :=
  mkRoutines (stage s) (reader s) (receivers s) (encryptors s) (decryptors s) (handshakers s) (running s) (stopping s)
    (encryption s) (decryption s) (handshake s) (net_stopping s) (state_stopping s) (panicked s || b).

(** *** WaitGroups and channels *)

Definition push (q : queue) : queue := mkQueue (S (q_len q)) (q_wg q) (q_waited q) (q_closed q).
Definition pop (q : queue) : queue := mkQueue (pred (q_len q)) (q_wg q) (q_waited q) (q_closed q).

Definition enc_add (n : Z) (s : routines) : routines :=
  panic (q_wg (encryption s) + n <? 0)%Z (upd_queues (wg_add n (encryption s)) (decryption s) (handshake s) s).
Definition dec_add (n : Z) (s : routines) : routines :=
  panic (q_wg (decryption s) + n <? 0)%Z (upd_queues (encryption s) (wg_add n (decryption s)) (handshake s) s).
Definition hs_add (n : Z) (s : routines) : routines :=
  panic (q_wg (handshake s) + n <? 0)%Z (upd_queues (encryption s) (decryption s) (wg_add n (handshake s)) s).
Definition net_add (n : Z) (s : routines) : routines :=
  panic (net_stopping s + n <? 0)%Z (upd_waits (net_stopping s + n) (state_stopping s) s).
Definition state_add (n : Z) (s : routines) : routines :=
  panic (state_stopping s + n <? 0)%Z (upd_waits (net_stopping s) (state_stopping s + n) s).

Definition enc_send (s : routines) : routines :=
  panic (q_closed (encryption s)) (upd_queues (push (encryption s)) (decryption s) (handshake s) s).
Definition dec_send (s : routines) : routines :=
  panic (q_closed (decryption s)) (upd_queues (encryption s) (push (decryption s)) (handshake s) s).
Definition hs_send (s : routines) : routines :=
  panic (q_closed (handshake s)) (upd_queues (encryption s) (decryption s) (push (handshake s)) s).

(** *** Steps *)

Inductive action :=
(* the API, while the transport is not closed *)
| Bind_Open (n : nat)      (* BindUpdate starts n receivers; it may have found the transport up
                              just before Close and holds the net lock *)
| Peer_Start
| Close_Begin
(* routines that write *)
| Reader_Sends | Receiver_Sends_packet | Receiver_Sends_handshake | Peer_Sends
(* routines that take and end *)
| Reader_Ends | Receiver_Ends
| Encryption_Takes | Encryption_Ends
| Decryption_Takes | Decryption_Ends
| Handshake_Takes (sends : bool) | Handshake_Ends
| Sender_Ends | SequentialReceiver_Ends
(* Stop of a peer *)
| Peer_Stop | Peer_Stopped
(* the goroutines of the queues *)
| Encryption_Waited | Encryption_Closed
| Decryption_Waited | Decryption_Closed
| Handshake_Waited | Handshake_Closed
(* the next statement of Close *)
| Close_Next.

Definition waited (q : queue) : option queue :=
  if negb (q_waited q) && (q_wg q =? 0)%Z then Some (mkQueue (q_len q) (q_wg q) true (q_closed q)) else None.
Definition close_channel (q : queue) : option queue :=
  if q_waited q && negb (q_closed q) then Some (mkQueue (q_len q) (q_wg q) (q_waited q) true) else None.

Definition busy (p : option (bool * bool)) : bool := match p with Some _ => true | None => false end.

(** The guard of a step. *)
Definition guard (b : bool) (s : routines) : option routines := if b then Some s else None.

Definition close_next (s : routines) : option routines :=
  match stage s with
  | Serving => None
  | At_sink => Some (upd_stage At_bind s)
  | At_bind => Some (upd_stage At_net_wait s)
  | At_net_wait => guard (net_stopping s =? 0)%Z (upd_stage At_peers s)
  | At_peers => guard ((running s =? 0) && negb (busy (stopping s))) (upd_stage At_encryption s)
  | At_encryption => Some (upd_stage At_decryption (enc_add (-1) s))
  | At_decryption => Some (upd_stage At_handshake (dec_add (-1) s))
  | At_handshake => Some (upd_stage At_state_wait (hs_add (-1) s))
  | At_state_wait => guard (state_stopping s =? 0)%Z (upd_stage At_limiter s)
  | At_limiter => Some (upd_stage Closed s)
  | Closed => None
  end.

(** The bounds of the channels are [QueueOutboundSize] and the like. *)
Definition capacity : nat := 1024.
Definition room (q : queue) : bool := q_len q <? capacity.

Definition routines_exec (a : action) (s : routines) : option routines :=
  match a with
  | Bind_Open n =>
      guard ((rank (stage s) <=? 2) && (net_stopping s =? 0)%Z && (receivers s =? 0))
        (net_add (Z.of_nat n) (dec_add (Z.of_nat n) (hs_add (Z.of_nat n) (upd_inputs (reader s) n s))))
  | Peer_Start => guard (rank (stage s) =? 0) (enc_add 1 (upd_peers (S (running s)) (stopping s) s))
  | Close_Begin => guard (rank (stage s) =? 0) (upd_stage At_sink s)
  | Reader_Sends => guard (reader s && room (encryption s)) (enc_send s)
  | Receiver_Sends_packet => guard ((0 <? receivers s) && room (decryption s)) (dec_send s)
  | Receiver_Sends_handshake => guard ((0 <? receivers s) && room (handshake s)) (hs_send s)
  | Peer_Sends =>
      guard (((0 <? running s) || busy (stopping s)) && room (encryption s)) (enc_send s)
  | Reader_Ends => guard (reader s) (enc_add (-1) (state_add (-1) (upd_inputs false (receivers s) s)))
  | Receiver_Ends =>
      guard (0 <? receivers s)
        (net_add (-1) (hs_add (-1) (dec_add (-1) (upd_inputs (reader s) (pred (receivers s)) s))))
  | Encryption_Takes =>
      guard ((0 <? encryptors s) && (0 <? q_len (encryption s)))
        (upd_queues (pop (encryption s)) (decryption s) (handshake s) s)
  | Encryption_Ends =>
      guard ((0 <? encryptors s) && (q_len (encryption s) =? 0) && q_closed (encryption s))
        (upd_workers (pred (encryptors s)) (decryptors s) (handshakers s) s)
  | Decryption_Takes =>
      guard ((0 <? decryptors s) && (0 <? q_len (decryption s)))
        (upd_queues (encryption s) (pop (decryption s)) (handshake s) s)
  | Decryption_Ends =>
      guard ((0 <? decryptors s) && (q_len (decryption s) =? 0) && q_closed (decryption s))
        (upd_workers (encryptors s) (pred (decryptors s)) (handshakers s) s)
  | Handshake_Takes sends =>
      guard ((0 <? handshakers s) && (0 <? q_len (handshake s)) && (negb sends || room (encryption s)))
        (let s := upd_queues (encryption s) (decryption s) (pop (handshake s)) s in if sends then enc_send s else s)
  | Handshake_Ends =>
      guard ((0 <? handshakers s) && (q_len (handshake s) =? 0) && q_closed (handshake s))
        (enc_add (-1) (upd_workers (encryptors s) (decryptors s) (pred (handshakers s)) s))
  | Sender_Ends =>
      match stopping s with
      | Some (true, r) => guard (q_len (encryption s) =? 0) (upd_peers (running s) (Some (false, r)) s)
      | _ => None
      end
  | SequentialReceiver_Ends =>
      match stopping s with
      | Some (x, true) => guard (q_len (decryption s) =? 0) (upd_peers (running s) (Some (x, false)) s)
      | _ => None
      end
  | Peer_Stop =>
      guard ((0 <? running s) && negb (busy (stopping s)) && (rank (stage s) <=? 4))
        (upd_peers (pred (running s)) (Some (true, true)) s)
  | Peer_Stopped =>
      match stopping s with
      | Some (false, false) => Some (enc_add (-1) (upd_peers (running s) None s))
      | _ => None
      end
  | Encryption_Waited => q ← waited (encryption s); Some (upd_queues q (decryption s) (handshake s) s)
  | Encryption_Closed => q ← close_channel (encryption s); Some (upd_queues q (decryption s) (handshake s) s)
  | Decryption_Waited => q ← waited (decryption s); Some (upd_queues (encryption s) q (handshake s) s)
  | Decryption_Closed => q ← close_channel (decryption s); Some (upd_queues (encryption s) q (handshake s) s)
  | Handshake_Waited => q ← waited (handshake s); Some (upd_queues (encryption s) (decryption s) q s)
  | Handshake_Closed => q ← close_channel (handshake s); Some (upd_queues (encryption s) (decryption s) q s)
  | Close_Next => close_next s
  end.

Inductive step (s s' : routines) : Prop := step_exec a : routines_exec a s = Some s' -> step s s'.
Definition reachable (s : routines) : Prop := rtc step NewTransport_routines s.

(** ** References *)

Local Open Scope Z_scope.
Definition b2z (b : bool) : Z := Z.b2z b.

(** The writers of each queue, and the reference of the transport. *)
Definition enc_refs (s : routines) : Z :=
  b2z (rank (stage s) <=? 5)%nat + Z.of_nat (handshakers s) + b2z (reader s) + Z.of_nat (running s) + b2z (busy (stopping s)).
Definition dec_refs (s : routines) : Z := b2z (rank (stage s) <=? 6)%nat + Z.of_nat (receivers s).
Definition hs_refs (s : routines) : Z := b2z (rank (stage s) <=? 7)%nat + Z.of_nat (receivers s).

(** A queue with so many references: it is closed after they are gone. *)
Record queue_ok (refs : Z) (workers : nat) (q : queue) : Prop := {
  qk_wg : q_wg q = refs;
  qk_waited : q_waited q = true -> refs = 0;
  qk_closed : q_closed q = true -> q_waited q = true;
  qk_workers : q_closed q = false -> workers = cpus;
}.

Record counted (s : routines) : Prop := {
  k_enc : queue_ok (enc_refs s) (encryptors s) (encryption s);
  k_dec : queue_ok (dec_refs s) (decryptors s) (decryption s);
  k_hs : queue_ok (hs_refs s) (handshakers s) (handshake s);
  k_net : net_stopping s = Z.of_nat (receivers s);
  k_state : state_stopping s = b2z (reader s);
  k_receivers : (4 <= rank (stage s))%nat -> receivers s = 0%nat;
  k_peers : (5 <= rank (stage s))%nat -> running s = 0%nat /\ stopping s = None;
  k_reader : (9 <= rank (stage s))%nat -> reader s = false;
  k_panic : panicked s = false;
}.

Lemma queue_add n r w q : queue_ok r w q -> 0 < r -> queue_ok (r + n) w (wg_add n q).
Proof.
  intros [H1 H2 H3 H4] Hr. constructor; simpl; try done; [by rewrite H1|]. intros Hw. specialize (H2 Hw). lia.
Qed.
Lemma queue_push r w q : queue_ok r w q -> queue_ok r w (push q).
Proof. by intros [H1 H2 H3 H4]. Qed.
Lemma queue_pop r w q : queue_ok r w q -> queue_ok r w (pop q).
Proof. by intros [H1 H2 H3 H4]. Qed.
Lemma queue_open r w q : queue_ok r w q -> 0 < r -> q_closed q = false.
Proof.
  intros [H1 H2 H3 H4] Hr. destruct (q_closed q); [|done]. specialize (H2 (H3 eq_refl)). lia.
Qed.
Lemma queue_wait r w q q' : waited q = Some q' -> queue_ok r w q -> queue_ok r w q'.
Proof.
  unfold waited. destruct (negb _ && _) eqn:Hb; [|done]. intros [= <-] [H1 H2 H3 H4].
  apply andb_true_iff in Hb as [_ Hz%Z.eqb_eq]. constructor; simpl; auto. lia.
Qed.
Lemma queue_close r w q q' : close_channel q = Some q' -> queue_ok r w q -> queue_ok r w q'.
Proof.
  unfold close_channel. destruct (q_waited q && _) eqn:Hb; [|done]. intros [= <-] [H1 H2 H3 H4].
  apply andb_true_iff in Hb as [Hw _]. by constructor; simpl.
Qed.
Lemma queue_refs r r' w q : r = r' -> queue_ok r w q -> queue_ok r' w q.
Proof. by intros ->. Qed.
Lemma queue_worker r w q : queue_ok r w q -> q_closed q = true -> queue_ok r (pred w) q.
Proof. intros [H1 H2 H3 H4] Hc. constructor; try done. by rewrite Hc. Qed.

Lemma initial_counted : counted NewTransport_routines.
Proof. constructor; simpl; try done; try lia; constructor; simpl; try done; unfold enc_refs; simpl; lia. Qed.

(** The guard of a step that is taken. *)
Tactic Notation "guards" hyp(He) "as" ident(Hg) :=
  unfold guard in He;
  match type of He with (if ?b then _ else _) = _ => destruct b eqn:Hg; [|discriminate He] end;
  injection He as <-; unfold room, busy in *.

Ltac refs := unfold enc_refs, dec_refs, hs_refs, b2z, busy in *; simpl in *; rewrite ?Nat2Z.inj_succ in *.

Lemma wg_stays r w q n : queue_ok r w q -> 0 <= r + n -> (q_wg q + n <? 0) = false.
Proof. intros [-> _ _ _] H. by apply Z.ltb_ge. Qed.

(** A goal on a queue of the new state, from the one before. *)
Ltac queue_step :=
  match goal with
  | K : queue_ok _ ?w ?q |- queue_ok _ (Init.Nat.pred ?w) ?q =>
      eapply queue_refs; [|apply queue_worker; [exact K|]]; refs; lia
  | K : queue_ok _ _ ?q |- queue_ok _ _ ?q => eapply queue_refs; [|exact K]; refs; lia
  | K : queue_ok _ _ ?q |- queue_ok _ _ (push ?q) => eapply queue_refs; [|apply queue_push; exact K]; refs; lia
  | K : queue_ok _ _ ?q |- queue_ok _ _ (pop ?q) => eapply queue_refs; [|apply queue_pop; exact K]; refs; lia
  | K : queue_ok _ _ ?q |- queue_ok _ _ (wg_add _ ?q) =>
      eapply queue_refs; [|apply queue_add; [exact K|]]; refs; lia
  end.

(** No panic: the WaitGroup stays at or above zero, the channel is open. *)
Ltac calm_step Kpa :=
  repeat match goal with
  | K : queue_ok ?r _ ?q |- context [q_wg ?q + ?n <? 0] =>
      rewrite (wg_stays _ _ q n K) by (refs; lia)
  | K : queue_ok ?r _ ?q |- context [q_closed ?q] =>
      rewrite (queue_open _ _ q K) by (refs; lia)
  end; rewrite ?Kpa; simpl; refs; lia.

Ltac settle Kpa := constructor; simpl; try assumption; try queue_step; try (refs; lia); try (calm_step Kpa).

Lemma peer_early n m (p : bool * bool) : ((5 <= n)%nat -> m = 0%nat /\ Some p = None) -> (n < 5)%nat.
Proof. intros Kp. destruct (Nat.le_gt_cases 5 n) as [G|G]; [by destruct (Kp G)|done]. Qed.

Lemma close_next_counted s s' : close_next s = Some s' -> counted s -> counted s'.
Proof.
  intros He [Ke Kd Kh Kn Ks Kr Kp Kre Kpa]. unfold close_next in He. unfold enc_refs, dec_refs, hs_refs in Ke, Kd, Kh.
  destruct (stage s) eqn:Est; try done; rewrite ?Est in *; simpl in Ke, Kd, Kh, Kp, Kr, Kre.
  all: first [injection He as <- | guards He as Hg]; settle Kpa; try (intros _; apply Kp; lia).
  intros _. split; [lia|]. by destruct (stopping s); [lia|].
Qed.

Lemma exec_counted a s s' : routines_exec a s = Some s' -> counted s -> counted s'.
Proof.
  intros He [Ke Kd Kh Kn Ks Kr Kp Kre Kpa].
  destruct a as [n| | | | | | | | | | | | |sends| | | | | | | | | | | |]; simpl in He.
  1-13, 15, 18: guards He as Hg; settle Kpa.
  - destruct sends; guards He as Hg; settle Kpa.
  - destruct (stopping s) as [[[] r]|] eqn:Es; [|done|done]. pose proof (peer_early _ _ _ Kp) as Hr.
    guards He as Hg. unfold enc_refs in Ke; rewrite Es in Ke. settle Kpa.
  - destruct (stopping s) as [[x []]|] eqn:Es; [|done|done]. pose proof (peer_early _ _ _ Kp) as Hr.
    guards He as Hg. unfold enc_refs in Ke; rewrite Es in Ke. settle Kpa.
  - destruct (stopping s) as [[[] []]|] eqn:Es; try done. pose proof (peer_early _ _ _ Kp) as Hr.
    injection He as <-. unfold enc_refs in Ke; rewrite Es in Ke. settle Kpa.
  - destruct (waited _) as [q|] eqn:Eq; [|done]. injection He as <-. settle Kpa. by eapply queue_wait.
  - destruct (close_channel _) as [q|] eqn:Eq; [|done]. injection He as <-. settle Kpa. by eapply queue_close.
  - destruct (waited _) as [q|] eqn:Eq; [|done]. injection He as <-. settle Kpa. by eapply queue_wait.
  - destruct (close_channel _) as [q|] eqn:Eq; [|done]. injection He as <-. settle Kpa. by eapply queue_close.
  - destruct (waited _) as [q|] eqn:Eq; [|done]. injection He as <-. settle Kpa. by eapply queue_wait.
  - destruct (close_channel _) as [q|] eqn:Eq; [|done]. injection He as <-. settle Kpa. by eapply queue_close.
  - by eapply close_next_counted.
Qed.

Lemma reachable_counted s : reachable s -> counted s.
Proof.
  unfold reachable. intros H. pose proof initial_counted as H0.
  induction H as [|x y z [a Ha] _ IH]; [done|]. apply IH. by eapply exec_counted.
Qed.

(** C14. The counting of references is right in every reachable state: the
    WaitGroup of each queue is the number of its writers, with the transport's own
    reference until [Close] gives it up; so no routine ever sends on a closed
    channel, no WaitGroup goes below zero, and a queue is closed only when the
    routines that write to it have ended. *)
Theorem channels_safe s :
  reachable s ->
  panicked s = false /\
  q_wg (encryption s) = enc_refs s /\ q_wg (decryption s) = dec_refs s /\ q_wg (handshake s) = hs_refs s /\
  net_stopping s = Z.of_nat (receivers s) /\ state_stopping s = b2z (reader s) /\
  (q_closed (encryption s) = true ->
     (5 < rank (stage s))%nat /\ handshakers s = 0%nat /\ reader s = false /\ running s = 0%nat /\ stopping s = None) /\
  (q_closed (decryption s) = true \/ q_closed (handshake s) = true -> (6 < rank (stage s))%nat /\ receivers s = 0%nat).
Proof.
  intros [Ke Kd Kh Kn Ks Kr Kp Kre Kpa]%reachable_counted. split_and!; try done; [apply Ke|apply Kd|apply Kh| |].
  - intros Hc. destruct Ke as [_ H2 H3 _]. specialize (H2 (H3 Hc)). refs. destruct (stopping s); lia || (split_and!; lia || done || auto).
    all: destruct (reader s); done || lia.
  - intros [Hc|Hc]; [destruct Kd as [_ H2 H3 _]|destruct Kh as [_ H2 H3 _]]; specialize (H2 (H3 Hc)); refs; lia.
Qed.

(** ** Shutting down comes to an end *)

(** The steps that only finish what there is: nothing is started and nothing sent,
    but by a handshake worker on behalf of a message it takes. *)
Definition drains (a : action) : bool :=
  match a with
  | Bind_Open _ | Peer_Start | Close_Begin
  | Reader_Sends | Receiver_Sends_packet | Receiver_Sends_handshake | Peer_Sends => false
  | _ => true
  end.

Local Open Scope nat_scope.

Definition flags (q : queue) : nat := Nat.b2n (negb (q_waited q)) + Nat.b2n (negb (q_closed q)).
Definition peer_left (p : option (bool * bool)) : nat :=
  match p with None => 0 | Some (x, y) => 1 + Nat.b2n x + Nat.b2n y end.

(** What is left to do. *)
Definition left_to_do (s : routines) : nat :=
  (10 - rank (stage s)) + Nat.b2n (reader s) + receivers s + encryptors s + decryptors s + handshakers s +
  4 * running s + peer_left (stopping s) +
  q_len (encryption s) + q_len (decryption s) + 2 * q_len (handshake s) +
  flags (encryption s) + flags (decryption s) + flags (handshake s).

Lemma flags_wait q q' : waited q = Some q' -> flags q' < flags q /\ q_len q' = q_len q.
Proof.
  unfold waited, flags. destruct (negb _ && _) eqn:Hb; [|done]. intros [= <-]. simpl.
  apply andb_true_iff in Hb as [-> _]. simpl. lia.
Qed.
Lemma flags_close q q' : close_channel q = Some q' -> flags q' < flags q /\ q_len q' = q_len q.
Proof.
  unfold close_channel, flags. destruct (q_waited q && _) eqn:Hb; [|done]. intros [= <-]. simpl.
  apply andb_true_iff in Hb as [-> ->]. simpl. lia.
Qed.

Lemma flags_pop q : flags (pop q) = flags q.
Proof. done. Qed.
Lemma flags_push q : flags (push q) = flags q.
Proof. done. Qed.
Lemma flags_add n q : flags (wg_add n q) = flags q.
Proof. done. Qed.

Ltac left_tac := simpl; rewrite ?flags_pop, ?flags_push, ?flags_add; lia.

Lemma drain_decreases a s s' : drains a = true -> routines_exec a s = Some s' -> left_to_do s' < left_to_do s.
Proof.
  intros Hd He.
  destruct a as [n| | | | | | | | | | | | |sends| | | | | | | | | | | |]; try done; simpl in He; unfold left_to_do.
  1-6, 8, 11: guards He as Hg; left_tac.
  - destruct sends; guards He as Hg; left_tac.
  - destruct (stopping s) as [[[] r]|] eqn:Es; [|done|done]. guards He as Hg. left_tac.
  - destruct (stopping s) as [[x []]|] eqn:Es; [|done|done]. guards He as Hg. left_tac.
  - destruct (stopping s) as [[[] []]|] eqn:Es; try done. injection He as <-. left_tac.
  - destruct (waited _) as [q|] eqn:Eq; [|done]. injection He as <-. apply flags_wait in Eq. left_tac.
  - destruct (close_channel _) as [q|] eqn:Eq; [|done]. injection He as <-. apply flags_close in Eq. left_tac.
  - destruct (waited _) as [q|] eqn:Eq; [|done]. injection He as <-. apply flags_wait in Eq. left_tac.
  - destruct (close_channel _) as [q|] eqn:Eq; [|done]. injection He as <-. apply flags_close in Eq. left_tac.
  - destruct (waited _) as [q|] eqn:Eq; [|done]. injection He as <-. apply flags_wait in Eq. left_tac.
  - destruct (close_channel _) as [q|] eqn:Eq; [|done]. injection He as <-. apply flags_close in Eq. left_tac.
  - unfold close_next in He. destruct (stage s) eqn:Est; try done;
      first [injection He as <- | guards He as Hg]; left_tac.
Qed.

(** Everything has ended. *)
Record ended (s : routines) : Prop := {
  e_stage : stage s = Closed;
  e_inputs : reader s = false /\ receivers s = 0;
  e_peers : running s = 0 /\ stopping s = None;
  e_workers : encryptors s = 0 /\ decryptors s = 0 /\ handshakers s = 0;
  e_queues : q_closed (encryption s) = true /\ q_closed (decryption s) = true /\ q_closed (handshake s) = true;
}.

Definition can_drain (s : routines) : Prop := exists a s', drains a = true /\ routines_exec a s = Some s'.

Lemma drain_by a s : drains a = true -> is_Some (routines_exec a s) -> can_drain s.
Proof. intros Hd [s' Hs]. by exists a, s'. Qed.

Lemma guard_Some b s : b = true -> is_Some (guard b s).
Proof. intros ->. by eexists. Qed.

(** A queue without references is closed by its goroutine. *)
Lemma queue_finishes w q : queue_ok 0 w q ->
  is_Some (waited q) \/ is_Some (close_channel q) \/ q_closed q = true.
Proof.
  intros [H1 _ _ _]. unfold waited, close_channel. rewrite H1. destruct (q_waited q), (q_closed q); simpl; eauto.
Qed.

(** The workers of a queue take what is in it, and end once it is closed. *)
Lemma encryptors_finish s : q_closed (encryption s) = true -> encryptors s <> 0 -> can_drain s.
Proof.
  intros Hc Hn. destruct (q_len (encryption s)) eqn:El.
  - apply (drain_by Encryption_Ends); [done|]. apply guard_Some. rewrite El, Hc. simpl. lia.
  - apply (drain_by Encryption_Takes); [done|]. apply guard_Some. lia.
Qed.
Lemma decryptors_finish s : q_closed (decryption s) = true -> decryptors s <> 0 -> can_drain s.
Proof.
  intros Hc Hn. destruct (q_len (decryption s)) eqn:El.
  - apply (drain_by Decryption_Ends); [done|]. apply guard_Some. rewrite El, Hc. simpl. lia.
  - apply (drain_by Decryption_Takes); [done|]. apply guard_Some. lia.
Qed.
Lemma handshakers_finish s : q_closed (handshake s) = true -> handshakers s <> 0 -> can_drain s.
Proof.
  intros Hc Hn. destruct (q_len (handshake s)) eqn:El.
  - apply (drain_by Handshake_Ends); [done|]. apply guard_Some. rewrite El, Hc. simpl. lia.
  - apply (drain_by (Handshake_Takes false)); [done|]. apply guard_Some. simpl. lia.
Qed.

(** A peer that is being stopped is stopped: the workers are there for what its
    routines still have. *)
Lemma peer_finishes s p : 0 < cpus -> counted s -> rank (stage s) <= 4 -> stopping s = Some p -> can_drain s.
Proof.
  intros Hcpu Hok Hr Hp.
  assert (He : q_closed (encryption s) = false) by (apply (queue_open _ _ _ (k_enc s Hok)); refs; lia).
  assert (Hd : q_closed (decryption s) = false) by (apply (queue_open _ _ _ (k_dec s Hok)); refs; lia).
  pose proof (qk_workers _ _ _ (k_enc s Hok) He) as We. pose proof (qk_workers _ _ _ (k_dec s Hok) Hd) as Wd.
  destruct p as [[] y].
  { destruct (q_len (encryption s)) eqn:El.
    - apply (drain_by Sender_Ends); [done|]. simpl. rewrite Hp. apply guard_Some. lia.
    - apply (drain_by Encryption_Takes); [done|]. apply guard_Some. lia. }
  destruct y.
  { destruct (q_len (decryption s)) eqn:El.
    - apply (drain_by SequentialReceiver_Ends); [done|]. simpl. rewrite Hp. apply guard_Some. lia.
    - apply (drain_by Decryption_Takes); [done|]. apply guard_Some. lia. }
  apply (drain_by Peer_Stopped); [done|]. simpl. rewrite Hp. by eexists.
Qed.

(** After the last statement of [Close] the queues and their workers end. *)
Lemma workers_finish s : counted s -> stage s = Closed -> ~ ended s -> can_drain s.
Proof.
  intros [Ke Kd Kh Kn Ks Kr Kp Kre Kpa] Hst Hne. unfold enc_refs, dec_refs, hs_refs in *. rewrite Hst in *. simpl in *.
  destruct (Kp ltac:(lia)) as [Hrun Hstop]. specialize (Kr ltac:(lia)). specialize (Kre ltac:(lia)).
  rewrite Hrun, Hstop, Kre, ?Kr in *. simpl in *.
  destruct (queue_finishes _ _ Kh) as [Hq|[Hq|Ch]].
  { apply (drain_by Handshake_Waited); [done|]. simpl. destruct Hq as [q ->]. by eexists. }
  { apply (drain_by Handshake_Closed); [done|]. simpl. destruct Hq as [q ->]. by eexists. }
  destruct (queue_finishes _ _ Kd) as [Hq|[Hq|Cd]].
  { apply (drain_by Decryption_Waited); [done|]. simpl. destruct Hq as [q ->]. by eexists. }
  { apply (drain_by Decryption_Closed); [done|]. simpl. destruct Hq as [q ->]. by eexists. }
  destruct (decide (handshakers s = 0)) as [Hh|Hh]; [|by apply handshakers_finish].
  destruct (decide (decryptors s = 0)) as [Hd|Hd]; [|by apply decryptors_finish].
  rewrite Hh in Ke. destruct (queue_finishes _ _ Ke) as [Hq|[Hq|Ce]].
  { apply (drain_by Encryption_Waited); [done|]. simpl. destruct Hq as [q ->]. by eexists. }
  { apply (drain_by Encryption_Closed); [done|]. simpl. destruct Hq as [q ->]. by eexists. }
  destruct (decide (encryptors s = 0)) as [He|He]; [|by apply encryptors_finish].
  destruct Hne. by constructor.
Qed.

(** As long as something is left, something can be done about it. *)
Lemma closing_progress s : 0 < cpus -> counted s -> stage s <> Serving -> ~ ended s -> can_drain s.
Proof.
  intros Hcpu Hok Hs Hne. pose proof Hok as [Ke Kd Kh Kn Ks Kr Kp Kre Kpa].
  assert (Hnext : is_Some (close_next s) -> can_drain s) by (intros H; by apply (drain_by Close_Next)).
  destruct (stage s) eqn:Est; [done|..]; try (apply Hnext; unfold close_next; rewrite Est; by eexists).
  - destruct (receivers s) eqn:Er.
    + apply Hnext. unfold close_next. rewrite Est. apply guard_Some. lia.
    + apply (drain_by Receiver_Ends); [done|]. apply guard_Some. lia.
  - destruct (stopping s) as [p|] eqn:Ep; [apply (peer_finishes s p); auto; rewrite Est; simpl; lia|].
    destruct (running s) eqn:Er.
    + apply Hnext. unfold close_next. rewrite Est, Ep, Er. by apply guard_Some.
    + apply (drain_by Peer_Stop); [done|]. apply guard_Some. rewrite Ep, Er, Est. done.
  - destruct (reader s) eqn:Er.
    + apply (drain_by Reader_Ends); [done|]. by apply guard_Some.
    + apply Hnext. unfold close_next. rewrite Est. apply guard_Some. simpl in Ks. lia.
  - by apply workers_finish.
Qed.

Lemma closed_dec s : ended s \/ ~ ended s.
Proof.
  assert (D : Decision (stage s = Closed /\ (reader s = false /\ receivers s = 0) /\ (running s = 0 /\ stopping s = None) /\
    (encryptors s = 0 /\ decryptors s = 0 /\ handshakers s = 0) /\
    (q_closed (encryption s) = true /\ q_closed (decryption s) = true /\ q_closed (handshake s) = true))) by apply _.
  destruct D as [(H1 & H2 & H3 & H4 & H5)|D]; [by left|]. right. intros [H1 H2 H3 H4 H5]. by apply D.
Qed.

Inductive drain (s s' : routines) : Prop := drain_exec a : drains a = true -> routines_exec a s = Some s' -> drain s s'.

Lemma close_next_stage s s' : close_next s = Some s' -> stage s' <> Serving.
Proof.
  unfold close_next, guard. intros He. destruct (stage s); repeat case_match; try done; by injection He as <-.
Qed.

Lemma drain_keeps s s' : drain s s' -> counted s -> stage s <> Serving -> counted s' /\ stage s' <> Serving.
Proof.
  intros [a Hd He] Hok Hs. split; [by eapply exec_counted|]. destruct a; try done; simpl in He; unfold guard in He.
  all: try (by apply close_next_stage in He).
  all: repeat case_match; try done.
  all: try (injection He as <-; done).
  all: apply bind_Some in He as (q & _ & [= <-]); done.
Qed.


End Shutdown.
Fixpoint exec_all (l : list action) (s : routines) : option routines :=
  match l with
  | [] => Some s
  | a :: l => s ← routines_exec a s; exec_all l s
  end.

Lemma routines_exec_all_rtc l : forall s s', exec_all l s = Some s' -> rtc step s s'.
Proof.
  induction l as [|a l IH]; intros s s' H; simpl in H; [injection H as ->; constructor|].
  destruct (routines_exec a s) as [s1|] eqn:E; [|done]. simpl in H. econstructor; [by exists a|by apply IH].
Qed.

(** *** Witnesses: two workers of each kind, two receivers and a peer; [Close] is
    called with elements in the queues. *)
Definition demo_run : list action :=
  [Bind_Open 2; Peer_Start; Reader_Sends; Receiver_Sends_handshake; Receiver_Sends_packet; Peer_Sends; Close_Begin].
Definition demo_state : routines := default (NewTransport_routines 2) (exec_all demo_run (NewTransport_routines 2)).

Lemma demo_reachable : reachable 2 demo_state.
Proof. apply (routines_exec_all_rtc demo_run). vm_compute. reflexivity. Qed.

Lemma channels_safe_witness : q_wg (encryption demo_state) = 5%Z /\ panicked demo_state = false.
Proof.
  destruct (channels_safe 2 demo_state demo_reachable) as (H1 & H2 & _). split; [|exact H1].
  rewrite H2. reflexivity.
Defined.


End Shutdown.
