(* ===== verification/Crypto.v ===== *)
(** The cryptography the transport uses.  BLAKE2s, X25519, ChaCha20-Poly1305 and
    XChaCha20-Poly1305 are golang.org/x/crypto: parameters of the model (class
    [Crypto]) with their documented behaviour as laws (class [CryptoLaws]).
    HMAC is crypto/hmac of the Go standard library and is written out.  The
    definitions translate internal/transport/noise-helpers.go and the key types
    of internal/transport/noise_types.go. *)
From S2P Require Import Prelude Env.
From stdpp Require Import prelude list.
Open Scope Z_scope.

(** The operations of the libraries. *)
Class Crypto := {
  blake2s_256 : bytes -> bytes;                        (* Sum256 / New256(nil) *)
  blake2s_128 : bytes -> bytes -> bytes;               (* New128(key), message *)
  X25519 : bytes -> bytes -> option bytes;             (* scalar, point; error *)
  ScalarBaseMult : bytes -> bytes;
  aead_Seal : bytes -> bytes -> bytes -> bytes -> bytes;        (* key nonce text ad *)
  aead_Open : bytes -> bytes -> bytes -> bytes -> option bytes;
  xaead_Seal : bytes -> bytes -> bytes -> bytes -> bytes;
  xaead_Open : bytes -> bytes -> bytes -> bytes -> option bytes;
}.

(** Documented behaviour: output sizes, Diffie-Hellman agreement, and that
    opening what was sealed under the same key, nonce and additional data gives
    the plaintext back. *)
Class CryptoLaws {C : Crypto} : Prop := {
  length_blake2s_256 m : length (blake2s_256 m) = 32%nat;
  length_blake2s_128 k m : length (blake2s_128 k m) = 16%nat;
  length_X25519 k p r : X25519 k p = Some r -> length r = 32%nat;
  length_ScalarBaseMult k : length (ScalarBaseMult k) = 32%nat;
  X25519_agree a b :
    length a = 32%nat -> length b = 32%nat ->
    X25519 a (ScalarBaseMult b) = X25519 b (ScalarBaseMult a);
  length_aead_Seal k n p ad : length (aead_Seal k n p ad) = (length p + 16)%nat;
  aead_Open_Seal k n p ad : aead_Open k n (aead_Seal k n p ad) ad = Some p;
  length_xaead_Seal k n p ad : length (xaead_Seal k n p ad) = (length p + 16)%nat;
  xaead_Open_Seal k n p ad : xaead_Open k n (xaead_Seal k n p ad) ad = Some p;
}.

Module Noise_helpers.

Definition Blake2sSize : nat := 32.
Definition Blake2sSize128 : nat := 16.
Definition Poly1305TagSize : nat := 16.
Definition NoisePublicKeySize : nat := 32.
Definition NoisePrivateKeySize : nat := 32.
Definition NoisePresharedKeySize : nat := 32.

Abbreviation NoisePublicKey := bytes (only parsing).
Abbreviation NoisePrivateKey := bytes (only parsing).
Abbreviation NoisePresharedKey := bytes (only parsing).

Definition byte_xor (a : Byte.byte) (m : Z) : Byte.byte := byte_of_Z (Z.lxor (Z_of_byte a) m).

Section Helpers.
Context {C : Crypto}.

(** crypto/hmac over BLAKE2s-256, whose block is 64 bytes. *)
Definition hmac_key (key : bytes) : bytes :=
  let key := if (64 <? length key)%nat then blake2s_256 key else key in
  key ++ zero_bytes (64 - length key).
Definition hmac (key data : bytes) : bytes :=
  let k := hmac_key key in
  let ipad := map (fun b => byte_xor b 0x36) k in
  let opad := map (fun b => byte_xor b 0x5c) k in
  blake2s_256 (opad ++ blake2s_256 (ipad ++ data)).

Definition HMAC1 (key in0 : bytes) : bytes := hmac key in0.
Definition HMAC2 (key in0 in1 : bytes) : bytes := hmac key (in0 ++ in1).

Definition KDF1 (key input : bytes) : bytes :=
  let t0 := HMAC1 key input in
  HMAC1 t0 [byte_of_Z 1].

Definition KDF2 (key input : bytes) : bytes * bytes :=
  let prk := HMAC1 key input in
  let t0 := HMAC1 prk [byte_of_Z 1] in
  let t1 := HMAC2 prk t0 [byte_of_Z 2] in
  (t0, t1).

Definition KDF3 (key input : bytes) : bytes * bytes * bytes :=
  let prk := HMAC1 key input in
  let t0 := HMAC1 prk [byte_of_Z 1] in
  let t1 := HMAC2 prk t0 [byte_of_Z 2] in
  let t2 := HMAC2 prk t1 [byte_of_Z 3] in
  (t0, t1, t2).

(** [subtle.ConstantTimeByteEq] and the accumulator loop of [isZero]. *)
Definition ConstantTimeByteEq (x y : Byte.byte) : Z := if bool_decide (x = y) then 1 else 0.
Definition isZero (val : bytes) : bool :=
  fold_left (fun acc b => Z.land acc (ConstantTimeByteEq b Byte.x00)) val 1 =? 1.

(** [setZero(arr)]. *)
Definition setZero (arr : bytes) : bytes := map (fun _ => Byte.x00) arr.

(** [clamp]: [sk[0] &= 248; sk[31] = (sk[31] & 127) | 64]. *)
Definition byte_at (l : bytes) (i : nat) : Z := Z_of_byte (nth i l Byte.x00).
Definition clamp (sk : NoisePrivateKey) : NoisePrivateKey :=
  let sk := <[0%nat := byte_of_Z (Z.land (byte_at sk 0) 248)]> sk in
  <[31%nat := byte_of_Z (Z.lor (Z.land (byte_at sk 31) 127) 64)]> sk.

(** [NewPrivateKey]: the key (clamped also on an error) and whether it failed. *)
Definition NewPrivateKey : M Env.Env (NoisePrivateKey * bool) :=
  let* (sk, failed) := Env.rand_Read NoisePrivateKeySize in
  ret (clamp sk, failed).

Definition PublicKey (sk : NoisePrivateKey) : NoisePublicKey := ScalarBaseMult sk.

(** [sharedSecret]; [None] is [errInvalidPublicKey]. *)
Definition sharedSecret (sk : NoisePrivateKey) (pk : NoisePublicKey) : option bytes :=
  match X25519 sk pk with
  | None => None
  | Some result => if isZero result then None else Some result
  end.

(** [subtle.ConstantTimeCompare(key[:], tar[:]) == 1]. *)
Definition key_Equals (key tar : bytes) : bool := bool_decide (key = tar).
Definition key_IsZero (key : bytes) : bool := key_Equals key (zero_bytes 32).

End Helpers.

(** ** Lemmas *)

Section Facts.
Context {C : Crypto} {L : CryptoLaws}.

Lemma length_hmac k d : length (hmac k d) = 32%nat.
Proof. apply length_blake2s_256. Qed.

Lemma isZero_spec l : isZero l = true <-> l = zero_bytes (length l).
Proof.
  unfold isZero. rewrite Z.eqb_eq.
  assert (Hstep : forall l acc, acc = 0 \/ acc = 1 ->
    fold_left (fun acc b => Z.land acc (ConstantTimeByteEq b Byte.x00)) l acc = 1 <->
    acc = 1 /\ l = zero_bytes (length l)).
  { clear l. induction l as [|b l IH]; intros acc Hacc; simpl; [intuition|].
    unfold ConstantTimeByteEq at 2. case_bool_decide as Hb.
    - subst. rewrite IH by (destruct Hacc; subst; auto).
      replace (Z.land acc 1) with acc by (destruct Hacc; by subst).
      unfold zero_bytes. simpl. split; intros [? ?]; split; congruence.
    - rewrite Z.land_0_r, IH by auto. split; [intros [? _]; lia|].
      intros [_ [= ? _]]. done. }
  rewrite Hstep by auto. tauto.
Qed.

Lemma length_clamp sk : length (clamp sk) = length sk.
Proof. unfold clamp. by rewrite !length_insert. Qed.

Lemma length_NewPrivateKey e : length (fst (snd (NewPrivateKey e))) = 32%nat.
Proof.
  unfold NewPrivateKey, bind. pose proof (Env.length_rand_Read NoisePrivateKeySize e) as H.
  destruct (Env.rand_Read NoisePrivateKeySize e) as [e' [sk failed]]. simpl in *.
  by rewrite length_clamp.
Qed.

(** Both ends of a Diffie-Hellman exchange derive the same secret, or both fail. *)
Lemma sharedSecret_agree a b :
  length a = 32%nat -> length b = 32%nat ->
  sharedSecret a (PublicKey b) = sharedSecret b (PublicKey a).
Proof. intros Ha Hb. unfold sharedSecret, PublicKey. by rewrite X25519_agree. Qed.

Lemma sharedSecret_length sk pk ss : sharedSecret sk pk = Some ss -> length ss = 32%nat.
Proof.
  unfold sharedSecret. intros H. repeat case_match; simplify_eq. by eapply length_X25519.
Qed.

Lemma sharedSecret_nonzero sk pk ss : sharedSecret sk pk = Some ss -> isZero ss = false.
Proof. unfold sharedSecret. intros H. repeat case_match; by simplify_eq. Qed.

(** A clamped scalar: a multiple of 8, below 2^255, with bit 254 set. *)
Lemma clamp_bits sk :
  length sk = 32%nat ->
  byte_at (clamp sk) 0 mod 8 = 0 /\ 64 <= byte_at (clamp sk) 31 < 128.
Proof.
  intros Hl. unfold byte_at, clamp.
  rewrite !nth_lookup. rewrite list_lookup_insert_ne by lia.
  rewrite list_lookup_insert_eq by lia. rewrite list_lookup_insert_eq by (rewrite length_insert; lia).
  simpl. rewrite !Z_of_byte_of_Z. unfold byte_at. rewrite !nth_lookup.
  split.
  - apply Z.eqb_eq.
    apply (byte_forall (fun b => (Z.land (Z_of_byte b) 248 mod 256) mod 8 =? 0)).
    vm_compute; reflexivity.
  - pose proof (byte_forall (fun b => (64 <=? Z.lor (Z.land (Z_of_byte b) 127) 64 mod 256) &&
      (Z.lor (Z.land (Z_of_byte b) 127) 64 mod 256 <? 128)) ltac:(vm_compute; reflexivity)) as H.
    match goal with |- context [Z_of_byte ?x] => specialize (H x) end.
    apply andb_prop in H as [?%Z.leb_le ?%Z.ltb_lt]. lia.
Qed.

End Facts.
End Noise_helpers.

(** ** A concrete instance

    Toy primitives that satisfy the laws: they make the model executable on
    concrete inputs and show that the laws can hold together. *)
Module Toy.

Definition toy_digest (m : bytes) : Z :=
  fold_left (fun acc b => (acc * 31 + Z_of_byte b + 1) mod 65521) m 7.
Definition toy_expand (n : nat) (z : Z) : bytes :=
  map (fun i => byte_of_Z (z + z / 256 * Z.of_nat i + 13 * Z.of_nat i)) (List.seq 0 n).
Definition toy_hash (n : nat) (m : bytes) : bytes := toy_expand n (toy_digest m).

Definition toy_base (k : bytes) : bytes :=
  take 32 (map (fun b => byte_of_Z (9 * Z_of_byte b)) k ++ zero_bytes 32).
Definition toy_dh (k p : bytes) : option bytes :=
  if bool_decide (length k = 32%nat /\ length p = 32%nat)
  then Some (zip_with (fun x y => byte_of_Z (Z_of_byte x * Z_of_byte y)) k p)
  else None.

Definition toy_tag (k n p ad : bytes) : bytes := toy_hash 16 (k ++ n ++ p ++ ad).
Definition toy_seal (k n p ad : bytes) : bytes := p ++ toy_tag k n p ad.
Definition toy_open (k n c ad : bytes) : option bytes :=
  let p := take (length c - 16) c in
  if bool_decide (c = p ++ toy_tag k n p ad) then Some p else None.

Definition toy_crypto : Crypto := {|
  blake2s_256 := toy_hash 32;
  blake2s_128 k m := toy_hash 16 (k ++ m);
  X25519 := toy_dh;
  ScalarBaseMult := toy_base;
  aead_Seal := toy_seal;
  aead_Open := toy_open;
  xaead_Seal := toy_seal;
  xaead_Open := toy_open;
|}.

Lemma length_toy_hash n m : length (toy_hash n m) = n.
Proof. unfold toy_hash, toy_expand. by rewrite length_map, length_seq. Qed.

Lemma length_toy_seal k n p ad : length (toy_seal k n p ad) = (length p + 16)%nat.
Proof. unfold toy_seal, toy_tag. by rewrite length_app, length_toy_hash. Qed.

Lemma toy_open_seal k n p ad : toy_open k n (toy_seal k n p ad) ad = Some p.
Proof.
  unfold toy_open. rewrite length_toy_seal, Nat.add_sub.
  unfold toy_seal. rewrite take_app_length. by rewrite bool_decide_true.
Qed.

Lemma toy_base_spec k :
  length k = 32%nat -> toy_base k = map (fun b => byte_of_Z (9 * Z_of_byte b)) k.
Proof.
  intros H. unfold toy_base. rewrite take_app_le by (rewrite length_map; lia).
  apply take_ge. rewrite length_map. lia.
Qed.

Lemma toy_mul_comm x y :
  byte_of_Z (Z_of_byte x * Z_of_byte (byte_of_Z (9 * Z_of_byte y))) =
  byte_of_Z (Z_of_byte y * Z_of_byte (byte_of_Z (9 * Z_of_byte x))).
Proof.
  apply Z_of_byte_inj. rewrite !Z_of_byte_of_Z, !Zmult_mod_idemp_r. f_equal. lia.
Qed.

#[global] Instance toy_laws : @CryptoLaws toy_crypto.
Proof.
  split; intros.
  - exact (length_toy_hash 32 m).
  - exact (length_toy_hash 16 (k ++ m)).
  - change (toy_dh k p = Some r) in H. unfold toy_dh in H.
    case_bool_decide; [|done]. simplify_eq. rewrite length_zip_with. lia.
  - change (length (toy_base k) = 32%nat). unfold toy_base.
    rewrite length_take, length_app, length_zero_bytes. lia.
  - change (toy_dh a (toy_base b) = toy_dh b (toy_base a)).
    rewrite !toy_base_spec by done. unfold toy_dh. rewrite !length_map.
    rewrite !bool_decide_true by tauto. f_equal.
    assert (Hl : length a = length b) by congruence. clear H H0.
    revert b Hl. induction a as [|x a IH]; intros [|y b] Hl; try done.
    simpl. f_equal; [apply toy_mul_comm|]. apply IH. simpl in Hl. lia.
  - exact (length_toy_seal k n p ad).
  - exact (toy_open_seal k n p ad).
  - exact (length_toy_seal k n p ad).
  - exact (toy_open_seal k n p ad).
Qed.

End Toy.
