(* ===== verification/Wire.v ===== *)
(** The message formats of internal/transport/noise-protocol.go: the handshake
    structs as [binary.Write]/[binary.Read] with little-endian order lay them
    out, the 16-byte header of a transport message, and the padding of
    internal/transport/send.go. *)
From S2P Require Import Prelude.
From stdpp Require Import prelude list.
Open Scope Z_scope.

Module Wire.

Definition MessageInitiationType : Z := 1.
Definition MessageResponseType : Z := 2.
Definition MessageCookieReplyType : Z := 3.
Definition MessageTransportType : Z := 4.

Definition MessageInitiationSize : nat := 148.
Definition MessageResponseSize : nat := 92.
Definition MessageCookieReplySize : nat := 64.
Definition MessageTransportHeaderSize : nat := 16.
Definition MessageTransportSize : nat := MessageTransportHeaderSize + 16.
Definition MessageKeepaliveSize : nat := MessageTransportSize.

Definition MessageTransportOffsetReceiver : nat := 4.
Definition MessageTransportOffsetCounter : nat := 8.
Definition MessageTransportOffsetContent : nat := 16.

Definition MaxSegmentSize : Z := Z.shiftl 1 16 - 1.
Definition MinMessageSize : nat := MessageKeepaliveSize.
Definition MaxMessageSize : Z := MaxSegmentSize.
Definition MaxContentSize : Z := MaxSegmentSize - Z.of_nat MessageTransportSize.

Record MessageInitiation := mkInitiation {
  mi_Type : Z;
  mi_Sender : Z;
  mi_Ephemeral : bytes;   (* 32 *)
  mi_Static : bytes;      (* 32 + 16 *)
  mi_Timestamp : bytes;   (* 12 + 16 *)
  mi_MAC1 : bytes;        (* 16 *)
  mi_MAC2 : bytes;        (* 16 *)
}.

Record MessageResponse := mkResponse {
  mr_Type : Z;
  mr_Sender : Z;
  mr_Receiver : Z;
  mr_Ephemeral : bytes;   (* 32 *)
  mr_Empty : bytes;       (* 16 *)
  mr_MAC1 : bytes;
  mr_MAC2 : bytes;
}.

Record MessageCookieReply := mkCookieReply {
  mc_Type : Z;
  mc_Receiver : Z;
  mc_Nonce : bytes;       (* 24 *)
  mc_Cookie : bytes;      (* 16 + 16 *)
}.

(** [binary.Write(w, binary.LittleEndian, msg)]. *)
Definition write_initiation (m : MessageInitiation) : bytes :=
  le_put 4 (mi_Type m) ++ le_put 4 (mi_Sender m) ++ mi_Ephemeral m ++ mi_Static m ++
  mi_Timestamp m ++ mi_MAC1 m ++ mi_MAC2 m.
Definition write_response (m : MessageResponse) : bytes :=
  le_put 4 (mr_Type m) ++ le_put 4 (mr_Sender m) ++ le_put 4 (mr_Receiver m) ++
  mr_Ephemeral m ++ mr_Empty m ++ mr_MAC1 m ++ mr_MAC2 m.
Definition write_cookie_reply (m : MessageCookieReply) : bytes :=
  le_put 4 (mc_Type m) ++ le_put 4 (mc_Receiver m) ++ mc_Nonce m ++ mc_Cookie m.

(** [binary.Read(r, binary.LittleEndian, &msg)]; [None] is the error of a short
    input. *)
Definition read_initiation (b : bytes) : option MessageInitiation :=
  if (length b <? MessageInitiationSize)%nat then None
  else Some (mkInitiation (le_get (slice 0 4 b)) (le_get (slice 4 8 b)) (slice 8 40 b)
               (slice 40 88 b) (slice 88 116 b) (slice 116 132 b) (slice 132 148 b)).
Definition read_response (b : bytes) : option MessageResponse :=
  if (length b <? MessageResponseSize)%nat then None
  else Some (mkResponse (le_get (slice 0 4 b)) (le_get (slice 4 8 b)) (le_get (slice 8 12 b))
               (slice 12 44 b) (slice 44 60 b) (slice 60 76 b) (slice 76 92 b)).
Definition read_cookie_reply (b : bytes) : option MessageCookieReply :=
  if (length b <? MessageCookieReplySize)%nat then None
  else Some (mkCookieReply (le_get (slice 0 4 b)) (le_get (slice 4 8 b))
               (slice 8 32 b) (slice 32 64 b)).

(** The header [RoutineEncryption] writes in front of the content. *)
Definition transport_header (receiver nonce : Z) : bytes :=
  le_put 4 MessageTransportType ++ le_put 4 receiver ++ le_put 8 nonce.

(** The 12-byte AEAD nonce: 4 zero bytes and the counter. *)
Definition aead_nonce (counter : Z) : bytes := zero_bytes 4 ++ le_put 8 counter.

Definition DefaultMTU : Z := 1420.
Definition PaddingMultiple : Z := 16.

(** [calculatePaddingSize]; [&^] and [%] on Go's int. *)
Definition calculatePaddingSize (packetSize mtu : Z) : Z :=
  let lastUnit := packetSize in
  if mtu =? 0 then
    Z.land (lastUnit + PaddingMultiple - 1) (Z.lnot (PaddingMultiple - 1)) - lastUnit
  else
    let lastUnit := if mtu <? lastUnit then Z.rem lastUnit mtu else lastUnit in
    let paddedSize := Z.land (lastUnit + PaddingMultiple - 1) (Z.lnot (PaddingMultiple - 1)) in
    let paddedSize := if mtu <? paddedSize then mtu else paddedSize in
    paddedSize - lastUnit.

(** ** Well-formed messages: array fields of their sizes, uint32 fields in range *)

Definition is_u32 (z : Z) : Prop := 0 <= z < 2 ^ 32.
Definition initiation_wf (m : MessageInitiation) : Prop :=
  is_u32 (mi_Type m) /\ is_u32 (mi_Sender m) /\ length (mi_Ephemeral m) = 32%nat /\
  length (mi_Static m) = 48%nat /\ length (mi_Timestamp m) = 28%nat /\
  length (mi_MAC1 m) = 16%nat /\ length (mi_MAC2 m) = 16%nat.
Definition response_wf (m : MessageResponse) : Prop :=
  is_u32 (mr_Type m) /\ is_u32 (mr_Sender m) /\ is_u32 (mr_Receiver m) /\
  length (mr_Ephemeral m) = 32%nat /\ length (mr_Empty m) = 16%nat /\
  length (mr_MAC1 m) = 16%nat /\ length (mr_MAC2 m) = 16%nat.
Definition cookie_reply_wf (m : MessageCookieReply) : Prop :=
  is_u32 (mc_Type m) /\ is_u32 (mc_Receiver m) /\ length (mc_Nonce m) = 24%nat /\
  length (mc_Cookie m) = 32%nat.

(** ** Lemmas *)

Lemma le_get_put_u32 z : is_u32 z -> le_get (le_put 4 z) = z.
Proof. intros H. rewrite le_get_put. by apply Z.mod_small. Qed.

Lemma le_put_get_slice b i j n :
  (i <= j)%nat -> (j <= length b)%nat -> n = (j - i)%nat ->
  le_put n (le_get (slice i j b)) = slice i j b.
Proof. intros Hi Hj ->. rewrite <- (length_slice i j b Hi Hj) at 1. apply le_put_get. Qed.

Lemma le_get_slice_u32 b i : is_u32 (le_get (slice i (i + 4) b)).
Proof.
  pose proof (le_get_bound (slice i (i + 4) b)) as H. unfold is_u32.
  assert (length (slice i (i + 4) b) <= 4)%nat as Hl
    by (unfold slice; rewrite length_take; lia).
  assert (256 ^ Z.of_nat (length (slice i (i + 4) b)) <= 256 ^ 4)
    by (apply Z.pow_le_mono_r; lia).
  lia.
Qed.

Lemma slice_skip {A} n (l1 l2 : list A) a b :
  length l1 = n -> (n <= a)%nat -> slice a b (l1 ++ l2) = slice (a - n) (b - n) l2.
Proof. intros <- H. by apply slice_app_r. Qed.

(** Peels the fields of a concatenation off a slice. *)
Ltac slice_field :=
  repeat (erewrite slice_skip by (first [apply length_le_put | eassumption | lia]);
          cbn [Nat.sub]);
  first [apply slice_all | apply slice_app_l];
  first [symmetry; apply length_le_put | symmetry; eassumption].

Lemma length_write_initiation m : initiation_wf m -> length (write_initiation m) = 148%nat.
Proof. intros (?&?&?&?&?&?&?). unfold write_initiation. autorewrite with bytes. lia. Qed.

Lemma length_write_response m : response_wf m -> length (write_response m) = 92%nat.
Proof. intros (?&?&?&?&?&?&?). unfold write_response. autorewrite with bytes. lia. Qed.

Lemma length_write_cookie_reply m : cookie_reply_wf m -> length (write_cookie_reply m) = 64%nat.
Proof. intros (?&?&?&?). unfold write_cookie_reply. autorewrite with bytes. lia. Qed.

(** The fields of a written struct read back. *)
Ltac read_fields :=
  repeat match goal with
  | |- Some _ = Some _ => f_equal
  | |- mkInitiation _ _ _ _ _ _ _ = _ => f_equal
  | |- mkResponse _ _ _ _ _ _ _ = _ => f_equal
  | |- mkCookieReply _ _ _ _ = _ => f_equal
  | |- le_get (slice _ _ _) = ?z => transitivity (le_get (le_put 4 z)); [|by apply le_get_put_u32]
  | |- le_get _ = le_get _ => f_equal
  | |- slice _ _ _ = _ => slice_field
  end.

Lemma read_write_initiation m :
  initiation_wf m -> read_initiation (write_initiation m) = Some m.
Proof.
  intros Hwf. unfold read_initiation. rewrite length_write_initiation by done.
  change (148 <? MessageInitiationSize)%nat with false. unfold write_initiation.
  destruct Hwf as (?&?&?&?&?&?&?), m as [ty se ep st ts m1 m2].
  cbn [mi_Type mi_Sender mi_Ephemeral mi_Static mi_Timestamp mi_MAC1 mi_MAC2] in *.
  read_fields.
Qed.

Lemma read_write_response m : response_wf m -> read_response (write_response m) = Some m.
Proof.
  intros Hwf. unfold read_response. rewrite length_write_response by done.
  change (92 <? MessageResponseSize)%nat with false. unfold write_response.
  destruct Hwf as (?&?&?&?&?&?&?), m as [ty se re ep em m1 m2].
  cbn [mr_Type mr_Sender mr_Receiver mr_Ephemeral mr_Empty mr_MAC1 mr_MAC2] in *.
  read_fields.
Qed.

Lemma read_write_cookie_reply m :
  cookie_reply_wf m -> read_cookie_reply (write_cookie_reply m) = Some m.
Proof.
  intros Hwf. unfold read_cookie_reply. rewrite length_write_cookie_reply by done.
  change (64 <? MessageCookieReplySize)%nat with false. unfold write_cookie_reply.
  destruct Hwf as (?&?&?&?), m as [ty re no co].
  cbn [mc_Type mc_Receiver mc_Nonce mc_Cookie] in *.
  read_fields.
Qed.

Lemma write_read_initiation b :
  length b = 148%nat -> exists m, read_initiation b = Some m /\ write_initiation m = b.
Proof.
  intros Hl. unfold read_initiation. rewrite Hl. eexists. split; [done|].
  unfold write_initiation.
  cbn [mi_Type mi_Sender mi_Ephemeral mi_Static mi_Timestamp mi_MAC1 mi_MAC2].
  rewrite (le_put_get_slice b 0 4), (le_put_get_slice b 4 8) by lia.
  rewrite !slice_split by lia. apply slice_all; lia.
Qed.

Lemma write_read_response b :
  length b = 92%nat -> exists m, read_response b = Some m /\ write_response m = b.
Proof.
  intros Hl. unfold read_response. rewrite Hl. eexists. split; [done|].
  unfold write_response.
  cbn [mr_Type mr_Sender mr_Receiver mr_Ephemeral mr_Empty mr_MAC1 mr_MAC2].
  rewrite (le_put_get_slice b 0 4), (le_put_get_slice b 4 8), (le_put_get_slice b 8 12) by lia.
  rewrite !slice_split by lia. apply slice_all; lia.
Qed.

Lemma write_read_cookie_reply b :
  length b = 64%nat -> exists m, read_cookie_reply b = Some m /\ write_cookie_reply m = b.
Proof.
  intros Hl. unfold read_cookie_reply. rewrite Hl. eexists. split; [done|].
  unfold write_cookie_reply. cbn [mc_Type mc_Receiver mc_Nonce mc_Cookie].
  rewrite (le_put_get_slice b 0 4), (le_put_get_slice b 4 8) by lia.
  rewrite !slice_split by lia. apply slice_all; lia.
Qed.

(** Rounding up to a multiple of 16 with the mask. *)
Lemma round_up_mask n :
  Z.land (n + PaddingMultiple - 1) (Z.lnot (PaddingMultiple - 1)) = (n + 15) / 16 * 16.
Proof.
  unfold PaddingMultiple. replace (n + 16 - 1) with (n + 15) by lia.
  change (Z.lnot (16 - 1)) with (Z.lnot (Z.ones 4)).
  rewrite <- Z.ldiff_land, Z.ldiff_ones_r, Z.shiftr_div_pow2, Z.shiftl_mul_pow2 by lia. done.
Qed.

(** ** Properties *)

(** C29. The three fixed-size messages survive the wire: reading what was
    written gives the message back, and every datagram of the right size is the
    encoding of the message that is read from it (no byte is lost). *)
Theorem messages_roundtrip :
  (forall m, initiation_wf m ->
     length (write_initiation m) = MessageInitiationSize /\
     read_initiation (write_initiation m) = Some m) /\
  (forall m, response_wf m ->
     length (write_response m) = MessageResponseSize /\
     read_response (write_response m) = Some m) /\
  (forall m, cookie_reply_wf m ->
     length (write_cookie_reply m) = MessageCookieReplySize /\
     read_cookie_reply (write_cookie_reply m) = Some m) /\
  (forall b, length b = MessageInitiationSize ->
     exists m, read_initiation b = Some m /\ write_initiation m = b) /\
  (forall b, length b = MessageResponseSize ->
     exists m, read_response b = Some m /\ write_response m = b) /\
  (forall b, length b = MessageCookieReplySize ->
     exists m, read_cookie_reply b = Some m /\ write_cookie_reply m = b).
Proof.
  repeat split; eauto using length_write_initiation, length_write_response,
    length_write_cookie_reply, read_write_initiation, read_write_response,
    read_write_cookie_reply, write_read_initiation, write_read_response,
    write_read_cookie_reply.
Qed.

(** The padding of a packet is never more than 15 bytes (it fits the
    16-byte array it is cut from), brings the last unit of the packet to a
    multiple of 16 unless the MTU comes first, and never past the MTU. *)
Theorem padding_bounds packetSize mtu :
  0 <= packetSize -> 0 <= mtu ->
  let pad := calculatePaddingSize packetSize mtu in
  let lastUnit := if mtu =? 0 then packetSize
                  else if mtu <? packetSize then packetSize mod mtu else packetSize in
  0 <= pad < PaddingMultiple /\
  ((lastUnit + pad) mod PaddingMultiple = 0 \/ lastUnit + pad = mtu) /\
  (0 < mtu -> lastUnit + pad <= mtu).
Proof.
  intros Hp Hm. unfold calculatePaddingSize. rewrite !round_up_mask.
  destruct (Z.eqb_spec mtu 0) as [->|Hne]; simpl.
  - unfold PaddingMultiple. split; [lia_div|]. split; [left; lia_div|lia].
  - set (u := if mtu <? packetSize then packetSize mod mtu else packetSize).
    replace (if mtu <? packetSize then Z.rem packetSize mtu else packetSize) with u.
    2: { unfold u. case_match; [|done]. symmetry. apply Z.rem_mod_nonneg; lia. }
    assert (Hu : 0 <= u <= mtu).
    { unfold u. destruct (Z.ltb_spec mtu packetSize); [|lia].
      pose proof (Z.mod_pos_bound packetSize mtu). lia. }
    clearbody u. unfold PaddingMultiple.
    destruct (Z.ltb_spec mtu ((u + 15) / 16 * 16)).
    + split; [lia_div|]. split; [right; lia|lia].
    + split; [lia_div|]. split; [left; lia_div|lia].
Qed.

Lemma padding_bounds_witness :
  let pad := calculatePaddingSize 1413 1420 in
  0 <= pad < PaddingMultiple /\
  ((1413 + pad) mod PaddingMultiple = 0 \/ 1413 + pad = 1420) /\ (0 < 1420 -> 1413 + pad <= 1420).
Proof. apply (padding_bounds 1413 1420); lia. Defined.

End Wire.
