(* ===== verification/Cookie.v ===== *)
(** MAC1, MAC2 and the cookie exchange of internal/transport/cookie.go: the
    checker of the responder and the generator of each peer. *)
From S2P Require Import Prelude Env Crypto Wire.
From stdpp Require Import prelude list strings.
Open Scope Z_scope.

Module Cookie.
Import Env.Env Wire.Wire Crypto.Noise_helpers.

Definition NoiseLabelMAC1 : bytes := string_bytes "mac1----".
Definition NoiseLabelCookie : bytes := string_bytes "cookie--".
Definition CookieRefreshTime : Duration := Second * 120.

Record CookieChecker := mkChecker {
  cc_mac1_key : bytes;
  cc_secret : bytes;
  cc_secretSet : Time;
  cc_encryptionKey : bytes;
}.

Record CookieGenerator := mkGenerator {
  cg_mac1_key : bytes;
  cg_cookie : bytes;
  cg_cookieSet : Time;
  cg_hasLastMAC1 : bool;
  cg_lastMAC1 : bytes;
  cg_encryptionKey : bytes;
}.

(** The zero values. *)
Definition zeroChecker : CookieChecker :=
  mkChecker (zero_bytes 32) (zero_bytes 32) zeroTime (zero_bytes 32).
Definition zeroGenerator : CookieGenerator :=
  mkGenerator (zero_bytes 32) (zero_bytes 16) zeroTime false (zero_bytes 16) (zero_bytes 32).

(** The offsets [smac1] and [smac2] of a message. *)
Definition smac2 (msg : bytes) : nat := length msg - Blake2sSize128.
Definition smac1 (msg : bytes) : nat := smac2 msg - Blake2sSize128.

Section Cookie.
Context {C : Crypto}.

(** [CookieChecker.Init]. *)
Definition checker_Init (st : CookieChecker) (pk : NoisePublicKey) : CookieChecker :=
  mkChecker (blake2s_256 (NoiseLabelMAC1 ++ pk)) (cc_secret st) zeroTime
            (blake2s_256 (NoiseLabelCookie ++ pk)).

Definition CheckMAC1 (st : CookieChecker) (msg : bytes) : bool :=
  let mac1 := blake2s_128 (cc_mac1_key st) (take (smac1 msg) msg) in
  bool_decide (mac1 = slice (smac1 msg) (smac2 msg) msg).

Definition CheckMAC2 (st : CookieChecker) (msg src : bytes) : M Env bool :=
  let* since := time_Since (cc_secretSet st) in
  if CookieRefreshTime <? since then ret false
  else
    let cookie := blake2s_128 (cc_secret st) src in
    let mac2 := blake2s_128 cookie (take (smac2 msg) msg) in
    ret (bool_decide (mac2 = drop (smac2 msg) msg)).

(** The secret refresh of [CreateReply]; [false]: reading random bytes failed. *)
Definition refresh_secret (st : CookieChecker) : M Env (CookieChecker * bool) :=
  let* since := time_Since (cc_secretSet st) in
  if CookieRefreshTime <? since then
    let* (secret, failed) := rand_Read 32 in
    let st := mkChecker (cc_mac1_key st) secret (cc_secretSet st) (cc_encryptionKey st) in
    if failed then ret (st, false)
    else
      let* now := time_Now in
      ret (mkChecker (cc_mac1_key st) (cc_secret st) now (cc_encryptionKey st), true)
  else ret (st, true).

(** [CreateReply]; [None] is the error of the random source. *)
Definition CreateReply (st : CookieChecker) (msg : bytes) (recv : Z) (src : bytes)
  : M Env (CookieChecker * option MessageCookieReply) :=
  let* (st, ok) := refresh_secret st in
  if ok then
    let cookie := blake2s_128 (cc_secret st) src in
    let* (nonce, failed) := rand_Read 24 in
    if failed then ret (st, None)
    else
      ret (st, Some (mkCookieReply MessageCookieReplyType recv nonce
                       (xaead_Seal (cc_encryptionKey st) nonce cookie
                          (slice (smac1 msg) (smac2 msg) msg))))
  else ret (st, None).

(** [CookieGenerator.Init]. *)
Definition generator_Init (st : CookieGenerator) (pk : NoisePublicKey) : CookieGenerator :=
  mkGenerator (blake2s_256 (NoiseLabelMAC1 ++ pk)) (cg_cookie st) zeroTime
              (cg_hasLastMAC1 st) (cg_lastMAC1 st) (blake2s_256 (NoiseLabelCookie ++ pk)).

Definition ConsumeReply (st : CookieGenerator) (msg : MessageCookieReply)
  : M Env (CookieGenerator * bool) :=
  if cg_hasLastMAC1 st then
    match xaead_Open (cg_encryptionKey st) (mc_Nonce msg) (mc_Cookie msg) (cg_lastMAC1 st) with
    | None => ret (st, false)
    | Some cookie =>
        let* now := time_Now in
        ret (mkGenerator (cg_mac1_key st) cookie now (cg_hasLastMAC1 st) (cg_lastMAC1 st)
               (cg_encryptionKey st), true)
    end
  else ret (st, false).

(** [AddMacs]: the message with its last 32 bytes rewritten in place. *)
Definition AddMacs (st : CookieGenerator) (msg : bytes) : M Env (CookieGenerator * bytes) :=
  let mac1 := blake2s_128 (cg_mac1_key st) (take (smac1 msg) msg) in
  let msg := splice (smac1 msg) mac1 msg in
  let st := mkGenerator (cg_mac1_key st) (cg_cookie st) (cg_cookieSet st) true mac1
              (cg_encryptionKey st) in
  let* since := time_Since (cg_cookieSet st) in
  if CookieRefreshTime <? since then ret (st, msg)
  else
    let mac2 := blake2s_128 (cg_cookie st) (take (smac2 msg) msg) in
    ret (st, splice (smac2 msg) mac2 msg).

End Cookie.

(** ** Lemmas *)

Section Facts.
Context {C : Crypto} {L : CryptoLaws}.

Lemma smac_offsets msg :
  (32 <= length msg)%nat ->
  smac2 msg = (smac1 msg + 16)%nat /\ (smac2 msg + 16 = length msg)%nat.
Proof. unfold smac1, smac2, Blake2sSize128. lia. Qed.

Lemma drop_splice_tail {A} off (new l : list A) :
  (off + length new = length l)%nat -> drop off (splice off new l) = new.
Proof.
  intros H. unfold splice. rewrite drop_app_ge by (rewrite length_take; lia).
  rewrite length_take, Nat.min_l, Nat.sub_diag, drop_0 by lia.
  rewrite (drop_ge l) by lia. apply app_nil_r.
Qed.

Lemma slice_splice_before {A} a b off (new l : list A) :
  (b <= off)%nat -> (off <= length l)%nat -> slice a b (splice off new l) = slice a b l.
Proof.
  intros H1 H2. unfold slice. rewrite !take_drop_commute.
  destruct (decide (a <= b)%nat).
  - by rewrite !take_splice by lia.
  - replace (b - a)%nat with 0%nat by lia. rewrite Nat.add_0_r.
    rewrite !drop_ge by (rewrite length_take; lia). done.
Qed.

Lemma slice_splice_here {A} off n (new l : list A) :
  length new = n -> (off <= length l)%nat -> slice off (off + n) (splice off new l) = new.
Proof. intros <-. apply slice_splice. Qed.

(** What [AddMacs] writes: the body untouched, MAC1 over it, MAC1 remembered,
    and MAC2 over body and MAC1 when the cookie is fresh. *)
Lemma AddMacs_spec st msg e :
  (32 <= length msg)%nat ->
  let '(e', (st', out)) := AddMacs st msg e in
  let mac1 := blake2s_128 (cg_mac1_key st) (take (smac1 msg) msg) in
  length out = length msg /\ take (smac1 msg) out = take (smac1 msg) msg /\
  slice (smac1 msg) (smac2 msg) out = mac1 /\
  st' = mkGenerator (cg_mac1_key st) (cg_cookie st) (cg_cookieSet st) true mac1
          (cg_encryptionKey st) /\
  drop (smac2 msg) out =
    (if CookieRefreshTime <? time_Sub (clock e (ticks e)) (cg_cookieSet st)
     then drop (smac2 msg) msg
     else blake2s_128 (cg_cookie st) (take (smac2 msg) out)).
Proof.
  intros Hlen. destruct (smac_offsets msg Hlen) as [H2 Hend].
  unfold AddMacs, bind, time_Since, bind, time_Now, ret. simpl.
  set (mac1 := blake2s_128 _ _).
  assert (Hm1 : length mac1 = 16%nat) by apply length_blake2s_128.
  assert (Hl1 : length (splice (smac1 msg) mac1 msg) = length msg)
    by (apply length_splice; lia).
  assert (Hs1 : slice (smac1 msg) (smac2 msg) (splice (smac1 msg) mac1 msg) = mac1)
    by (rewrite H2; apply slice_splice_here; [done|lia]).
  destruct (CookieRefreshTime <? _); simpl.
  - repeat split; auto; [apply take_splice; lia|].
    unfold splice. rewrite app_assoc, drop_app_ge by (rewrite length_app, length_take; lia).
    rewrite drop_drop. f_equal. rewrite length_app, length_take. lia.
  - assert (Hs2 : smac2 (splice (smac1 msg) mac1 msg) = smac2 msg)
      by (unfold smac2; by rewrite Hl1).
    rewrite Hs2. set (mac2 := blake2s_128 _ (take (smac2 msg) _)).
    assert (Hm2 : length mac2 = 16%nat) by apply length_blake2s_128.
    split; [rewrite length_splice; lia|].
    split; [rewrite !take_splice by lia; done|].
    split; [rewrite slice_splice_before by lia; done|]. split; [done|].
    rewrite drop_splice_tail by lia. unfold mac2. f_equal. symmetry. apply take_splice; lia.
Qed.

Lemma refresh_secret_keeps st e :
  let '(_, (st', _)) := refresh_secret st e in
  cc_mac1_key st' = cc_mac1_key st /\ cc_encryptionKey st' = cc_encryptionKey st.
Proof.
  unfold refresh_secret, bind, time_Since, bind, time_Now, ret. simpl.
  destruct (_ <? _); [|done]. unfold rand_Read. simpl.
  destruct (rng e (draws e)) as [f []]; done.
Qed.

(** A created reply carries the cookie of [src] under the current secret. *)
Lemma CreateReply_spec st msg recv src e e' st' reply :
  CreateReply st msg recv src e = (e', (st', Some reply)) ->
  cc_encryptionKey st' = cc_encryptionKey st /\
  mc_Type reply = MessageCookieReplyType /\ mc_Receiver reply = recv /\
  length (mc_Nonce reply) = 24%nat /\
  mc_Cookie reply = xaead_Seal (cc_encryptionKey st) (mc_Nonce reply)
    (blake2s_128 (cc_secret st') src) (slice (smac1 msg) (smac2 msg) msg).
Proof.
  unfold CreateReply, bind. pose proof (refresh_secret_keeps st e) as Hk.
  destruct (refresh_secret st e) as [e1 [st1 ok]]. destruct Hk as [_ Hk].
  destruct ok; [|by intros [= <- <-]].
  pose proof (length_rand_Read 24 e1) as Hn.
  destruct (rand_Read 24 e1) as [e2 [nonce failed]]. simpl in Hn.
  destruct failed; [by intros [= <- <-]|]. intros [= <- <- <-]. simpl.
  by rewrite Hk.
Qed.

Lemma CheckMAC2_spec st msg src e :
  snd (CheckMAC2 st msg src e) =
  negb (CookieRefreshTime <? time_Sub (clock e (ticks e)) (cc_secretSet st)) &&
  bool_decide (blake2s_128 (blake2s_128 (cc_secret st) src) (take (smac2 msg) msg)
               = drop (smac2 msg) msg).
Proof.
  unfold CheckMAC2, bind, time_Since, bind, time_Now, ret. simpl. by destruct (_ <? _).
Qed.

(** ** Properties *)

(** Every message a generator for [pk] stamps passes the MAC1 check of
    the owner of [pk], with or without a cookie, and only the last 32 bytes of
    the message change. *)
Theorem AddMacs_CheckMAC1 gen chk pk msg e :
  (32 <= length msg)%nat ->
  let '(_, (_, out)) := AddMacs (generator_Init gen pk) msg e in
  CheckMAC1 (checker_Init chk pk) out = true /\
  length out = length msg /\ take (length msg - 32) out = take (length msg - 32) msg.
Proof.
  intros Hlen. pose proof (AddMacs_spec (generator_Init gen pk) msg e Hlen) as H.
  destruct (AddMacs _ _ _) as [e' [st' out]]. destruct H as (Hl & Hb & Hs & _ & _).
  assert (H1 : smac1 out = smac1 msg) by (unfold smac1, smac2; by rewrite Hl).
  assert (H2 : smac2 out = smac2 msg) by (unfold smac2; by rewrite Hl).
  split; [|split; [done|]].
  - unfold CheckMAC1. rewrite H1, H2, Hb, Hs. by apply bool_decide_true.
  - replace (length msg - 32)%nat with (smac1 msg); [done|].
    unfold smac1, smac2, Blake2sSize128. lia.
Qed.

(** C11. The cookie mechanism completes: when a checker under load answers a
    message with a cookie reply, the generator that sent the message accepts
    the reply, and the next message it stamps while its cookie is fresh passes
    the MAC2 check of that checker for the same source address while the secret
    is fresh. *)
Theorem cookie_exchange gen chk msg1 msg2 recv src reply e1 e2 e3 e4 e5 :
  cg_encryptionKey gen = cc_encryptionKey chk ->
  (32 <= length msg1)%nat -> (32 <= length msg2)%nat ->
  let sent1 := snd (AddMacs gen msg1 e1) in
  let replied := snd (CreateReply chk (snd sent1) recv src e2) in
  snd replied = Some reply ->
  let consumed := snd (ConsumeReply (fst sent1) reply e3) in
  let sent2 := snd (AddMacs (fst consumed) msg2 e4) in
  snd consumed = true /\
  (time_Sub (clock e4 (ticks e4)) (clock e3 (ticks e3)) <= CookieRefreshTime ->
   time_Sub (clock e5 (ticks e5)) (cc_secretSet (fst replied)) <= CookieRefreshTime ->
   snd (CheckMAC2 (fst replied) (snd sent2) src e5) = true).
Proof.
  intros Hkey Hl1 Hl2.
  pose proof (AddMacs_spec gen msg1 e1 Hl1) as H1.
  destruct (AddMacs gen msg1 e1) as [e1' [gen1 out1]].
  destruct H1 as (Hlen1 & _ & Hmac1 & -> & _).
  cbn [fst snd]. destruct (CreateReply chk out1 recv src e2) as [e2' [chk1 r]] eqn:Hc.
  cbn [fst snd]. intros ->.
  apply CreateReply_spec in Hc as (_ & _ & _ & _ & Hcookie).
  assert (Hs : slice (smac1 out1) (smac2 out1) out1 = slice (smac1 msg1) (smac2 msg1) out1)
    by (unfold smac1, smac2; by rewrite Hlen1).
  rewrite Hs, Hmac1 in Hcookie.
  unfold ConsumeReply. cbn [cg_hasLastMAC1 cg_encryptionKey cg_lastMAC1].
  rewrite Hcookie, Hkey, xaead_Open_Seal.
  unfold bind, time_Now, ret. cbn [fst snd]. rewrite <- Hkey.
  set (gen2 := mkGenerator _ _ _ _ _ _).
  pose proof (AddMacs_spec gen2 msg2 e4 Hl2) as H2.
  destruct (AddMacs gen2 msg2 e4) as [e4' [gen3 out2]].
  destruct H2 as (Hlen2 & _ & _ & _ & Hmac2). split; [done|]. intros Ht4 Ht5.
  rewrite CheckMAC2_spec. rewrite (proj2 (Z.ltb_ge _ _) Ht5). simpl.
  apply bool_decide_true.
  assert (Hs2 : smac2 out2 = smac2 msg2) by (unfold smac2; by rewrite Hlen2).
  rewrite Hs2, Hmac2. simpl. by rewrite (proj2 (Z.ltb_ge _ _) Ht4).
Qed.

End Facts.

Definition toy_pk : bytes := map (fun i => byte_of_Z (Z.of_nat i)) (List.seq 1 32).

Lemma AddMacs_CheckMAC1_witness :
  let '(_, (_, out)) := @AddMacs Toy.toy_crypto (@generator_Init Toy.toy_crypto zeroGenerator toy_pk)
                          (zero_bytes 92) (demo_env 0 0) in
  @CheckMAC1 Toy.toy_crypto (@checker_Init Toy.toy_crypto zeroChecker toy_pk) out = true /\
  length out = length (zero_bytes 92) /\
  take (length (zero_bytes 92) - 32) out = take (length (zero_bytes 92) - 32) (zero_bytes 92).
Proof.
  apply (@AddMacs_CheckMAC1 Toy.toy_crypto Toy.toy_laws zeroGenerator zeroChecker toy_pk
           (zero_bytes 92) (demo_env 0 0)). rewrite length_zero_bytes. lia.
Defined.

Definition demo_gen : CookieGenerator := @generator_Init Toy.toy_crypto zeroGenerator toy_pk.
Definition demo_chk : CookieChecker := @checker_Init Toy.toy_crypto zeroChecker toy_pk.
Definition demo_sent1 := snd (@AddMacs Toy.toy_crypto demo_gen (zero_bytes 148) (demo_env 0 0)).
Definition demo_replied :=
  snd (@CreateReply Toy.toy_crypto demo_chk (snd demo_sent1) 5 [Byte.x01] (demo_env 0 3)).

Lemma cookie_exchange_witness :
  exists reply, snd demo_replied = Some reply /\
    snd (CheckMAC2 (C := Toy.toy_crypto) (fst demo_replied)
      (snd (snd (AddMacs (C := Toy.toy_crypto)
         (fst (snd (ConsumeReply (C := Toy.toy_crypto) (fst demo_sent1) reply (demo_env 10 0))))
         (zero_bytes 148) (demo_env 20 0)))) [Byte.x01] (demo_env 30 0)) = true.
Proof.
  destruct (snd demo_replied) as [reply|] eqn:E; [|by vm_compute in E].
  exists reply. split; [done|].
  apply (@cookie_exchange Toy.toy_crypto Toy.toy_laws demo_gen demo_chk
    (zero_bytes 148) (zero_bytes 148) 5 [Byte.x01] reply
    (demo_env 0 0) (demo_env 0 3) (demo_env 10 0) (demo_env 20 0) (demo_env 30 0)).
  - reflexivity.
  - rewrite length_zero_bytes. lia.
  - rewrite length_zero_bytes. lia.
  - exact E.
  - by vm_compute.
  - by vm_compute.
Defined.

End Cookie.
