(* ===== verification/State.v ===== *)
(** The data model of internal/transport: handshakes, keypairs, peers, queue
    elements, the index table and the transport, as records with the source's
    fields, and the state monad the handlers run in.

    Objects the code shares by pointer (peers, keypairs, element containers)
    live in finite maps from addresses; a [nil] pointer is [None].  The network
    bind and the source/sink are interfaces of the source and classes here. *)
From S2P Require Import Prelude Replay Tai64n RateLimiter Env Crypto Wire Cookie.
From stdpp Require Import prelude gmap list strings.
Open Scope Z_scope.

Module State.
Import Env.Env Crypto.Noise_helpers Cookie.Cookie RateLimiter.RateLimiter.

(** ** Constants (constants.go, queueconstants_default.go) *)

Definition RekeyAfterMessages : Z := Z.shiftl 1 60.
Definition RejectAfterMessages : Z := Z.shiftl 1 64 - Z.shiftl 1 13 - 1.
Definition RekeyAfterTime : Duration := Second * 120.
Definition RekeyAttemptTime : Duration := Second * 90.
Definition RekeyTimeout : Duration := Second * 5.
Definition MaxTimerHandshakes : Z := 90 / 5.
Definition RekeyTimeoutJitterMaxMs : Z := 334.
Definition RejectAfterTime : Duration := Second * 180.
Definition KeepaliveTimeout : Duration := Second * 10.
Definition HandshakeInitationRate : Duration := Second / 50.
Definition UnderLoadAfterTime : Duration := Second.
Definition MaxPeers : Z := Z.shiftl 1 16.

Definition IdealBatchSize : Z := 128.
Definition QueueStagedSize : nat := 128.
Definition QueueOutboundSize : Z := 1024.
Definition QueueInboundSize : Z := 1024.
Definition QueueHandshakeSize : Z := 1024.

(** ** Addresses, endpoints, errors *)

Abbreviation PeerId := nat (only parsing).
Abbreviation KeypairId := nat (only parsing).
Abbreviation ContainerId := nat (only parsing).

(** An [Endpoint]: the destination of the std bind, [netip.AddrPort]. *)
Record Endpoint := mkEndpoint { ep_addr : Addr; ep_port : Z }.

Definition DstIP (ep : Endpoint) : Addr := ep_addr ep.

(** [AddrPort.MarshalBinary]: the address bytes (with its zone) and the port in
    little-endian order. *)
Definition DstToBytes (ep : Endpoint) : bytes :=
  match ep_addr ep with
  | AddrZero => []
  | Addr4 b => b
  | Addr6 b z => b ++ string_bytes z
  end ++ le_put 2 (ep_port ep).

#[global] Instance Endpoint_eq_dec : EqDecision Endpoint.
Proof. solve_decision. Defined.

Inductive handshakeState :=
| handshakeZeroed
| handshakeInitiationCreated
| handshakeInitiationConsumed
| handshakeResponseCreated
| handshakeResponseConsumed.

#[global] Instance handshakeState_eq_dec : EqDecision handshakeState.
Proof. solve_decision. Defined.

Inductive transportState := transportStateDown | transportStateUp | transportStateClosed.

#[global] Instance transportState_eq_dec : EqDecision transportState.
Proof. solve_decision. Defined.

(** The errors of the transport.  [ErrOS n] is an error of the operating system
    behind the bind or the sink; [ErrUDPGSODisabled] wraps the error of the
    retry; [ErrPanic] marks a panic of the code and [ErrFuel] a loop of the model
    that ran out of fuel. *)
Inductive Error :=
| ErrInvalidPublicKey
| ErrRand
| ErrInitiationNotConsumed
| ErrInvalidState (s : handshakeState)
| ErrNoEndpoint
| ErrTransportClosed
| ErrTooManyPeers
| ErrExistingPeer
| ErrNetClosed
| ErrBindAlreadyOpen
| ErrOS (n : Z)
| ErrUDPGSODisabled (retry : option Error)
| ErrPanic
| ErrFuel.

(** ** The interfaces *)

(** [conn.Bind]: what the transport asks of the network. *)
Class Bind (B : Type) := {
  bind_Open : Z -> B -> B * (Z * option Error);          (* port; the actual port *)
  bind_Close : B -> B * option Error;
  bind_Send : list bytes -> Endpoint -> B -> B * option Error;
  bind_BatchSize : B -> Z;
}.

(** [transport.SourceSink]. *)
Class SourceSink (S : Type) := {
  sink_Write : list bytes -> list bytes -> nat -> S -> S * (Z * option Error);
  sink_Close : S -> S * option Error;
  sink_BatchSize : S -> Z;
}.

(** ** Records *)

(** [type Handshake struct] (noise-protocol.go). *)
Record Handshake := mkHandshake {
  hs_state : handshakeState;
  hs_hash : bytes;
  hs_chainKey : bytes;
  hs_presharedKey : NoisePresharedKey;
  hs_localEphemeral : NoisePrivateKey;
  hs_localIndex : Z;  (* used to clear hash-table; 0 when there is none *)
  hs_remoteIndex : Z;  (* index for sending *)
  hs_remoteStatic : NoisePublicKey;
  hs_remoteEphemeral : NoisePublicKey;
  hs_precomputedStaticStatic : bytes;
  hs_lastTimestamp : Tai64n.Timestamp;
  hs_lastInitiationConsumption : Time;
  hs_lastSentHandshake : Time;
}.

(** [type Keypair struct] (keypair.go); an AEAD is its key. *)
Record Keypair := mkKeypair {
  kp_sendNonce : Z;  (* atomic.Uint64 *)
  kp_send : bytes;  (* the key of the AEAD *)
  kp_receive : bytes;
  kp_replayFilter : Replay.Filter;
  kp_isInitiator : bool;
  kp_created : Time;
  kp_localIndex : Z;
  kp_remoteIndex : Z;
}.

(** [type Keypairs struct]. *)
Record Keypairs := mkKeypairs {
  current : option KeypairId;
  previous : option KeypairId;
  next : option KeypairId;
}.

(** [type Timer struct] (timers.go): [isPending] and the runtime timer under it,
    armed by [Reset] and disarmed by [Stop] or when it fires. *)
Record Timer := mkTimer { isPending : bool; armed : option Duration }.

(** The [timers] of a peer (peer.go). *)
Record PeerTimers := mkTimers {
  tm_retransmitHandshake : Timer;
  tm_sendKeepalive : Timer;
  tm_newHandshake : Timer;
  tm_zeroKeyMaterial : Timer;
  tm_persistentKeepalive : Timer;
  tm_handshakeAttempts : Z;  (* atomic.Uint32 *)
  tm_needAnotherKeepalive : bool;
  tm_sentLastMinuteHandshake : bool;
}.

(** [type Peer struct] (peer.go); the back pointer to the transport is the state itself. *)
Record Peer := mkPeer {
  p_pk : NoisePublicKey;
  p_isRunning : bool;
  p_keypairs : Keypairs;
  p_handshake : Handshake;
  p_txBytes : Z;
  p_rxBytes : Z;
  p_lastHandshakeNano : Z;
  p_endpoint : option Endpoint;
  p_timers : PeerTimers;
  p_staged : list ContainerId;  (* queue.staged *)
  p_outbound : list (option ContainerId);  (* queue.outbound.c; None is the nil sentinel *)
  p_inbound : list (option ContainerId);  (* queue.inbound.c *)
  p_cookieGenerator : CookieGenerator;
  p_persistentKeepaliveInterval : Z;  (* seconds *)
  p_bufs : list bytes;  (* the slice bufs of the running RoutineSequentialReceiver *)
}.

(** [type IndexTableEntry struct] (indextable.go); the handshake of an entry is
    the one of its peer, so the pointer is a flag. *)
Record IndexTableEntry := mkIndexEntry {
  e_peer : option PeerId;
  e_handshake : option PeerId;
  e_keypair : option KeypairId;
}.

(** [type QueueOutboundElement struct] (send.go); [oe_packet] is the content
    before encryption and the whole datagram after it. *)
Record QueueOutboundElement := mkOutElem {
  oe_packet : bytes;
  oe_nonce : Z;
  oe_keypair : option KeypairId;
  oe_peer : option PeerId;
}.

(** [type QueueOutboundElementsContainer struct]: the mutex and the elements. *)
Record OutContainer := mkOutContainer { oc_locked : bool; oc_elems : list QueueOutboundElement }.

(** [type QueueInboundElement struct] (receive.go); [ie_buffer] is the datagram,
    [ie_packet] the content, [None] once decryption failed. *)
Record QueueInboundElement := mkInElem {
  ie_buffer : bytes;
  ie_packet : option bytes;
  ie_counter : Z;
  ie_keypair : KeypairId;
  ie_endpoint : Endpoint;
}.

Record InContainer := mkInContainer { ic_locked : bool; ic_elems : list QueueInboundElement }.

(** [type QueueHandshakeElement struct] (receive.go). *)
Record QueueHandshakeElement := mkHsElem {
  he_msgType : Z;
  he_packet : bytes;
  he_endpoint : Endpoint;
}.

(** [type Transport struct] (transport.go), with the heap of the objects that are shared by pointer. *)
Record Transport (B : Type) (S : Type) := mkTransport {
  t_env : Env;
  t_state : transportState;
  t_bind : B;  (* net.bind *)
  t_port : Z;  (* net.port *)
  t_sink : S;  (* sourceSink *)
  t_privateKey : NoisePrivateKey;  (* staticIdentity *)
  t_publicKey : NoisePublicKey;
  t_keyMap : gmap bytes PeerId;  (* peers.keyMap *)
  t_underLoadUntil : Z;  (* rate.underLoadUntil *)
  t_limiter : Ratelimiter;  (* rate.limiter *)
  t_indexTable : gmap Z IndexTableEntry;
  t_cookieChecker : CookieChecker;
  t_encryptionQ : list ContainerId;  (* queue.encryption.c *)
  t_decryptionQ : list ContainerId;  (* queue.decryption.c *)
  t_handshakeQ : list QueueHandshakeElement;  (* queue.handshake.c *)
  t_peers : gmap PeerId Peer;  (* heap *)
  t_keypairs : gmap KeypairId Keypair;  (* heap *)
  t_outContainers : gmap ContainerId OutContainer;  (* heap *)
  t_inContainers : gmap ContainerId InContainer;  (* heap *)
  t_fresh : nat;  (* the next heap address *)
  t_closed : bool;  (* the channel closed is closed *)
  t_assigned : list (KeypairId * Z);  (* ghost: the nonces assigned to outbound elements, latest first *)
  t_accepted : list (KeypairId * Z);  (* ghost: the counters the receivers accepted, latest first *)
  t_stuck : bool;  (* ghost: a search for an index was cut off by its fuel *)
  t_sealed : list (KeypairId * Z);  (* ghost: the nonces the encryption workers used, latest first *)
}.
Arguments mkTransport {B S}.
Arguments t_env {B S} _.
Arguments t_state {B S} _.
Arguments t_bind {B S} _.
Arguments t_port {B S} _.
Arguments t_sink {B S} _.
Arguments t_privateKey {B S} _.
Arguments t_publicKey {B S} _.
Arguments t_keyMap {B S} _.
Arguments t_underLoadUntil {B S} _.
Arguments t_limiter {B S} _.
Arguments t_indexTable {B S} _.
Arguments t_cookieChecker {B S} _.
Arguments t_encryptionQ {B S} _.
Arguments t_decryptionQ {B S} _.
Arguments t_handshakeQ {B S} _.
Arguments t_peers {B S} _.
Arguments t_keypairs {B S} _.
Arguments t_outContainers {B S} _.
Arguments t_inContainers {B S} _.
Arguments t_fresh {B S} _.
Arguments t_closed {B S} _.
Arguments t_assigned {B S} _.
Arguments t_accepted {B S} _.
Arguments t_stuck {B S} _.
Arguments t_sealed {B S} _.

(** ** Zero values *)

Definition zeroHandshake : Handshake :=
  mkHandshake handshakeZeroed (zero_bytes 32) (zero_bytes 32) (zero_bytes 32) (zero_bytes 32)
    0 0 (zero_bytes 32) (zero_bytes 32) (zero_bytes 32) Tai64n.zeroTimestamp zeroTime zeroTime.
Definition zeroKeypair : Keypair :=
  mkKeypair 0 [] [] Replay.zeroFilter false zeroTime 0 0.
Definition zeroKeypairs : Keypairs := mkKeypairs None None None.
Definition zeroTimer : Timer := mkTimer false None.
Definition zeroTimers : PeerTimers :=
  mkTimers zeroTimer zeroTimer zeroTimer zeroTimer zeroTimer 0 false false.
Definition zeroPeer : Peer :=
  mkPeer (zero_bytes 32) false zeroKeypairs zeroHandshake 0 0 0 None zeroTimers [] [] []
    zeroGenerator 0 [].
Definition zeroIndexEntry : IndexTableEntry := mkIndexEntry None None None.
Definition zeroOutContainer : OutContainer := mkOutContainer false [].
Definition zeroInContainer : InContainer := mkInContainer false [].

(** ** Field assignment *)

Definition set_hs_state (x : handshakeState) (h : Handshake) : Handshake :=
  mkHandshake x (hs_hash h) (hs_chainKey h) (hs_presharedKey h) (hs_localEphemeral h)
    (hs_localIndex h) (hs_remoteIndex h) (hs_remoteStatic h) (hs_remoteEphemeral h)
    (hs_precomputedStaticStatic h) (hs_lastTimestamp h) (hs_lastInitiationConsumption h)
    (hs_lastSentHandshake h).
Definition set_hs_hash (x : bytes) (h : Handshake) : Handshake :=
  mkHandshake (hs_state h) x (hs_chainKey h) (hs_presharedKey h) (hs_localEphemeral h)
    (hs_localIndex h) (hs_remoteIndex h) (hs_remoteStatic h) (hs_remoteEphemeral h)
    (hs_precomputedStaticStatic h) (hs_lastTimestamp h) (hs_lastInitiationConsumption h)
    (hs_lastSentHandshake h).
Definition set_hs_chainKey (x : bytes) (h : Handshake) : Handshake :=
  mkHandshake (hs_state h) (hs_hash h) x (hs_presharedKey h) (hs_localEphemeral h)
    (hs_localIndex h) (hs_remoteIndex h) (hs_remoteStatic h) (hs_remoteEphemeral h)
    (hs_precomputedStaticStatic h) (hs_lastTimestamp h) (hs_lastInitiationConsumption h)
    (hs_lastSentHandshake h).
Definition set_hs_presharedKey (x : NoisePresharedKey) (h : Handshake) : Handshake :=
  mkHandshake (hs_state h) (hs_hash h) (hs_chainKey h) x (hs_localEphemeral h)
    (hs_localIndex h) (hs_remoteIndex h) (hs_remoteStatic h) (hs_remoteEphemeral h)
    (hs_precomputedStaticStatic h) (hs_lastTimestamp h) (hs_lastInitiationConsumption h)
    (hs_lastSentHandshake h).
Definition set_hs_localEphemeral (x : NoisePrivateKey) (h : Handshake) : Handshake :=
  mkHandshake (hs_state h) (hs_hash h) (hs_chainKey h) (hs_presharedKey h) x (hs_localIndex h)
    (hs_remoteIndex h) (hs_remoteStatic h) (hs_remoteEphemeral h)
    (hs_precomputedStaticStatic h) (hs_lastTimestamp h) (hs_lastInitiationConsumption h)
    (hs_lastSentHandshake h).
Definition set_hs_localIndex (x : Z) (h : Handshake) : Handshake :=
  mkHandshake (hs_state h) (hs_hash h) (hs_chainKey h) (hs_presharedKey h)
    (hs_localEphemeral h) x (hs_remoteIndex h) (hs_remoteStatic h) (hs_remoteEphemeral h)
    (hs_precomputedStaticStatic h) (hs_lastTimestamp h) (hs_lastInitiationConsumption h)
    (hs_lastSentHandshake h).
Definition set_hs_remoteIndex (x : Z) (h : Handshake) : Handshake :=
  mkHandshake (hs_state h) (hs_hash h) (hs_chainKey h) (hs_presharedKey h)
    (hs_localEphemeral h) (hs_localIndex h) x (hs_remoteStatic h) (hs_remoteEphemeral h)
    (hs_precomputedStaticStatic h) (hs_lastTimestamp h) (hs_lastInitiationConsumption h)
    (hs_lastSentHandshake h).
Definition set_hs_remoteStatic (x : NoisePublicKey) (h : Handshake) : Handshake :=
  mkHandshake (hs_state h) (hs_hash h) (hs_chainKey h) (hs_presharedKey h)
    (hs_localEphemeral h) (hs_localIndex h) (hs_remoteIndex h) x (hs_remoteEphemeral h)
    (hs_precomputedStaticStatic h) (hs_lastTimestamp h) (hs_lastInitiationConsumption h)
    (hs_lastSentHandshake h).
Definition set_hs_remoteEphemeral (x : NoisePublicKey) (h : Handshake) : Handshake :=
  mkHandshake (hs_state h) (hs_hash h) (hs_chainKey h) (hs_presharedKey h)
    (hs_localEphemeral h) (hs_localIndex h) (hs_remoteIndex h) (hs_remoteStatic h) x
    (hs_precomputedStaticStatic h) (hs_lastTimestamp h) (hs_lastInitiationConsumption h)
    (hs_lastSentHandshake h).
Definition set_hs_precomputedStaticStatic (x : bytes) (h : Handshake) : Handshake :=
  mkHandshake (hs_state h) (hs_hash h) (hs_chainKey h) (hs_presharedKey h)
    (hs_localEphemeral h) (hs_localIndex h) (hs_remoteIndex h) (hs_remoteStatic h)
    (hs_remoteEphemeral h) x (hs_lastTimestamp h) (hs_lastInitiationConsumption h)
    (hs_lastSentHandshake h).
Definition set_hs_lastTimestamp (x : Tai64n.Timestamp) (h : Handshake) : Handshake :=
  mkHandshake (hs_state h) (hs_hash h) (hs_chainKey h) (hs_presharedKey h)
    (hs_localEphemeral h) (hs_localIndex h) (hs_remoteIndex h) (hs_remoteStatic h)
    (hs_remoteEphemeral h) (hs_precomputedStaticStatic h) x (hs_lastInitiationConsumption h)
    (hs_lastSentHandshake h).
Definition set_hs_lastInitiationConsumption (x : Time) (h : Handshake) : Handshake :=
  mkHandshake (hs_state h) (hs_hash h) (hs_chainKey h) (hs_presharedKey h)
    (hs_localEphemeral h) (hs_localIndex h) (hs_remoteIndex h) (hs_remoteStatic h)
    (hs_remoteEphemeral h) (hs_precomputedStaticStatic h) (hs_lastTimestamp h) x
    (hs_lastSentHandshake h).
Definition set_hs_lastSentHandshake (x : Time) (h : Handshake) : Handshake :=
  mkHandshake (hs_state h) (hs_hash h) (hs_chainKey h) (hs_presharedKey h)
    (hs_localEphemeral h) (hs_localIndex h) (hs_remoteIndex h) (hs_remoteStatic h)
    (hs_remoteEphemeral h) (hs_precomputedStaticStatic h) (hs_lastTimestamp h)
    (hs_lastInitiationConsumption h) x.

Definition set_kp_sendNonce (x : Z) (k : Keypair) : Keypair :=
  mkKeypair x (kp_send k) (kp_receive k) (kp_replayFilter k) (kp_isInitiator k) (kp_created k)
    (kp_localIndex k) (kp_remoteIndex k).
Definition set_kp_send (x : bytes) (k : Keypair) : Keypair :=
  mkKeypair (kp_sendNonce k) x (kp_receive k) (kp_replayFilter k) (kp_isInitiator k)
    (kp_created k) (kp_localIndex k) (kp_remoteIndex k).
Definition set_kp_receive (x : bytes) (k : Keypair) : Keypair :=
  mkKeypair (kp_sendNonce k) (kp_send k) x (kp_replayFilter k) (kp_isInitiator k)
    (kp_created k) (kp_localIndex k) (kp_remoteIndex k).
Definition set_kp_replayFilter (x : Replay.Filter) (k : Keypair) : Keypair :=
  mkKeypair (kp_sendNonce k) (kp_send k) (kp_receive k) x (kp_isInitiator k) (kp_created k)
    (kp_localIndex k) (kp_remoteIndex k).
Definition set_kp_isInitiator (x : bool) (k : Keypair) : Keypair :=
  mkKeypair (kp_sendNonce k) (kp_send k) (kp_receive k) (kp_replayFilter k) x (kp_created k)
    (kp_localIndex k) (kp_remoteIndex k).
Definition set_kp_created (x : Time) (k : Keypair) : Keypair :=
  mkKeypair (kp_sendNonce k) (kp_send k) (kp_receive k) (kp_replayFilter k) (kp_isInitiator k)
    x (kp_localIndex k) (kp_remoteIndex k).
Definition set_kp_localIndex (x : Z) (k : Keypair) : Keypair :=
  mkKeypair (kp_sendNonce k) (kp_send k) (kp_receive k) (kp_replayFilter k) (kp_isInitiator k)
    (kp_created k) x (kp_remoteIndex k).
Definition set_kp_remoteIndex (x : Z) (k : Keypair) : Keypair :=
  mkKeypair (kp_sendNonce k) (kp_send k) (kp_receive k) (kp_replayFilter k) (kp_isInitiator k)
    (kp_created k) (kp_localIndex k) x.

Definition set_tm_retransmitHandshake (x : Timer) (ts : PeerTimers) : PeerTimers :=
  mkTimers x (tm_sendKeepalive ts) (tm_newHandshake ts) (tm_zeroKeyMaterial ts)
    (tm_persistentKeepalive ts) (tm_handshakeAttempts ts) (tm_needAnotherKeepalive ts)
    (tm_sentLastMinuteHandshake ts).
Definition set_tm_sendKeepalive (x : Timer) (ts : PeerTimers) : PeerTimers :=
  mkTimers (tm_retransmitHandshake ts) x (tm_newHandshake ts) (tm_zeroKeyMaterial ts)
    (tm_persistentKeepalive ts) (tm_handshakeAttempts ts) (tm_needAnotherKeepalive ts)
    (tm_sentLastMinuteHandshake ts).
Definition set_tm_newHandshake (x : Timer) (ts : PeerTimers) : PeerTimers :=
  mkTimers (tm_retransmitHandshake ts) (tm_sendKeepalive ts) x (tm_zeroKeyMaterial ts)
    (tm_persistentKeepalive ts) (tm_handshakeAttempts ts) (tm_needAnotherKeepalive ts)
    (tm_sentLastMinuteHandshake ts).
Definition set_tm_zeroKeyMaterial (x : Timer) (ts : PeerTimers) : PeerTimers :=
  mkTimers (tm_retransmitHandshake ts) (tm_sendKeepalive ts) (tm_newHandshake ts) x
    (tm_persistentKeepalive ts) (tm_handshakeAttempts ts) (tm_needAnotherKeepalive ts)
    (tm_sentLastMinuteHandshake ts).
Definition set_tm_persistentKeepalive (x : Timer) (ts : PeerTimers) : PeerTimers :=
  mkTimers (tm_retransmitHandshake ts) (tm_sendKeepalive ts) (tm_newHandshake ts)
    (tm_zeroKeyMaterial ts) x (tm_handshakeAttempts ts) (tm_needAnotherKeepalive ts)
    (tm_sentLastMinuteHandshake ts).
Definition set_tm_handshakeAttempts (x : Z) (ts : PeerTimers) : PeerTimers :=
  mkTimers (tm_retransmitHandshake ts) (tm_sendKeepalive ts) (tm_newHandshake ts)
    (tm_zeroKeyMaterial ts) (tm_persistentKeepalive ts) x (tm_needAnotherKeepalive ts)
    (tm_sentLastMinuteHandshake ts).
Definition set_tm_needAnotherKeepalive (x : bool) (ts : PeerTimers) : PeerTimers :=
  mkTimers (tm_retransmitHandshake ts) (tm_sendKeepalive ts) (tm_newHandshake ts)
    (tm_zeroKeyMaterial ts) (tm_persistentKeepalive ts) (tm_handshakeAttempts ts) x
    (tm_sentLastMinuteHandshake ts).
Definition set_tm_sentLastMinuteHandshake (x : bool) (ts : PeerTimers) : PeerTimers :=
  mkTimers (tm_retransmitHandshake ts) (tm_sendKeepalive ts) (tm_newHandshake ts)
    (tm_zeroKeyMaterial ts) (tm_persistentKeepalive ts) (tm_handshakeAttempts ts)
    (tm_needAnotherKeepalive ts) x.

Definition set_p_pk (x : NoisePublicKey) (p : Peer) : Peer :=
  mkPeer x (p_isRunning p) (p_keypairs p) (p_handshake p) (p_txBytes p) (p_rxBytes p)
    (p_lastHandshakeNano p) (p_endpoint p) (p_timers p) (p_staged p) (p_outbound p)
    (p_inbound p) (p_cookieGenerator p) (p_persistentKeepaliveInterval p) (p_bufs p).
Definition set_p_isRunning (x : bool) (p : Peer) : Peer :=
  mkPeer (p_pk p) x (p_keypairs p) (p_handshake p) (p_txBytes p) (p_rxBytes p)
    (p_lastHandshakeNano p) (p_endpoint p) (p_timers p) (p_staged p) (p_outbound p)
    (p_inbound p) (p_cookieGenerator p) (p_persistentKeepaliveInterval p) (p_bufs p).
Definition set_p_keypairs (x : Keypairs) (p : Peer) : Peer :=
  mkPeer (p_pk p) (p_isRunning p) x (p_handshake p) (p_txBytes p) (p_rxBytes p)
    (p_lastHandshakeNano p) (p_endpoint p) (p_timers p) (p_staged p) (p_outbound p)
    (p_inbound p) (p_cookieGenerator p) (p_persistentKeepaliveInterval p) (p_bufs p).
Definition set_p_handshake (x : Handshake) (p : Peer) : Peer :=
  mkPeer (p_pk p) (p_isRunning p) (p_keypairs p) x (p_txBytes p) (p_rxBytes p)
    (p_lastHandshakeNano p) (p_endpoint p) (p_timers p) (p_staged p) (p_outbound p)
    (p_inbound p) (p_cookieGenerator p) (p_persistentKeepaliveInterval p) (p_bufs p).
Definition set_p_txBytes (x : Z) (p : Peer) : Peer :=
  mkPeer (p_pk p) (p_isRunning p) (p_keypairs p) (p_handshake p) x (p_rxBytes p)
    (p_lastHandshakeNano p) (p_endpoint p) (p_timers p) (p_staged p) (p_outbound p)
    (p_inbound p) (p_cookieGenerator p) (p_persistentKeepaliveInterval p) (p_bufs p).
Definition set_p_rxBytes (x : Z) (p : Peer) : Peer :=
  mkPeer (p_pk p) (p_isRunning p) (p_keypairs p) (p_handshake p) (p_txBytes p) x
    (p_lastHandshakeNano p) (p_endpoint p) (p_timers p) (p_staged p) (p_outbound p)
    (p_inbound p) (p_cookieGenerator p) (p_persistentKeepaliveInterval p) (p_bufs p).
Definition set_p_lastHandshakeNano (x : Z) (p : Peer) : Peer :=
  mkPeer (p_pk p) (p_isRunning p) (p_keypairs p) (p_handshake p) (p_txBytes p) (p_rxBytes p) x
    (p_endpoint p) (p_timers p) (p_staged p) (p_outbound p) (p_inbound p) (p_cookieGenerator p)
    (p_persistentKeepaliveInterval p) (p_bufs p).
Definition set_p_endpoint (x : option Endpoint) (p : Peer) : Peer :=
  mkPeer (p_pk p) (p_isRunning p) (p_keypairs p) (p_handshake p) (p_txBytes p) (p_rxBytes p)
    (p_lastHandshakeNano p) x (p_timers p) (p_staged p) (p_outbound p) (p_inbound p)
    (p_cookieGenerator p) (p_persistentKeepaliveInterval p) (p_bufs p).
Definition set_p_timers (x : PeerTimers) (p : Peer) : Peer :=
  mkPeer (p_pk p) (p_isRunning p) (p_keypairs p) (p_handshake p) (p_txBytes p) (p_rxBytes p)
    (p_lastHandshakeNano p) (p_endpoint p) x (p_staged p) (p_outbound p) (p_inbound p)
    (p_cookieGenerator p) (p_persistentKeepaliveInterval p) (p_bufs p).
Definition set_p_staged (x : list ContainerId) (p : Peer) : Peer :=
  mkPeer (p_pk p) (p_isRunning p) (p_keypairs p) (p_handshake p) (p_txBytes p) (p_rxBytes p)
    (p_lastHandshakeNano p) (p_endpoint p) (p_timers p) x (p_outbound p) (p_inbound p)
    (p_cookieGenerator p) (p_persistentKeepaliveInterval p) (p_bufs p).
Definition set_p_outbound (x : list (option ContainerId)) (p : Peer) : Peer :=
  mkPeer (p_pk p) (p_isRunning p) (p_keypairs p) (p_handshake p) (p_txBytes p) (p_rxBytes p)
    (p_lastHandshakeNano p) (p_endpoint p) (p_timers p) (p_staged p) x (p_inbound p)
    (p_cookieGenerator p) (p_persistentKeepaliveInterval p) (p_bufs p).
Definition set_p_inbound (x : list (option ContainerId)) (p : Peer) : Peer :=
  mkPeer (p_pk p) (p_isRunning p) (p_keypairs p) (p_handshake p) (p_txBytes p) (p_rxBytes p)
    (p_lastHandshakeNano p) (p_endpoint p) (p_timers p) (p_staged p) (p_outbound p) x
    (p_cookieGenerator p) (p_persistentKeepaliveInterval p) (p_bufs p).
Definition set_p_cookieGenerator (x : CookieGenerator) (p : Peer) : Peer :=
  mkPeer (p_pk p) (p_isRunning p) (p_keypairs p) (p_handshake p) (p_txBytes p) (p_rxBytes p)
    (p_lastHandshakeNano p) (p_endpoint p) (p_timers p) (p_staged p) (p_outbound p)
    (p_inbound p) x (p_persistentKeepaliveInterval p) (p_bufs p).
Definition set_p_persistentKeepaliveInterval (x : Z) (p : Peer) : Peer :=
  mkPeer (p_pk p) (p_isRunning p) (p_keypairs p) (p_handshake p) (p_txBytes p) (p_rxBytes p)
    (p_lastHandshakeNano p) (p_endpoint p) (p_timers p) (p_staged p) (p_outbound p)
    (p_inbound p) (p_cookieGenerator p) x (p_bufs p).
Definition set_p_bufs (x : list bytes) (p : Peer) : Peer :=
  mkPeer (p_pk p) (p_isRunning p) (p_keypairs p) (p_handshake p) (p_txBytes p) (p_rxBytes p)
    (p_lastHandshakeNano p) (p_endpoint p) (p_timers p) (p_staged p) (p_outbound p)
    (p_inbound p) (p_cookieGenerator p) (p_persistentKeepaliveInterval p) x.

Definition set_t_env {B : Type} {S : Type} (x : Env) (t : Transport B S) : Transport B S :=
  mkTransport x (t_state t) (t_bind t) (t_port t) (t_sink t) (t_privateKey t) (t_publicKey t)
    (t_keyMap t) (t_underLoadUntil t) (t_limiter t) (t_indexTable t) (t_cookieChecker t)
    (t_encryptionQ t) (t_decryptionQ t) (t_handshakeQ t) (t_peers t) (t_keypairs t)
    (t_outContainers t) (t_inContainers t) (t_fresh t) (t_closed t) (t_assigned t)
    (t_accepted t) (t_stuck t) (t_sealed t).
Definition set_t_state {B : Type} {S : Type} (x : transportState) (t : Transport B S) : Transport B S :=
  mkTransport (t_env t) x (t_bind t) (t_port t) (t_sink t) (t_privateKey t) (t_publicKey t)
    (t_keyMap t) (t_underLoadUntil t) (t_limiter t) (t_indexTable t) (t_cookieChecker t)
    (t_encryptionQ t) (t_decryptionQ t) (t_handshakeQ t) (t_peers t) (t_keypairs t)
    (t_outContainers t) (t_inContainers t) (t_fresh t) (t_closed t) (t_assigned t)
    (t_accepted t) (t_stuck t) (t_sealed t).
Definition set_t_bind {B : Type} {S : Type} (x : B) (t : Transport B S) : Transport B S :=
  mkTransport (t_env t) (t_state t) x (t_port t) (t_sink t) (t_privateKey t) (t_publicKey t)
    (t_keyMap t) (t_underLoadUntil t) (t_limiter t) (t_indexTable t) (t_cookieChecker t)
    (t_encryptionQ t) (t_decryptionQ t) (t_handshakeQ t) (t_peers t) (t_keypairs t)
    (t_outContainers t) (t_inContainers t) (t_fresh t) (t_closed t) (t_assigned t)
    (t_accepted t) (t_stuck t) (t_sealed t).
Definition set_t_port {B : Type} {S : Type} (x : Z) (t : Transport B S) : Transport B S :=
  mkTransport (t_env t) (t_state t) (t_bind t) x (t_sink t) (t_privateKey t) (t_publicKey t)
    (t_keyMap t) (t_underLoadUntil t) (t_limiter t) (t_indexTable t) (t_cookieChecker t)
    (t_encryptionQ t) (t_decryptionQ t) (t_handshakeQ t) (t_peers t) (t_keypairs t)
    (t_outContainers t) (t_inContainers t) (t_fresh t) (t_closed t) (t_assigned t)
    (t_accepted t) (t_stuck t) (t_sealed t).
Definition set_t_sink {B : Type} {S : Type} (x : S) (t : Transport B S) : Transport B S :=
  mkTransport (t_env t) (t_state t) (t_bind t) (t_port t) x (t_privateKey t) (t_publicKey t)
    (t_keyMap t) (t_underLoadUntil t) (t_limiter t) (t_indexTable t) (t_cookieChecker t)
    (t_encryptionQ t) (t_decryptionQ t) (t_handshakeQ t) (t_peers t) (t_keypairs t)
    (t_outContainers t) (t_inContainers t) (t_fresh t) (t_closed t) (t_assigned t)
    (t_accepted t) (t_stuck t) (t_sealed t).
Definition set_t_privateKey {B : Type} {S : Type} (x : NoisePrivateKey) (t : Transport B S) : Transport B S :=
  mkTransport (t_env t) (t_state t) (t_bind t) (t_port t) (t_sink t) x (t_publicKey t)
    (t_keyMap t) (t_underLoadUntil t) (t_limiter t) (t_indexTable t) (t_cookieChecker t)
    (t_encryptionQ t) (t_decryptionQ t) (t_handshakeQ t) (t_peers t) (t_keypairs t)
    (t_outContainers t) (t_inContainers t) (t_fresh t) (t_closed t) (t_assigned t)
    (t_accepted t) (t_stuck t) (t_sealed t).
Definition set_t_publicKey {B : Type} {S : Type} (x : NoisePublicKey) (t : Transport B S) : Transport B S :=
  mkTransport (t_env t) (t_state t) (t_bind t) (t_port t) (t_sink t) (t_privateKey t) x
    (t_keyMap t) (t_underLoadUntil t) (t_limiter t) (t_indexTable t) (t_cookieChecker t)
    (t_encryptionQ t) (t_decryptionQ t) (t_handshakeQ t) (t_peers t) (t_keypairs t)
    (t_outContainers t) (t_inContainers t) (t_fresh t) (t_closed t) (t_assigned t)
    (t_accepted t) (t_stuck t) (t_sealed t).
Definition set_t_keyMap {B : Type} {S : Type} (x : gmap bytes PeerId) (t : Transport B S) : Transport B S :=
  mkTransport (t_env t) (t_state t) (t_bind t) (t_port t) (t_sink t) (t_privateKey t)
    (t_publicKey t) x (t_underLoadUntil t) (t_limiter t) (t_indexTable t) (t_cookieChecker t)
    (t_encryptionQ t) (t_decryptionQ t) (t_handshakeQ t) (t_peers t) (t_keypairs t)
    (t_outContainers t) (t_inContainers t) (t_fresh t) (t_closed t) (t_assigned t)
    (t_accepted t) (t_stuck t) (t_sealed t).
Definition set_t_underLoadUntil {B : Type} {S : Type} (x : Z) (t : Transport B S) : Transport B S :=
  mkTransport (t_env t) (t_state t) (t_bind t) (t_port t) (t_sink t) (t_privateKey t)
    (t_publicKey t) (t_keyMap t) x (t_limiter t) (t_indexTable t) (t_cookieChecker t)
    (t_encryptionQ t) (t_decryptionQ t) (t_handshakeQ t) (t_peers t) (t_keypairs t)
    (t_outContainers t) (t_inContainers t) (t_fresh t) (t_closed t) (t_assigned t)
    (t_accepted t) (t_stuck t) (t_sealed t).
Definition set_t_limiter {B : Type} {S : Type} (x : Ratelimiter) (t : Transport B S) : Transport B S :=
  mkTransport (t_env t) (t_state t) (t_bind t) (t_port t) (t_sink t) (t_privateKey t)
    (t_publicKey t) (t_keyMap t) (t_underLoadUntil t) x (t_indexTable t) (t_cookieChecker t)
    (t_encryptionQ t) (t_decryptionQ t) (t_handshakeQ t) (t_peers t) (t_keypairs t)
    (t_outContainers t) (t_inContainers t) (t_fresh t) (t_closed t) (t_assigned t)
    (t_accepted t) (t_stuck t) (t_sealed t).
Definition set_t_indexTable {B : Type} {S : Type} (x : gmap Z IndexTableEntry) (t : Transport B S) : Transport B S :=
  mkTransport (t_env t) (t_state t) (t_bind t) (t_port t) (t_sink t) (t_privateKey t)
    (t_publicKey t) (t_keyMap t) (t_underLoadUntil t) (t_limiter t) x (t_cookieChecker t)
    (t_encryptionQ t) (t_decryptionQ t) (t_handshakeQ t) (t_peers t) (t_keypairs t)
    (t_outContainers t) (t_inContainers t) (t_fresh t) (t_closed t) (t_assigned t)
    (t_accepted t) (t_stuck t) (t_sealed t).
Definition set_t_cookieChecker {B : Type} {S : Type} (x : CookieChecker) (t : Transport B S) : Transport B S :=
  mkTransport (t_env t) (t_state t) (t_bind t) (t_port t) (t_sink t) (t_privateKey t)
    (t_publicKey t) (t_keyMap t) (t_underLoadUntil t) (t_limiter t) (t_indexTable t) x
    (t_encryptionQ t) (t_decryptionQ t) (t_handshakeQ t) (t_peers t) (t_keypairs t)
    (t_outContainers t) (t_inContainers t) (t_fresh t) (t_closed t) (t_assigned t)
    (t_accepted t) (t_stuck t) (t_sealed t).
Definition set_t_encryptionQ {B : Type} {S : Type} (x : list ContainerId) (t : Transport B S) : Transport B S :=
  mkTransport (t_env t) (t_state t) (t_bind t) (t_port t) (t_sink t) (t_privateKey t)
    (t_publicKey t) (t_keyMap t) (t_underLoadUntil t) (t_limiter t) (t_indexTable t)
    (t_cookieChecker t) x (t_decryptionQ t) (t_handshakeQ t) (t_peers t) (t_keypairs t)
    (t_outContainers t) (t_inContainers t) (t_fresh t) (t_closed t) (t_assigned t)
    (t_accepted t) (t_stuck t) (t_sealed t).
Definition set_t_decryptionQ {B : Type} {S : Type} (x : list ContainerId) (t : Transport B S) : Transport B S :=
  mkTransport (t_env t) (t_state t) (t_bind t) (t_port t) (t_sink t) (t_privateKey t)
    (t_publicKey t) (t_keyMap t) (t_underLoadUntil t) (t_limiter t) (t_indexTable t)
    (t_cookieChecker t) (t_encryptionQ t) x (t_handshakeQ t) (t_peers t) (t_keypairs t)
    (t_outContainers t) (t_inContainers t) (t_fresh t) (t_closed t) (t_assigned t)
    (t_accepted t) (t_stuck t) (t_sealed t).
Definition set_t_handshakeQ {B : Type} {S : Type} (x : list QueueHandshakeElement) (t : Transport B S) : Transport B S :=
  mkTransport (t_env t) (t_state t) (t_bind t) (t_port t) (t_sink t) (t_privateKey t)
    (t_publicKey t) (t_keyMap t) (t_underLoadUntil t) (t_limiter t) (t_indexTable t)
    (t_cookieChecker t) (t_encryptionQ t) (t_decryptionQ t) x (t_peers t) (t_keypairs t)
    (t_outContainers t) (t_inContainers t) (t_fresh t) (t_closed t) (t_assigned t)
    (t_accepted t) (t_stuck t) (t_sealed t).
Definition set_t_peers {B : Type} {S : Type} (x : gmap PeerId Peer) (t : Transport B S) : Transport B S :=
  mkTransport (t_env t) (t_state t) (t_bind t) (t_port t) (t_sink t) (t_privateKey t)
    (t_publicKey t) (t_keyMap t) (t_underLoadUntil t) (t_limiter t) (t_indexTable t)
    (t_cookieChecker t) (t_encryptionQ t) (t_decryptionQ t) (t_handshakeQ t) x (t_keypairs t)
    (t_outContainers t) (t_inContainers t) (t_fresh t) (t_closed t) (t_assigned t)
    (t_accepted t) (t_stuck t) (t_sealed t).
Definition set_t_keypairs {B : Type} {S : Type} (x : gmap KeypairId Keypair) (t : Transport B S) : Transport B S :=
  mkTransport (t_env t) (t_state t) (t_bind t) (t_port t) (t_sink t) (t_privateKey t)
    (t_publicKey t) (t_keyMap t) (t_underLoadUntil t) (t_limiter t) (t_indexTable t)
    (t_cookieChecker t) (t_encryptionQ t) (t_decryptionQ t) (t_handshakeQ t) (t_peers t) x
    (t_outContainers t) (t_inContainers t) (t_fresh t) (t_closed t) (t_assigned t)
    (t_accepted t) (t_stuck t) (t_sealed t).
Definition set_t_outContainers {B : Type} {S : Type} (x : gmap ContainerId OutContainer) (t : Transport B S) : Transport B S :=
  mkTransport (t_env t) (t_state t) (t_bind t) (t_port t) (t_sink t) (t_privateKey t)
    (t_publicKey t) (t_keyMap t) (t_underLoadUntil t) (t_limiter t) (t_indexTable t)
    (t_cookieChecker t) (t_encryptionQ t) (t_decryptionQ t) (t_handshakeQ t) (t_peers t)
    (t_keypairs t) x (t_inContainers t) (t_fresh t) (t_closed t) (t_assigned t) (t_accepted t)
    (t_stuck t) (t_sealed t).
Definition set_t_inContainers {B : Type} {S : Type} (x : gmap ContainerId InContainer) (t : Transport B S) : Transport B S :=
  mkTransport (t_env t) (t_state t) (t_bind t) (t_port t) (t_sink t) (t_privateKey t)
    (t_publicKey t) (t_keyMap t) (t_underLoadUntil t) (t_limiter t) (t_indexTable t)
    (t_cookieChecker t) (t_encryptionQ t) (t_decryptionQ t) (t_handshakeQ t) (t_peers t)
    (t_keypairs t) (t_outContainers t) x (t_fresh t) (t_closed t) (t_assigned t) (t_accepted t)
    (t_stuck t) (t_sealed t).
Definition set_t_fresh {B : Type} {S : Type} (x : nat) (t : Transport B S) : Transport B S :=
  mkTransport (t_env t) (t_state t) (t_bind t) (t_port t) (t_sink t) (t_privateKey t)
    (t_publicKey t) (t_keyMap t) (t_underLoadUntil t) (t_limiter t) (t_indexTable t)
    (t_cookieChecker t) (t_encryptionQ t) (t_decryptionQ t) (t_handshakeQ t) (t_peers t)
    (t_keypairs t) (t_outContainers t) (t_inContainers t) x (t_closed t) (t_assigned t)
    (t_accepted t) (t_stuck t) (t_sealed t).
Definition set_t_closed {B : Type} {S : Type} (x : bool) (t : Transport B S) : Transport B S :=
  mkTransport (t_env t) (t_state t) (t_bind t) (t_port t) (t_sink t) (t_privateKey t)
    (t_publicKey t) (t_keyMap t) (t_underLoadUntil t) (t_limiter t) (t_indexTable t)
    (t_cookieChecker t) (t_encryptionQ t) (t_decryptionQ t) (t_handshakeQ t) (t_peers t)
    (t_keypairs t) (t_outContainers t) (t_inContainers t) (t_fresh t) x (t_assigned t)
    (t_accepted t) (t_stuck t) (t_sealed t).
Definition set_t_assigned {B : Type} {S : Type} (x : list (KeypairId * Z)) (t : Transport B S) : Transport B S :=
  mkTransport (t_env t) (t_state t) (t_bind t) (t_port t) (t_sink t) (t_privateKey t)
    (t_publicKey t) (t_keyMap t) (t_underLoadUntil t) (t_limiter t) (t_indexTable t)
    (t_cookieChecker t) (t_encryptionQ t) (t_decryptionQ t) (t_handshakeQ t) (t_peers t)
    (t_keypairs t) (t_outContainers t) (t_inContainers t) (t_fresh t) (t_closed t) x
    (t_accepted t) (t_stuck t) (t_sealed t).
Definition set_t_accepted {B : Type} {S : Type} (x : list (KeypairId * Z)) (t : Transport B S) : Transport B S :=
  mkTransport (t_env t) (t_state t) (t_bind t) (t_port t) (t_sink t) (t_privateKey t)
    (t_publicKey t) (t_keyMap t) (t_underLoadUntil t) (t_limiter t) (t_indexTable t)
    (t_cookieChecker t) (t_encryptionQ t) (t_decryptionQ t) (t_handshakeQ t) (t_peers t)
    (t_keypairs t) (t_outContainers t) (t_inContainers t) (t_fresh t) (t_closed t)
    (t_assigned t) x (t_stuck t) (t_sealed t).
Definition set_t_stuck {B : Type} {S : Type} (x : bool) (t : Transport B S) : Transport B S :=
  mkTransport (t_env t) (t_state t) (t_bind t) (t_port t) (t_sink t) (t_privateKey t)
    (t_publicKey t) (t_keyMap t) (t_underLoadUntil t) (t_limiter t) (t_indexTable t)
    (t_cookieChecker t) (t_encryptionQ t) (t_decryptionQ t) (t_handshakeQ t) (t_peers t)
    (t_keypairs t) (t_outContainers t) (t_inContainers t) (t_fresh t) (t_closed t)
    (t_assigned t) (t_accepted t) x (t_sealed t).
Definition set_t_sealed {B : Type} {S : Type} (x : list (KeypairId * Z)) (t : Transport B S) : Transport B S :=
  mkTransport (t_env t) (t_state t) (t_bind t) (t_port t) (t_sink t) (t_privateKey t)
    (t_publicKey t) (t_keyMap t) (t_underLoadUntil t) (t_limiter t) (t_indexTable t)
    (t_cookieChecker t) (t_encryptionQ t) (t_decryptionQ t) (t_handshakeQ t) (t_peers t)
    (t_keypairs t) (t_outContainers t) (t_inContainers t) (t_fresh t) (t_closed t)
    (t_assigned t) (t_accepted t) (t_stuck t) x.

(** ** The heap *)

Section Heap.
Context {B S : Type}.
Abbreviation W := (Transport B S).

Definition peer_at (t : W) (p : PeerId) : Peer := default zeroPeer (t_peers t !! p).
Definition keypair_at (t : W) (k : KeypairId) : Keypair := default zeroKeypair (t_keypairs t !! k).
Definition out_at (t : W) (c : ContainerId) : OutContainer :=
  default zeroOutContainer (t_outContainers t !! c).
Definition in_at (t : W) (c : ContainerId) : InContainer :=
  default zeroInContainer (t_inContainers t !! c).

Definition get_peer (p : PeerId) : M W Peer := gets (fun t => peer_at t p).
Definition get_keypair (k : KeypairId) : M W Keypair := gets (fun t => keypair_at t k).

(** The state with an object replaced. *)
Definition put_peer (p : PeerId) (f : Peer -> Peer) (t : W) : W :=
  set_t_peers (<[p := f (peer_at t p)]> (t_peers t)) t.
Definition put_handshake (p : PeerId) (f : Handshake -> Handshake) : W -> W :=
  put_peer p (fun x => set_p_handshake (f (p_handshake x)) x).
Definition put_keypair (k : KeypairId) (f : Keypair -> Keypair) (t : W) : W :=
  set_t_keypairs (<[k := f (keypair_at t k)]> (t_keypairs t)) t.
Definition put_out (c : ContainerId) (f : OutContainer -> OutContainer) (t : W) : W :=
  set_t_outContainers (<[c := f (out_at t c)]> (t_outContainers t)) t.
Definition put_in (c : ContainerId) (f : InContainer -> InContainer) (t : W) : W :=
  set_t_inContainers (<[c := f (in_at t c)]> (t_inContainers t)) t.

(** Assigning fields of a peer, of its handshake, of its timers, of a keypair,
    of a container. *)
Definition upd_peer (p : PeerId) (f : Peer -> Peer) : M W unit := modify (put_peer p f).
Definition upd_handshake (p : PeerId) (f : Handshake -> Handshake) : M W unit :=
  modify (put_handshake p f).
Definition upd_timers (p : PeerId) (f : PeerTimers -> PeerTimers) : M W unit :=
  upd_peer p (fun x => set_p_timers (f (p_timers x)) x).
Definition upd_keypair (k : KeypairId) (f : Keypair -> Keypair) : M W unit :=
  modify (put_keypair k f).
Definition upd_out (c : ContainerId) (f : OutContainer -> OutContainer) : M W unit :=
  modify (put_out c f).
Definition upd_in (c : ContainerId) (f : InContainer -> InContainer) : M W unit :=
  modify (put_in c f).

(** A fresh address. *)
Definition fresh : M W nat := fun t => (set_t_fresh (Datatypes.S (t_fresh t)) t, t_fresh t).

(** Running an operation on a part of the state. *)
Definition on_env {A} (m : M Env A) : M W A := fun t =>
  let '(e, a) := m (t_env t) in (set_t_env e t, a).
Definition on_bind {A} (m : M B A) : M W A := fun t =>
  let '(b, a) := m (t_bind t) in (set_t_bind b t, a).
Definition on_sink {A} (m : M S A) : M W A := fun t =>
  let '(s, a) := m (t_sink t) in (set_t_sink s t, a).

Definition now : M W Time := on_env time_Now.
Definition since (t : Time) : M W Duration := on_env (time_Since t).

(** The state [NewTransport] builds: down, no key, no peer, an empty index table
    and empty queues. *)
Definition NewTransport (sourceSink : S) (bind : B) (env : Env) : W :=
  mkTransport env transportStateDown bind 0 sourceSink (zero_bytes 32) (zero_bytes 32) ∅ 0
    (default zeroRatelimiter (Init zeroRatelimiter)) ∅ zeroChecker [] [] [] ∅ ∅ ∅ ∅ 0 false [] [] false [].

Definition isClosed : M W bool :=
  gets (fun t => bool_decide (t_state t = transportStateClosed)).
Definition isUp : M W bool := gets (fun t => bool_decide (t_state t = transportStateUp)).

(** ** Observing the heap after an update *)

Lemma peer_at_put_peer p f (t : W) q :
  peer_at (put_peer p f t) q = if decide (p = q) then f (peer_at t p) else peer_at t q.
Proof.
  unfold peer_at, put_peer. simpl. rewrite lookup_insert. by case_decide.
Qed.

Lemma peer_at_put_peer_eq p f (t : W) : peer_at (put_peer p f t) p = f (peer_at t p).
Proof. rewrite peer_at_put_peer. by rewrite decide_True. Qed.

Lemma peer_at_put_peer_ne p f (t : W) q :
  p <> q -> peer_at (put_peer p f t) q = peer_at t q.
Proof. intros. rewrite peer_at_put_peer. by rewrite decide_False. Qed.

Lemma peer_at_put_handshake_eq p f (t : W) :
  peer_at (put_handshake p f t) p =
  set_p_handshake (f (p_handshake (peer_at t p))) (peer_at t p).
Proof. unfold put_handshake. by rewrite peer_at_put_peer_eq. Qed.

Lemma keypair_at_put_keypair k f (t : W) j :
  keypair_at (put_keypair k f t) j =
  if decide (k = j) then f (keypair_at t k) else keypair_at t j.
Proof.
  unfold keypair_at, put_keypair. simpl. rewrite lookup_insert. by case_decide.
Qed.

(** Updates of other parts of the state do not touch the peers or the keypairs. *)
Lemma peer_at_set_env e (t : W) p : peer_at (set_t_env e t) p = peer_at t p.
Proof. done. Qed.
Lemma peer_at_set_table tb (t : W) p : peer_at (set_t_indexTable tb t) p = peer_at t p.
Proof. done. Qed.
Lemma peer_at_set_keypairs ks (t : W) p : peer_at (set_t_keypairs ks t) p = peer_at t p.
Proof. done. Qed.
Lemma peer_at_set_fresh n (t : W) p : peer_at (set_t_fresh n t) p = peer_at t p.
Proof. done. Qed.
Lemma keypair_at_put_peer p f (t : W) k : keypair_at (put_peer p f t) k = keypair_at t k.
Proof. done. Qed.
Lemma keypair_at_put_handshake p f (t : W) k :
  keypair_at (put_handshake p f t) k = keypair_at t k.
Proof. done. Qed.
Lemma keypair_at_set_table tb (t : W) k :
  keypair_at (set_t_indexTable tb t) k = keypair_at t k.
Proof. done. Qed.

(** The other fields after an update of a peer. *)
Lemma t_env_put_peer p f (t : W) : t_env (put_peer p f t) = t_env t.
Proof. done. Qed.
Lemma t_env_put_handshake p f (t : W) : t_env (put_handshake p f t) = t_env t.
Proof. done. Qed.
Lemma t_state_put_peer p f (t : W) : t_state (put_peer p f t) = t_state t.
Proof. done. Qed.
Lemma t_state_put_handshake p f (t : W) : t_state (put_handshake p f t) = t_state t.
Proof. done. Qed.
Lemma t_bind_put_peer p f (t : W) : t_bind (put_peer p f t) = t_bind t.
Proof. done. Qed.
Lemma t_bind_put_handshake p f (t : W) : t_bind (put_handshake p f t) = t_bind t.
Proof. done. Qed.
Lemma t_port_put_peer p f (t : W) : t_port (put_peer p f t) = t_port t.
Proof. done. Qed.
Lemma t_port_put_handshake p f (t : W) : t_port (put_handshake p f t) = t_port t.
Proof. done. Qed.
Lemma t_sink_put_peer p f (t : W) : t_sink (put_peer p f t) = t_sink t.
Proof. done. Qed.
Lemma t_sink_put_handshake p f (t : W) : t_sink (put_handshake p f t) = t_sink t.
Proof. done. Qed.
Lemma t_privateKey_put_peer p f (t : W) : t_privateKey (put_peer p f t) = t_privateKey t.
Proof. done. Qed.
Lemma t_privateKey_put_handshake p f (t : W) : t_privateKey (put_handshake p f t) = t_privateKey t.
Proof. done. Qed.
Lemma t_publicKey_put_peer p f (t : W) : t_publicKey (put_peer p f t) = t_publicKey t.
Proof. done. Qed.
Lemma t_publicKey_put_handshake p f (t : W) : t_publicKey (put_handshake p f t) = t_publicKey t.
Proof. done. Qed.
Lemma t_keyMap_put_peer p f (t : W) : t_keyMap (put_peer p f t) = t_keyMap t.
Proof. done. Qed.
Lemma t_keyMap_put_handshake p f (t : W) : t_keyMap (put_handshake p f t) = t_keyMap t.
Proof. done. Qed.
Lemma t_underLoadUntil_put_peer p f (t : W) : t_underLoadUntil (put_peer p f t) = t_underLoadUntil t.
Proof. done. Qed.
Lemma t_underLoadUntil_put_handshake p f (t : W) : t_underLoadUntil (put_handshake p f t) = t_underLoadUntil t.
Proof. done. Qed.
Lemma t_limiter_put_peer p f (t : W) : t_limiter (put_peer p f t) = t_limiter t.
Proof. done. Qed.
Lemma t_limiter_put_handshake p f (t : W) : t_limiter (put_handshake p f t) = t_limiter t.
Proof. done. Qed.
Lemma t_indexTable_put_peer p f (t : W) : t_indexTable (put_peer p f t) = t_indexTable t.
Proof. done. Qed.
Lemma t_indexTable_put_handshake p f (t : W) : t_indexTable (put_handshake p f t) = t_indexTable t.
Proof. done. Qed.
Lemma t_cookieChecker_put_peer p f (t : W) : t_cookieChecker (put_peer p f t) = t_cookieChecker t.
Proof. done. Qed.
Lemma t_cookieChecker_put_handshake p f (t : W) : t_cookieChecker (put_handshake p f t) = t_cookieChecker t.
Proof. done. Qed.
Lemma t_keypairs_put_peer p f (t : W) : t_keypairs (put_peer p f t) = t_keypairs t.
Proof. done. Qed.
Lemma t_keypairs_put_handshake p f (t : W) : t_keypairs (put_handshake p f t) = t_keypairs t.
Proof. done. Qed.
Lemma t_fresh_put_peer p f (t : W) : t_fresh (put_peer p f t) = t_fresh t.
Proof. done. Qed.
Lemma t_fresh_put_handshake p f (t : W) : t_fresh (put_handshake p f t) = t_fresh t.
Proof. done. Qed.

Lemma put_peer_fuse p f g (t : W) :
  put_peer p g (put_peer p f t) = put_peer p (fun x => g (f x)) t.
Proof.
  unfold put_peer at 1. rewrite peer_at_put_peer_eq. unfold put_peer. simpl.
  by rewrite insert_insert_eq.
Qed.

Lemma put_handshake_fuse p f g (t : W) :
  put_handshake p g (put_handshake p f t) = put_handshake p (fun h => g (f h)) t.
Proof. unfold put_handshake. by rewrite put_peer_fuse. Qed.

End Heap.

Create Rewrite HintDb heap.
#[export] Hint Rewrite @peer_at_put_peer_eq @peer_at_put_handshake_eq @peer_at_set_env
  @peer_at_set_table @peer_at_set_keypairs @peer_at_set_fresh @keypair_at_put_peer
  @keypair_at_put_handshake @keypair_at_set_table @put_handshake_fuse : heap.
#[export] Hint Rewrite @t_env_put_peer @t_env_put_handshake @t_state_put_peer @t_state_put_handshake @t_bind_put_peer @t_bind_put_handshake @t_port_put_peer @t_port_put_handshake @t_sink_put_peer @t_sink_put_handshake @t_privateKey_put_peer @t_privateKey_put_handshake @t_publicKey_put_peer @t_publicKey_put_handshake @t_keyMap_put_peer @t_keyMap_put_handshake @t_underLoadUntil_put_peer @t_underLoadUntil_put_handshake @t_limiter_put_peer @t_limiter_put_handshake @t_indexTable_put_peer @t_indexTable_put_handshake @t_cookieChecker_put_peer @t_cookieChecker_put_handshake @t_keypairs_put_peer @t_keypairs_put_handshake @t_fresh_put_peer @t_fresh_put_handshake : heap.

End State.
