(* ===== verification/Demo.v ===== *)
(** Concrete instances of the interfaces, for evaluating the model: a bind that
    records what it is asked to send, a sink that records what it is given, and
    transports with toy cryptography. *)
From S2P Require Import Prelude Replay Tai64n Env Crypto Wire State.
From stdpp Require Import prelude gmap list strings.
Open Scope Z_scope.

Module Demo.
Import Env.Env Crypto.Noise_helpers State.State.

(** The datagrams handed to the network, latest first. *)
Abbreviation LogBind := (list (Endpoint * list bytes)) (only parsing).
#[global] Instance log_bind : Bind LogBind := {|
  bind_Open port b := (b, (port, None));
  bind_Close b := (b, None);
  bind_Send bufs ep b := ((ep, bufs) :: b, None);
  bind_BatchSize _ := 128;
|}.

(** The packets written to the network stack, latest first. *)
Abbreviation LogSink := (list bytes) (only parsing).
#[global] Instance log_sink : SourceSink LogSink := {|
  sink_Write bufs _ off s := (rev (map (drop off) bufs) ++ s, (Z.of_nat (length bufs), None));
  sink_Close s := (s, None);
  sink_BatchSize _ := 128;
|}.

Abbreviation W := (Transport LogBind LogSink).

Definition demo_sk (n : Z) : bytes := @clamp (map (fun i => byte_of_Z (n + Z.of_nat i)) (List.seq 0 32)).
Definition demo_env_at (sec : Z) : Env := demo_env (sec * Second) sec.
Definition demo_endpoint (n : Z) : Endpoint := mkEndpoint (Addr4 [byte_of_Z 10; byte_of_Z 0; byte_of_Z 0; byte_of_Z n]) 51820.

(** A transport that is up with private key [demo_sk me] and one running peer,
    number 0, with private key [demo_sk other]. *)
Definition demo_transport (me : Z) (env : Env) (other : Z) : W :=
  let C := Toy.toy_crypto in
  let pk := PublicKey (demo_sk other) in
  let ss := default (zero_bytes 32) (sharedSecret (demo_sk me) pk) in
  let h := set_hs_precomputedStaticStatic ss (set_hs_remoteStatic pk zeroHandshake) in
  let x := set_p_endpoint (Some (demo_endpoint other))
             (set_p_cookieGenerator (Cookie.Cookie.generator_Init Cookie.Cookie.zeroGenerator pk)
               (set_p_isRunning true (set_p_pk pk (set_p_handshake h zeroPeer)))) in
  let t := NewTransport [] [] env in
  let t := set_t_privateKey (demo_sk me) (set_t_publicKey (PublicKey (demo_sk me)) t) in
  let t := set_t_cookieChecker (Cookie.Cookie.checker_Init Cookie.Cookie.zeroChecker
             (PublicKey (demo_sk me))) t in
  set_t_state transportStateUp
    (set_t_fresh 1 (set_t_peers {[ 0%nat := x ]} (set_t_keyMap {[ pk := 0%nat ]} t))).

End Demo.
