(* ===== verification/Names.v ===== *)
(** Names for people: the text form of an endpoint (internal/conn/bind_std.go,
    over netip.AddrPort) and the name of a receive function in the log
    (internal/conn/conn.go), the names of peers
    and states (internal/transport). *)
From S2P Require Import Prelude Env Crypto State Text.
From stdpp Require Import prelude list strings.
From Stdlib Require Import Ascii.
Open Scope Z_scope.

Module Names.
Import State.State.
Import Text.Text.

(** ** Endpoints *)

(** [strconv.AppendInt] of a number that is not negative, in front of [acc]. *)
Fixpoint append_int (fuel : nat) (n : Z) (acc : string) : string :=
  match fuel with
  | O => acc
  | S fuel =>
      if n <? 10 then String (digit_char n) acc
      else append_int fuel (n / 10) (String (digit_char (n mod 10)) acc)
  end.

(** Five digits are enough for 16 bits. *)
Definition port_String (port : Z) : string := append_int 5 port EmptyString.

(** [strconv.ParseUint(s, 10, 16)] *)
Definition ParseUint16 (s : string) : option Z :=
  match s with
  | EmptyString => None
  | _ =>
      match digits 0 s with
      | Some n => if n <=? 65535 then Some n else None
      | None => None
      end
  end.

(** [netip.splitAddrPort]: the text of the address, that of the port, and
    whether the address was in brackets. *)
Definition splitAddrPort (s : string) : option (string * string * bool) :=
  match last_index ":" s with
  | None => None
  | Some i =>
      let ip := str_take i s in
      let port := str_drop (S i) s in
      match ip, port with
      | EmptyString, _ | _, EmptyString => None
      | String c rest, _ =>
          if Ascii.eqb c "[" then
            match last_index "]" ip with
            | Some e =>
                if (S e =? String.length ip)%nat then Some (str_take (e - 1) rest, port, true) else None
            | None => None
            end
          else Some (ip, port, false)
      end
  end.

(** [netip.ParseAddrPort] *)
Definition ParseAddrPort (s : string) : option Endpoint :=
  match splitAddrPort s with
  | None => None
  | Some (ip, port, ipv6) =>
      match ParseUint16 port with
      | None => None
      | Some port16 =>
          match ParseAddr ip with
          | Some a => if Bool.eqb ipv6 (addr_Is6 a) then Some (mkEndpoint a port16) else None
          | None => None
          end
      end
  end.

Definition ParseEndpoint (s : string) : option Endpoint :=
  match ParseAddrPort s with
  | None => None
  | Some e => Some e
  end.

(** [AddrPort.String] *)
Definition DstToString (e : Endpoint) : string :=
  match ep_addr e with
  | AddrZero => "invalid AddrPort"
  | Addr4 b => (string4 b +:+ String ":" (port_String (ep_port e)))%string
  | a => String "[" (addr_String a +:+ String "]" (String ":" (port_String (ep_port e))))%string
  end.

(** ** The name of a receive function *)

Definition has_suffix (suf s : string) : bool :=
  String.eqb (str_drop (String.length s - String.length suf) s) suf.
Definition trim_suffix (suf s : string) : string :=
  if has_suffix suf s then str_take (String.length s - String.length suf) s else s.

(** The index behind the last character that is not a digit. *)
Fixpoint stem (s : string) : nat :=
  match s with
  | EmptyString => 0%nat
  | String c s =>
      match stem s with
      | O => if between "0" "9" c then 0%nat else 1%nat
      | n => S n
      end
  end.

Definition dotFunc : string := ".func".

Fixpoint strip_funcs (fuel : nat) (name : string) : option string :=
  match fuel with
  | O => None
  | S fuel =>
      let idx1 := stem name in
      if (idx1 =? String.length name)%nat then Some name
      else if negb (has_suffix dotFunc (str_take idx1 name)) then Some name
      else strip_funcs fuel (str_take (idx1 - String.length dotFunc) name)
  end.

(** What is behind the last [c]. *)
Definition after_last (c : ascii) (s : string) : string :=
  match last_index c s with
  | Some idx => str_drop (S idx) s
  | None => s
  end.

(** [name] is the name the runtime has for the function, [ptr] its address
    as [%p] prints it. *)
Definition PrettyName (name ptr : string) : option string :=
  let name := trim_suffix "-fm" name in
  let name := after_last "/" name in
  match strip_funcs (S (String.length name)) name with
  | None => None
  | Some name =>
      let name := after_last "." name in
      Some (if String.eqb name EmptyString then ptr
            else if has_suffix "IPv4" name then "v4"%string
            else if has_suffix "IPv6" name then "v6"%string
            else name)
  end.


(** ** Endpoints survive their text *)

Definition endpoint_wf (e : Endpoint) : Prop := addr_wf (ep_addr e) /\ 0 <= ep_port e < 65536.

Lemma digits_append_int fuel : forall n acc, 0 <= n < 10 ^ Z.of_nat fuel -> (0 < fuel)%nat ->
  digits 0 (append_int fuel n acc) = digits n acc.
Proof.
  induction fuel as [|fuel IH]; intros n acc Hn Hf; [lia|]. cbn [append_int].
  destruct (Z.ltb_spec n 10).
  - destruct (digit_facts n) as [Hd _]; [lia|]. cbn [digits]. rewrite Hd. done.
  - rewrite Nat2Z.inj_succ, Z.pow_succ_r in Hn by lia. pose proof (Z.div_mod n 10). pose proof (Z.mod_pos_bound n 10).
    destruct fuel as [|fuel]; [simpl in Hn; lia|].
    rewrite IH; [|split; [apply Z.div_pos; lia|apply Z.div_lt_upper_bound; lia]|lia].
    destruct (digit_facts (n mod 10)) as [Hd _]; [lia|]. cbn [digits]. rewrite Hd. f_equal. lia.
Qed.

Lemma append_int_colon fuel : forall n acc, 0 <= n ->
  index_char ":" acc = None -> index_char ":" (append_int fuel n acc) = None.
Proof.
  induction fuel as [|fuel IH]; intros n acc Hn Ha; [done|]. cbn [append_int].
  assert (Hc : forall d, 0 <= d < 10 -> index_char ":" (String (digit_char d) acc) = None).
  { intros d Hd. destruct (digit_facts d Hd) as (_ & _ & _ & Hc & _). cbn [index_char]. by rewrite Hc, Ha. }
  destruct (Z.ltb_spec n 10); [apply Hc; lia|].
  apply IH; [apply Z.div_pos; lia|]. apply Hc. apply Z.mod_pos_bound. lia.
Qed.

Lemma port_text port : 0 <= port < 65536 ->
  ParseUint16 (port_String port) = Some port /\ index_char ":" (port_String port) = None /\
  port_String port <> EmptyString.
Proof.
  intros Hp. unfold port_String. assert (Hne : append_int 5 port EmptyString <> EmptyString).
  { cbn [append_int]. by repeat case_match. }
  split; [|split; [by apply append_int_colon; [lia|]|done]].
  unfold ParseUint16. rewrite digits_append_int by (simpl; lia). cbn [digits].
  destruct (append_int 5 port EmptyString); [done|]. by rewrite (proj2 (Z.leb_le _ _)) by lia.
Qed.

Lemma split_plain ip c port : index_char ":" port = None -> port <> EmptyString -> Ascii.eqb c "[" = false ->
  splitAddrPort (String c ip +:+ String ":" port)%string = Some (String c ip, port, false).
Proof.
  intros Hp Hne Hc. unfold splitAddrPort. rewrite last_index_app by done.
  rewrite str_take_app, str_drop_after. destruct port; [done|]. by rewrite Hc.
Qed.

Lemma split_bracketed ip port : index_char ":" port = None -> port <> EmptyString ->
  splitAddrPort (String "[" (ip +:+ String "]" (String ":" port)))%string = Some (ip, port, true).
Proof.
  intros Hp Hne. unfold splitAddrPort.
  replace (String "[" (ip +:+ String "]" (String ":" port)))%string
    with ((String "[" ip +:+ String "]" EmptyString) +:+ String ":" port)%string
    by (by rewrite str_assoc, !str_cons).
  rewrite last_index_app by done. rewrite str_take_app, str_drop_after. rewrite str_cons at 1.
  destruct port as [|p port]; [done|]. cbn [Ascii.eqb]. rewrite last_index_app by done.
  replace (String.length (String "[" ip +:+ String "]" EmptyString)%string) with (S (String.length (String "[" ip))).
  2:{ clear. induction ip as [|x ip IH]; [done|]. rewrite !str_cons in *. simpl in *. lia. }
  rewrite Nat.eqb_refl. cbn [String.length].
  replace (S (String.length ip) - 1)%nat with (String.length ip) by lia. by rewrite str_take_app.
Qed.

(** An endpoint printed and parsed is the endpoint; what is parsed is a
    well-formed endpoint. *)
Theorem endpoint_text e : endpoint_wf e -> ParseEndpoint (DstToString e) = Some e.
Proof.
  destruct e as [a port]. intros [Ha Hp]. simpl in *. unfold ParseEndpoint, ParseAddrPort, DstToString. cbn [ep_addr ep_port].
  destruct (port_text port Hp) as (P1 & P2 & P3). pose proof (ParseAddr_String a Ha) as HA.
  destruct a as [|b|b zone]; [done| |].
  - cbn [addr_String] in HA. pose proof (string4_plain b) as (_ & H2 & _)%plain_text_spec.
    destruct (string4_head b Ha) as (c & s & E & _). rewrite E in *.
    rewrite split_plain; [by rewrite P1, HA|done|done|]. unfold has_char in H2. cbn [index_char] in H2.
    by destruct (Ascii.eqb c "[").
  - by rewrite split_bracketed, P1, HA.
Qed.

Lemma digits_nonneg s : forall acc n, 0 <= acc -> digits acc s = Some n -> 0 <= n.
Proof.
  induction s as [|x s IH]; intros acc n H0; simpl; [by intros [= <-]|].
  unfold digit, between. destruct (Z.leb_spec (code "0") (code x)); [|done].
  destruct (_ <=? _); [|done]. simpl. apply IH. lia.
Qed.

Theorem ParseEndpoint_wf s e : ParseEndpoint s = Some e -> endpoint_wf e.
Proof.
  unfold ParseEndpoint, ParseAddrPort. destruct (splitAddrPort s) as [[[ip port] ipv6]|]; [|done].
  destruct (ParseUint16 port) as [p|] eqn:Ep; [|done]. destruct (ParseAddr ip) as [a|] eqn:Ea; [|done].
  destruct (Bool.eqb _ _); [|done]. intros [= <-]. split; [by apply (ParseAddr_wf ip)|]. simpl.
  revert Ep. unfold ParseUint16. destruct port as [|c port]; [done|].
  destruct (digits 0 (String c port)) as [n|] eqn:Ed; [|done].
  destruct (Z.leb_spec n 65535); [|done]. intros [= <-].
  pose proof (digits_nonneg _ 0 _ (Z.le_refl 0) Ed). lia.
Qed.

Example endpoint_texts :
  map (fun s => option_map DstToString (ParseEndpoint s))
    ["10.0.0.1:51820"; "[2001:db8::1%eth0]:0080"; "[10.0.0.1]:1"; "::1:80"; "10.0.0.1:65536"; "10.0.0.1:"; "host:80"]%string =
  [Some "10.0.0.1:51820"; Some "[2001:db8::1%eth0]:80"; None; None; None; None; None]%string.
Proof. vm_compute. reflexivity. Qed.

(** ** Receive functions are named after their family *)

Lemma length_append s r : String.length (s +:+ r)%string = (String.length s + String.length r)%nat.
Proof. induction s as [|c s IH]; [done|]. rewrite str_cons. simpl. by rewrite IH. Qed.

Lemma str_take_more s r n : str_take (String.length s + n) (s +:+ r)%string = (s +:+ str_take n r)%string.
Proof. induction s as [|c s IH]; [done|]. rewrite !str_cons. simpl. by rewrite IH. Qed.

Lemma str_drop_more s r n : str_drop (String.length s + n) (s +:+ r)%string = str_drop n r.
Proof. induction s as [|c s IH]; [done|]. rewrite str_cons. exact IH. Qed.

Lemma length_str_take n s : (n <= String.length s)%nat -> String.length (str_take n s) = n.
Proof. revert n. induction s as [|c s IH]; intros [|n] H; simpl in *; [done|lia|done|]. rewrite IH; lia. Qed.

Lemma length_str_drop n s : String.length (str_drop n s) = (String.length s - n)%nat.
Proof. revert n. induction s as [|c s IH]; intros [|n]; simpl; [done..|]. by rewrite IH. Qed.

Lemma has_suffix_app suf s r : (String.length suf <= String.length r)%nat ->
  has_suffix suf (s +:+ r)%string = has_suffix suf r.
Proof.
  intros H. unfold has_suffix. rewrite length_append.
  replace (String.length s + String.length r - String.length suf)%nat
    with (String.length s + (String.length r - String.length suf))%nat by lia.
  by rewrite str_drop_more.
Qed.

Lemma stem_le s : (stem s <= String.length s)%nat.
Proof. induction s as [|c s IH]; simpl; [done|]. destruct (stem s); [case_match|]; lia. Qed.

Lemma stem_app s r : (0 < stem r)%nat -> stem (s +:+ r)%string = (String.length s + stem r)%nat.
Proof.
  intros H. induction s as [|c s IH]; [done|]. rewrite str_cons. cbn [stem]. rewrite IH. simpl.
  destruct (String.length s + stem r)%nat eqn:E; [lia|done].
Qed.

Lemma last_index_after c s r : index_char c r = None -> exists s',
  after_last c (s +:+ r)%string = (s' +:+ r)%string /\ (String.length s' <= String.length s)%nat.
Proof.
  intros Hr. unfold after_last. induction s as [|x s (s' & IH & Hl)].
  { exists EmptyString. by rewrite str_nil, last_index_none. }
  rewrite str_cons. cbn [last_index]. destruct (last_index c (s +:+ r)%string) as [i|].
  - exists s'. simpl. split; [done|]. lia.
  - destruct (Ascii.eqb x c); [exists s|exists (String x s)]; simpl; split; try done; lia.
Qed.

(** The loop ends: every round but the last one cuts off what it found. *)
Lemma strip_funcs_total fuel : forall name, (String.length name < fuel)%nat -> exists r, strip_funcs fuel name = Some r.
Proof.
  induction fuel as [|fuel IH]; intros name H; [lia|]. cbn [strip_funcs]. pose proof (stem_le name).
  destruct (Nat.eqb_spec (stem name) (String.length name)); [eauto|]. case_match; [eauto|].
  apply IH. rewrite length_str_take; lia.
Qed.

Theorem PrettyName_total name ptr : exists r, PrettyName name ptr = Some r.
Proof.
  unfold PrettyName. set (n := after_last _ _). destruct (strip_funcs_total (S (String.length n)) n) as [r ->]; eauto.
Qed.

Fixpoint all_digits (s : string) : bool :=
  match s with
  | EmptyString => true
  | String c s => between "0" "9" c && all_digits s
  end.

Lemma stem_digits d : all_digits d = true -> stem d = 0%nat.
Proof. induction d as [|c d IH]; simpl; [done|]. intros [-> H]%andb_true_iff. by rewrite IH. Qed.

Lemma stem_app_digits s d : all_digits d = true -> stem (s +:+ d)%string = stem s.
Proof.
  intros Hd. induction s as [|c s IH]; [rewrite str_nil; by apply stem_digits|].
  rewrite str_cons. cbn [stem]. by rewrite IH.
Qed.

Lemma digits_without c d : between "0" "9" c = false -> all_digits d = true -> index_char c d = None.
Proof.
  intros Hc. induction d as [|x d IH]; simpl; [done|]. intros [Hx Hd]%andb_true_iff.
  destruct (Ascii.eqb_spec x c) as [->|]; [congruence|]. by rewrite IH.
Qed.

Lemma has_suffix_inv suf s : has_suffix suf s = true -> exists s', s = (s' +:+ suf)%string.
Proof.
  unfold has_suffix. intros H%String.eqb_eq. exists (str_take (String.length s - String.length suf) s).
  rewrite <- H at 2. generalize (String.length s - String.length suf)%nat. clear.
  induction s as [|c s IH]; intros [|n]; try done. simpl. rewrite str_cons. by rewrite <- IH.
Qed.

(** A round of the loop cuts off one number of a closure. *)
Lemma strip_func fuel s d : all_digits d = true -> d <> EmptyString ->
  strip_funcs (S fuel) (s +:+ dotFunc +:+ d)%string = strip_funcs fuel s.
Proof.
  intros Hd Hne. cbn [strip_funcs]. rewrite <- str_assoc, stem_app_digits by done.
  rewrite stem_app by (vm_compute; lia). change (stem dotFunc) with 5%nat.
  rewrite !length_append. rewrite (proj2 (Nat.eqb_neq _ _)); [|destruct d; [done|simpl; lia]].
  rewrite str_assoc, str_take_more.
  replace (str_take 5 (dotFunc +:+ d)%string) with dotFunc by (by destruct d).
  rewrite has_suffix_app by done. change (negb _) with false. cbn iota.
  change (String.length dotFunc) with 5%nat. rewrite Nat.add_sub.
  by rewrite str_take_app.
Qed.

(** The closure that [makeReceiveIPv4] or [makeReceiveIPv6] returns is named after
    its family, wherever the package is and whatever number it has. *)
Theorem receive_names (v6 : bool) p d ptr : all_digits d = true -> d <> EmptyString ->
  PrettyName (p +:+ (if v6 then ".makeReceiveIPv6" else ".makeReceiveIPv4") +:+ dotFunc +:+ d)%string ptr =
  Some (if v6 then "v6" else "v4")%string.
Proof.
  intros Hd Hne. set (base := if v6 then _ else _). unfold PrettyName, trim_suffix.
  assert (Hfm : has_suffix "-fm" (p +:+ base +:+ dotFunc +:+ d)%string = false).
  { destruct (has_suffix _ _) eqn:E; [|done]. apply has_suffix_inv in E as [s' E].
    pose proof (f_equal stem E) as E1. pose proof (f_equal String.length E) as E2.
    rewrite <- !str_assoc, stem_app_digits, !stem_app in E1 by (done || vm_compute; lia).
    rewrite !length_append in E1. rewrite !length_append in E2. destruct d; [done|]. simpl in E1, E2. lia. }
  rewrite Hfm. destruct (last_index_after "/" p (base +:+ dotFunc +:+ d)%string) as (p' & -> & _).
  { rewrite <- str_assoc, index_app by (by destruct v6). by rewrite digits_without. }
  rewrite <- str_assoc, length_append.
  assert (Hf : exists f, String.length (dotFunc +:+ d) = S f) by (by eexists). destruct Hf as [f ->].
  rewrite strip_func by done. rewrite Nat.add_succ_r. cbn [strip_funcs].
  rewrite stem_app by (destruct v6; vm_compute; lia). rewrite length_append.
  replace (stem base) with 15%nat by (by destruct v6). replace (String.length base) with 16%nat by (by destruct v6).
  rewrite (proj2 (Nat.eqb_neq _ _)) by lia. rewrite str_take_more.
  rewrite has_suffix_app by (destruct v6; vm_compute; lia). replace (has_suffix dotFunc (str_take 15 base)) with false by (by destruct v6).
  cbn [negb]. unfold after_last.
  assert (Hb : exists b, base = String "." b /\ index_char "." b = None) by (destruct v6; by eexists).
  destruct Hb as (b & Eb & Hb). rewrite Eb, last_index_app, str_drop_after by done.
  destruct v6; injection Eb as <-; reflexivity.
Qed.

(** ** Peers and states *)

(** [s[a:b]]; [None] is the panic of bounds out of range. *)
Definition str_slice (a b : nat) (s : string) : option string :=
  if (a <=? b)%nat && (b <=? String.length s)%nat then Some (str_take (b - a) (str_drop a s)) else None.

(** [Peer.String]; the argument is [peer.handshake.remoteStatic]. *)
Definition Peer_String (remoteStatic : bytes) : option string :=
  let base64Key := EncodeToString remoteStatic in
  match str_slice 0 4 base64Key, str_slice 39 43 base64Key with
  | Some a, Some b => Some ("peer(" +:+ (a +:+ "…" +:+ b) +:+ ")")%string
  | _, _ => None
  end.

Definition transportState_String (state : transportState) : string :=
  match state with
  | transportStateDown => "down"
  | transportStateUp => "up"
  | transportStateClosed => "closed"
  end.

Definition handshakeState_String (hs : handshakeState) : string :=
  match hs with
  | handshakeZeroed => "handshakeZeroed"
  | handshakeInitiationCreated => "handshakeInitiationCreated"
  | handshakeInitiationConsumed => "handshakeInitiationConsumed"
  | handshakeResponseCreated => "handshakeResponseCreated"
  | handshakeResponseConsumed => "handshakeResponseConsumed"
  end.

Lemma length_encode b : String.length (EncodeToString b) = (4 * ((length b + 2) / 3))%nat.
Proof.
  induction b as [|x|x y|x y z b IH] using list_ind3; [done..|].
  cbn [EncodeToString String.length length]. rewrite IH.
  replace (S (S (S (length b))) + 2)%nat with (length b + 2 + 1 * 3)%nat by lia. rewrite Nat.div_add by lia. lia.
Qed.

(** Printing a peer does not slice out of range: the text of a key has 44
    characters. *)
Theorem Peer_String_total remoteStatic : length remoteStatic = 32%nat ->
  exists s, Peer_String remoteStatic = Some s /\ String.length s = 17%nat.
Proof.
  intros H. unfold Peer_String, str_slice. rewrite length_encode, H. change (4 * ((32 + 2) / 3))%nat with 44%nat.
  cbn [Nat.leb andb]. eexists. split; [done|]. rewrite !length_append, !length_str_take; [done| |].
  - rewrite length_str_drop, length_encode, H. vm_compute. lia.
  - rewrite length_str_drop, length_encode, H. vm_compute. lia.
Qed.

End Names.
