(* ===== verification/Gso.v ===== *)
(** UDP segmentation offload (internal/conn/bind_std.go): the datagrams of a
    batch are coalesced into few messages for the kernel to cut up again, and
    the messages the kernel has coalesced on the way in are split into
    datagrams, in place.

    The control data of a message belongs to the operating system; as in the
    source, the functions that write and read the segment size in it are
    arguments. *)
From S2P Require Import Prelude Env Crypto State.
From stdpp Require Import prelude list strings.
Open Scope Z_scope.

Module Gso.
Import State.State.

Definition maxIPv4PayloadLen : Z := Z.shiftl 1 16 - 1 - 20 - 8.
Definition maxIPv6PayloadLen : Z := Z.shiftl 1 16 - 1 - 8.
Definition udpSegmentMaxDatagrams : nat := 64.

(** A slice of bytes: what it holds and its capacity. *)
Record Buffer := mkBuffer { data : bytes; capacity : nat }.

(** [net.UDPAddr]. *)
Record UDPAddr := mkUDPAddr { ua_IP : bytes; ua_Port : Z; ua_Zone : string }.

Section Gso.
Context {Control : Type}.

(** [ipv6.Message] with its one buffer; [OOB] is the control data. *)
Record Message := mkMessage {
  Buffers0 : Buffer;
  OOB : Control;
  MAddr : option UDPAddr;
  MN : nat;  (* the number of bytes received *)
}.

Definition set_buffer (b : Buffer) (m : Message) : Message :=
  mkMessage b (OOB m) (MAddr m) (MN m).
Definition set_oob (c : Control) (m : Message) : Message :=
  mkMessage (Buffers0 m) c (MAddr m) (MN m).
Definition set_N (n : nat) (m : Message) : Message :=
  mkMessage (Buffers0 m) (OOB m) (MAddr m) n.

(** [msgs[i] = f(msgs[i])]; [None] is the panic of an index out of range. *)
Definition update (i : Z) (f : Message -> Message) (msgs : list Message) : option (list Message) :=
  if i <? 0 then None
  else match msgs !! Z.to_nat i with
       | None => None
       | Some m => Some (<[Z.to_nat i := f m]> msgs)
       end.

(** ** Coalescing *)

Section Coalesce.
Variable setGSO : Control -> Z -> Control.

(** The local variables of [coalesceMessages] and the messages. *)
Record Coalesce := mkCoalesce {
  c_msgs : list Message;
  base : Z;          (* index of msg we are currently coalescing into *)
  gsoSize : nat;     (* segmentation size of msgs[base] *)
  dgramCnt : nat;    (* number of dgrams coalesced into msgs[base] *)
  endBatch : bool;   (* start a new batch on next iteration of bufs *)
}.

Definition set_segment (st : Coalesce) (m : Message) : Message :=
  set_oob (setGSO (OOB m) (u16 (Z.of_nat (gsoSize st)))) m.

(** Whether a buffer joins the message it follows. *)
Definition joins (maxPayloadLen : Z) (st : Coalesce) (m : Message) (buf : Buffer) : bool :=
  let msgLen := length (data buf) in
  let baseLenBefore := length (data (Buffers0 m)) in
  let freeBaseCap := (capacity (Buffers0 m) - baseLenBefore)%nat in
  (Z.of_nat (msgLen + baseLenBefore) <=? maxPayloadLen) &&
  (msgLen <=? gsoSize st)%nat &&
  (msgLen <=? freeBaseCap)%nat &&
  (dgramCnt st <? udpSegmentMaxDatagrams)%nat &&
  negb (endBatch st).

Definition append_buf (buf : Buffer) (m : Message) : Message :=
  set_buffer (mkBuffer (data (Buffers0 m) ++ data buf) (capacity (Buffers0 m))) m.

Definition join (isLast : bool) (buf : Buffer) (st : Coalesce) : option Coalesce :=
  match update (base st) (append_buf buf) (c_msgs st) with
  | None => None
  | Some msgs =>
      match (if isLast then update (base st) (set_segment st) msgs else Some msgs) with
      | None => None
      | Some msgs =>
          Some (mkCoalesce msgs (base st) (gsoSize st) (dgramCnt st + 1)
                  (if (length (data buf) <? gsoSize st)%nat then true else endBatch st))
      end
  end.

Definition start_batch (addr : UDPAddr) (buf : Buffer) (st : Coalesce) : option Coalesce :=
  match (if (1 <? dgramCnt st)%nat then update (base st) (set_segment st) (c_msgs st)
         else Some (c_msgs st)) with
  | None => None
  | Some msgs =>
      let base := base st + 1 in
      match update base (fun m => mkMessage buf (OOB m) (Some addr) (MN m)) msgs with
      | None => None
      | Some msgs => Some (mkCoalesce msgs base (length (data buf)) 1 false)
      end
  end.

Definition coalesce_one (addr : UDPAddr) (maxPayloadLen : Z) (isFirst isLast : bool) (buf : Buffer)
    (st : Coalesce) : option Coalesce :=
  if isFirst then start_batch addr buf st
  else
    match (if base st <? 0 then None else c_msgs st !! Z.to_nat (base st)) with
    | None => None
    | Some m =>
        if joins maxPayloadLen st m buf then join isLast buf st else start_batch addr buf st
    end.

Fixpoint coalesce_loop (addr : UDPAddr) (maxPayloadLen : Z) (isFirst : bool) (bufs : list Buffer)
    (st : Coalesce) : option Coalesce :=
  match bufs with
  | [] => Some st
  | buf :: rest =>
      match coalesce_one addr maxPayloadLen isFirst (match rest with [] => true | _ => false end) buf st with
      | None => None
      | Some st => coalesce_loop addr maxPayloadLen false rest st
      end
  end.

Definition max_payload (ep : Endpoint) : Z :=
  if addr_Is6 (DstIP ep) then maxIPv6PayloadLen else maxIPv4PayloadLen.

(** The messages and how many of them are to be sent. *)
Definition coalesceMessages (addr : UDPAddr) (ep : Endpoint) (bufs : list Buffer)
    (msgs : list Message) : option (list Message * Z) :=
  match coalesce_loop addr (max_payload ep) true bufs (mkCoalesce msgs (-1) 0 0 false) with
  | None => None
  | Some st => Some (c_msgs st, base st + 1)
  end.

End Coalesce.

(** ** Splitting *)

Inductive SplitError := SplitGSO (e : Error) | SplitOverflow.

Section Split.
Variable getGSO : Control -> Error + nat.

(** The inner loop, [j] rounds before its end: [msgs[i]] is cut from [start] to
    [stop] into [msgs[n]], which may be [msgs[i]] itself. *)
Fixpoint split_chunks (j i gso start stop n : nat) (msgs : list Message)
  : option (list Message * nat * option SplitError) :=
  match j with
  | O => Some (msgs, n, None)
  | S j =>
      if (i <? n)%nat then Some (msgs, n, Some SplitOverflow)
      else
        match msgs !! n, msgs !! i with
        | Some dst, Some msg =>
            if (stop <? start)%nat || (capacity (Buffers0 msg) <? stop)%nat then None
            else
              let src := slice start stop (data (Buffers0 msg)) in
              let copied := Nat.min (length (data (Buffers0 dst))) (length src) in
              let buf := mkBuffer (splice 0 (take copied src) (data (Buffers0 dst)))
                           (capacity (Buffers0 dst)) in
              let msgs := <[n := mkMessage buf (OOB dst) (MAddr msg) copied]> msgs in
              match msgs !! i with
              | None => None
              | Some msg =>
                  let next := (stop + gso)%nat in
                  let next := if (MN msg <? next)%nat then MN msg else next in
                  split_chunks j i gso stop next (n + 1) msgs
              end
        | _, _ => None
        end
  end.

(** The outer loop over the messages from [i] on, [k] of them. *)
Fixpoint split_messages (k i n : nat) (msgs : list Message)
  : option (list Message * nat * option SplitError) :=
  match k with
  | O => Some (msgs, n, None)
  | S k =>
      match msgs !! i with
      | None => None
      | Some msg =>
          if (MN msg =? 0)%nat then Some (msgs, n, None)
          else
            match getGSO (OOB msg) with
            | inl e => Some (msgs, n, Some (SplitGSO e))
            | inr gso =>
                let '(numToSplit, stop) :=
                  if (0 <? gso)%nat then ((MN msg + gso - 1) / gso, gso)%nat else (1, MN msg)%nat in
                match split_chunks numToSplit i gso 0 stop n msgs with
                | None => None
                | Some (msgs, n, Some e) => Some (msgs, n, Some e)
                | Some (msgs, n, None) =>
                    let msgs := if (Z.of_nat i =? Z.of_nat n - 1) then msgs else alter (set_N 0) i msgs in
                    split_messages k (i + 1) n msgs
                end
            end
      end
  end.

Definition splitCoalescedMessages (msgs : list Message) (firstMsgAt : nat)
  : option (list Message * nat * option SplitError) :=
  split_messages (length msgs - firstMsgAt) firstMsgAt 0 msgs.

End Split.

(** ** What the kernel does

    A payload with segment size [g] leaves as pieces of [g] bytes, the last one
    possibly shorter; each round of [cut] takes at least one byte. *)

Fixpoint cut (fuel g : nat) (p : bytes) : list bytes :=
  match fuel with
  | O => []
  | S fuel => if (length p <=? g)%nat then [p] else take g p :: cut fuel g (drop g p)
  end.

Definition segments (g : nat) (p : bytes) : list bytes := cut (S (length p)) g p.

(** The datagrams of a message whose control data asks for segment size [g]; 0
    is none. *)
Definition datagrams (g : nat) (p : bytes) : list bytes :=
  if (g =? 0)%nat then [p] else segments g p.

Lemma cut_enough g fuel p :
  (0 < g)%nat -> (length p < fuel)%nat -> cut fuel g p = segments g p.
Proof.
  unfold segments. intros Hg. revert p.
  assert (H : forall f1 f2 p, (length p < f1)%nat -> (length p < f2)%nat -> cut f1 g p = cut f2 g p).
  { induction f1 as [|f1 IH]; intros [|f2] p H1 H2; try lia. simpl.
    destruct (Nat.leb_spec (length p) g); [done|]. f_equal. apply IH; rewrite length_drop; lia. }
  intros p Hp. apply H; lia.
Qed.

Lemma segments_unfold g p :
  (0 < g)%nat ->
  segments g p = if (length p <=? g)%nat then [p] else take g p :: segments g (drop g p).
Proof.
  intros Hg. unfold segments at 1. simpl. destruct (Nat.leb_spec (length p) g); [done|].
  f_equal. apply cut_enough; [done|]. rewrite length_drop. lia.
Qed.

(** A batch: buffers of the segment size, then one that is not longer. *)
Definition batch (g : nat) (l : list bytes) : Prop :=
  exists front x, l = front ++ [x] /\ Forall (fun b => length b = g) front /\
    (0 < length x <= g)%nat.

Lemma segments_batch g l : batch g l -> segments g (concat l) = l.
Proof.
  intros (front & x & -> & Hf & Hx). induction Hf as [|y front Hy Hf IH]; simpl.
  - rewrite app_nil_r, segments_unfold by lia. by rewrite (proj2 (Nat.leb_le _ _)) by lia.
  - rewrite segments_unfold by lia.
    assert (length (y ++ concat (front ++ [x])) > g)%nat.
    { rewrite concat_app, !length_app. simpl. rewrite length_app. lia. }
    rewrite (proj2 (Nat.leb_gt _ _)) by lia. subst g.
    by rewrite take_app_length, drop_app_length, IH.
Qed.

(** ** Coalescing, correctness *)

Lemma update_some i f msgs m :
  msgs !! i = Some m -> update (Z.of_nat i) f msgs = Some (<[i := f m]> msgs).
Proof. intros H. unfold update. rewrite (proj2 (Z.ltb_ge _ _)) by lia. by rewrite Nat2Z.id, H. Qed.

Section CoalesceFacts.
Context (setGSO : Control -> Z -> Control) (gso_of : Control -> nat) (fresh : Control -> Prop).

(** What the kernel reads from the control data: nothing asked for when it is
    empty, the segment size once it is set. *)
Definition control_laws : Prop :=
  forall c, fresh c ->
  gso_of c = 0%nat /\ forall n, Z.of_nat n < 65536 -> gso_of (setGSO c (Z.of_nat n)) = n.

Context (laws : control_laws) (addr : UDPAddr) (maxLen : Z).
Hypothesis maxLen_small : maxLen < 65536.

Definition kernel (m : Message) : list bytes := datagrams (gso_of (OOB m)) (data (Buffers0 m)).

(** What the kernel and the network accept. *)
Definition sendable (m : Message) : Prop :=
  MAddr m = Some addr /\ Z.of_nat (length (data (Buffers0 m))) <= maxLen /\
  (length (kernel m) <= udpSegmentMaxDatagrams)%nat /\
  (length (data (Buffers0 m)) <= capacity (Buffers0 m))%nat.

Definition buf_ok (b : Buffer) : Prop :=
  (0 < length (data b) <= capacity b)%nat /\ Z.of_nat (length (data b)) <= maxLen.

(** The state of the loop after the buffers [sent ++ l], the last of which make
    up the message at [base]. *)
Record loop_ok (fin : bool) (st : Coalesce) (n : nat) (sent l : list bytes) (b : nat) (m : Message)
  : Prop := {
  lo_base : base st = Z.of_nat b;
  lo_few : (b < n)%nat;
  lo_msg : c_msgs st !! b = Some m;
  lo_data : data (Buffers0 m) = concat l;
  lo_batch : batch (gsoSize st) l;
  lo_count : dgramCnt st = length l;
  lo_max : (length l <= udpSegmentMaxDatagrams)%nat;
  lo_full : endBatch st = false -> Forall (fun x => length x = gsoSize st) l;
  lo_addr : MAddr m = Some addr;
  lo_cap : (length (concat l) <= capacity (Buffers0 m))%nat;
  lo_len : Z.of_nat (length (concat l)) <= maxLen;
  lo_oob : exists c, fresh c /\
    OOB m = if fin && (1 <? dgramCnt st)%nat then setGSO c (Z.of_nat (gsoSize st)) else c;
  lo_later : forall j m', (b < j)%nat -> c_msgs st !! j = Some m' -> fresh (OOB m');
  lo_sent : concat (map kernel (take b (c_msgs st))) = sent;
  lo_ok : Forall sendable (take b (c_msgs st));
}.

Arguments lo_base {_ _ _ _ _ _ _} _.
Arguments lo_few {_ _ _ _ _ _ _} _.
Arguments lo_msg {_ _ _ _ _ _ _} _.
Arguments lo_data {_ _ _ _ _ _ _} _.
Arguments lo_batch {_ _ _ _ _ _ _} _.
Arguments lo_count {_ _ _ _ _ _ _} _.
Arguments lo_max {_ _ _ _ _ _ _} _.
Arguments lo_full {_ _ _ _ _ _ _} _.
Arguments lo_addr {_ _ _ _ _ _ _} _.
Arguments lo_cap {_ _ _ _ _ _ _} _.
Arguments lo_len {_ _ _ _ _ _ _} _.
Arguments lo_oob {_ _ _ _ _ _ _} _.
Arguments lo_later {_ _ _ _ _ _ _} _.
Arguments lo_sent {_ _ _ _ _ _ _} _.
Arguments lo_ok {_ _ _ _ _ _ _} _.

(** The message of a finished batch is cut into the buffers of the batch. *)
Lemma kernel_batch g l m c :
  batch g l -> data (Buffers0 m) = concat l -> Z.of_nat (length (concat l)) <= maxLen ->
  fresh c -> OOB m = (if (1 <? length l)%nat then setGSO c (Z.of_nat g) else c) -> kernel m = l.
Proof.
  intros Hb Hd Hl Hc Ho. unfold kernel, datagrams. rewrite Ho, Hd. destruct (laws c Hc) as [L0 L1].
  destruct (Nat.ltb_spec 1 (length l)) as [H|H].
  - assert (Hg : (0 < g)%nat /\ Z.of_nat g < 65536).
    { destruct Hb as (front & x & -> & Hf & Hx). destruct Hf as [|y front Hy Hf]; [simpl in H; lia|].
      rewrite <- app_comm_cons in Hl. simpl in Hl. rewrite length_app in Hl. lia. }
    rewrite L1 by lia. rewrite (proj2 (Nat.eqb_neq _ _)) by lia. by apply segments_batch.
  - rewrite L0. destruct Hb as ([|y front] & x & -> & Hf & Hx); simpl in *.
    + by rewrite app_nil_r.
    + rewrite length_app in H. simpl in H. lia.
Qed.

Lemma batch_size g l : batch g l -> Z.of_nat (length (concat l)) <= maxLen ->
  (1 < length l)%nat -> u16 (Z.of_nat g) = Z.of_nat g.
Proof.
  intros (front & x & -> & Hf & Hx) Hl H. unfold u16. apply Z.mod_small.
  destruct Hf as [|y front Hy Hf]; [simpl in H; lia|].
  rewrite <- app_comm_cons in Hl. simpl in Hl. rewrite length_app in Hl. lia.
Qed.

(** The message of a batch, with its segment size written when it needs one. *)
Definition finished (st : Coalesce) (m : Message) : Message :=
  if (1 <? dgramCnt st)%nat then set_segment setGSO st m else m.

Lemma finish_ok st n sent l b m :
  loop_ok false st n sent l b m ->
  kernel (finished st m) = l /\ sendable (finished st m).
Proof.
  intros Hl. pose proof (lo_batch Hl) as Hb. pose proof (lo_len Hl) as Hlen.
  destruct (lo_oob Hl) as (c & Hc & Ho).
  assert (Hk : kernel (finished st m) = l).
  { apply (kernel_batch (gsoSize st) _ _ c); [done| |done|done|].
    - unfold finished. destruct (_ <? _)%nat; exact (lo_data Hl).
    - unfold finished. rewrite (lo_count Hl).
      destruct (Nat.ltb_spec 1 (length l)); [|by rewrite Ho].
      simpl. rewrite Ho. simpl. by rewrite (batch_size _ l). }
  split; [done|]. unfold sendable. rewrite Hk.
  assert (E : MAddr (finished st m) = MAddr m /\ Buffers0 (finished st m) = Buffers0 m)
    by (unfold finished; by destruct (_ <? _)%nat).
  destruct E as [-> ->]. rewrite (lo_data Hl).
  split; [exact (lo_addr Hl)|]. split; [done|]. split; [exact (lo_max Hl)|exact (lo_cap Hl)].
Qed.

Lemma batch_one (buf : Buffer) : buf_ok buf -> batch (length (data buf)) [data buf].
Proof. intros [H _]. exists [], (data buf). split; [done|]. split; [constructor|lia]. Qed.

(** The first buffer of a message. *)
Definition fresh_msg (buf : Buffer) (m : Message) : Message :=
  mkMessage buf (OOB m) (Some addr) (MN m).

Lemma fresh_ok fin buf msgs b n m sent :
  buf_ok buf -> (b < n)%nat -> msgs !! b = Some m -> fresh (OOB m) ->
  (forall j m', (b < j)%nat -> msgs !! j = Some m' -> fresh (OOB m')) ->
  concat (map kernel (take b msgs)) = sent -> Forall sendable (take b msgs) ->
  loop_ok fin (mkCoalesce (<[b := fresh_msg buf m]> msgs) (Z.of_nat b) (length (data buf)) 1 false)
    n sent [data buf] b (fresh_msg buf m).
Proof.
  intros Hb Hn Hm Ho Hlater Hs Hok. pose proof (lookup_lt_Some _ _ _ Hm) as Hlen.
  split; simpl; try done.
  - by rewrite list_lookup_insert_eq.
  - by rewrite app_nil_r.
  - by apply batch_one.
  - unfold udpSegmentMaxDatagrams. lia.
  - intros _. by constructor.
  - rewrite app_nil_r. apply Hb.
  - rewrite app_nil_r. apply Hb.
  - exists (OOB m). by rewrite andb_false_r.
  - intros j m' Hj. rewrite list_lookup_insert_ne by lia. by apply Hlater.
  - by rewrite take_insert_ge by lia.
  - by rewrite take_insert_ge by lia.
Qed.

Lemma start_ok fin buf st n sent l b m :
  loop_ok false st n sent l b m -> buf_ok buf -> (S b < length (c_msgs st))%nat ->
  exists st' m', start_batch setGSO addr buf st = Some st' /\
    length (c_msgs st') = length (c_msgs st) /\
    loop_ok fin st' (n + 1) (sent ++ l) [data buf] (S b) m'.
Proof.
  intros Hl Hb Hlt. destruct (finish_ok _ _ _ _ _ _ Hl) as [Hk Hs].
  pose proof (lo_msg Hl) as Hm. pose proof (lookup_lt_Some _ _ _ Hm) as Hlen.
  destruct (lookup_lt_is_Some_2 (c_msgs st) (S b) Hlt) as [m1 Hm1].
  unfold start_batch. rewrite (lo_base Hl).
  assert (E : (if (1 <? dgramCnt st)%nat then update (Z.of_nat b) (set_segment setGSO st) (c_msgs st)
     else Some (c_msgs st)) = Some (<[b := finished st m]> (c_msgs st))).
  { unfold finished. destruct (_ <? _)%nat; [by apply update_some|].
    by rewrite list_insert_id. }
  rewrite E. replace (Z.of_nat b + 1) with (Z.of_nat (S b)) by lia.
  rewrite (update_some (S b) _ _ m1) by (by rewrite list_lookup_insert_ne by lia).
  eexists _, _. split; [done|]. split; [by simpl; rewrite !length_insert|].
  apply fresh_ok; [done|pose proof (lo_few Hl); lia|by rewrite list_lookup_insert_ne by lia| | | |].
  - by apply (lo_later Hl (S b)); [lia|].
  - intros j m' Hj. rewrite list_lookup_insert_ne by lia. apply (lo_later Hl). lia.
  - rewrite (take_S_r _ _ (finished st m)) by by rewrite list_lookup_insert_eq.
    rewrite take_insert_ge by lia. rewrite map_app, concat_app, (lo_sent Hl). simpl.
    by rewrite Hk, app_nil_r.
  - rewrite (take_S_r _ _ (finished st m)) by by rewrite list_lookup_insert_eq.
    rewrite take_insert_ge by lia. apply Forall_app_2; [exact (lo_ok Hl)|by constructor].
Qed.

(** A buffer that joins the message of the batch. *)
Lemma join_ok isLast buf st n sent l b m :
  loop_ok false st n sent l b m -> buf_ok buf -> joins maxLen st m buf = true ->
  exists st' m', join setGSO isLast buf st = Some st' /\
    length (c_msgs st') = length (c_msgs st) /\
    loop_ok isLast st' (n + 1) sent (l ++ [data buf]) b m'.
Proof.
  intros Hl [Hb _] Hj. unfold joins in Hj. rewrite !andb_true_iff in Hj.
  destruct Hj as ((((H1 & H2%Nat.leb_le) & H3%Nat.leb_le) & H4%Nat.ltb_lt) & H5%negb_true_iff).
  rewrite (lo_data Hl) in H1, H3. apply Z.leb_le in H1.
  pose proof (lo_full Hl H5) as Hfull. pose proof (lo_msg Hl) as Hm.
  pose proof (lookup_lt_Some _ _ _ Hm) as Hlt. pose proof (lo_cap Hl) as Hcap.
  pose proof (lo_few Hl) as Hfew. pose proof (lo_count Hl) as Hcnt.
  assert (Hbatch : batch (gsoSize st) (l ++ [data buf])) by (exists l, (data buf); split; [done|]; split; [done|lia]).
  assert (Hcat : length (concat (l ++ [data buf])) = (length (concat l) + length (data buf))%nat)
    by (rewrite concat_app, length_app; simpl; by rewrite app_nil_r).
  assert (Hpos : (0 < length l)%nat).
  { destruct (lo_batch Hl) as (f & x & -> & _). rewrite length_app. simpl. lia. }
  assert (Hu : u16 (Z.of_nat (gsoSize st)) = Z.of_nat (gsoSize st)).
  { apply (batch_size _ _ Hbatch); [lia|]. rewrite length_app. simpl. lia. }
  destruct (lo_oob Hl) as (c & Hfresh & Ho). set (m1 := append_buf buf m).
  set (m2 := if isLast then set_segment setGSO st m1 else m1).
  assert (E : join setGSO isLast buf st = Some (mkCoalesce (<[b := m2]> (c_msgs st)) (base st) (gsoSize st)
    (dgramCnt st + 1) (if (length (data buf) <? gsoSize st)%nat then true else endBatch st))).
  { unfold join. rewrite (lo_base Hl), (update_some _ _ _ _ Hm). fold m1. destruct isLast; [|done].
    rewrite (update_some _ _ _ m1) by by rewrite list_lookup_insert_eq.
    by rewrite list_insert_insert_eq. }
  assert (Hm2 : data (Buffers0 m2) = concat (l ++ [data buf]) /\ capacity (Buffers0 m2) = capacity (Buffers0 m) /\
    MAddr m2 = MAddr m /\ OOB m2 = if isLast then setGSO c (Z.of_nat (gsoSize st)) else c).
  { unfold m2, m1, set_segment, append_buf. rewrite concat_app, <- (lo_data Hl). simpl.
    rewrite app_nil_r. destruct isLast; simpl; by rewrite Ho, ?Hu. }
  destruct Hm2 as (M1 & M2 & M3 & M4).
  eexists _, m2. split; [exact E|]. split; [by simpl; rewrite length_insert|].
  split; simpl; rewrite ?Hcat, ?M2, ?M3; try done; try lia.
  - exact (lo_base Hl).
  - by rewrite list_lookup_insert_eq.
  - rewrite length_app. simpl. lia.
  - rewrite length_app. simpl. unfold udpSegmentMaxDatagrams in *. lia.
  - destruct (Nat.ltb_spec (length (data buf)) (gsoSize st)); [done|]. intros _.
    apply Forall_app_2; [done|]. constructor; [lia|done].
  - exact (lo_addr Hl).
  - exists c. rewrite M4, (proj2 (Nat.ltb_lt _ _)) by lia. by rewrite andb_true_r.
  - intros j m' Hj. rewrite list_lookup_insert_ne by lia. by apply (lo_later Hl).
  - rewrite take_insert_ge by lia. exact (lo_sent Hl).
  - rewrite take_insert_ge by lia. exact (lo_ok Hl).
Qed.

Lemma loop_run bufs : forall st n sent l b m,
  loop_ok (match bufs with [] => true | _ => false end) st n sent l b m ->
  Forall buf_ok bufs -> (n + length bufs <= length (c_msgs st))%nat ->
  exists st' n' sent' l' b' m', coalesce_loop setGSO addr maxLen false bufs st = Some st' /\
    loop_ok true st' n' sent' l' b' m' /\ sent' ++ l' = (sent ++ l) ++ map data bufs /\
    n' = (n + length bufs)%nat /\ length (c_msgs st') = length (c_msgs st).
Proof.
  induction bufs as [|buf rest IH]; intros st n sent l b m Hl Hb Hn.
  { exists st, n, sent, l, b, m. by rewrite app_nil_r, Nat.add_0_r. }
  apply Forall_cons in Hb as [Hbuf Hrest]. simpl in Hn. pose proof (lo_few Hl).
  cbn [coalesce_loop map]. unfold coalesce_one. rewrite (lo_base Hl), (proj2 (Z.ltb_ge _ _)) by lia.
  rewrite Nat2Z.id, (lo_msg Hl). destruct (joins maxLen st m buf) eqn:Hj.
  - destruct (join_ok (match rest with [] => true | _ => false end) _ _ _ _ _ _ _ Hl Hbuf Hj)
      as (st' & m' & -> & Hlen & Hl').
    destruct (IH _ _ _ _ _ _ Hl' Hrest) as (s2 & n2 & t2 & l2 & b2 & m2 & E & Ho & Ha & Hc); [lia|].
    exists s2, n2, t2, l2, b2, m2. split; [done|]. split; [done|].
    rewrite Ha, <- !app_assoc. simpl. split; [done|]. split; lia.
  - destruct (start_ok (match rest with [] => true | _ => false end) buf _ _ _ _ _ _ Hl Hbuf)
      as (st' & m' & -> & Hlen & Hl'); [lia|].
    destruct (IH _ _ _ _ _ _ Hl' Hrest) as (s2 & n2 & t2 & l2 & b2 & m2 & E & Ho & Ha & Hc); [lia|].
    exists s2, n2, t2, l2, b2, m2. split; [done|]. split; [done|].
    rewrite Ha, <- !app_assoc. simpl. split; [done|]. split; lia.
Qed.

Lemma loop_done st n sent l b m :
  loop_ok true st n sent l b m ->
  base st = Z.of_nat b /\ (b < n)%nat /\
  concat (map kernel (take (S b) (c_msgs st))) = sent ++ l /\ Forall sendable (take (S b) (c_msgs st)).
Proof.
  intros Hl. split; [exact (lo_base Hl)|]. split; [exact (lo_few Hl)|]. assert (Hk : kernel m = l).
  { destruct (lo_oob Hl) as (c & Hc & Ho).
    apply (kernel_batch (gsoSize st) _ _ c); [exact (lo_batch Hl)|exact (lo_data Hl)|exact (lo_len Hl)|done|].
    rewrite Ho, (lo_count Hl). done. }
  rewrite (take_S_r _ _ m) by exact (lo_msg Hl). split.
  - rewrite map_app, concat_app, (lo_sent Hl). simpl. by rewrite Hk, app_nil_r.
  - apply Forall_app_2; [exact (lo_ok Hl)|]. constructor; [|done]. unfold sendable. rewrite Hk, (lo_data Hl).
    split; [exact (lo_addr Hl)|]. split; [exact (lo_len Hl)|]. split; [exact (lo_max Hl)|exact (lo_cap Hl)].
Qed.

End CoalesceFacts.

Lemma coalesce_run setGSO gso_of fresh addr ep bufs msgs :
  control_laws setGSO gso_of fresh -> Forall (buf_ok (max_payload ep)) bufs ->
  (length bufs <= length msgs)%nat -> Forall (fun m => fresh (OOB m)) msgs ->
  exists msgs' n, coalesceMessages setGSO addr ep bufs msgs = Some (msgs', Z.of_nat n) /\
    (n <= length bufs)%nat /\ length msgs' = length msgs /\
    concat (map (kernel gso_of) (take n msgs')) = map data bufs /\
    Forall (sendable gso_of addr (max_payload ep)) (take n msgs').
Proof.
  intros Hlaws Hb Hlen Ho. unfold coalesceMessages. destruct bufs as [|buf rest].
  { exists msgs, 0%nat. simpl. by repeat constructor. }
  assert (Hmax : max_payload ep < 65536) by (unfold max_payload; by destruct (addr_Is6 _)).
  apply Forall_cons in Hb as [Hbuf Hrest]. simpl in Hlen.
  destruct (lookup_lt_is_Some_2 msgs 0 ltac:(lia)) as [m Hm].
  rewrite Forall_lookup in Ho. cbn [coalesce_loop]. unfold coalesce_one, start_batch. cbn [dgramCnt Nat.ltb Nat.leb].
  cbn [base c_msgs]. change (-1 + 1) with (Z.of_nat 0). rewrite (update_some 0 _ _ m) by done.
  assert (H0 := fresh_ok setGSO gso_of fresh addr (max_payload ep)
    (match rest with [] => true | _ => false end) buf msgs 0 1 m []
    Hbuf ltac:(lia) Hm (Ho _ _ Hm) (fun j m' _ => Ho j m') eq_refl (Forall_nil_2 _)).
  destruct (loop_run setGSO gso_of fresh Hlaws addr (max_payload ep) Hmax rest _ _ _ _ _ _ H0 Hrest)
    as (st & n & sent & l & b & m' & E & Hl & Ha & Hn & Hc); [simpl; rewrite length_insert; lia|].
  unfold fresh_msg in E. rewrite E. destruct (loop_done setGSO gso_of fresh Hlaws addr (max_payload ep) Hmax _ _ _ _ _ _ Hl)
    as (-> & Hbn & Hk & Hs).
  exists (c_msgs st), (S b). split; [by rewrite Nat2Z.inj_succ|].
  split; [simpl; lia|]. split; [by rewrite Hc; simpl; rewrite length_insert|]. split; [by rewrite Hk, Ha|done].
Qed.

(** ** Splitting, correctness *)

Lemma length_segments g p :
  (0 < g)%nat -> (0 < length p)%nat -> length (segments g p) = ((length p + g - 1) / g)%nat.
Proof.
  intros Hg. revert p.
  assert (H : forall fuel p, (0 < length p < fuel)%nat -> length (segments g p) = ((length p + g - 1) / g)%nat).
  { induction fuel as [|fuel IH]; intros p Hp; [lia|]. rewrite segments_unfold by done.
    destruct (Nat.leb_spec (length p) g).
    - simpl. apply (Nat.div_unique _ _ _ (length p - 1)); lia.
    - simpl. rewrite IH by (rewrite length_drop; lia). rewrite length_drop.
      replace (length p + g - 1)%nat with ((length p - g + g - 1) + 1 * g)%nat by lia.
      rewrite Nat.div_add by lia. lia. }
  intros p Hp. apply (H (S (length p))). lia.
Qed.

(** The bytes a message has received, and with the address it is from. *)
Definition payload (m : Message) : bytes := take (MN m) (data (Buffers0 m)).
Definition received (m : Message) : bytes * option UDPAddr := (payload m, MAddr m).

(** All buffers have [L] bytes, as those of [receiveIP] have. *)
Definition buffers_ok (L : nat) (msgs : list Message) : Prop :=
  Forall (fun m => length (data (Buffers0 m)) = L /\ capacity (Buffers0 m) = L) msgs.

Section SplitFacts.
Context (L : nat).

(** One round: a piece of [msgs[i]] is moved to [msgs[n]]. *)
Definition moved_to (start stop : nat) (m dst : Message) : Message :=
  mkMessage (mkBuffer (splice 0 (slice start stop (data (Buffers0 m))) (data (Buffers0 dst)))
    (capacity (Buffers0 dst))) (OOB dst) (MAddr m) (stop - start).

Lemma chunk_step j i gso start stop n msgs m dst :
  buffers_ok L msgs -> msgs !! i = Some m -> msgs !! n = Some dst -> (n <= i)%nat ->
  (start <= stop <= L)%nat ->
  received (moved_to start stop m dst) = (slice start stop (data (Buffers0 m)), MAddr m) /\
  buffers_ok L (<[n := moved_to start stop m dst]> msgs) /\
  split_chunks (S j) i gso start stop n msgs =
    let msgs := <[n := moved_to start stop m dst]> msgs in
    match msgs !! i with
    | None => None
    | Some msg =>
        let next := (stop + gso)%nat in
        split_chunks j i gso stop (if (MN msg <? next)%nat then MN msg else next) (n + 1) msgs
    end.
Proof.
  intros Hok Hm Hdst Hn Hs.
  destruct (proj1 (Forall_lookup _ _) Hok _ _ Hm) as [Hl1 Hc1].
  destruct (proj1 (Forall_lookup _ _) Hok _ _ Hdst) as [Hl2 Hc2].
  assert (Hlen : length (slice start stop (data (Buffers0 m))) = (stop - start)%nat)
    by (apply length_slice; lia).
  split; [|split].
  - unfold received, payload, moved_to, splice. simpl. f_equal.
    rewrite take_app_le by lia. apply take_ge. lia.
  - apply Forall_insert; [done|]. simpl. split; [|done]. rewrite length_splice; lia.
  - cbn [split_chunks]. rewrite (proj2 (Nat.ltb_ge _ _)) by lia. rewrite Hdst, Hm, Hc1.
    rewrite !(proj2 (Nat.ltb_ge _ _)) by lia. cbn [orb]. cbv zeta.
    rewrite Hlen, Hl2, Nat.min_r by lia. rewrite take_ge by lia. done.
Qed.

Lemma slice_rest {A} a b (l : list A) :
  (a <= b)%nat -> drop (b - a) (drop a l) = drop b l.
Proof. intros. rewrite drop_drop. f_equal. lia. Qed.

(** The rounds for one message with a segment size. *)
Lemma split_chunks_run gso i m : (0 < gso)%nat -> (MN m <= L)%nat -> forall j n start msgs,
  buffers_ok L msgs -> msgs !! i = Some m -> (start < MN m)%nat -> (n + j <= i + 1)%nat ->
  length (segments gso (drop start (payload m))) = j ->
  exists msgs', split_chunks j i gso start (Nat.min (start + gso) (MN m)) n msgs = Some (msgs', (n + j)%nat, None) /\
    length msgs' = length msgs /\ buffers_ok L msgs' /\
    map received (take (n + j) msgs') =
      map received (take n msgs) ++ map (fun p => (p, MAddr m)) (segments gso (drop start (payload m))) /\
    (forall k, (n + j <= k)%nat -> msgs' !! k = msgs !! k).
Proof.
  intros Hg HN. induction j as [|j IH]; intros n start msgs Hok Hm Hs Hn Hj.
  { exfalso. rewrite segments_unfold in Hj by done. by destruct (_ <=? _)%nat. }
  assert (Hlm : length (data (Buffers0 m)) = L) by apply (proj1 (Forall_lookup _ _) Hok _ _ Hm).
  assert (Hlp : length (payload m) = MN m) by (unfold payload; rewrite length_take; lia).
  destruct (lookup_lt_is_Some_2 msgs n) as [dst Hdst]; [apply lookup_lt_Some in Hm; lia|].
  set (stop := Nat.min (start + gso) (MN m)).
  assert (Hstop : (start < stop <= MN m)%nat) by (unfold stop; lia).
  destruct (chunk_step j i gso start stop n msgs m dst Hok Hm Hdst) as (Hr & Hok' & ->); [lia|lia|].
  set (d := moved_to start stop m dst) in *. cbv zeta.
  assert (Hpiece : slice start stop (data (Buffers0 m)) = take gso (drop start (payload m))).
  { unfold payload, slice. rewrite skipn_firstn_comm, take_take. f_equal. unfold stop. lia. }
  assert (Hnl : (n < length msgs)%nat) by by eapply lookup_lt_Some.
  assert (Hone : map received (take (n + 1) (<[n := d]> msgs)) = map received (take n msgs) ++ [received d]).
  { rewrite Nat.add_1_r, (take_S_r _ _ d) by by rewrite list_lookup_insert_eq.
    by rewrite take_insert_ge, map_app by lia. }
  rewrite segments_unfold in Hj |- * by done. rewrite length_drop, Hlp in Hj |- *.
  destruct (Nat.leb_spec (MN m - start) gso) as [Hend|Hmore].
  - simpl in Hj. assert (j = 0%nat) as -> by lia.
    exists (<[n := d]> msgs). destruct (lookup_lt_is_Some_2 (<[n := d]> msgs) i) as [mi ->].
    { rewrite length_insert. by eapply lookup_lt_Some. }
    split; [done|]. split; [by rewrite length_insert|]. split; [done|]. split.
    + rewrite Hone, Hr, Hpiece. simpl. do 3 f_equal. apply take_ge. rewrite length_drop. lia.
    + intros k Hk. by rewrite list_lookup_insert_ne by lia.
  - simpl in Hj. assert (Hj' : length (segments gso (drop stop (payload m))) = j).
    { rewrite <- (slice_rest start stop) by lia. replace (stop - start)%nat with gso by (unfold stop; lia). lia. }
    assert (0 < j)%nat.
    { rewrite <- Hj', segments_unfold by done. destruct (_ <=? _)%nat; simpl; lia. }
    rewrite list_lookup_insert_ne, Hm by lia.
    replace (if (MN m <? stop + gso)%nat then MN m else (stop + gso)%nat) with (Nat.min (stop + gso) (MN m))
      by (destruct (Nat.ltb_spec (MN m) (stop + gso)); lia).
    destruct (IH (n + 1)%nat stop (<[n := d]> msgs)) as (msgs' & E & Hlen & Hb & Hrecv & Hk);
      [done|by rewrite list_lookup_insert_ne by lia|unfold stop; lia|lia|done|].
    exists msgs'. replace (n + S j)%nat with (n + 1 + j)%nat by lia. split; [done|].
    split; [by rewrite Hlen, length_insert|]. split; [done|]. split.
    + rewrite Hrecv, Hone, Hr, Hpiece, <- app_assoc. simpl. do 4 f_equal.
      rewrite <- (slice_rest start stop) by lia. do 2 f_equal. unfold stop. lia.
    + intros k Hk'. rewrite Hk by lia. by rewrite list_lookup_insert_ne by lia.
Qed.

(** The rounds for one message, with or without a segment size. *)
Lemma split_one_run gso i m n msgs (ds := datagrams gso (payload m)) :
  buffers_ok L msgs -> msgs !! i = Some m -> (gso <= MN m)%nat -> (0 < MN m <= L)%nat ->
  (n + length ds <= i + 1)%nat ->
  let '(numToSplit, stop) :=
    if (0 <? gso)%nat then ((MN m + gso - 1) / gso, gso)%nat else (1, MN m)%nat in
  exists msgs', split_chunks numToSplit i gso 0 stop n msgs = Some (msgs', (n + length ds)%nat, None) /\
    length msgs' = length msgs /\ buffers_ok L msgs' /\
    map received (take (n + length ds) msgs') =
      map received (take n msgs) ++ map (fun p => (p, MAddr m)) ds /\
    (forall k, (n + length ds <= k)%nat -> msgs' !! k = msgs !! k).
Proof.
  intros Hok Hm Hg HN Hn. unfold ds, datagrams in *.
  assert (Hlm : length (data (Buffers0 m)) = L) by apply (proj1 (Forall_lookup _ _) Hok _ _ Hm).
  assert (Hlp : length (payload m) = MN m) by (unfold payload; rewrite length_take; lia).
  destruct (Nat.ltb_spec 0 gso) as [Hpos|Hz].
  - rewrite (proj2 (Nat.eqb_neq _ _)) in * by lia.
    rewrite <- Hlp, <- length_segments by lia.
    destruct (split_chunks_run gso i m Hpos ltac:(lia) _ n 0 msgs Hok Hm ltac:(lia) Hn eq_refl)
      as (msgs' & E & H). exists msgs'. by rewrite Nat.min_l in E by lia.
  - assert (gso = 0%nat) as -> by lia. cbn [Nat.eqb length] in *.
    destruct (lookup_lt_is_Some_2 msgs n) as [dst Hdst]; [apply lookup_lt_Some in Hm; lia|].
    destruct (chunk_step 0 i 0 0 (MN m) n msgs m dst Hok Hm Hdst) as (Hr & Hok' & ->); [lia|lia|].
    assert (Hnl : (n < length msgs)%nat) by by eapply lookup_lt_Some.
    cbv zeta. destruct (lookup_lt_is_Some_2 (<[n := moved_to 0 (MN m) m dst]> msgs) i) as [mi ->].
    { rewrite length_insert. by eapply lookup_lt_Some. }
    eexists. split; [done|]. split; [by rewrite length_insert|]. split; [done|]. split.
    + rewrite Nat.add_1_r, (take_S_r _ _ (moved_to 0 (MN m) m dst)) by by rewrite list_lookup_insert_eq.
      rewrite take_insert_ge, map_app by lia. simpl. rewrite Hr. do 3 f_equal.
      unfold slice. by rewrite drop_0, Nat.sub_0_r.
    + intros k Hk. by rewrite list_lookup_insert_ne by lia.
Qed.

Section Outer.
Variable getGSO : Control -> Error + nat.

(** The datagrams in a list of messages from the kernel, up to the first empty
    one. *)
Fixpoint delivered (l : list Message) : list (bytes * option UDPAddr) :=
  match l with
  | [] => []
  | m :: l =>
      if (MN m =? 0)%nat then []
      else match getGSO (OOB m) with
           | inl _ => []
           | inr gso => map (fun p => (p, MAddr m)) (datagrams gso (payload m)) ++ delivered l
           end
  end.

(** What [splitCoalescedMessages] relies on for the messages from [i] on, with
    [n] datagrams split off: a segment size within the payload, and that the
    datagrams do not run past the message they come from. *)
Fixpoint splittable (i n : nat) (l : list Message) : Prop :=
  match l with
  | [] => True
  | m :: l =>
      MN m = 0%nat \/
      exists gso, getGSO (OOB m) = inr gso /\ (gso <= MN m <= L)%nat /\
        let k := length (datagrams gso (payload m)) in
        (n + k <= i + 1)%nat /\ splittable (i + 1) (n + k) l
  end.

Lemma split_messages_run l : forall i n msgs,
  buffers_ok L msgs -> drop i msgs = l -> (n <= i)%nat -> splittable i n l ->
  exists msgs', split_messages getGSO (length l) i n msgs = Some (msgs', (n + length (delivered l))%nat, None) /\
    map received (take (n + length (delivered l)) msgs') = map received (take n msgs) ++ delivered l.
Proof.
  induction l as [|m l IH]; intros i n msgs Hok Hd Hn Hs.
  { exists msgs. simpl. by rewrite Nat.add_0_r, app_nil_r. }
  assert (Hm : msgs !! i = Some m).
  { rewrite <- (Nat.add_0_r i), <- lookup_drop, Hd. done. }
  simpl. rewrite Hm. simpl in Hs. destruct (Nat.eqb_spec (MN m) 0) as [Hz|Hnz].
  { exists msgs. simpl. by rewrite Nat.add_0_r, app_nil_r. }
  destruct Hs as [|(gso & Hg & Hb & Hk & Hs)]; [done|]. rewrite Hg.
  set (ds := datagrams gso (payload m)) in *.
  pose proof (split_one_run gso i m n msgs Hok Hm ltac:(lia) ltac:(lia) Hk) as H.
  destruct (if (0 <? gso)%nat then _ else _) as [num stop].
  destruct H as (msgs1 & E & Hlen & Hok1 & Hrecv & Hkeep). rewrite E. clear E. fold ds in Hrecv, Hkeep |- *.
  set (msgs2 := if Z.of_nat i =? Z.of_nat (n + length ds) - 1 then msgs1 else alter (set_N 0) i msgs1).
  assert (H2 : buffers_ok L msgs2 /\ drop (i + 1) msgs2 = l /\ take (n + length ds) msgs2 = take (n + length ds) msgs1).
  { assert (Hdl : drop (i + 1) msgs1 = l).
    { transitivity (drop (i + 1) msgs).
      - apply list_eq. intros k. rewrite !lookup_drop. apply Hkeep. lia.
      - by rewrite <- drop_drop, Hd. }
    unfold msgs2. destruct (Z.eqb_spec (Z.of_nat i) (Z.of_nat (n + length ds) - 1)); [done|]. split; [|split].
    - unfold buffers_ok. apply Forall_alter; [exact Hok1|]. by intros.
    - by rewrite drop_alter_lt by lia.
    - by rewrite take_alter_ge by lia. }
  destruct H2 as (Hok2 & Hd2 & Ht2).
  destruct (IH (i + 1)%nat (n + length ds)%nat msgs2 Hok2 Hd2 ltac:(lia) Hs) as (msgs3 & E & Hr3).
  exists msgs3. rewrite length_app, length_map. fold msgs2. rewrite E, Nat.add_assoc. split; [done|].
  rewrite Hr3, Ht2, Hrecv, <- app_assoc. done.
Qed.

End Outer.
End SplitFacts.

Lemma segments_nonempty g p :
  (0 < g)%nat -> (0 < length p)%nat -> Forall (fun x => 0 < length x)%nat (segments g p).
Proof.
  intros Hg. revert p.
  assert (H : forall fuel p, (0 < length p < fuel)%nat -> Forall (fun x => 0 < length x)%nat (segments g p)).
  { induction fuel as [|fuel IH]; intros p Hp; [lia|]. rewrite segments_unfold by done.
    destruct (Nat.leb_spec (length p) g); constructor; [lia|constructor|rewrite length_take; lia|].
    apply IH. rewrite length_drop. lia. }
  intros p Hp. apply (H (S (length p))). lia.
Qed.

(** No delivered datagram is empty. *)
Lemma delivered_nonempty L getGSO l :
  buffers_ok L l -> Forall (fun m => MN m <= L)%nat l ->
  Forall (fun d : bytes * option UDPAddr => 0 < length d.1)%nat (delivered getGSO l).
Proof.
  induction l as [|m l IH]; intros Hok HN; simpl; [constructor|].
  apply Forall_cons in Hok as [[Hl _] Hok]. apply Forall_cons in HN as [Hm HN].
  destruct (Nat.eqb_spec (MN m) 0); [constructor|]. destruct (getGSO (OOB m)) as [|gso]; [constructor|].
  apply Forall_app_2; [|by apply IH]. apply Forall_map.
  assert (Hp : (0 < length (payload m))%nat) by (unfold payload; rewrite length_take; lia).
  unfold datagrams. destruct (Nat.eqb_spec gso 0); [by repeat constructor|].
  apply (segments_nonempty gso (payload m)); lia.
Qed.

(** Where [receiveIP] has the kernel put what it reads. *)
Definition readAt (nmsgs : nat) : nat := (nmsgs - Z.to_nat IdealBatchSize / udpSegmentMaxDatagrams)%nat.

(** [splitCoalescedMessages] recovers every datagram: with the
    128 messages of [receiveIP], when the kernel has coalesced at most 64
    datagrams into each of the last two, it does not overflow and leaves the
    datagrams, each with its address, in order at the front. *)
Lemma split_run getGSO L msgs :
  length msgs = Z.to_nat IdealBatchSize -> buffers_ok L msgs ->
  (forall m, m ∈ drop (readAt (length msgs)) msgs -> MN m = 0%nat \/
     exists gso, getGSO (OOB m) = inr gso /\ (gso <= MN m <= L)%nat /\
       (length (datagrams gso (payload m)) <= udpSegmentMaxDatagrams)%nat) ->
  exists msgs' n,
    splitCoalescedMessages getGSO msgs (readAt (length msgs)) = Some (msgs', n, None) /\
    map received (take n msgs') = delivered getGSO (drop (readAt (length msgs)) msgs).
Proof.
  intros Hlen Hok Hm. unfold splitCoalescedMessages. rewrite Hlen in *.
  change (readAt (Z.to_nat IdealBatchSize)) with 126%nat in *. change (Z.to_nat IdealBatchSize) with 128%nat in *.
  change udpSegmentMaxDatagrams with 64%nat in Hm.
  assert (Hs : splittable L getGSO 126 0 (drop 126 msgs)).
  { assert (H2 : length (drop 126 msgs) = 2%nat) by (rewrite length_drop; lia).
    destruct (drop 126 msgs) as [|m1 [|m2 [|]]]; try done. simpl.
    destruct (Hm m1) as [|(g1 & G1 & B1 & K1)]; [by left|by left|]. right. exists g1.
    split; [done|]. split; [done|]. split; [lia|].
    destruct (Hm m2) as [|(g2 & G2 & B2 & K2)]; [by right; left|by left|]. right. exists g2.
    split; [done|]. split; [done|]. split; [lia|done]. }
  destruct (split_messages_run L getGSO (drop 126 msgs) 126 0 msgs Hok eq_refl ltac:(lia) Hs) as (msgs' & E & Hr).
  exists msgs', (length (delivered getGSO (drop 126 msgs))).
  rewrite length_drop, Hlen in E. change (128 - 126)%nat with 2%nat in *. by split.
Qed.

End Gso.

(** *** Witnesses

    Control data that is the segment size itself. *)

Definition demo_addr : UDPAddr := mkUDPAddr [Byte.x7f; Byte.x00; Byte.x00; Byte.x01] 51820 EmptyString.
Definition demo_ep : Endpoint := mkEndpoint (Addr4 [Byte.x7f; Byte.x00; Byte.x00; Byte.x01]) 51820.
Definition demo_buf (n : nat) : Buffer := mkBuffer (replicate n Byte.x01) 100.

Definition demo_received : Message := mkMessage (mkBuffer (replicate 30 Byte.x01) 30) 12%nat (Some demo_addr) 30.
Definition demo_empty : Message := mkMessage (mkBuffer (replicate 30 Byte.x00) 30) 0%nat None 0.

(** Thirty bytes with segment size 12 are three datagrams. *)
Example split_three :
  option_map (fun r => map received (take r.1.2 r.1.1))
    (splitCoalescedMessages inr (replicate 126 demo_empty ++ [demo_received; demo_empty]) 126) =
  Some [(replicate 12 Byte.x01, Some demo_addr); (replicate 12 Byte.x01, Some demo_addr);
        (replicate 6 Byte.x01, Some demo_addr)].
Proof. vm_compute. reflexivity. Qed.

End Gso.
