(* ===== verification/Control.v ===== *)
(** The control data of UDP messages (internal/conn/gso_linux.go): the segment
    size that is asked of the kernel when sending, and the one it reports when
    receiving.

    The layout of control messages is the system's, in the package unix of
    golang.org/x/sys: class [Cmsg] has its operations, class [CmsgLaws] what cmsg(3)
    says of them.  The two functions here are what Gso.v and StdNetBind.v have
    as arguments; [coalesce_on_linux] puts them together.  The byte order is that
    of a little-endian machine.

    Then the options of a new socket (controlfns.go, controlfns_linux.go) and
    the test which offloads it has (features_linux.go), over the calls of the
    kernel. *)
From S2P Require Import Prelude Env Crypto State Gso.
From stdpp Require Import prelude list strings.
Open Scope Z_scope.

Module Control.
Import State.State.
Import Gso.Gso.

Definition SOL_UDP : Z := 17.
Definition UDP_SEGMENT : Z := 103.
Definition UDP_GRO : Z := 104.
Definition EINVAL : Z := 22.

Class Cmsg := {
  SizeofCmsghdr : nat;
  CmsgLen : nat -> nat;                         (* header, its padding, and n bytes *)
  CmsgSpace : nat -> nat;                       (* the same with padding behind *)
  put_header : Z -> Z -> nat -> bytes;          (* level, type, length *)
  ParseOneSocketControlMessage : bytes -> option (Z * Z * bytes * bytes);
}.

(** One message: the header, padding, the data, padding. *)
Definition message `{!Cmsg} (level type : Z) (gap data pad : bytes) : bytes :=
  put_header level type (CmsgLen (length data)) ++ gap ++ data ++ pad.

(** The fields of a header are C integers. *)
Definition in_fields (level type : Z) (data : bytes) : Prop :=
  0 <= level < 2 ^ 31 /\ 0 <= type < 2 ^ 31 /\ Z.of_nat (length data) < 2 ^ 31.

Class CmsgLaws `{!Cmsg} : Prop := {
  header_length level type n : length (put_header level type n) = SizeofCmsghdr;
  header_positive : (0 < SizeofCmsghdr <= CmsgLen 0)%nat;
  len_exact n : CmsgLen n = (CmsgLen 0 + n)%nat;
  space_enough n : (CmsgLen n <= CmsgSpace n)%nat;
  parse_message level type gap data pad rest : in_fields level type data ->
    (SizeofCmsghdr + length gap)%nat = CmsgLen 0 ->
    length (message level type gap data pad) = CmsgSpace (length data) ->
    ParseOneSocketControlMessage (message level type gap data pad ++ rest) = Some (level, type, data, rest);
  parse_shorter b level type data rest : (SizeofCmsghdr < length b)%nat ->
    ParseOneSocketControlMessage b = Some (level, type, data, rest) -> (length rest < length b)%nat;
}.

Section Control.
Context {cmsg : Cmsg}.

Definition sizeOfGSOData : nat := 2.
Definition gsoControlSize : nat := CmsgSpace sizeOfGSOData.

(** ** Reading *)

Fixpoint get_loop (fuel : nat) (rem : bytes) : Error + nat :=
  match fuel with
  | O => inl ErrFuel
  | S fuel =>
      if (SizeofCmsghdr <? length rem)%nat then
        match ParseOneSocketControlMessage rem with
        | None => inl (ErrOS EINVAL)
        | Some (level, type, data, rem) =>
            if (level =? SOL_UDP) && (type =? UDP_GRO) && (sizeOfGSOData <=? length data)%nat
            then inr (Z.to_nat (le_get (take sizeOfGSOData data)))
            else get_loop fuel rem
        end
      else inr 0%nat
  end.

Definition getGSOSize (control : bytes) : Error + nat := get_loop (S (length control)) control.

(** ** Writing *)

(** A slice of bytes: the array from its start to its capacity, and its length. *)
Record Slice := mkSlice { arr : bytes; len : nat }.
Definition content (c : Slice) : bytes := take (len c) (arr c).

Definition setGSOSize (control : Slice) (gsoSize : Z) : Slice :=
  let existingLen := len control in
  let avail := (length (arr control) - existingLen)%nat in
  let space := CmsgSpace sizeOfGSOData in
  if (avail <? space)%nat then control
  else
    let a := splice existingLen (put_header SOL_UDP UDP_SEGMENT (CmsgLen sizeOfGSOData)) (arr control) in
    let a := splice (existingLen + CmsgLen 0) (le_put sizeOfGSOData gsoSize) a in
    mkSlice a (existingLen + space).

(** Control data as the pool makes it, [make([]byte, 0, gsoControlSize)]. *)
Definition new_control : Slice := mkSlice (zero_bytes gsoControlSize) 0.

(** ** What the kernel sees *)

(** The messages of some control data. *)
Fixpoint parse_all (fuel : nat) (b : bytes) : list (Z * Z * bytes) :=
  match fuel with
  | O => []
  | S fuel =>
      if (SizeofCmsghdr <? length b)%nat then
        match ParseOneSocketControlMessage b with
        | None => []
        | Some (level, type, data, rest) => (level, type, data) :: parse_all fuel rest
        end
      else []
  end.
Definition messages (b : bytes) : list (Z * Z * bytes) := parse_all (S (length b)) b.

(** The first size of a kind, 0 without one. *)
Fixpoint size_in (kind : Z) (l : list (Z * Z * bytes)) : nat :=
  match l with
  | [] => 0%nat
  | (level, type, data) :: l =>
      if (level =? SOL_UDP) && (type =? kind) && (sizeOfGSOData <=? length data)%nat
      then Z.to_nat (le_get (take sizeOfGSOData data)) else size_in kind l
  end.

(** The kernel goes through all messages, so that the last size counts. *)
Definition segment_size (c : Slice) : nat := size_in UDP_SEGMENT (rev (messages (content c))).

Context {cmsg_laws : CmsgLaws}.

(** ** Facts *)

Lemma parse_all_fuel f : forall f' b, (length b < f)%nat -> (length b < f')%nat -> parse_all f b = parse_all f' b.
Proof.
  induction f as [|f IH]; intros [|f'] b H H'; try lia. cbn [parse_all].
  destruct (Nat.ltb_spec SizeofCmsghdr (length b)); [|done]. destruct (ParseOneSocketControlMessage b) as [[[[l t] d] r]|] eqn:E; [|done].
  apply parse_shorter in E; [|done]. f_equal. apply IH; lia.
Qed.

Lemma messages_cons level type gap data pad rest : in_fields level type data ->
  (SizeofCmsghdr + length gap)%nat = CmsgLen 0 ->
  length (message level type gap data pad) = CmsgSpace (length data) -> (0 < length data)%nat ->
  messages (message level type gap data pad ++ rest) = (level, type, data) :: messages rest.
Proof.
  intros Hf Hg Hs Hd. unfold messages at 1. cbn [parse_all].
  pose proof header_positive. pose proof (len_exact (length data)). pose proof (space_enough (length data)).
  rewrite (proj2 (Nat.ltb_lt _ _)) by (rewrite length_app; lia). rewrite parse_message by done.
  f_equal. apply parse_all_fuel; rewrite ?length_app; lia.
Qed.

Lemma splice_middle (pre old post new : bytes) n : n = length pre -> length new = length old ->
  splice n new (pre ++ old ++ post) = pre ++ new ++ post.
Proof.
  intros -> Hl. unfold splice. rewrite Hl, take_app_length. do 2 f_equal.
  rewrite app_assoc, <- length_app. by rewrite drop_app_length.
Qed.

(** A list cut at a length. *)
Lemma cut (n : nat) (l : bytes) : (n <= length l)%nat -> exists x y, l = x ++ y /\ length x = n.
Proof. intros Hn. exists (take n l), (drop n l). by rewrite take_drop, length_take_le. Qed.

(** What [setGSOSize] writes behind what there is. *)
Lemma set_content control gsoSize :
  (len control + gsoControlSize <= length (arr control))%nat ->
  exists gap pad, content (setGSOSize control gsoSize) =
      content control ++ message SOL_UDP UDP_SEGMENT gap (le_put 2 gsoSize) pad /\
    (SizeofCmsghdr + length gap)%nat = CmsgLen 0 /\
    length (message SOL_UDP UDP_SEGMENT gap (le_put 2 gsoSize) pad) = CmsgSpace 2.
Proof.
  unfold gsoControlSize, sizeOfGSOData. intros Hroom. unfold setGSOSize, sizeOfGSOData.
  rewrite (proj2 (Nat.ltb_ge _ _)) by lia.
  pose proof header_positive as Hh. pose proof (len_exact 2) as Hl. pose proof (space_enough 2) as Hsp.
  pose proof (header_length SOL_UDP UDP_SEGMENT (CmsgLen 2)) as Hhdr.
  pose proof (length_le_put 2 gsoSize) as Hd. unfold content, message. rewrite Hd.
  set (hdr := put_header _ _ _) in *. set (d := le_put _ _) in *.
  destruct control as [a n]. cbn [arr len] in *.
  destruct (cut n a) as (p & a1 & -> & Hp); [lia|]. rewrite length_app in Hroom.
  destruct (cut SizeofCmsghdr a1) as (h & a2 & -> & Hh'); [lia|]. rewrite length_app in Hroom.
  destruct (cut (CmsgLen 0 - SizeofCmsghdr) a2) as (gap & a3 & -> & Hgap); [lia|]. rewrite length_app in Hroom.
  destruct (cut 2 a3) as (o & a4 & -> & Ho); [lia|]. rewrite length_app in Hroom.
  destruct (cut (CmsgSpace 2 - CmsgLen 2) a4) as (pad & a5 & -> & Hpad); [lia|].
  exists gap, pad. split; [|rewrite !length_app; lia].
  rewrite (splice_middle p h) by lia. rewrite (app_assoc hdr gap), (app_assoc p).
  rewrite (splice_middle (p ++ hdr ++ gap) o) by (rewrite ?length_app; lia).
  rewrite (take_app_length' p) by lia. rewrite <- !app_assoc.
  transitivity (take (n + CmsgSpace 2) ((p ++ hdr ++ gap ++ d ++ pad) ++ a5)); [by rewrite <- !app_assoc|].
  apply take_app_length'. rewrite !length_app. lia.
Qed.

(** Control data of the pool of messages: it has no content and room for a
    size, its array may have anything. *)
Definition fresh_control (c : Slice) : Prop := len c = 0%nat /\ (gsoControlSize <= length (arr c))%nat.

Lemma messages_nil : messages [] = [].
Proof. unfold messages. cbn [parse_all length]. by rewrite (proj2 (Nat.ltb_ge _ _)) by lia. Qed.

Lemma take_le_put n z : take n (le_put n z) = le_put n z.
Proof. apply take_ge. by rewrite length_le_put. Qed.

Lemma take_le_put_more n k z : take n (le_put (n + k) z) = le_put n z.
Proof.
  revert z. induction n as [|n IH]; intros z; [done|].
  change (byte_of_Z z :: take n (le_put (n + k) (z `div` 256)) = byte_of_Z z :: le_put n (z `div` 256)). by rewrite IH.
Qed.

Lemma linux_control : control_laws setGSOSize segment_size fresh_control.
Proof.
  intros c [Hlen Hroom]. assert (Hc : content c = []) by (unfold content; by rewrite Hlen).
  unfold segment_size. split; [by rewrite Hc, messages_nil|]. intros n Hn.
  destruct (set_content c (Z.of_nat n)) as (gap & pad & -> & Hg & Hs); [lia|].
  rewrite Hc. cbn [app]. rewrite <- (app_nil_r (message _ _ _ _ _)).
  rewrite messages_cons by (rewrite ?length_le_put; done || lia || by split_and!). rewrite messages_nil. cbn [rev app size_in].
  rewrite length_le_put, take_le_put, le_get_put. cbn -[Z.modulo Z.of_nat Z.to_nat].
  rewrite Z.mod_small by lia. apply Nat2Z.id.
Qed.

Lemma get_loop_total fuel : forall rem, (length rem < fuel)%nat -> get_loop fuel rem <> inl ErrFuel.
Proof.
  induction fuel as [|fuel IH]; intros rem Hf; [lia|]. cbn [get_loop].
  destruct (Nat.ltb_spec SizeofCmsghdr (length rem)) as [Hr|]; [|done].
  destruct (ParseOneSocketControlMessage rem) as [[[[level type] d] rest]|] eqn:E; [|done].
  apply parse_shorter in E; [|done]. destruct (_ && _); [done|]. apply IH. lia.
Qed.

(** Control data as the kernel lays it out: messages one behind the other, with
    padding of any content, and a rest that is too short for one. *)
Inductive laid_out : list (Z * Z * bytes) -> bytes -> Prop :=
| out_end rest : (length rest < SizeofCmsghdr)%nat -> laid_out [] rest
| out_message level type gap data pad l rest : in_fields level type data ->
    (SizeofCmsghdr + length gap)%nat = CmsgLen 0 ->
    length (message level type gap data pad) = CmsgSpace (length data) ->
    laid_out l rest ->
    laid_out ((level, type, data) :: l) (message level type gap data pad ++ rest).

Lemma laid_out_short l b : laid_out l b -> (length b < SizeofCmsghdr)%nat -> l = [].
Proof.
  destruct 1 as [|level type gap data pad l rest Hf Hg Hs]; [done|]. rewrite length_app, Hs.
  pose proof (space_enough (length data)). pose proof (len_exact (length data)). pose proof header_positive. lia.
Qed.

Lemma get_loop_run l b : laid_out l b -> forall fuel, (length b < fuel)%nat ->
  get_loop fuel b = inr (size_in UDP_GRO l).
Proof.
  induction 1 as [rest Hr|level type gap data pad l rest Hi Hg Hs Hl IH]; intros [|fuel] Hf; try lia; cbn [get_loop].
  { by rewrite (proj2 (Nat.ltb_ge _ _)) by lia. }
  pose proof (space_enough (length data)). pose proof (len_exact (length data)). pose proof header_positive.
  rewrite length_app, Hs in *. destruct (Nat.ltb_spec SizeofCmsghdr (CmsgSpace (length data) + length rest)).
  - rewrite parse_message by done. cbn [size_in]. destruct (_ && _); [done|]. apply IH. lia.
  - assert (Hd : length data = 0%nat) by lia. cbn [size_in]. rewrite Hd, andb_false_r.
    by rewrite (laid_out_short _ _ Hl) by lia.
Qed.

(** C35. [getGSOSize] reads what the kernel reports: from control data
    that is laid out as messages it returns the first size of receive offload,
    whatever other messages there are, and 0 without one; a size of up to 65535
    comes back whether the kernel writes it in two bytes or in more.  On any
    other data the loop ends too. *)
Theorem gro_size_read l control :
  (laid_out l control ->
    getGSOSize control = inr (size_in UDP_GRO l) /\
    forall l1 size k l2, l = l1 ++ (SOL_UDP, UDP_GRO, le_put (2 + k) (Z.of_nat size)) :: l2 ->
      Forall (fun m => m.1 <> (SOL_UDP, UDP_GRO)) l1 -> Z.of_nat size < 65536 ->
      getGSOSize control = inr size) /\
  getGSOSize control <> inl ErrFuel.
Proof.
  split; [|apply get_loop_total; lia]. intros Hl.
  assert (E : getGSOSize control = inr (size_in UDP_GRO l)) by (apply (get_loop_run _ _ Hl); lia).
  split; [done|]. rewrite E. clear E. intros l1 size k l2 -> Hl1 Hsize. f_equal. clear Hl.
  induction Hl1 as [|[[level type] d] l1 Hm Hl1 IH]; cbn [app size_in].
  - rewrite length_le_put, take_le_put_more, le_get_put. cbn -[Z.modulo Z.of_nat Z.to_nat].
    rewrite Z.mod_small by lia. apply Nat2Z.id.
  - destruct (Z.eqb_spec level SOL_UDP) as [->|], (Z.eqb_spec type UDP_GRO) as [->|]; done.
Qed.

(** C34. Segmentation offload is transparent: with the control data
    [setGSOSize] writes, the messages [coalesceMessages] makes of a batch are cut by
    the kernel into the datagrams of the batch, in order.  Each message is within
    what the kernel takes (its payload, 64 datagrams, the capacity of its
    buffer), nothing is indexed out of range, and what is left in the
    arrays of reused control data does not matter. *)
Theorem coalesce_on_linux addr ep bufs msgs :
  Forall (buf_ok (max_payload ep)) bufs -> (length bufs <= length msgs)%nat ->
  Forall (fun m => fresh_control (OOB m)) msgs ->
  exists msgs' n, coalesceMessages setGSOSize addr ep bufs msgs = Some (msgs', Z.of_nat n) /\
    (n <= length bufs)%nat /\ length msgs' = length msgs /\
    concat (map (kernel segment_size) (take n msgs')) = map data bufs /\
    Forall (sendable segment_size addr (max_payload ep)) (take n msgs').
Proof. apply (coalesce_run setGSOSize segment_size fresh_control), linux_control. Qed.

End Control.

(** The control data of the pool satisfies what the bind asks of its
    operating system (StdNetBind.v). *)
Lemma pool_control {cmsg : Cmsg} {cmsg_laws : CmsgLaws} :
  control_laws setGSOSize segment_size (fun c => c = new_control).
Proof.
  intros c ->. apply linux_control. split; [done|]. cbn [arr new_control]. by rewrite length_zero_bytes.
Qed.

(** ** Socket options (controlfns.go, controlfns_linux.go, features_linux.go)

    The descriptor's options are the kernel's, reached through the package
    unix.  A raw connection runs a function on its descriptor, or fails
    without running it when it is closed. *)

Definition SOL_SOCKET : Z := 1.
Definition SO_SNDBUF : Z := 7.
Definition SO_RCVBUF : Z := 8.
Definition SO_SNDBUFFORCE : Z := 32.
Definition SO_RCVBUFFORCE : Z := 33.
Definition IPPROTO_UDP : Z := 17.
Definition socketBufferSize : Z := Z.shiftl 7 20.

Section Options.
Context {Fd K : Type}.

Class SockOpts := {
  SetsockoptInt : Fd -> Z -> Z -> Z -> K -> K * option Error;    (* level, option, value *)
  GetsockoptInt : Fd -> Z -> Z -> K -> Error + Z;
}.
Context {opts : SockOpts}.

Definition RawConn : Type := Error + Fd.

Definition raw_Control (c : RawConn) (f : Fd -> K -> K) (k : K) : K * option Error :=
  match c with
  | inl err => (k, Some err)
  | inr fd => (f fd k, None)
  end.

(** [_ = unix.SetsockoptInt(...)] *)
Definition try_option (level opt value : Z) (fd : Fd) (k : K) : K := fst (SetsockoptInt fd level opt value k).

Definition controlFn : Type := string -> string -> RawConn -> K -> K * option Error.

Definition set_buffer_sizes : controlFn := fun network address c =>
  raw_Control c (fun fd k =>
    let k := try_option SOL_SOCKET SO_RCVBUF socketBufferSize fd k in
    let k := try_option SOL_SOCKET SO_SNDBUF socketBufferSize fd k in
    let k := try_option SOL_SOCKET SO_RCVBUFFORCE socketBufferSize fd k in
    try_option SOL_SOCKET SO_SNDBUFFORCE socketBufferSize fd k).

Definition enable_gro : controlFn := fun network address c =>
  raw_Control c (try_option IPPROTO_UDP UDP_GRO 1).

Definition controlFns : list controlFn := [set_buffer_sizes; enable_gro].

Fixpoint run_controls (fns : list controlFn) (network address : string) (c : RawConn) (k : K) : K * option Error :=
  match fns with
  | [] => (k, None)
  | fn :: fns =>
      match fn network address c k with
      | (k, Some err) => (k, Some err)
      | (k, None) => run_controls fns network address c k
      end
  end.

(** The function [Control] of the configuration [listenConfig] returns. *)
Definition listenConfig_Control : controlFn := run_controls controlFns.

(** [rc] is what [SyscallConn] returns. *)
Definition supportsUDPOffload (rc : Error + RawConn) (k : K) : bool * bool :=
  match rc with
  | inl _ | inr (inl _) => (false, false)
  | inr (inr fd) =>
      let txOffload := match GetsockoptInt fd IPPROTO_UDP UDP_SEGMENT k with inl _ => false | inr _ => true end in
      let rxOffload := match GetsockoptInt fd IPPROTO_UDP UDP_GRO k with inl _ => false | inr opt => opt =? 1 end in
      (txOffload, rxOffload)
  end.

(** What socket(7) and udp(7) say of the options used: an accepted option reads
    as it was set, one that is refused keeps its value, and buffer sizes have
    no part in UDP. *)
Class SockOptsLaws : Prop := {
  get_set fd value k k' :
    SetsockoptInt fd IPPROTO_UDP UDP_GRO value k = (k', None) -> GetsockoptInt fd IPPROTO_UDP UDP_GRO k' = inr value;
  get_refused fd level opt value k k' err :
    SetsockoptInt fd level opt value k = (k', Some err) -> k' = k;
  get_other fd level opt value level' opt' k : (level, opt) <> (level', opt') ->
    GetsockoptInt fd level' opt' (fst (SetsockoptInt fd level opt value k)) = GetsockoptInt fd level' opt' k;
}.
Context {opts_laws : SockOptsLaws}.

(** Setting up a socket: no refused option makes it fail, and afterwards receive
    offload is found to be on if the kernel took the option, and as it was
    before otherwise; segmentation is on if the kernel knows it. *)
Theorem offload_found network address fd k :
  let '(k', err) := listenConfig_Control network address (inr fd) k in
  let '(tx, rx) := supportsUDPOffload (inr (inr fd)) k' in
  err = None /\ exists k1 e,
    SetsockoptInt fd IPPROTO_UDP UDP_GRO 1 k1 = (k', e) /\
    rx = match e with
         | None => true
         | Some _ => snd (supportsUDPOffload (inr (inr fd)) k)
         end /\
    tx = fst (supportsUDPOffload (inr (inr fd)) k).
Proof.
  unfold listenConfig_Control, controlFns, run_controls, set_buffer_sizes, enable_gro, raw_Control.
  set (k1 := try_option SOL_SOCKET SO_SNDBUFFORCE _ _ _).
  assert (Hk : forall opt, GetsockoptInt fd IPPROTO_UDP opt k1 = GetsockoptInt fd IPPROTO_UDP opt k).
  { intros opt. unfold k1, try_option. by rewrite !get_other by (intros [=]). }
  unfold try_option. destruct (SetsockoptInt fd IPPROTO_UDP UDP_GRO 1 k1) as [k' e] eqn:E. simpl.
  split; [done|]. exists k1, e. split; [done|]. assert (Htx := get_other fd IPPROTO_UDP UDP_GRO 1 IPPROTO_UDP UDP_SEGMENT k1).
  rewrite E in Htx. simpl in Htx. rewrite Htx, Hk by (intros [=]). split; [|done].
  destruct e; [|by rewrite (get_set _ _ _ _ E)]. by rewrite (get_refused _ _ _ _ _ _ _ E), Hk.
Qed.

(** A closed socket makes setting up fail, and is found to have no offload. *)
Lemma closed_socket network address err k :
  listenConfig_Control network address (inl err) k = (k, Some err) /\
  supportsUDPOffload (inr (inl err)) k = (false, false).
Proof. done. Qed.

End Options.

(** *** Witnesses

    The layout of Linux on amd64: a header of 16 bytes, data aligned to 8. *)

Definition align8 (n : nat) : nat := ((n + 7) / 8 * 8)%nat.

Definition parse_amd64 (b : bytes) : option (Z * Z * bytes * bytes) :=
  let n := Z.to_nat (le_get (take 8 b)) in
  if (n <? 16)%nat || (length b <? n)%nat then None
  else Some (le_get (slice 8 12 b), le_get (slice 12 16 b), slice 16 n b, drop (align8 n) b).

#[global] Instance amd64 : Cmsg := {|
  SizeofCmsghdr := 16;
  CmsgLen n := (16 + n)%nat;
  CmsgSpace n := (16 + align8 n)%nat;
  put_header level type n := le_put 8 (Z.of_nat n) ++ le_put 4 level ++ le_put 4 type;
  ParseOneSocketControlMessage := parse_amd64;
|}.

Lemma align8_spec n : (n <= align8 n < n + 8 /\ align8 (16 + n) = 16 + align8 n)%nat.
Proof.
  unfold align8. pose proof (Nat.div_mod (n + 7) 8). pose proof (Nat.mod_upper_bound (n + 7) 8).
  replace (16 + n + 7)%nat with (n + 7 + 2 * 8)%nat by lia. rewrite Nat.div_add by lia. lia.
Qed.

Lemma le_get_put_small n z : 0 <= z < 256 ^ Z.of_nat n -> le_get (le_put n z) = z.
Proof. intros H. rewrite le_get_put. by apply Z.mod_small. Qed.

#[global] Instance amd64_laws : CmsgLaws.
Proof.
  split; cbn [SizeofCmsghdr CmsgLen CmsgSpace put_header ParseOneSocketControlMessage amd64].
  - intros. by rewrite !length_app, !length_le_put.
  - lia.
  - lia.
  - intros n. pose proof (align8_spec n). lia.
  - intros level type gap d pad rest (Hl & Ht & Hd) Hg Hs.
    assert (gap = []) as -> by (apply nil_length_inv; lia).
    unfold message in *. cbn [CmsgLen put_header amd64 app] in *. set (n := length d) in *.
    pose proof (align8_spec n) as [Ha1 Ha2]. revert Hs.
    set (b1 := le_put 8 _). set (b2 := le_put 4 level). set (b3 := le_put 4 type).
    assert (length b1 = 8%nat /\ length b2 = 4%nat /\ length b3 = 4%nat) as (L1 & L2 & L3)
      by (unfold b1, b2, b3; by rewrite !length_le_put).
    rewrite !length_app, L1, L2, L3. intros Hs.
    assert (E1 : take 8 (((b1 ++ b2 ++ b3) ++ d ++ pad) ++ rest) = b1)
      by (rewrite <- !app_assoc; by apply take_app_length').
    assert (E2 : slice 8 12 (((b1 ++ b2 ++ b3) ++ d ++ pad) ++ rest) = b2).
    { unfold slice. rewrite <- !app_assoc, drop_app_length' by done. by apply take_app_length'. }
    assert (E3 : slice 12 16 (((b1 ++ b2 ++ b3) ++ d ++ pad) ++ rest) = b3).
    { unfold slice. rewrite <- !app_assoc, (app_assoc b1), drop_app_length' by (rewrite length_app; lia).
      by apply take_app_length'. }
    assert (E4 : slice 16 (16 + n) (((b1 ++ b2 ++ b3) ++ d ++ pad) ++ rest) = d).
    { unfold slice. rewrite <- (app_assoc (b1 ++ b2 ++ b3)).
      rewrite drop_app_length' by (rewrite !length_app; lia).
      rewrite <- app_assoc. apply take_app_length'. lia. }
    assert (E5 : drop (16 + align8 n) (((b1 ++ b2 ++ b3) ++ d ++ pad) ++ rest) = rest)
      by (apply drop_app_length'; rewrite !length_app; lia).
    unfold parse_amd64. rewrite E1, E2, E3. unfold b1, b2, b3.
    rewrite !le_get_put_small by lia. rewrite Nat2Z.id. fold b1 b2 b3. rewrite Ha2, E4, E5.
    rewrite (proj2 (Nat.ltb_ge _ _)), (proj2 (Nat.ltb_ge _ _)); [done| |lia].
    rewrite !length_app. lia.
  - unfold parse_amd64. intros b level type d rest Hb.
    destruct (Nat.ltb_spec (Z.to_nat (le_get (take 8 b))) 16); [done|].
    destruct (_ <? _)%nat; [done|]. intros [= <- <- <- <-]. rewrite length_drop.
    pose proof (align8_spec (Z.to_nat (le_get (take 8 b)))). lia.
Qed.

(** Control data that was used before: the array has what is left of it. *)
Definition used_control : Slice := mkSlice (replicate 24 Byte.xff) 0.
Definition linux_msg : @Message Slice := mkMessage (mkBuffer [] 0) used_control None 0.

(** Three datagrams in one message, the shorter last one ends it. *)
Lemma coalesce_on_linux_witness :
  exists msgs' n, coalesceMessages setGSOSize demo_addr demo_ep (map demo_buf [20; 20; 7; 20]%nat)
      (replicate 4 linux_msg) = Some (msgs', Z.of_nat n) /\
    concat (map (kernel segment_size) (take n msgs')) = map data (map demo_buf [20; 20; 7; 20]%nat).
Proof.
  destruct (coalesce_on_linux demo_addr demo_ep (map demo_buf [20; 20; 7; 20]%nat) (replicate 4 linux_msg))
    as (msgs' & n & H1 & _ & _ & H2 & _).
  - apply Forall_map, Forall_forall. intros k Hk. unfold buf_ok, demo_buf. cbn [data capacity].
    rewrite length_replicate. change (max_payload demo_ep) with 65507.
    repeat (apply elem_of_cons in Hk as [->|Hk]; [lia|]). by apply elem_of_nil in Hk.
  - vm_compute. lia.
  - apply Forall_replicate. split; [reflexivity|]. vm_compute. lia.
  - exists msgs', n. by split.
Defined.

Example coalesce_messages :
  option_map (fun r => (map (fun m => (segment_size (OOB m), length (data (Buffers0 m)))) (fst r), snd r))
    (coalesceMessages setGSOSize demo_addr demo_ep (map demo_buf [20; 20; 7; 20]%nat) (replicate 4 linux_msg)) =
  Some ([(20, 47); (0, 20); (0, 0); (0, 0)]%nat, 2).
Proof. vm_compute. reflexivity. Qed.

(** A time stamp of the kernel (level 1, type 29) before a size of four bytes. *)
Definition received_control : bytes :=
  message 1 29 [] (zero_bytes 16) [] ++ message SOL_UDP UDP_GRO [] (le_put 4 1200) (zero_bytes 4) ++ [].

Lemma gro_size_read_witness : getGSOSize received_control = inr 1200%nat.
Proof.
  assert (Hl : laid_out [(1, 29, zero_bytes 16); (SOL_UDP, UDP_GRO, le_put 4 1200)] received_control).
  { repeat (apply out_message; [repeat split; reflexivity || (vm_compute; (discriminate || reflexivity)) | reflexivity | reflexivity |]).
    apply out_end. vm_compute. lia. }
  apply (proj2 (proj1 (gro_size_read _ _) Hl) [(1, 29, zero_bytes 16)] 1200%nat 2%nat []).
  - reflexivity.
  - constructor; [discriminate|constructor].
  - reflexivity.
Defined.

End Control.
