(* ===== verification/StdNetBind.v ===== *)
(** The bind of the program (internal/conn/bind_std.go): two UDP sockets on one
    port, batches of datagrams with or without segmentation offload.  It is an
    instance of the interface [Bind] the transport is proved against.

    The sockets are the operating system's: class [OS] has the calls the source
    makes, class [OSLaws] what their documentation says of sending. *)
From S2P Require Import Prelude Env Crypto State Gso.
From stdpp Require Import prelude list strings.
Open Scope Z_scope.

Module StdNetBind.
Import State.State Gso.Gso.

(** ** The operating system *)

Definition EIO : Z := 5.
Definition EAFNOSUPPORT : Z := 97.
Definition EADDRINUSE : Z := 98.

Section Bind.
Context {Sock Control K : Type}.
Abbreviation Msg := (@Message Control).

Class OS := {
  linux : bool;                                               (* the operating system is Linux *)
  os_listen : bool -> Z -> K -> K * (Error + Sock * Z);        (* listenNet: is it udp6, port *)
  os_Close : Sock -> K -> K * option Error;
  os_offload : Sock -> K -> K * (bool * bool);                 (* supportsUDPOffload: tx, rx *)
  os_WriteBatch : Sock -> list Msg -> K -> K * (nat * option Error);
  os_WriteMsgUDP : Sock -> Msg -> K -> K * option Error;
  os_ReadBatch : Sock -> list Msg -> K -> K * (list Msg * (nat * option Error));
  os_ReadMsgUDP : Sock -> Msg -> K -> K * (Msg * option Error);
  os_setGSO : Control -> Z -> Control;
  os_getGSO : Control -> Error + nat;
  os_control : Control;                                        (* empty control data *)
}.

Context {os : OS}.

(** The address buffer of the pool: an array of 16 bytes and the length of the
    slice that was put back. *)
Record PooledIP := mkIP { ip_array : bytes; ip_len : nat }.
Definition newIP : PooledIP := mkIP (zero_bytes 16) 16.
Definition ip_bytes (ip : PooledIP) : bytes := take (ip_len ip) (ip_array ip).

(** [copy(ua.IP, src); ua.IP = ua.IP[:len(src)]] *)
Definition fill (src : bytes) (ip : PooledIP) : PooledIP :=
  let n := Nat.min (ip_len ip) (length src) in
  mkIP (splice 0 (take n src) (ip_array ip)) (length src).

(** The pools are stacks of what was put back; the pool of messages clears them,
    so that a message from it is a new one. *)
Record StdNetBind := mkStdNetBind {
  ipv4 : option Sock;
  ipv6 : option Sock;
  ipv4TxOffload : bool;
  ipv4RxOffload : bool;
  ipv6TxOffload : bool;
  ipv6RxOffload : bool;
  blackhole4 : bool;
  blackhole6 : bool;
  udpAddrPool : list PooledIP;
}.

Definition NewStdNetBind : StdNetBind := mkStdNetBind None None false false false false false false [].

(** The bind with the operating system. *)
Abbreviation World := (StdNetBind * K)%type.
Definition call {A} (f : K -> K * A) : M World A := fun w =>
  let '(o, a) := f (snd w) in ((fst w, o), a).
Definition set_bind (b : StdNetBind) : M World unit := modify (fun w => (b, snd w)).
Definition get_bind : M World StdNetBind := gets fst.

(** ** Open and close *)

Definition isErr (n : Z) (e : Error) : bool := match e with ErrOS m => m =? n | _ => false end.

(** Closing a socket that is not there does nothing. *)
Definition close_opt (s : option Sock) : M World (option Error) :=
  match s with Some s => call (os_Close s) | None => ret None end.

(** The two listeners, with [more] attempts when a random port turns out to
    be taken for IPv6; an address family that is not supported is left out.  A
    listener that fails leaves 0 in [port]. *)
Fixpoint open_sockets (more : nat) (uport : Z)
  : M World (Error + (option Sock * option Sock * Z)) :=
  let* r4 := call (os_listen false uport) in
  let listen6 (v4conn : option Sock) (port : Z) :=
    let* r6 := call (os_listen true port) in
    match r6 with
    | inr (v6conn, port) => ret (inr (v4conn, Some v6conn, port))
    | inl e =>
        if (uport =? 0) && isErr EADDRINUSE e && (0 <? more)%nat then
          let* _ := close_opt v4conn in
          match more with
          | S more => open_sockets more uport
          | O => ret (inl e)
          end
        else if negb (isErr EAFNOSUPPORT e) then
          let* _ := close_opt v4conn in ret (inl e)
        else ret (inr (v4conn, None, 0))
    end in
  match r4 with
  | inl e => if negb (isErr EAFNOSUPPORT e) then ret (inl e) else listen6 None 0
  | inr (v4conn, port) => listen6 (Some v4conn) port
  end.

Definition offload_of (s : option Sock) (old : bool * bool) : M World (bool * bool) :=
  match s with Some s => call (os_offload s) | None => ret old end.

Definition Open (uport : Z) : M World (Z * option Error) :=
  let* b := get_bind in
  match ipv4 b, ipv6 b with
  | None, None =>
      let* r := open_sockets 100 uport in
      match r with
      | inl e => ret (0, Some e)
      | inr (v4conn, v6conn, port) =>
          let* (tx4, rx4) := offload_of v4conn (ipv4TxOffload b, ipv4RxOffload b) in
          let* (tx6, rx6) := offload_of v6conn (ipv6TxOffload b, ipv6RxOffload b) in
          set_bind (mkStdNetBind v4conn v6conn tx4 rx4 tx6 rx6 (blackhole4 b) (blackhole6 b)
            (udpAddrPool b)) ;;;
          match v4conn, v6conn with
          | None, None => ret (0, Some (ErrOS EAFNOSUPPORT))
          | _, _ => ret (u16 port, None)
          end
      end
  | _, _ => ret (0, Some ErrBindAlreadyOpen)
  end.

Definition Close : M World (option Error) :=
  let* b := get_bind in
  let* err1 := close_opt (ipv4 b) in
  let* err2 := close_opt (ipv6 b) in
  set_bind (mkStdNetBind None None false false false false false false (udpAddrPool b)) ;;;
  match err1 with Some _ => ret err1 | None => ret err2 end.

Definition BatchSize : Z := if linux then IdealBatchSize else 1.

(** ** Send *)

(** [send]: all messages, [WriteBatch] taking some of them at a time; each round
    sends at least one. *)
Fixpoint write_all (fuel : nat) (conn : Sock) (msgs : list Msg) : M World (option Error) :=
  match fuel with
  | O => ret (Some ErrFuel)
  | S fuel =>
      let* (n, err) := call (os_WriteBatch conn msgs) in
      match err with
      | Some err => ret (Some err)
      | None => if (n =? length msgs)%nat then ret None else write_all fuel conn (drop n msgs)
      end
  end.

Fixpoint write_each (conn : Sock) (msgs : list Msg) : M World (option Error) :=
  match msgs with
  | [] => ret None
  | msg :: msgs =>
      let* err := call (os_WriteMsgUDP conn msg) in
      match err with Some err => ret (Some err) | None => write_each conn msgs end
  end.

Definition send (conn : Sock) (msgs : list Msg) : M World (option Error) :=
  if linux then write_all (S (length msgs)) conn msgs else write_each conn msgs.

(** What [Send] does: it panics, or returns an error or none. *)
Inductive Sent := Panicked | Returned (err : option Error).

(** Each buffer in a message of its own; the control data stays. *)
Fixpoint plain_messages (ua : UDPAddr) (bufs : list Buffer) (msgs : list Msg) : option (list Msg) :=
  match bufs, msgs with
  | [], _ => Some msgs
  | _ :: _, [] => None
  | buf :: bufs, m :: msgs =>
      match plain_messages ua bufs msgs with
      | None => None
      | Some msgs => Some (mkMessage buf (OOB m) (Some ua) (MN m) :: msgs)
      end
  end.

Definition send_plain (conn : Sock) (ua : UDPAddr) (bufs : list Buffer) (msgs : list Msg) : M World Sent :=
  match plain_messages ua bufs msgs with
  | None => ret Panicked
  | Some msgs => let* err := send conn (take (length bufs) msgs) in ret (Returned err)
  end.

Definition errShouldDisableUDPGSO (err : Error) : bool := linux && isErr EIO err.

Definition disable_offload (is6 : bool) (b : StdNetBind) : StdNetBind :=
  if is6
  then mkStdNetBind (ipv4 b) (ipv6 b) (ipv4TxOffload b) (ipv4RxOffload b) false (ipv6RxOffload b)
         (blackhole4 b) (blackhole6 b) (udpAddrPool b)
  else mkStdNetBind (ipv4 b) (ipv6 b) false (ipv4RxOffload b) (ipv6TxOffload b) (ipv6RxOffload b)
         (blackhole4 b) (blackhole6 b) (udpAddrPool b).

(** From the label [retry] on; the retry uses the messages of the first attempt. *)
Definition send_batch (conn : Sock) (is6 offload : bool) (ua : UDPAddr) (ep : Endpoint)
    (bufs : list Buffer) (msgs : list Msg) : M World Sent :=
  if offload then
    match coalesceMessages os_setGSO ua ep bufs msgs with
    | None => ret Panicked
    | Some (msgs, n) =>
        let* err := send conn (take (Z.to_nat n) msgs) in
        match err with
        | Some e =>
            if errShouldDisableUDPGSO e then
              modify (fun w => (disable_offload is6 (fst w), snd w)) ;;;
              let* r := send_plain conn ua bufs msgs in
              ret (match r with
                   | Panicked => Panicked
                   | Returned err => Returned (Some (ErrUDPGSODisabled err))
                   end)
            else ret (Returned err)
        | None => ret (Returned err)
        end
    end
  else send_plain conn ua bufs msgs.

(** The bytes [As4] or [As16] gives; [As4] panics on the zero address. *)
Definition addr_bytes (a : Addr) : option bytes :=
  match a with AddrZero => None | Addr4 b => Some b | Addr6 b _ => Some b end.

Definition get_ip : M World PooledIP := fun w =>
  match udpAddrPool (fst w) with
  | [] => (w, newIP)
  | ip :: rest =>
      let b := fst w in
      ((mkStdNetBind (ipv4 b) (ipv6 b) (ipv4TxOffload b) (ipv4RxOffload b) (ipv6TxOffload b)
          (ipv6RxOffload b) (blackhole4 b) (blackhole6 b) rest, snd w), ip)
  end.

Definition put_ip (ip : PooledIP) : M World unit := modify (fun w =>
  let b := fst w in
  (mkStdNetBind (ipv4 b) (ipv6 b) (ipv4TxOffload b) (ipv4RxOffload b) (ipv6TxOffload b)
     (ipv6RxOffload b) (blackhole4 b) (blackhole6 b) (ip :: udpAddrPool b), snd w)).

Definition new_messages : list Msg :=
  replicate (Z.to_nat IdealBatchSize) (mkMessage (mkBuffer [] 0) os_control None 0).

(** The socket for an address family: whether what is sent to it is dropped, the
    socket, whether it segments. *)
Definition route (b : StdNetBind) (is6 : bool) : bool * option Sock * bool :=
  if is6 then (blackhole6 b, ipv6 b, ipv6TxOffload b) else (blackhole4 b, ipv4 b, ipv4TxOffload b).

Definition Send (bufs : list Buffer) (endpoint : Endpoint) : M World Sent :=
  let* b := get_bind in
  let is6 := addr_Is6 (DstIP endpoint) in
  let '(blackhole, conn, offload) := route b is6 in
  if (blackhole : bool) then ret (Returned None)
  else
    match conn with
    | None => ret (Returned (Some (ErrOS EAFNOSUPPORT)))
    | Some conn =>
        let* ip := get_ip in
        match addr_bytes (DstIP endpoint) with
        | None => ret Panicked
        | Some dst =>
            let ip := fill dst ip in
            let ua := mkUDPAddr (ip_bytes ip) (ep_port endpoint) EmptyString in
            let* r := send_batch conn is6 offload ua endpoint bufs new_messages in
            put_ip ip ;;;
            ret r
        end
    end.

(** ** Receive *)

(** [UDPAddr.AddrPort]: [AddrFromSlice] of the address, with its zone. *)
Definition AddrPort (a : UDPAddr) : Endpoint :=
  mkEndpoint
    (if (length (ua_IP a) =? 4)%nat then Addr4 (ua_IP a)
     else if (length (ua_IP a) =? 16)%nat then Addr6 (ua_IP a) (ua_Zone a)
     else AddrZero)
    (u16 (ua_Port a)).

(** The messages with the buffers to read into. *)
Fixpoint with_buffers (bufs : list Buffer) (msgs : list Msg) : option (list Msg) :=
  match bufs, msgs with
  | [], _ => Some msgs
  | _ :: _, [] => None
  | buf :: bufs, m :: msgs =>
      match with_buffers bufs msgs with
      | None => None
      | Some msgs => Some (set_buffer buf m :: msgs)
      end
  end.

(** A datagram and where it is from; an empty one has no endpoint. *)
Definition datagram_of (m : Msg) : bytes * option Endpoint :=
  (payload m, if (MN m =? 0)%nat then None else option_map AddrPort (MAddr m)).

Definition receiveIP (conn : Sock) (rxOffload : bool) (bufs : list Buffer)
  : M World (option (SplitError + list (bytes * option Endpoint))) :=
  match with_buffers bufs new_messages with
  | None => ret None
  | Some msgs =>
      if linux then
        if rxOffload then
          let at_ := readAt (length msgs) in
          let* (read, (_, err)) := call (os_ReadBatch conn (drop at_ msgs)) in
          match err with
          | Some e => ret (Some (inl (SplitGSO e)))
          | None =>
              match splitCoalescedMessages os_getGSO (take at_ msgs ++ read) at_ with
              | None => ret None
              | Some (_, _, Some e) => ret (Some (inl e))
              | Some (msgs, numMsgs, None) => ret (Some (inr (map datagram_of (take numMsgs msgs))))
              end
          end
        else
          let* (read, (numMsgs, err)) := call (os_ReadBatch conn msgs) in
          match err with
          | Some e => ret (Some (inl (SplitGSO e)))
          | None => ret (Some (inr (map datagram_of (take numMsgs read))))
          end
      else
        match msgs with
        | [] => ret None
        | msg :: _ =>
            let* (msg, err) := call (os_ReadMsgUDP conn msg) in
            match err with
            | Some e => ret (Some (inl (SplitGSO e)))
            | None => ret (Some (inr [datagram_of msg]))
            end
        end
  end.

(** ** The interface *)

(** The bind as the transport sees it; a slice it is given has [spare] bytes of
    capacity behind it. *)
#[global] Instance std_bind (spare : nat) : Bind World := {|
  bind_Open := Open;
  bind_Close := Close;
  bind_Send bufs ep w :=
    match Send (map (fun b => mkBuffer b (length b + spare)) bufs) ep w with
    | (w, Returned err) => (w, err)
    | (w, Panicked) => (w, Some ErrPanic)
    end;
  bind_BatchSize _ := BatchSize;
|}.

(** ** What [Send] puts on the wire *)

Section Laws.
Context (wire : K -> list (Sock * option UDPAddr * bytes)) (gso_of : Control -> nat).

Definition sent_of (s : Sock) (m : Msg) : list (Sock * option UDPAddr * bytes) :=
  map (fun p => (s, MAddr m, p)) (kernel gso_of m).

(** An error of the operating system. *)
Definition os_error (err : option Error) : Prop :=
  forall e, err = Some e -> e = ErrNetClosed \/ exists n, e = ErrOS n.

(** A write sends the messages in order up to some point; without an error it
    tells how many, and makes progress. *)
Class OSLaws : Prop := {
  law_control : control_laws os_setGSO gso_of (fun c => c = os_control);
  law_WriteBatch s msgs k k' n err :
    os_WriteBatch s msgs k = (k', (n, err)) ->
    os_error err /\ exists j, (j <= length msgs)%nat /\
      wire k' = wire k ++ concat (map (sent_of s) (take j msgs)) /\
      (err = None -> n = j /\ (msgs <> [] -> 0 < j)%nat);
  law_WriteMsgUDP s m k k' err :
    os_WriteMsgUDP s m k = (k', err) ->
    os_error err /\ wire k' = wire k ++ (if err then [] else sent_of s m);
}.

Context {laws : OSLaws}.

(** [send] either sends all messages, or the first of them. *)
Definition sends (l : list (Sock * option UDPAddr * bytes)) (w w' : World) (err : option Error) : Prop :=
  fst w' = fst w /\ os_error err /\
  exists pre, pre `prefix_of` l /\ wire (snd w') = wire (snd w) ++ pre /\ (err = None -> pre = l).

Lemma prefix_concat_take {A B} (f : A -> list B) j l :
  concat (map f (take j l)) `prefix_of` concat (map f l).
Proof.
  exists (concat (map f (drop j l))). rewrite <- concat_app, <- map_app. by rewrite take_drop.
Qed.

Lemma write_all_sends fuel : forall s msgs w,
  (length msgs < fuel)%nat ->
  let '(w', err) := write_all fuel s msgs w in sends (concat (map (sent_of s) msgs)) w w' err.
Proof.
  induction fuel as [|fuel IH]; intros s msgs w Hf; [lia|]. cbn [write_all]. unfold bind, call.
  destruct (os_WriteBatch s msgs (snd w)) as [k [n err]] eqn:E.
  destruct (law_WriteBatch _ _ _ _ _ _ E) as (He & j & Hj & Hw & Hn).
  destruct err as [e|]; [|destruct (Hn eq_refl) as [-> Hp]; clear Hn].
  - split; [done|]. split; [done|]. eexists. split; [apply (prefix_concat_take _ j)|]. by split.
  - destruct (Nat.eqb_spec j (length msgs)) as [->|Hne].
    + rewrite take_ge in Hw by done. split; [done|]. split; [done|]. by eexists.
    + assert (0 < j)%nat by (apply Hp; by intros ->; simpl in *; lia).
      specialize (IH s (drop j msgs) (fst w, k)).
      destruct (write_all fuel s (drop j msgs) (fst w, k)) as [w' err].
      destruct IH as (H1 & H2 & pre & H3 & H4 & H5); [rewrite length_drop; lia|].
      split; [done|]. split; [done|]. exists (concat (map (sent_of s) (take j msgs)) ++ pre).
      simpl in H4. rewrite H4, Hw, <- app_assoc.
      assert (Hc : concat (map (sent_of s) msgs) =
        concat (map (sent_of s) (take j msgs)) ++ concat (map (sent_of s) (drop j msgs)))
        by (rewrite <- concat_app, <- map_app; by rewrite take_drop).
      rewrite Hc. split; [by apply prefix_app|]. split; [done|]. intros Hn. by rewrite (H5 Hn).
Qed.

Lemma write_each_sends msgs : forall s w,
  let '(w', err) := write_each s msgs w in sends (concat (map (sent_of s) msgs)) w w' err.
Proof.
  induction msgs as [|m msgs IH]; intros s w; cbn [write_each].
  { split; [done|]. split; [done|]. exists []. by rewrite app_nil_r. }
  unfold bind, call. destruct (os_WriteMsgUDP s m (snd w)) as [k err] eqn:E.
  destruct (law_WriteMsgUDP _ _ _ _ _ E) as [He Hw]. destruct err as [e|].
  - split; [done|]. split; [done|]. exists []. split; [by eexists|]. by split.
  - specialize (IH s (fst w, k)). destruct (write_each s msgs (fst w, k)) as [w' err].
    destruct IH as (H1 & H2 & pre & H3 & H4 & H5). split; [done|]. split; [done|].
    exists (sent_of s m ++ pre). simpl in H4 |- *. rewrite H4, Hw, <- app_assoc.
    split; [by apply prefix_app|]. split; [done|]. intros Hn. by rewrite (H5 Hn).
Qed.

Lemma send_sends s msgs w :
  let '(w', err) := send s msgs w in sends (concat (map (sent_of s) msgs)) w w' err.
Proof. unfold send. destruct linux; [apply write_all_sends; lia|apply write_each_sends]. Qed.

(** The datagrams of a batch, each to [ua]. *)
Definition batch_to (s : Sock) (ua : UDPAddr) (bufs : list Buffer) : list (Sock * option UDPAddr * bytes) :=
  map (fun p => (s, Some ua, p)) (map data bufs).

Lemma sent_coalesced s ua msgs (l : list bytes) :
  concat (map (kernel gso_of) msgs) = l -> Forall (fun m => MAddr m = Some ua) msgs ->
  concat (map (sent_of s) msgs) = map (fun p => (s, Some ua, p)) l.
Proof.
  intros <- Hf. induction Hf as [|m msgs Hm Hf IH]; [done|]. simpl. rewrite map_app, <- IH.
  unfold sent_of at 1. by rewrite Hm.
Qed.

Lemma plain_messages_run ua bufs : forall msgs,
  (length bufs <= length msgs)%nat ->
  exists msgs', plain_messages ua bufs msgs = Some msgs' /\
    map MAddr (take (length bufs) msgs') = map (fun _ => Some ua) bufs /\
    map Buffers0 (take (length bufs) msgs') = bufs /\
    map OOB (take (length bufs) msgs') = map OOB (take (length bufs) msgs).
Proof.
  induction bufs as [|buf bufs IH]; intros msgs Hl; [by exists msgs|].
  destruct msgs as [|m msgs]; [simpl in Hl; lia|]. simpl in Hl.
  destruct (IH msgs) as (msgs' & E & H1 & H2 & H3); [lia|]. simpl. rewrite E.
  eexists. split; [done|]. simpl. by rewrite H1, H2, H3.
Qed.

(** Plain messages without segment size carry the batch. *)
Lemma sent_plain s ua bufs msgs :
  map MAddr msgs = map (fun _ => Some ua) bufs -> map Buffers0 msgs = bufs ->
  Forall (fun m => OOB m = os_control) msgs ->
  concat (map (sent_of s) msgs) = batch_to s ua bufs.
Proof.
  intros H1 <-. destruct (law_control _ eq_refl) as [L0 _]. intros Hf. unfold batch_to.
  induction Hf as [|m msgs Hm Hf IH]; [done|]. simpl in *. injection H1 as Ha H1.
  rewrite <- IH by done. unfold sent_of at 1, kernel, datagrams. by rewrite Hm, L0, Ha.
Qed.

Lemma new_messages_plain n : Forall (fun m : Msg => OOB m = os_control) (take n new_messages).
Proof. apply Forall_take. by apply Forall_replicate. Qed.

Lemma send_plain_sends s ua bufs w :
  (length bufs <= Z.to_nat IdealBatchSize)%nat ->
  exists w' err, send_plain s ua bufs new_messages w = (w', Returned err) /\
    sends (batch_to s ua bufs) w w' err.
Proof.
  intros Hl. unfold send_plain.
  destruct (plain_messages_run ua bufs new_messages) as (msgs & -> & H1 & H2 & H3).
  { unfold new_messages. by rewrite length_replicate. }
  assert (Hf : Forall (fun m => OOB m = os_control) (take (length bufs) msgs)).
  { apply (Forall_map OOB (fun c => c = os_control)). rewrite H3. apply Forall_map, new_messages_plain. }
  unfold bind. pose proof (send_sends s (take (length bufs) msgs) w) as Hs.
  destruct (send s _ w) as [w' err]. exists w', err. split; [done|].
  by rewrite (sent_plain s ua bufs) in Hs.
Qed.

(** What a call of [Send] with a socket for the address does. *)
Definition Send_result (offload is6 : bool) (l : list (Sock * option UDPAddr * bytes)) (w w' : World)
    (r : Sent) : Prop :=
  match r with
  | Panicked => False
  | Returned None => wire (snd w') = wire (snd w) ++ l
  | Returned (Some (ErrUDPGSODisabled _)) =>
      offload = true /\ (route (fst w') is6).2 = false
  | Returned (Some e) =>
      (e = ErrNetClosed \/ exists n, e = ErrOS n) /\
      exists pre, pre `prefix_of` l /\ wire (snd w') = wire (snd w) ++ pre
  end.

Lemma sends_result offload is6 l w w' err :
  sends l w w' err -> Send_result offload is6 l w w' (Returned err).
Proof.
  intros (_ & He & pre & Hp & Hw & Hn). destruct err as [e|]; simpl; [|by rewrite <- (Hn eq_refl)].
  destruct (He e eq_refl) as [->|[n ->]]; (split; [eauto|by exists pre]).
Qed.

Lemma send_frame s msgs w : fst (fst (send s msgs w)) = fst w.
Proof. pose proof (send_sends s msgs w) as H. destruct (send s msgs w) as [w' err]. apply H. Qed.

Lemma send_batch_result conn is6 offload ua ep bufs w :
  Forall (buf_ok (max_payload ep)) bufs -> (length bufs <= Z.to_nat IdealBatchSize)%nat ->
  let '(w', r) := send_batch conn is6 offload ua ep bufs new_messages w in
  Send_result offload is6 (batch_to conn ua bufs) w w' r.
Proof.
  intros Hb Hl. unfold send_batch. destruct offload.
  2:{ destruct (send_plain_sends conn ua bufs w Hl) as (w' & err & -> & Hs). by apply sends_result. }
  destruct (coalesce_run os_setGSO gso_of (fun c => c = os_control) ua ep bufs new_messages)
    as (msgs & n & -> & Hn & Hlen & Hk & Hok); [apply law_control|done| |by apply Forall_replicate|].
  { unfold new_messages. by rewrite length_replicate. }
  rewrite Nat2Z.id. unfold bind at 1. pose proof (send_sends conn (take n msgs) w) as Hs.
  destruct (send conn (take n msgs) w) as [w' err].
  rewrite (sent_coalesced _ ua _ _ Hk) in Hs by (eapply Forall_impl; [exact Hok|]; by intros m []).
  destruct err as [e|]; [|by apply sends_result].
  destruct (errShouldDisableUDPGSO e); [|by apply (sends_result true is6 _ w w' (Some e))].
  unfold bind, modify, send_plain.
  destruct (plain_messages_run ua bufs msgs) as (msgs' & -> & _).
  { rewrite Hlen. unfold new_messages. by rewrite length_replicate. }
  pose proof (send_frame conn (take (length bufs) msgs') (disable_offload is6 (fst w'), snd w')) as Hf.
  unfold bind. destruct (send conn _ _) as [w2 err2]. simpl in *. rewrite Hf. split; [done|].
  by destruct is6.
Qed.

Lemma fill_bytes dst ip : (length dst <= ip_len ip)%nat -> ip_bytes (fill dst ip) = dst.
Proof.
  intros H. unfold ip_bytes, fill, splice. simpl. rewrite Nat.min_r, (take_ge dst) by lia.
  by rewrite take_app_length.
Qed.

(** [Send] on an open socket puts exactly the datagrams of the batch on the
    wire, in order and to the address of the endpoint, whether it coalesces them
    or not; an error of the system means that a first part of them was sent, and
    [ErrUDPGSODisabled] that coalescing is off for that socket from then on.  It
    never panics.  The address is right when the address buffer taken from the
    pool is as long as the address. *)
Theorem Send_wire w bufs ep conn offload dst (is6 := addr_Is6 (DstIP ep)) :
  route (fst w) is6 = (false, Some conn, offload) ->
  addr_bytes (DstIP ep) = Some dst -> (length dst <= 16)%nat ->
  (forall ip, head (udpAddrPool (fst w)) = Some ip -> length dst <= ip_len ip)%nat ->
  Forall (buf_ok (max_payload ep)) bufs -> (length bufs <= Z.to_nat IdealBatchSize)%nat ->
  let '(w', r) := Send bufs ep w in
  Send_result offload is6 (batch_to conn (mkUDPAddr dst (ep_port ep) EmptyString) bufs) w w' r.
Proof.
  intros Hr Hd H16 Hip Hb Hl. unfold Send, get_bind, gets. unfold bind at 1. fold is6. rewrite Hr.
  unfold bind at 1. assert (Hg : exists ip w1, get_ip w = (w1, ip) /\ snd w1 = snd w /\ (length dst <= ip_len ip)%nat).
  { unfold get_ip. destruct (udpAddrPool (fst w)) as [|ip rest]; [by exists newIP, w|].
    exists ip. eexists. split; [done|]. split; [done|]. by apply Hip. }
  destruct Hg as (ip & w1 & -> & Hw1 & Hlen). rewrite Hd, fill_bytes by done. unfold bind at 1.
  pose proof (send_batch_result conn is6 offload (mkUDPAddr dst (ep_port ep) EmptyString) ep bufs w1 Hb Hl) as Hs.
  destruct (send_batch _ _ _ _ _ _ _ w1) as [w2 r]. unfold bind, put_ip, modify, ret.
  unfold Send_result in *. rewrite Hw1 in Hs.
  destruct r as [|[[]|]]; simpl in *; done.
Qed.

End Laws.


End Bind.

(** ** A small operating system

    Sockets are address families, control data is the segment size.  A write
    takes one message; one with a segment size is refused with [EIO] where the
    device cannot segment; IPv6 may be missing. *)

Record Kernel := mkKernel {
  k_wire : list (bool * option UDPAddr * bytes);
  k_segments : bool;   (* the device segments *)
  k_ipv6 : bool;
  k_incoming : list (@Message nat);
}.

Definition transmit (s : bool) (m : @Message nat) (k : Kernel) : Kernel :=
  mkKernel (k_wire k ++ sent_of id s m) (k_segments k) (k_ipv6 k) (k_incoming k).

#[global] Instance small_os : @OS bool nat Kernel := {|
  linux := true;
  os_listen is6 port k :=
    (k, if is6 && negb (k_ipv6 k) then inl (ErrOS EAFNOSUPPORT)
        else inr (is6, if port =? 0 then 40000 else port));
  os_Close _ k := (k, None);
  os_offload _ k := (k, (true, true));
  os_WriteBatch s msgs k :=
    match msgs with
    | [] => (k, (0%nat, None))
    | m :: _ =>
        if negb (k_segments k) && (0 <? OOB m)%nat then (k, (0%nat, Some (ErrOS EIO)))
        else (transmit s m k, (1%nat, None))
    end;
  os_WriteMsgUDP s m k := (transmit s m k, None);
  os_ReadBatch _ msgs k := (k, (k_incoming k, (length (k_incoming k), None)));
  os_ReadMsgUDP _ m k := (k, (m, None));
  os_setGSO _ n := Z.to_nat n;
  os_getGSO n := inr n;
  os_control := 0%nat;
|}.

#[global] Instance small_laws : OSLaws k_wire id.
Proof.
  split.
  - intros c ->. split; [done|]. intros n _. apply Nat2Z.id.
  - intros s [|m msgs] k k' n err; simpl.
    + intros [= <- <- <-]. split; [by intros e|]. exists 0%nat. by rewrite app_nil_r.
    + destruct (_ && _); intros [= <- <- <-].
      * split; [intros e [= <-]; right; by eexists|]. exists 0%nat. rewrite app_nil_r. split; [lia|]. by split.
      * split; [by intros e|]. exists 1%nat. simpl. rewrite app_nil_r. split; [lia|]. split; [done|].
        intros _. split; [done|]. lia.
  - intros s m k k' err [= <- <-]. by split; [intros e|].
Qed.

Definition ip4 : bytes := map byte_of_Z [10; 0; 0; 1].
Definition ip6 : bytes := map byte_of_Z [32; 1; 13; 184; 0; 0; 0; 0; 0; 0; 0; 0; 0; 0; 0; 1].
Definition to4 : Endpoint := mkEndpoint (Addr4 ip4) 51820.
Definition to6 : Endpoint := mkEndpoint (Addr6 ip6 EmptyString) 51820.

(** A bind that is open on a system that segments, or does not, with or without
    IPv6. *)
Definition opened (segments_ has6 : bool) : @StdNetBind bool * Kernel :=
  fst (Open 51820 (NewStdNetBind, mkKernel [] segments_ has6 [])).

Definition two_bufs : list Buffer := map demo_buf [20; 20]%nat.

Lemma Send_wire_witness :
  k_wire (snd (fst (Send two_bufs to4 (opened true true)))) =
  [(false, Some (mkUDPAddr ip4 51820 EmptyString), replicate 20 Byte.x01);
   (false, Some (mkUDPAddr ip4 51820 EmptyString), replicate 20 Byte.x01)].
Proof.
  assert (Hr : snd (Send two_bufs to4 (opened true true)) = Returned None) by (vm_compute; reflexivity).
  pose proof (Send_wire k_wire id (opened true true) two_bufs to4 false true ip4) as H.
  destruct (Send two_bufs to4 (opened true true)) as [w' r]. simpl in Hr. subst r. apply H.
  - vm_compute. reflexivity.
  - reflexivity.
  - vm_compute. lia.
  - intros ip Hip. vm_compute in Hip. discriminate.
  - repeat constructor; vm_compute; (discriminate || lia).
  - vm_compute. lia.
Defined.

Definition incoming : @StdNetBind bool * Kernel :=
  (NewStdNetBind, mkKernel [] true true [demo_received; demo_empty]).


(** ** Findings *)

(** Where IPv6 is not supported, [Open] binds the IPv4 socket to the
    port it is asked for and reports port 0: the failed second listener has
    overwritten the port. *)
Theorem open_without_ipv6 :
  let '(w, (port, err)) := Open 51820 (@NewStdNetBind bool, mkKernel [] true false []) in
  err = None /\ ipv4 (fst w) = Some false /\ port = 0.
Proof. vm_compute. done. Qed.

(** The retry without offload reuses the messages of
    the attempt that failed, with their control data: on a device that cannot
    segment it is refused for the same reason, and the batch is lost. *)
Theorem retry_keeps_segment_size :
  let '(w, r) := Send two_bufs to4 (opened false true) in
  r = Returned (Some (ErrUDPGSODisabled (Some (ErrOS EIO)))) /\ k_wire (snd w) = [] /\
  let '(w, r) := Send two_bufs to4 w in
  r = Returned None /\ length (k_wire (snd w)) = 2%nat.
Proof. vm_compute. done. Qed.

(** An address buffer that was last used for IPv4 has
    length 4 when it comes back from the pool, so that only four bytes of an
    IPv6 address are copied: the datagram is sent to another address. *)
Theorem pooled_address_truncated :
  let w := fst (Send [demo_buf 20] to4 (opened true true)) in
  let '(w, r) := Send [demo_buf 20] to6 w in
  r = Returned None /\
  list.last (k_wire (snd w)) =
    Some (true, Some (mkUDPAddr (take 4 ip6 ++ zero_bytes 12) 51820 EmptyString), replicate 20 Byte.x01) /\
  take 4 ip6 ++ zero_bytes 12 <> ip6.
Proof. vm_compute. done. Qed.

End StdNetBind.
