(* ===== verification/IndexTable.v ===== *)
(** The index table of internal/transport/indextable.go: the map from the 32-bit
    receiver indices on the wire to the handshake or keypair they stand for. *)
From S2P Require Import Prelude Env Crypto State.
From stdpp Require Import prelude gmap list.
Open Scope Z_scope.

Module IndexTable.
Import Env.Env State.State.

(** [randUint32]: the value (arbitrary on an error) and whether it failed. *)
Definition randUint32 : M Env (Z * bool) :=
  let* (integer, failed) := rand_Read 4 in
  ret (le_get integer, failed).

Section Table.
Context {B S : Type}.
Abbreviation W := (Transport B S).

Definition upd_table (f : gmap Z IndexTableEntry -> gmap Z IndexTableEntry) : M W unit :=
  modify (fun t => set_t_indexTable (f (t_indexTable t)) t).

Definition table_Init : M W unit := upd_table (fun _ => ∅).

Definition table_Delete (index : Z) : M W unit := upd_table (delete index).

Definition SwapIndexForKeypair (index : Z) (keypair : KeypairId) : M W unit :=
  let* tb := gets t_indexTable in
  match tb !! index with
  | None => ret tt
  | Some entry => upd_table (insert index (mkIndexEntry (e_peer entry) None (Some keypair)))
  end.

(** The loop of [NewIndexForHandshake]: draw until the index is unused.  The
    second test under the write lock sees the table of the first one here. *)
Fixpoint new_index_loop (fuel : nat) (peer : PeerId) : M W (Z * option Error) :=
  match fuel with
  | O => modify (set_t_stuck true) ;;; ret (0, Some ErrFuel)
  | Datatypes.S fuel =>
      let* (index, failed) := on_env randUint32 in
      if failed then ret (index, Some ErrRand)
      else
        let* tb := gets t_indexTable in
        match tb !! index with
        | Some _ => new_index_loop fuel peer
        | None =>
            upd_table (insert index (mkIndexEntry (Some peer) (Some peer) None)) ;;;
            ret (index, None)
        end
  end.

(** Draws considered before the model gives up ([t_stuck]); the source draws on. *)
Definition index_fuel : nat := 64.

Definition NewIndexForHandshake (peer : PeerId) : M W (Z * option Error) :=
  new_index_loop index_fuel peer.

Definition table_Lookup (id : Z) : M W IndexTableEntry :=
  gets (fun t => default zeroIndexEntry (t_indexTable t !! id)).

(** A drawn index was unused and now stands for the handshake of the peer, and
    nothing but the environment and that entry changes; a working random source
    gives an index other than 0 unless the search is cut off. *)
Lemma new_index_spec fuel peer (t t' : W) index err :
  new_index_loop fuel peer t = (t', (index, err)) ->
  match err with
  | None => exists e, t_indexTable t !! index = None /\ rng e = rng (t_env t) /\
      (good_rng (rng (t_env t)) -> index <> 0) /\
      t' = set_t_indexTable (<[index := mkIndexEntry (Some peer) (Some peer) None]> (t_indexTable t))
             (set_t_env e t)
  | Some _ => exists e s, rng e = rng (t_env t) /\ (good_rng (rng (t_env t)) -> s = true) /\
      (t_stuck t = true -> s = true) /\ t' = set_t_stuck s (set_t_env e t)
  end.
Proof.
  revert t. induction fuel as [|fuel IH]; intros t.
  { intros [= <- <- <-]. exists (t_env t), true. by destruct t. }
  cbn [new_index_loop]. unfold bind at 1, on_env.
  assert (Hd : good_rng (rng (t_env t)) -> snd (snd (randUint32 (t_env t))) = false /\
                 fst (snd (randUint32 (t_env t))) <> 0).
  { intros Hg. destruct (Hg (draws (t_env t))) as [H1 H2]. revert H1 H2.
    unfold randUint32, bind, rand_Read. by destruct (rng (t_env t) (draws (t_env t))). }
  assert (Hk : keeps_rng randUint32) by (unfold randUint32; keeps_tac).
  specialize (Hk (t_env t)). destruct (randUint32 (t_env t)) as [e [i failed]]. simpl in Hk, Hd.
  destruct failed.
  { intros [= <- <- <-]. exists e, (t_stuck t). split; [done|]. split; [intros Hg; by destruct (Hd Hg)|].
    split; [done|by destruct t]. }
  unfold bind at 1, gets. simpl. destruct (t_indexTable t !! i) eqn:E.
  - intros H%IH. simpl in H. rewrite Hk in H. by destruct err.
  - intros [= <- <- <-]. exists e. split; [done|]. split; [done|]. split; [|done].
    intros Hg. by destruct (Hd Hg).
Qed.

End Table.
End IndexTable.
