(* ===== verification/Noise.v ===== *)
(** The Noise IKpsk2 handshake of internal/transport/noise-protocol.go and the
    keypairs of internal/transport/keypair.go: creating and consuming the two
    handshake messages, deriving the transport keys, rotating the keypairs. *)
From S2P Require Import Prelude Replay Tai64n Env Crypto Wire State IndexTable.
From stdpp Require Import prelude gmap list strings.
Open Scope Z_scope.

Module Noise.
Import Env.Env Crypto.Noise_helpers Wire.Wire State.State IndexTable.IndexTable.

Definition NoiseConstruction : bytes := string_bytes "Noise_IKpsk2_25519_ChaChaPoly_BLAKE2s".
Definition NoiseIdentifier : bytes := string_bytes "WireGuard v1 zx2c4 Jason@zx2c4.com".
Definition ZeroNonce : bytes := zero_bytes 12.

Section Handshake.
Context {C : Crypto} {B S : Type}.
Abbreviation W := (Transport B S).

Definition mixKey (c data : bytes) : bytes := KDF1 c data.
Definition mixHash (h data : bytes) : bytes := blake2s_256 (h ++ data).

(** [func init()]. *)
Definition InitialChainKey : bytes := blake2s_256 NoiseConstruction.
Definition InitialHash : bytes := mixHash InitialChainKey NoiseIdentifier.

(** The methods of [Handshake]. *)
Definition Clear (h : Handshake) : Handshake :=
  let h := set_hs_localEphemeral (setZero (hs_localEphemeral h)) h in
  let h := set_hs_remoteEphemeral (setZero (hs_remoteEphemeral h)) h in
  let h := set_hs_chainKey (setZero (hs_chainKey h)) h in
  let h := set_hs_hash (setZero (hs_hash h)) h in
  set_hs_state handshakeZeroed (set_hs_localIndex 0 h).
Definition h_mixHash (data : bytes) (h : Handshake) : Handshake :=
  set_hs_hash (mixHash (hs_hash h) data) h.
Definition h_mixKey (data : bytes) (h : Handshake) : Handshake :=
  set_hs_chainKey (mixKey (hs_chainKey h) data) h.

Definition get_handshake (p : PeerId) : M W Handshake := gets (fun t => p_handshake (peer_at t p)).

(** [DeleteKeypair] (keypair.go). *)
Definition DeleteKeypair (key : option KeypairId) : M W unit :=
  match key with
  | None => ret tt
  | Some k => let* kp := get_keypair k in table_Delete (kp_localIndex kp)
  end.

Definition CreateMessageInitiation (peer : PeerId) : M W (Error + MessageInitiation) :=
  (* create ephemeral key *)
  upd_handshake peer (fun h => set_hs_chainKey InitialChainKey (set_hs_hash InitialHash h)) ;;;
  let* (sk, failed) := on_env NewPrivateKey in
  upd_handshake peer (set_hs_localEphemeral sk) ;;;
  if failed then ret (inl ErrRand)
  else
    upd_handshake peer (fun h => h_mixHash (hs_remoteStatic h) h) ;;;
    let ephemeral := PublicKey sk in
    upd_handshake peer (h_mixKey ephemeral) ;;;
    upd_handshake peer (h_mixHash ephemeral) ;;;
    (* encrypt static key *)
    let* h := get_handshake peer in
    match sharedSecret (hs_localEphemeral h) (hs_remoteStatic h) with
    | None => ret (inl ErrInvalidPublicKey)
    | Some ss =>
        let '(chainKey, key) := KDF2 (hs_chainKey h) ss in
        upd_handshake peer (set_hs_chainKey chainKey) ;;;
        let* publicKey := gets t_publicKey in
        let static := aead_Seal key ZeroNonce publicKey (hs_hash h) in
        upd_handshake peer (h_mixHash static) ;;;
        (* encrypt timestamp *)
        let* h := get_handshake peer in
        if isZero (hs_precomputedStaticStatic h) then ret (inl ErrInvalidPublicKey)
        else
          let '(chainKey, key) := KDF2 (hs_chainKey h) (hs_precomputedStaticStatic h) in
          upd_handshake peer (set_hs_chainKey chainKey) ;;;
          let* t := now in
          let timestamp := aead_Seal key ZeroNonce (Tai64n.stamp t) (hs_hash h) in
          (* assign index *)
          table_Delete (hs_localIndex h) ;;;
          let* (sender, err) := NewIndexForHandshake peer in
          match err with
          | Some err => ret (inl err)
          | None =>
              upd_handshake peer (set_hs_localIndex sender) ;;;
              upd_handshake peer (h_mixHash timestamp) ;;;
              upd_handshake peer (set_hs_state handshakeInitiationCreated) ;;;
              ret (inr (mkInitiation MessageInitiationType sender ephemeral static timestamp
                          (zero_bytes 16) (zero_bytes 16)))
          end
    end.

(** [ConsumeMessageInitiation]; [None] is the nil peer. *)
Definition ConsumeMessageInitiation (msg : MessageInitiation) : M W (option PeerId) :=
  if negb (mi_Type msg =? MessageInitiationType) then ret None
  else
    let* publicKey := gets t_publicKey in
    let* privateKey := gets t_privateKey in
    let hash := mixHash InitialHash publicKey in
    let hash := mixHash hash (mi_Ephemeral msg) in
    let chainKey := mixKey InitialChainKey (mi_Ephemeral msg) in
    (* decrypt static key *)
    match sharedSecret privateKey (mi_Ephemeral msg) with
    | None => ret None
    | Some ss =>
        let '(chainKey, key) := KDF2 chainKey ss in
        match aead_Open key ZeroNonce (mi_Static msg) hash with
        | None => ret None
        | Some peerPK =>
            let hash := mixHash hash (mi_Static msg) in
            (* lookup peer *)
            let* keyMap := gets t_keyMap in
            match keyMap !! peerPK with
            | None => ret None
            | Some peer =>
                let* x := get_peer peer in
                if negb (p_isRunning x) then ret None
                else
                  (* verify identity *)
                  let h := p_handshake x in
                  if isZero (hs_precomputedStaticStatic h) then ret None
                  else
                    let '(chainKey, key) := KDF2 chainKey (hs_precomputedStaticStatic h) in
                    match aead_Open key ZeroNonce (mi_Timestamp msg) hash with
                    | None => ret None
                    | Some timestamp =>
                        let hash := mixHash hash (mi_Timestamp msg) in
                        (* protect against replay & flood *)
                        let replay := negb (Tai64n.After timestamp (hs_lastTimestamp h)) in
                        let* elapsed := since (hs_lastInitiationConsumption h) in
                        let flood := elapsed <=? HandshakeInitationRate in
                        if replay then ret None
                        else if flood then ret None
                        else
                          (* update handshake state *)
                          upd_handshake peer (set_hs_hash hash) ;;;
                          upd_handshake peer (set_hs_chainKey chainKey) ;;;
                          upd_handshake peer (set_hs_remoteIndex (mi_Sender msg)) ;;;
                          upd_handshake peer (set_hs_remoteEphemeral (mi_Ephemeral msg)) ;;;
                          upd_handshake peer (fun h =>
                            if Tai64n.After timestamp (hs_lastTimestamp h)
                            then set_hs_lastTimestamp timestamp h else h) ;;;
                          let* t := now in
                          upd_handshake peer (fun h =>
                            if hs_lastInitiationConsumption h <? t
                            then set_hs_lastInitiationConsumption t h else h) ;;;
                          upd_handshake peer (set_hs_state handshakeInitiationConsumed) ;;;
                          ret (Some peer)
                    end
            end
        end
    end.

Definition CreateMessageResponse (peer : PeerId) : M W (Error + MessageResponse) :=
  let* h := get_handshake peer in
  if negb (bool_decide (hs_state h = handshakeInitiationConsumed))
  then ret (inl ErrInitiationNotConsumed)
  else
    (* assign index *)
    table_Delete (hs_localIndex h) ;;;
    let* (localIndex, err) := NewIndexForHandshake peer in
    upd_handshake peer (set_hs_localIndex localIndex) ;;;
    match err with
    | Some err => ret (inl err)
    | None =>
        let receiver := hs_remoteIndex h in
        (* create ephemeral key *)
        let* (sk, failed) := on_env NewPrivateKey in
        upd_handshake peer (set_hs_localEphemeral sk) ;;;
        if failed then ret (inl ErrRand)
        else
          let ephemeral := PublicKey sk in
          upd_handshake peer (h_mixHash ephemeral) ;;;
          upd_handshake peer (h_mixKey ephemeral) ;;;
          match sharedSecret sk (hs_remoteEphemeral h) with
          | None => ret (inl ErrInvalidPublicKey)
          | Some ss =>
              upd_handshake peer (h_mixKey ss) ;;;
              match sharedSecret sk (hs_remoteStatic h) with
              | None => ret (inl ErrInvalidPublicKey)
              | Some ss =>
                  upd_handshake peer (h_mixKey ss) ;;;
                  (* add preshared key *)
                  let* h := get_handshake peer in
                  let '(chainKey, tau, key) := KDF3 (hs_chainKey h) (hs_presharedKey h) in
                  upd_handshake peer (set_hs_chainKey chainKey) ;;;
                  upd_handshake peer (h_mixHash tau) ;;;
                  let* h := get_handshake peer in
                  let empty := aead_Seal key ZeroNonce [] (hs_hash h) in
                  upd_handshake peer (h_mixHash empty) ;;;
                  upd_handshake peer (set_hs_state handshakeResponseCreated) ;;;
                  ret (inr (mkResponse MessageResponseType localIndex receiver ephemeral empty
                              (zero_bytes 16) (zero_bytes 16)))
              end
          end
    end.

(** The closure [ok := func() bool {...}()] of [ConsumeMessageResponse]: the
    new hash and chain key, or [None]. *)
Definition consume_response_keys (privateKey : bytes) (h : Handshake) (msg : MessageResponse)
  : option (bytes * bytes) :=
  if negb (bool_decide (hs_state h = handshakeInitiationCreated)) then None
  else
    (* finish 3-way DH *)
    let hash := mixHash (hs_hash h) (mr_Ephemeral msg) in
    let chainKey := mixKey (hs_chainKey h) (mr_Ephemeral msg) in
    match sharedSecret (hs_localEphemeral h) (mr_Ephemeral msg) with
    | None => None
    | Some ss =>
        let chainKey := mixKey chainKey ss in
        match sharedSecret privateKey (mr_Ephemeral msg) with
        | None => None
        | Some ss =>
            let chainKey := mixKey chainKey ss in
            (* add preshared key (psk) *)
            let '(chainKey, tau, key) := KDF3 chainKey (hs_presharedKey h) in
            let hash := mixHash hash tau in
            (* authenticate transcript *)
            match aead_Open key ZeroNonce (mr_Empty msg) hash with
            | None => None
            | Some _ => Some (mixHash hash (mr_Empty msg), chainKey)
            end
        end
    end.

Definition ConsumeMessageResponse (msg : MessageResponse) : M W (option PeerId) :=
  if negb (mr_Type msg =? MessageResponseType) then ret None
  else
    (* lookup handshake by receiver *)
    let* lookup := table_Lookup (mr_Receiver msg) in
    match e_handshake lookup with
    | None => ret None
    | Some peer =>
        let* h := get_handshake peer in
        let* privateKey := gets t_privateKey in
        match consume_response_keys privateKey h msg with
        | None => ret None
        | Some (hash, chainKey) =>
            (* update handshake state *)
            upd_handshake peer (set_hs_hash hash) ;;;
            upd_handshake peer (set_hs_chainKey chainKey) ;;;
            upd_handshake peer (set_hs_remoteIndex (mr_Sender msg)) ;;;
            upd_handshake peer (set_hs_state handshakeResponseConsumed) ;;;
            ret (e_peer lookup)
        end
    end.

(** The keys [BeginSymmetricSession] derives: (isInitiator, sendKey, recvKey). *)
Definition session_keys (h : Handshake) : option (bool * bytes * bytes) :=
  if bool_decide (hs_state h = handshakeResponseConsumed) then
    let '(sendKey, recvKey) := KDF2 (hs_chainKey h) [] in Some (true, sendKey, recvKey)
  else if bool_decide (hs_state h = handshakeResponseCreated) then
    let '(recvKey, sendKey) := KDF2 (hs_chainKey h) [] in Some (false, sendKey, recvKey)
  else None.

(** Allocating a keypair: [keypair := new(Keypair)] with its fields. *)
Definition new_keypair (kp : Keypair) : M W KeypairId :=
  let* k := fresh in
  modify (fun t => set_t_keypairs (<[k := kp]> (t_keypairs t)) t) ;;;
  ret k.

(** The rotation at the end of [BeginSymmetricSession]. *)
Definition rotate_keypairs (peer : PeerId) (isInitiator : bool) (keypair : KeypairId) : M W unit :=
  let* x := get_peer peer in
  let kps := p_keypairs x in
  if isInitiator then
    match next kps with
    | Some n =>
        upd_peer peer (set_p_keypairs (mkKeypairs (current kps) (Some n) None)) ;;;
        DeleteKeypair (current kps)
    | None =>
        upd_peer peer (set_p_keypairs (mkKeypairs (current kps) (current kps) None))
    end ;;;
    DeleteKeypair (previous kps) ;;;
    upd_peer peer (fun x => set_p_keypairs
      (mkKeypairs (Some keypair) (previous (p_keypairs x)) (next (p_keypairs x))) x)
  else
    upd_peer peer (set_p_keypairs (mkKeypairs (current kps) (previous kps) (Some keypair))) ;;;
    DeleteKeypair (next kps) ;;;
    upd_peer peer (set_p_keypairs (mkKeypairs (current kps) None (Some keypair))) ;;;
    DeleteKeypair (previous kps).

Definition BeginSymmetricSession (peer : PeerId) : M W (option Error) :=
  let* h := get_handshake peer in
  (* derive keys *)
  match session_keys h with
  | None => ret (Some (ErrInvalidState (hs_state h)))
  | Some (isInitiator, sendKey, recvKey) =>
      (* zero handshake *)
      upd_handshake peer (fun h => set_hs_chainKey (setZero (hs_chainKey h)) h) ;;;
      upd_handshake peer (fun h => set_hs_hash (setZero (hs_hash h)) h) ;;;
      upd_handshake peer (fun h => set_hs_localEphemeral (setZero (hs_localEphemeral h)) h) ;;;
      upd_handshake peer (set_hs_state handshakeZeroed) ;;;
      (* create AEAD instances *)
      let* created := now in
      let* keypair := new_keypair
        (mkKeypair 0 sendKey recvKey (Replay.Reset Replay.zeroFilter) isInitiator created
           (hs_localIndex h) (hs_remoteIndex h)) in
      (* remap index *)
      SwapIndexForKeypair (hs_localIndex h) keypair ;;;
      upd_handshake peer (set_hs_localIndex 0) ;;;
      (* rotate key pairs *)
      rotate_keypairs peer isInitiator keypair ;;;
      ret None
  end.

(** [ReceivedWithKeypair]; the test before taking the lock is the same test. *)
Definition ReceivedWithKeypair (peer : PeerId) (receivedKeypair : KeypairId) : M W bool :=
  let* x := get_peer peer in
  let kps := p_keypairs x in
  if negb (bool_decide (next kps = Some receivedKeypair)) then ret false
  else
    let old := previous kps in
    upd_peer peer (set_p_keypairs (mkKeypairs (current kps) (current kps) (next kps))) ;;;
    DeleteKeypair old ;;;
    upd_peer peer (set_p_keypairs (mkKeypairs (next kps) (current kps) None)) ;;;
    ret true.

(** ** Running the handlers step by step *)

Lemma on_env_run {A} (m : M Env A) (t : W) :
  on_env m t = (set_t_env (fst (m (t_env t))) t, snd (m (t_env t))).
Proof. unfold on_env. by destruct (m (t_env t)). Qed.
Lemma bind_on_env {A D} (m : M Env A) (k : A -> M W D) (t : W) :
  bind (on_env m) k t = k (snd (m (t_env t))) (set_t_env (fst (m (t_env t))) t).
Proof. unfold bind. by rewrite on_env_run. Qed.
Lemma bind_now {D} (k : Time -> M W D) (t : W) :
  bind now k t = k (clock (t_env t) (ticks (t_env t))) (set_t_env (fst (time_Now (t_env t))) t).
Proof. done. Qed.
Lemma bind_since {D} (u : Time) (k : Duration -> M W D) (t : W) :
  bind (since u) k t = k (time_Sub (clock (t_env t) (ticks (t_env t))) u)
                         (set_t_env (fst (time_Now (t_env t))) t).
Proof. done. Qed.
Lemma bind_upd_handshake {D} p f (k : unit -> M W D) (t : W) :
  bind (upd_handshake p f) k t = k tt (put_handshake p f t).
Proof. done. Qed.
Lemma bind_upd_peer {D} p f (k : unit -> M W D) (t : W) :
  bind (upd_peer p f) k t = k tt (put_peer p f t).
Proof. done. Qed.
Lemma bind_get_handshake {D} p (k : Handshake -> M W D) (t : W) :
  bind (get_handshake p) k t = k (p_handshake (peer_at t p)) t.
Proof. done. Qed.
Lemma bind_get_peer {D} p (k : Peer -> M W D) (t : W) :
  bind (get_peer p) k t = k (peer_at t p) t.
Proof. done. Qed.
Lemma bind_gets {A D} (f : W -> A) (k : A -> M W D) (t : W) : bind (gets f) k t = k (f t) t.
Proof. done. Qed.
Lemma bind_ret {A D} (a : A) (k : A -> M W D) (t : W) : bind (ret a) k t = k a t.
Proof. done. Qed.
Lemma bind_table_Delete {D} i (k : unit -> M W D) (t : W) :
  bind (table_Delete i) k t = k tt (set_t_indexTable (delete i (t_indexTable t)) t).
Proof. done. Qed.
Lemma bind_table_Lookup {D} i (k : IndexTableEntry -> M W D) (t : W) :
  bind (table_Lookup i) k t = k (default zeroIndexEntry (t_indexTable t !! i)) t.
Proof. done. Qed.

End Handshake.

Create Rewrite HintDb run.
#[export] Hint Rewrite @bind_on_env @bind_now @bind_since @bind_upd_handshake @bind_upd_peer
  @bind_get_handshake @bind_get_peer @bind_gets @bind_ret @bind_table_Delete
  @bind_table_Lookup : run.

(** Reads fields of updated handshakes and peers. *)
Ltac hs_simpl :=
  cbn [hs_state hs_hash hs_chainKey hs_presharedKey hs_localEphemeral hs_localIndex
       hs_remoteIndex hs_remoteStatic hs_remoteEphemeral hs_precomputedStaticStatic
       hs_lastTimestamp hs_lastInitiationConsumption hs_lastSentHandshake
       set_hs_state set_hs_hash set_hs_chainKey set_hs_presharedKey set_hs_localEphemeral
       set_hs_localIndex set_hs_remoteIndex set_hs_remoteStatic set_hs_remoteEphemeral
       set_hs_precomputedStaticStatic set_hs_lastTimestamp set_hs_lastInitiationConsumption
       set_hs_lastSentHandshake p_handshake set_p_handshake h_mixHash h_mixKey] in *.

(** One stretch of a run: the state is threaded, the heap is read. *)
Ltac mrun := autorewrite with run in *; autorewrite with heap in *; hs_simpl.

End Noise.
