(* ===== verification/Agreement.v ===== *)
(** Correctness of the handshake: the code of the two sides computes one Noise
    IKpsk2 transcript, so that a handshake between two transports configured
    for each other completes and gives both sides the same transport keys. *)
From S2P Require Import Prelude Replay Tai64n Env Crypto Wire State Demo IndexTable Noise.
From stdpp Require Import prelude gmap list strings.
Open Scope Z_scope.

Module Agreement.
Import Env.Env Crypto.Noise_helpers Wire.Wire State.State IndexTable.IndexTable Noise.Noise.

(** ** The transcript

    The message patterns "e, es, s, ss" and "e, ee, se, psk" of Noise IKpsk2 as
    functions of the inputs both sides share. *)

Record Transcript1 := mkT1 {
  t1_key_static : bytes;
  t1_ad_static : bytes;
  t1_key_timestamp : bytes;
  t1_ad_timestamp : bytes;
  t1_hash : bytes;
  t1_chainKey : bytes;
}.

Record Transcript2 := mkT2 {
  t2_key : bytes;
  t2_ad : bytes;
  t2_hash : bytes;
  t2_chainKey : bytes;
}.

Section Spec.
Context {C : Crypto}.

Definition transcript1 (responder ephemeral es ss static timestamp : bytes) : Transcript1 :=
  let h1 := mixHash (mixHash InitialHash responder) ephemeral in
  let c1 := mixKey InitialChainKey ephemeral in
  let '(c2, k1) := KDF2 c1 es in
  let h2 := mixHash h1 static in
  let '(c3, k2) := KDF2 c2 ss in
  mkT1 k1 h1 k2 h2 (mixHash h2 timestamp) c3.

Definition transcript2 (hash chainKey ephemeral ee se psk empty : bytes) : Transcript2 :=
  let h1 := mixHash hash ephemeral in
  let c3 := mixKey (mixKey (mixKey chainKey ephemeral) ee) se in
  let '(c4, tau, k) := KDF3 c3 psk in
  let h2 := mixHash h1 tau in
  mkT2 k h2 (mixHash h2 empty) c4.

End Spec.

(** ** What each handler does when it succeeds *)

Section Runs.
Context {C : Crypto} {L : CryptoLaws} {B S : Type}.
Abbreviation W := (Transport B S).

Lemma NewPrivateKey_clock e :
  ticks e = ticks (fst (NewPrivateKey e)) /\ clock e = clock (fst (NewPrivateKey e)).
Proof. unfold NewPrivateKey, bind, rand_Read. by destruct (rng e (draws e)). Qed.

(** A created initiation: the message and the handshake follow the transcript. *)
Lemma CreateMessageInitiation_run peer (t t' : W) msg :
  CreateMessageInitiation peer t = (t', inr msg) ->
  let h := p_handshake (peer_at t peer) in
  let h' := p_handshake (peer_at t' peer) in
  exists sk es, let ts := clock (t_env t) (ticks (t_env t)) in
    length sk = 32%nat /\ sharedSecret sk (hs_remoteStatic h) = Some es /\
    isZero (hs_precomputedStaticStatic h) = false /\
    let T := transcript1 (hs_remoteStatic h) (PublicKey sk) es (hs_precomputedStaticStatic h)
               (mi_Static msg) (mi_Timestamp msg) in
    mi_Type msg = MessageInitiationType /\ mi_Ephemeral msg = PublicKey sk /\
    mi_Static msg = aead_Seal (t1_key_static T) ZeroNonce (t_publicKey t) (t1_ad_static T) /\
    mi_Timestamp msg =
      aead_Seal (t1_key_timestamp T) ZeroNonce (Tai64n.stamp ts) (t1_ad_timestamp T) /\
    hs_hash h' = t1_hash T /\ hs_chainKey h' = t1_chainKey T /\
    hs_localEphemeral h' = sk /\ hs_state h' = handshakeInitiationCreated /\
    hs_localIndex h' = mi_Sender msg /\ hs_presharedKey h' = hs_presharedKey h /\
    t_indexTable t' !! mi_Sender msg = Some (mkIndexEntry (Some peer) (Some peer) None) /\
    t_privateKey t' = t_privateKey t.
Proof.
  intros H. unfold CreateMessageInitiation in H. mrun.
  pose proof (length_NewPrivateKey (t_env t)) as Hlen.
  destruct (snd (NewPrivateKey (t_env t))) as [sk failed] eqn:Hsk. simpl in Hlen.
  mrun. destruct failed; [discriminate|]. mrun.
  destruct (sharedSecret sk (hs_remoteStatic (p_handshake (peer_at t peer)))) as [es|] eqn:Hes;
    [|discriminate].
  destruct (KDF2 (mixKey InitialChainKey (PublicKey sk)) es) as [c2 k1] eqn:Hk1. mrun.
  destruct (isZero (hs_precomputedStaticStatic (p_handshake (peer_at t peer)))) eqn:Hz;
    [discriminate|].
  destruct (KDF2 c2 (hs_precomputedStaticStatic (p_handshake (peer_at t peer)))) as [c3 k2] eqn:Hk2.
  mrun.
  unfold bind at 1 in H. unfold NewIndexForHandshake in H.
  destruct (new_index_loop _ _ _) as [t1 [sender [err|]]] eqn:Hi; [discriminate|].
  apply new_index_spec in Hi as (e & Hfree & _ & _ & ->). mrun.
  injection H as <- <-. mrun.
  exists sk, es. unfold transcript1. cbn [mi_Static mi_Timestamp mi_Type mi_Ephemeral mi_Sender].
  rewrite Hk1, Hk2. cbn [t1_key_static t1_ad_static t1_key_timestamp t1_ad_timestamp t1_hash t1_chainKey].
  replace (ticks (fst (NewPrivateKey (t_env t)))) with (ticks (t_env t)) by apply NewPrivateKey_clock.
  replace (clock (fst (NewPrivateKey (t_env t)))) with (clock (t_env t)) by apply NewPrivateKey_clock.
  repeat split; auto. apply lookup_insert_eq.
Qed.

(** An initiation that follows the transcript, from a running peer, newer than
    the last one and not too soon after it, is consumed. *)
Lemma ConsumeMessageInitiation_run (t : W) msg peer es peerPK ts :
  let h := p_handshake (peer_at t peer) in
  let T := transcript1 (t_publicKey t) (mi_Ephemeral msg) es (hs_precomputedStaticStatic h)
             (mi_Static msg) (mi_Timestamp msg) in
  mi_Type msg = MessageInitiationType ->
  sharedSecret (t_privateKey t) (mi_Ephemeral msg) = Some es ->
  aead_Open (t1_key_static T) ZeroNonce (mi_Static msg) (t1_ad_static T) = Some peerPK ->
  t_keyMap t !! peerPK = Some peer -> p_isRunning (peer_at t peer) = true ->
  isZero (hs_precomputedStaticStatic h) = false ->
  aead_Open (t1_key_timestamp T) ZeroNonce (mi_Timestamp msg) (t1_ad_timestamp T) = Some ts ->
  Tai64n.After ts (hs_lastTimestamp h) = true ->
  HandshakeInitationRate < time_Sub (clock (t_env t) (ticks (t_env t))) (hs_lastInitiationConsumption h) ->
  exists t', ConsumeMessageInitiation msg t = (t', Some peer) /\
    let h' := p_handshake (peer_at t' peer) in
    hs_hash h' = t1_hash T /\ hs_chainKey h' = t1_chainKey T /\
    hs_remoteIndex h' = mi_Sender msg /\ hs_remoteEphemeral h' = mi_Ephemeral msg /\
    hs_state h' = handshakeInitiationConsumed /\ hs_remoteStatic h' = hs_remoteStatic h /\
    hs_presharedKey h' = hs_presharedKey h /\ hs_lastTimestamp h' = ts.
Proof.
  intros h T Hty Hes Hopen Hmap Hrun Hz Hts Hnew Hflood. subst T. unfold transcript1 in *.
  unfold ConsumeMessageInitiation. rewrite Hty, Z.eqb_refl. cbn [negb].
  destruct (KDF2 (mixKey InitialChainKey (mi_Ephemeral msg)) es) as [c2 k1] eqn:Hk1.
  destruct (KDF2 c2 (hs_precomputedStaticStatic h)) as [c3 k2] eqn:Hk2.
  cbn [t1_key_static t1_ad_static t1_key_timestamp t1_ad_timestamp t1_hash t1_chainKey] in *.
  mrun. rewrite Hes, Hk1, Hopen. mrun. rewrite Hmap. mrun. rewrite Hrun. cbn [negb].
  fold h. rewrite Hz, Hk2, Hts. mrun. rewrite Hnew. cbn [negb].
  rewrite (proj2 (Z.leb_gt _ _) Hflood). mrun.
  eexists. split; [reflexivity|]. mrun. fold h. rewrite Hnew.
  destruct (_ <? _); hs_simpl; by repeat split.
Qed.

(** A created response: the message and the handshake follow the transcript. *)
Lemma CreateMessageResponse_run peer (t t' : W) msg :
  CreateMessageResponse peer t = (t', inr msg) ->
  let h := p_handshake (peer_at t peer) in
  let h' := p_handshake (peer_at t' peer) in
  exists sk ee se,
    length sk = 32%nat /\ sharedSecret sk (hs_remoteEphemeral h) = Some ee /\
    sharedSecret sk (hs_remoteStatic h) = Some se /\
    let T := transcript2 (hs_hash h) (hs_chainKey h) (PublicKey sk) ee se (hs_presharedKey h)
               (mr_Empty msg) in
    mr_Type msg = MessageResponseType /\ mr_Ephemeral msg = PublicKey sk /\
    mr_Receiver msg = hs_remoteIndex h /\
    mr_Empty msg = aead_Seal (t2_key T) ZeroNonce [] (t2_ad T) /\
    hs_hash h' = t2_hash T /\ hs_chainKey h' = t2_chainKey T /\
    hs_localIndex h' = mr_Sender msg /\ hs_remoteIndex h' = hs_remoteIndex h /\
    hs_state h' = handshakeResponseCreated.
Proof.
  intros H. unfold CreateMessageResponse in H. mrun.
  case_bool_decide as Hst; [|discriminate]. cbn [negb] in H. mrun.
  unfold bind at 1 in H. unfold NewIndexForHandshake in H.
  destruct (new_index_loop _ _ _) as [t1 [sender [err|]]] eqn:Hi; [mrun; discriminate|].
  apply new_index_spec in Hi as (e & Hfree & _ & _ & ->). mrun.
  match type of H with context [NewPrivateKey ?env] => set (e1 := env) in H end.
  pose proof (length_NewPrivateKey e1) as Hlen.
  destruct (snd (NewPrivateKey e1)) as [sk failed] eqn:Hsk. simpl in Hlen.
  mrun. destruct failed; [discriminate|]. mrun.
  destruct (sharedSecret sk (hs_remoteEphemeral (p_handshake (peer_at t peer)))) as [ee|] eqn:Hee;
    [|discriminate].
  mrun. destruct (sharedSecret sk (hs_remoteStatic (p_handshake (peer_at t peer)))) as [se|] eqn:Hse;
    [|discriminate].
  mrun. destruct (KDF3 _ _) as [[c4 tau] k] eqn:Hk. mrun.
  injection H as <- <-. mrun.
  exists sk, ee, se. unfold transcript2.
  cbn [mr_Type mr_Sender mr_Receiver mr_Ephemeral mr_Empty].
  rewrite Hk. cbn [t2_key t2_ad t2_hash t2_chainKey]. by repeat split.
Qed.

(** A response that follows the transcript is consumed. *)
Lemma ConsumeMessageResponse_run (t : W) msg peer ee se pt :
  let h := p_handshake (peer_at t peer) in
  let T := transcript2 (hs_hash h) (hs_chainKey h) (mr_Ephemeral msg) ee se (hs_presharedKey h)
             (mr_Empty msg) in
  mr_Type msg = MessageResponseType ->
  t_indexTable t !! mr_Receiver msg = Some (mkIndexEntry (Some peer) (Some peer) None) ->
  hs_state h = handshakeInitiationCreated ->
  sharedSecret (hs_localEphemeral h) (mr_Ephemeral msg) = Some ee ->
  sharedSecret (t_privateKey t) (mr_Ephemeral msg) = Some se ->
  aead_Open (t2_key T) ZeroNonce (mr_Empty msg) (t2_ad T) = Some pt ->
  exists t', ConsumeMessageResponse msg t = (t', Some peer) /\
    let h' := p_handshake (peer_at t' peer) in
    hs_hash h' = t2_hash T /\ hs_chainKey h' = t2_chainKey T /\
    hs_remoteIndex h' = mr_Sender msg /\ hs_localIndex h' = hs_localIndex h /\
    hs_state h' = handshakeResponseConsumed.
Proof.
  intros h T Hty Htab Hst Hee Hse Hopen. subst T. unfold transcript2 in *.
  unfold ConsumeMessageResponse. rewrite Hty, Z.eqb_refl. cbn [negb].
  mrun. rewrite Htab. cbn [from_option id e_handshake e_peer]. mrun.
  unfold consume_response_keys. fold h. rewrite (bool_decide_true _ Hst). cbn [negb].
  rewrite Hee, Hse. destruct (KDF3 _ _) as [[c4 tau] k] eqn:Hk.
  cbn [t2_key t2_ad t2_hash t2_chainKey] in *. rewrite Hopen. mrun.
  eexists. split; [reflexivity|]. mrun. by repeat split.
Qed.

Lemma DeleteKeypair_run key (t : W) :
  exists tb, DeleteKeypair key t = (set_t_indexTable tb t, tt).
Proof.
  destruct key as [k|]; [by eexists|]. exists (t_indexTable t). by destruct t.
Qed.

(** Rotation puts the new keypair in its slot and allocates nothing. *)
Lemma rotate_keypairs_run peer isInitiator k (t : W) :
  exists t', rotate_keypairs peer isInitiator k t = (t', tt) /\
    t_keypairs t' = t_keypairs t /\
    (if isInitiator then current (p_keypairs (peer_at t' peer))
     else next (p_keypairs (peer_at t' peer))) = Some k.
Proof.
  unfold rotate_keypairs. rewrite bind_get_peer. set (kps := p_keypairs (peer_at t peer)).
  destruct isInitiator.
  - match goal with |- context [bind ?m _ t] =>
      assert (Hm : exists tb kps', m t = (set_t_indexTable tb (put_peer peer (set_p_keypairs kps') t), tt))
    end.
    { destruct (next kps) as [n|]; [rewrite bind_upd_peer|].
      - match goal with |- context [DeleteKeypair ?k ?s] =>
          destruct (DeleteKeypair_run k s) as [tb ->] end.
        by do 2 eexists.
      - exists (t_indexTable t). eexists. unfold upd_peer, modify. f_equal. }
    destruct Hm as (tb & kps' & Hm). unfold bind at 1. rewrite Hm. unfold bind.
    match goal with |- context [DeleteKeypair ?k ?s] =>
      destruct (DeleteKeypair_run k s) as [tb2 ->] end.
    eexists. split; [reflexivity|]. split; [done|]. by autorewrite with heap.
  - rewrite bind_upd_peer. unfold bind at 1.
    match goal with |- context [DeleteKeypair ?k ?s] =>
      destruct (DeleteKeypair_run k s) as [tb2 ->] end.
    rewrite bind_upd_peer.
    match goal with |- context [DeleteKeypair ?k ?s] =>
      destruct (DeleteKeypair_run k s) as [tb3 ->] end.
    eexists. split; [reflexivity|]. split; [done|]. by autorewrite with heap.
Qed.

Lemma SwapIndexForKeypair_run index k (t : W) :
  exists tb, SwapIndexForKeypair index k t = (set_t_indexTable tb t, tt).
Proof.
  unfold SwapIndexForKeypair. rewrite bind_gets.
  destruct (t_indexTable t !! index); [by eexists|]. exists (t_indexTable t). by destruct t.
Qed.

(** The session of a peer whose handshake is complete: a new keypair with the
    derived keys and the two indices, current for the initiator, next for the
    responder. *)
Lemma BeginSymmetricSession_run peer (t : W) isInitiator sendKey recvKey :
  let h := p_handshake (peer_at t peer) in
  session_keys h = Some (isInitiator, sendKey, recvKey) ->
  exists t' k, BeginSymmetricSession peer t = (t', None) /\
    (if isInitiator then current (p_keypairs (peer_at t' peer))
     else next (p_keypairs (peer_at t' peer))) = Some k /\
    keypair_at t' k =
      mkKeypair 0 sendKey recvKey (Replay.Reset Replay.zeroFilter) isInitiator
        (clock (t_env t) (ticks (t_env t))) (hs_localIndex h) (hs_remoteIndex h).
Proof.
  intros h Hk. unfold BeginSymmetricSession. mrun. fold h. rewrite Hk. mrun.
  unfold new_keypair, fresh, modify, ret. unfold bind at 1 2 3. cbn [fst snd].
  set (kp := mkKeypair _ _ _ _ _ _ _ _). set (k := t_fresh _). set (t1 := set_t_keypairs _ _).
  assert (Hkp : keypair_at t1 k = kp) by (unfold keypair_at, t1; simpl; by rewrite lookup_insert_eq).
  destruct (SwapIndexForKeypair_run (hs_localIndex h) k t1) as [tb Hsw].
  unfold bind at 1. rewrite Hsw. mrun. unfold bind at 1.
  match goal with |- context [rotate_keypairs ?p ?i ?j ?s] =>
    destruct (rotate_keypairs_run p i j s) as (t' & -> & Hks & Hslot) end.
  exists t', k. split; [done|]. split; [done|].
  unfold keypair_at in *. by rewrite Hks.
Qed.

End Runs.

(** ** The two sides *)

Section Agree.
Context {C : Crypto} {L : CryptoLaws} {B S B' S' : Type}.

(** [configured tI pI tR pR]: [pI] in [tI] and [pR] in [tR] stand for each
    other, as [SetPrivateKey] and [NewPeer] leave them. *)
Record configured (tI : Transport B S) (pI : PeerId) (tR : Transport B' S') (pR : PeerId) : Prop := {
  cf_skI : length (t_privateKey tI) = 32%nat;
  cf_skR : length (t_privateKey tR) = 32%nat;
  cf_pkI : t_publicKey tI = PublicKey (t_privateKey tI);
  cf_pkR : t_publicKey tR = PublicKey (t_privateKey tR);
  cf_remoteI : hs_remoteStatic (p_handshake (peer_at tI pI)) = t_publicKey tR;
  cf_remoteR : hs_remoteStatic (p_handshake (peer_at tR pR)) = t_publicKey tI;
  cf_ssI : hs_precomputedStaticStatic (p_handshake (peer_at tI pI)) =
           default (zero_bytes 32) (sharedSecret (t_privateKey tI) (t_publicKey tR));
  cf_ssR : hs_precomputedStaticStatic (p_handshake (peer_at tR pR)) =
           default (zero_bytes 32) (sharedSecret (t_privateKey tR) (t_publicKey tI));
  cf_psk : hs_presharedKey (p_handshake (peer_at tI pI)) =
           hs_presharedKey (p_handshake (peer_at tR pR));
  cf_keyMap : t_keyMap tR !! t_publicKey tI = Some pR;
  cf_running : p_isRunning (peer_at tR pR) = true;
}.

Lemma configured_ss tI pI tR pR :
  configured tI pI tR pR ->
  hs_precomputedStaticStatic (p_handshake (peer_at tR pR)) =
  hs_precomputedStaticStatic (p_handshake (peer_at tI pI)).
Proof.
  intros Hc. rewrite (cf_ssI _ _ _ _ Hc), (cf_ssR _ _ _ _ Hc), (cf_pkI _ _ _ _ Hc), (cf_pkR _ _ _ _ Hc).
  by rewrite (sharedSecret_agree _ _ (cf_skR _ _ _ _ Hc) (cf_skI _ _ _ _ Hc)).
Qed.

(** ** Properties *)

(** C1. The handshake is correct end to end: an initiation that one side
    creates is consumed by the side it is meant for (when its timestamp is newer
    than the last one and it does not come too soon after it); a response the
    responder then creates is consumed by the initiator; and both sides begin a
    session in which what one sends with is what the other receives with, and
    each one's receiver index is the other's local index. *)
Theorem handshake_agreement (tI tI1 : Transport B S) pI (tR : Transport B' S') pR m1 :
  configured tI pI tR pR ->
  CreateMessageInitiation pI tI = (tI1, inr m1) ->
  Tai64n.After (Tai64n.stamp (clock (t_env tI) (ticks (t_env tI))))
    (hs_lastTimestamp (p_handshake (peer_at tR pR))) = true ->
  HandshakeInitationRate < time_Sub (clock (t_env tR) (ticks (t_env tR)))
    (hs_lastInitiationConsumption (p_handshake (peer_at tR pR))) ->
  exists tR1, ConsumeMessageInitiation m1 tR = (tR1, Some pR) /\
  forall tR2 m2, CreateMessageResponse pR tR1 = (tR2, inr m2) ->
  exists tI2, ConsumeMessageResponse m2 tI1 = (tI2, Some pI) /\
  exists tI3 kI tR3 kR,
    BeginSymmetricSession pI tI2 = (tI3, None) /\ BeginSymmetricSession pR tR2 = (tR3, None) /\
    current (p_keypairs (peer_at tI3 pI)) = Some kI /\
    next (p_keypairs (peer_at tR3 pR)) = Some kR /\
    kp_send (keypair_at tI3 kI) = kp_receive (keypair_at tR3 kR) /\
    kp_receive (keypair_at tI3 kI) = kp_send (keypair_at tR3 kR) /\
    kp_localIndex (keypair_at tI3 kI) = kp_remoteIndex (keypair_at tR3 kR) /\
    kp_remoteIndex (keypair_at tI3 kI) = kp_localIndex (keypair_at tR3 kR).
Proof.
  intros Hc Hcreate Hnew Hflood. pose proof (configured_ss _ _ _ _ Hc) as Hss.
  apply CreateMessageInitiation_run in Hcreate
    as (sk & es & Hsk & Hes & Hz & Hty & He & Hst & Hts & Hh & Hck & Hle & Hs & Hli & Hpsk & Htab & Hpriv).
  rewrite (cf_remoteI _ _ _ _ Hc) in *.
  assert (Hes' : sharedSecret (t_privateKey tR) (mi_Ephemeral m1) = Some es).
  { rewrite He, <- Hes, (cf_pkR _ _ _ _ Hc). apply sharedSecret_agree; [apply Hc|done]. }
  rewrite <- He, <- Hss in *.
  destruct (ConsumeMessageInitiation_run tR m1 pR es (t_publicKey tI)
              (Tai64n.stamp (clock (t_env tI) (ticks (t_env tI)))))
    as (tR1 & HtR1 & Rh & Rck & Rri & Rre & Rst & Rrs & Rpsk & _); try done; try apply Hc.
  { rewrite Hst at 2. apply aead_Open_Seal. }
  { rewrite Hts at 2. apply aead_Open_Seal. }
  exists tR1. split; [done|]. intros tR2 m2 Hresp.
  apply CreateMessageResponse_run in Hresp
    as (sk2 & ee & se & Hsk2 & Hee & Hse & Hty2 & He2 & Hrcv & Hem & R2h & R2ck & R2li & R2ri & R2st).
  rewrite Rre, He in Hee. rewrite Rrs, (cf_remoteR _ _ _ _ Hc), (cf_pkI _ _ _ _ Hc) in Hse.
  rewrite Rri in *. rewrite Rh, Rck, Rpsk, <- (cf_psk _ _ _ _ Hc), <- Hpsk, <- Hh, <- Hck, <- He2 in *.
  destruct (ConsumeMessageResponse_run tI1 m2 pI ee se []) as (tI2 & HtI2 & _ & Ick & Iri & Ili & Ist);
    try done.
  { by rewrite Hrcv. }
  { rewrite Hle, He2, <- Hee. by apply sharedSecret_agree. }
  { rewrite Hpriv, He2, <- Hse. apply sharedSecret_agree; [apply Hc|done]. }
  { rewrite Hem at 2. apply aead_Open_Seal. }
  exists tI2. split; [done|].
  destruct (KDF2 (hs_chainKey (p_handshake (peer_at tI2 pI))) []) as [s r] eqn:Hkeys.
  destruct (BeginSymmetricSession_run pI tI2 true s r) as (tI3 & kI & HI & HIk & HIkp).
  { unfold session_keys. by rewrite bool_decide_true, Hkeys. }
  destruct (BeginSymmetricSession_run pR tR2 false r s) as (tR3 & kR & HR & HRk & HRkp).
  { unfold session_keys. rewrite bool_decide_false by (rewrite R2st; done).
    rewrite bool_decide_true by done. by rewrite R2ck, <- Ick, Hkeys. }
  exists tI3, kI, tR3, kR. rewrite HIkp, HRkp. cbn [kp_send kp_receive kp_localIndex kp_remoteIndex].
  repeat split; try done; congruence.
Qed.

End Agree.

(** ** A concrete handshake *)

#[local] Existing Instance Toy.toy_crypto.
#[local] Existing Instance Toy.toy_laws.

Definition demoI : Demo.W := Demo.demo_transport 3 (Demo.demo_env_at 1000) 5.
Definition demoR : Demo.W := Demo.demo_transport 5 (Demo.demo_env_at 1001) 3.
Definition is_inr {A D} (x : A + D) : bool := match x with inr _ => true | inl _ => false end.

Lemma handshake_agreement_witness :
  exists tI1 m1 tR1 tR2 m2 tI2,
    CreateMessageInitiation 0 demoI = (tI1, inr m1) /\
    ConsumeMessageInitiation m1 demoR = (tR1, Some 0%nat) /\
    CreateMessageResponse 0 tR1 = (tR2, inr m2) /\
    ConsumeMessageResponse m2 tI1 = (tI2, Some 0%nat).
Proof.
  assert (Hdone : match snd (CreateMessageInitiation 0 demoI) with
    | inr m1 => is_inr (snd (CreateMessageResponse 0 (fst (ConsumeMessageInitiation m1 demoR))))
    | inl _ => false end = true) by (vm_compute; reflexivity).
  pose proof (fun tI1 m1 E => handshake_agreement demoI tI1 0 demoR 0 m1
    ltac:(constructor; vm_compute; reflexivity) E
    ltac:(vm_compute; reflexivity) ltac:(vm_compute; reflexivity)) as Hagree.
  destruct (CreateMessageInitiation 0 demoI) as [tI1 [err|m1]]; cbn [snd] in Hdone;
    [discriminate Hdone|].
  destruct (Hagree tI1 m1 eq_refl) as (tR1 & E2 & Hrest). rewrite E2 in Hdone. cbn [fst] in Hdone.
  destruct (CreateMessageResponse 0 tR1) as [tR2 [err|m2]] eqn:E3; cbn [snd] in Hdone;
    [discriminate Hdone|].
  destruct (Hrest tR2 m2 eq_refl) as (tI2 & E4 & _).
  exists tI1, m1, tR1, tR2, m2, tI2. split; [reflexivity|]. split; [exact E2|].
  split; [exact E3|exact E4].
Defined.

End Agreement.
