(* ===== verification/Timers.v ===== *)
(** The timers of internal/transport/timers.go (the state of a [Timer] and the
    [timers*] hooks of a peer) and the parts of a peer they and the senders share:
    [SendBuffers], [SetEndpointFromPacket] (internal/transport/peer.go). *)
From S2P Require Import Prelude Env Crypto Wire State IndexTable Noise.
From stdpp Require Import prelude gmap list.
Open Scope Z_scope.

Module Timers.
Import Env.Env State.State Noise.Noise.

(** ** A timer *)

(** [NewTimer] returns a stopped timer. *)
Definition NewTimer : Timer := zeroTimer.
Definition Mod (d : Duration) (_ : Timer) : Timer := mkTimer true (Some d).
Definition Del (_ : Timer) : Timer := mkTimer false None.
Definition DelSync (tm : Timer) : Timer := Del (Del tm).
Definition IsPending (tm : Timer) : bool := isPending tm.

(** The callback of the runtime timer, up to the expiration function: whether
    that function is to run. *)
Definition fire (tm : Timer) : Timer * bool :=
  if isPending tm then (mkTimer false None, true) else (mkTimer false None, false).

Section Hooks.
Context {C : Crypto} {B S : Type} `{!Bind B}.
Abbreviation W := (Transport B S).

(** [timersActive]. *)
Definition timersActive (peer : PeerId) : M W bool :=
  let* x := get_peer peer in
  let* up := isUp in
  ret (p_isRunning x && up).

Definition jitter : M W Duration :=
  let* r := on_env (fastrandn RekeyTimeoutJitterMaxMs) in
  ret (Millisecond * r).

Definition timersDataSent (peer : PeerId) : M W unit :=
  let* active := timersActive peer in
  let* x := get_peer peer in
  if active && negb (IsPending (tm_newHandshake (p_timers x))) then
    let* j := jitter in
    upd_timers peer (fun ts =>
      set_tm_newHandshake (Mod (KeepaliveTimeout + RekeyTimeout + j) (tm_newHandshake ts)) ts)
  else ret tt.

Definition timersDataReceived (peer : PeerId) : M W unit :=
  let* active := timersActive peer in
  whenM active (
    let* x := get_peer peer in
    if negb (IsPending (tm_sendKeepalive (p_timers x)))
    then upd_timers peer (fun ts =>
           set_tm_sendKeepalive (Mod KeepaliveTimeout (tm_sendKeepalive ts)) ts)
    else upd_timers peer (set_tm_needAnotherKeepalive true)).

Definition timersAnyAuthenticatedPacketSent (peer : PeerId) : M W unit :=
  let* active := timersActive peer in
  whenM active (upd_timers peer (fun ts => set_tm_sendKeepalive (Del (tm_sendKeepalive ts)) ts)).

Definition timersAnyAuthenticatedPacketReceived (peer : PeerId) : M W unit :=
  let* active := timersActive peer in
  whenM active (upd_timers peer (fun ts => set_tm_newHandshake (Del (tm_newHandshake ts)) ts)).

Definition timersHandshakeInitiated (peer : PeerId) : M W unit :=
  let* active := timersActive peer in
  whenM active (
    let* j := jitter in
    upd_timers peer (fun ts =>
      set_tm_retransmitHandshake (Mod (RekeyTimeout + j) (tm_retransmitHandshake ts)) ts)).

Definition timersHandshakeComplete (peer : PeerId) : M W unit :=
  let* active := timersActive peer in
  whenM active (upd_timers peer (fun ts =>
    set_tm_retransmitHandshake (Del (tm_retransmitHandshake ts)) ts)) ;;;
  upd_timers peer (set_tm_handshakeAttempts 0) ;;;
  upd_timers peer (set_tm_sentLastMinuteHandshake false) ;;;
  let* t := now in
  upd_peer peer (set_p_lastHandshakeNano t).

Definition timersSessionDerived (peer : PeerId) : M W unit :=
  let* active := timersActive peer in
  whenM active (upd_timers peer (fun ts =>
    set_tm_zeroKeyMaterial (Mod (RejectAfterTime * 3) (tm_zeroKeyMaterial ts)) ts)).

Definition timersAnyAuthenticatedPacketTraversal (peer : PeerId) : M W unit :=
  let* x := get_peer peer in
  let keepalive := p_persistentKeepaliveInterval x in
  if 0 <? keepalive then
    let* active := timersActive peer in
    whenM active (upd_timers peer (fun ts =>
      set_tm_persistentKeepalive (Mod (keepalive * Second) (tm_persistentKeepalive ts)) ts))
  else ret tt.

Definition timersInit (peer : PeerId) : M W unit :=
  upd_timers peer (fun ts => mkTimers NewTimer NewTimer NewTimer NewTimer NewTimer
    (tm_handshakeAttempts ts) (tm_needAnotherKeepalive ts) (tm_sentLastMinuteHandshake ts)).

Definition timersStart (peer : PeerId) : M W unit :=
  upd_timers peer (set_tm_handshakeAttempts 0) ;;;
  upd_timers peer (set_tm_sentLastMinuteHandshake false) ;;;
  upd_timers peer (set_tm_needAnotherKeepalive false).

Definition timersStop (peer : PeerId) : M W unit :=
  upd_timers peer (fun ts => set_tm_retransmitHandshake (DelSync (tm_retransmitHandshake ts)) ts) ;;;
  upd_timers peer (fun ts => set_tm_sendKeepalive (DelSync (tm_sendKeepalive ts)) ts) ;;;
  upd_timers peer (fun ts => set_tm_newHandshake (DelSync (tm_newHandshake ts)) ts) ;;;
  upd_timers peer (fun ts => set_tm_zeroKeyMaterial (DelSync (tm_zeroKeyMaterial ts)) ts) ;;;
  upd_timers peer (fun ts => set_tm_persistentKeepalive (DelSync (tm_persistentKeepalive ts)) ts).

(** ** Sending on the wire (peer.go) *)

Definition SetEndpointFromPacket (peer : PeerId) (endpoint : Endpoint) : M W unit :=
  upd_peer peer (set_p_endpoint (Some endpoint)).

Definition SetPresharedKey (peer : PeerId) (psk : bytes) : M W unit :=
  upd_handshake peer (set_hs_presharedKey psk).

Definition total_length (buffers : list bytes) : Z :=
  fold_left (fun n b => u64 (n + Z.of_nat (length b))) buffers 0.

Definition SendBuffers (peer : PeerId) (buffers : list bytes) : M W (option Error) :=
  let* closed := isClosed in
  if closed then ret None
  else
    let* x := get_peer peer in
    match p_endpoint x with
    | None => ret (Some ErrNoEndpoint)
    | Some endpoint =>
        let* err := on_bind (bind_Send buffers endpoint) in
        match err with
        | None =>
            upd_peer peer (fun x => set_p_txBytes (u64 (p_txBytes x + total_length buffers)) x) ;;;
            ret None
        | Some err => ret (Some err)
        end
    end.

End Hooks.
End Timers.
