(* ===== verification/Send.v ===== *)
(** The outbound flow of internal/transport/send.go: staging, handshake
    initiation and response, nonce assignment, encryption and sequential
    transmission. *)
From S2P Require Import Prelude Env Crypto Wire Cookie State IndexTable Noise Timers.
From stdpp Require Import prelude gmap list.
Open Scope Z_scope.

Module Send.
Import Env.Env Wire.Wire Cookie.Cookie State.State IndexTable.IndexTable Noise.Noise Timers.Timers.

Section Send.
Context {C : Crypto} {B S : Type} `{!Bind B}.
Abbreviation W := (Transport B S).

(** ** Containers *)

Definition new_out_container (elems : list QueueOutboundElement) : M W ContainerId :=
  let* c := fresh in
  modify (fun t => set_t_outContainers (<[c := mkOutContainer false elems]> (t_outContainers t)) t) ;;;
  ret c.

(** [PutOutboundElementsContainer]: the elements are dropped. *)
Definition PutOutboundElementsContainer (c : ContainerId) : M W unit :=
  upd_out c (fun x => mkOutContainer (oc_locked x) []).

(** [NewOutboundElement]. *)
Definition NewOutboundElement : QueueOutboundElement := mkOutElem [] 0 None None.

Definition set_staged (peer : PeerId) (q : list ContainerId) : M W unit :=
  upd_peer peer (set_p_staged q).

(** [StagePackets]: a send that finds the queue full drops the oldest container
    and tries again. *)
Definition StagePackets (peer : PeerId) (elems : ContainerId) : M W unit :=
  let* x := get_peer peer in
  if (length (p_staged x) <? QueueStagedSize)%nat
  then set_staged peer (p_staged x ++ [elems])
  else
    match p_staged x with
    | [] => ret tt
    | tooOld :: q =>
        PutOutboundElementsContainer tooOld ;;;
        set_staged peer (q ++ [elems])
    end.

Definition FlushStagedPackets (peer : PeerId) : M W unit :=
  let* x := get_peer peer in
  forM (p_staged x) PutOutboundElementsContainer ;;;
  set_staged peer [].

(** ** Handshake messages *)

Definition peer_AddMacs (peer : PeerId) (packet : bytes) : M W bytes :=
  let* x := get_peer peer in
  let* (gen, packet) := on_env (AddMacs (p_cookieGenerator x) packet) in
  upd_peer peer (set_p_cookieGenerator gen) ;;;
  ret packet.

Definition SendHandshakeInitiation (peer : PeerId) (isRetry : bool) : M W (option Error) :=
  whenM (negb isRetry) (upd_timers peer (set_tm_handshakeAttempts 0)) ;;;
  let* h := get_handshake peer in
  let* elapsed := since (hs_lastSentHandshake h) in
  if elapsed <? RekeyTimeout then ret None
  else
    let* elapsed := since (hs_lastSentHandshake h) in
    if elapsed <? RekeyTimeout then ret None
    else
      let* t := now in
      upd_handshake peer (set_hs_lastSentHandshake t) ;;;
      let* msg := CreateMessageInitiation peer in
      match msg with
      | inl err => ret (Some err)
      | inr msg =>
          let* packet := peer_AddMacs peer (write_initiation msg) in
          timersAnyAuthenticatedPacketTraversal peer ;;;
          timersAnyAuthenticatedPacketSent peer ;;;
          let* err := SendBuffers peer [packet] in
          timersHandshakeInitiated peer ;;;
          ret err
      end.

Definition SendHandshakeResponse (peer : PeerId) : M W (option Error) :=
  let* t := now in
  upd_handshake peer (set_hs_lastSentHandshake t) ;;;
  let* response := CreateMessageResponse peer in
  match response with
  | inl err => ret (Some err)
  | inr response =>
      let* packet := peer_AddMacs peer (write_response response) in
      let* err := BeginSymmetricSession peer in
      match err with
      | Some err => ret (Some err)
      | None =>
          timersSessionDerived peer ;;;
          timersAnyAuthenticatedPacketTraversal peer ;;;
          timersAnyAuthenticatedPacketSent peer ;;;
          SendBuffers peer [packet]
      end
  end.

Definition SendHandshakeCookie (initiatingElem : QueueHandshakeElement) : M W (option Error) :=
  let sender := le_get (slice 4 8 (he_packet initiatingElem)) in
  let* checker := gets t_cookieChecker in
  let* (checker, reply) := on_env (CreateReply checker (he_packet initiatingElem) sender
                                     (DstToBytes (he_endpoint initiatingElem))) in
  modify (set_t_cookieChecker checker) ;;;
  match reply with
  | None => ret (Some ErrRand)
  | Some reply =>
      on_bind (bind_Send [write_cookie_reply reply] (he_endpoint initiatingElem))
  end.

Definition keepKeyFreshSending (peer : PeerId) : M W (option Error) :=
  let* x := get_peer peer in
  match current (p_keypairs x) with
  | None => ret None
  | Some k =>
      let* kp := get_keypair k in
      if RekeyAfterMessages <? kp_sendNonce kp then SendHandshakeInitiation peer false
      else if kp_isInitiator kp then
        let* age := since (kp_created kp) in
        if RekeyAfterTime <? age then SendHandshakeInitiation peer false else ret None
      else ret None
  end.

(** ** Nonce assignment *)

(** [keypair.sendNonce.Add(1) - 1]. *)
Definition sendNonce_Add (k : KeypairId) : M W Z :=
  let* kp := get_keypair k in
  upd_keypair k (set_kp_sendNonce (u64 (kp_sendNonce kp + 1))) ;;;
  ret (u64 (u64 (kp_sendNonce kp + 1) - 1)).

(** The loop over the elements of a container: the elements that got a nonce,
    and those ([elemsContainerOOO]) the keypair has no nonce left for. *)
Fixpoint assign_nonces (peer : PeerId) (k : KeypairId) (elems : list QueueOutboundElement)
  : M W (list QueueOutboundElement * list QueueOutboundElement) :=
  match elems with
  | [] => ret ([], [])
  | elem :: elems =>
      let* nonce := sendNonce_Add k in
      if RejectAfterMessages <=? nonce then
        upd_keypair k (set_kp_sendNonce RejectAfterMessages) ;;;
        let* (kept, ooo) := assign_nonces peer k elems in
        ret (kept, mkOutElem (oe_packet elem) nonce (oe_keypair elem) (Some peer) :: ooo)
      else
        modify (fun t => set_t_assigned ((k, nonce) :: t_assigned t) t) ;;;
        let* (kept, ooo) := assign_nonces peer k elems in
        ret (mkOutElem (oe_packet elem) nonce (Some k) (Some peer) :: kept, ooo)
  end.

(** Adding a container to the parallel and to the sequential queue, or dropping
    it when the peer does not run. *)
Definition dispatch (peer : PeerId) (c : ContainerId) : M W unit :=
  let* x := get_peer peer in
  if p_isRunning x then
    upd_peer peer (fun x => set_p_outbound (p_outbound x ++ [Some c]) x) ;;;
    modify (fun t => set_t_encryptionQ (t_encryptionQ t ++ [c]) t)
  else PutOutboundElementsContainer c.

(** [SendStagedPackets] from the label [top] ([at_] is [None]) or inside its
    [for] loop with the keypair [at_].  [None]: out of fuel. *)
Fixpoint send_staged_loop (fuel : nat) (peer : PeerId) (at_ : option KeypairId)
  : M W (option (option Error)) :=
  match fuel with
  | O => ret None
  | Datatypes.S fuel =>
      let* x := get_peer peer in
      match at_ with
      | None =>
          let* up := isUp in
          if bool_decide (p_staged x = []) || negb up then ret (Some None)
          else
            let initiate := let* err := SendHandshakeInitiation peer false in ret (Some err) in
            match current (p_keypairs x) with
            | None => initiate
            | Some k =>
                let* kp := get_keypair k in
                if RejectAfterMessages <=? kp_sendNonce kp then initiate
                else
                  let* age := since (kp_created kp) in
                  if RejectAfterTime <=? age then initiate
                  else send_staged_loop fuel peer (Some k)
            end
      | Some k =>
          match p_staged x with
          | [] => ret (Some None)
          | c :: q =>
              set_staged peer q ;;;
              let* oc := gets (fun t => out_at t c) in
              let* (kept, ooo) := assign_nonces peer k (oc_elems oc) in
              upd_out c (fun _ => mkOutContainer true kept) ;;;
              match ooo with
              | [] => ret tt
              | _ => let* c' := new_out_container ooo in StagePackets peer c'
              end ;;;
              match kept with
              | [] => PutOutboundElementsContainer c ;;; send_staged_loop fuel peer None
              | _ =>
                  dispatch peer c ;;;
                  match ooo with
                  | [] => send_staged_loop fuel peer (Some k)
                  | _ => send_staged_loop fuel peer None
                  end
              end
          end
      end
  end.

(** Two steps for each staged container and three more: [send_staged_total]. *)
Definition send_staged_fuel (x : Peer) : nat := 2 * length (p_staged x) + 3.

Definition SendStagedPackets (peer : PeerId) : M W (option Error) :=
  let* x := get_peer peer in
  let* r := send_staged_loop (send_staged_fuel x) peer None in
  ret (default (Some ErrFuel) r).

Definition SendKeepalive (peer : PeerId) : M W (option Error) :=
  let* x := get_peer peer in
  whenM (bool_decide (p_staged x = []) && p_isRunning x) (
    let* c := new_out_container [NewOutboundElement] in
    set_staged peer (p_staged x ++ [c])) ;;;
  SendStagedPackets peer.

(** ** Encryption *)

(** One element of [RoutineEncryption]: header, padding, seal. *)
Definition encrypt_elem (kp : Keypair) (elem : QueueOutboundElement) : QueueOutboundElement :=
  let header := transport_header (kp_remoteIndex kp) (oe_nonce elem) in
  let paddingSize := calculatePaddingSize (Z.of_nat (length (oe_packet elem))) DefaultMTU in
  let packet := oe_packet elem ++ zero_bytes (Z.to_nat paddingSize) in
  let packet := header ++ aead_Seal (kp_send kp) (aead_nonce (oe_nonce elem)) packet [] in
  mkOutElem packet (oe_nonce elem) (oe_keypair elem) (oe_peer elem).

Definition encrypt_at (t : W) (elem : QueueOutboundElement) : QueueOutboundElement :=
  match oe_keypair elem with
  | Some k => encrypt_elem (keypair_at t k) elem
  | None => elem
  end.

(** The nonce an element is sealed with, and the keypair. *)
Definition nonce_of (elem : QueueOutboundElement) : option (KeypairId * Z) :=
  option_map (fun k => (k, oe_nonce elem)) (oe_keypair elem).

(** One turn of [RoutineEncryption] on the first container of the queue. *)
Definition RoutineEncryption : M W unit :=
  let* q := gets t_encryptionQ in
  match q with
  | [] => ret tt
  | c :: q =>
      modify (set_t_encryptionQ q) ;;;
      let* t := gets (fun t => t) in
      modify (set_t_sealed (omap nonce_of (oc_elems (out_at t c)) ++ t_sealed t)) ;;;
      upd_out c (fun x => mkOutContainer false (map (encrypt_at t) (oc_elems x)))
  end.

(** ** Sequential transmission *)

Inductive Progress := Blocked | Stopped | Continue.

(** One turn of [RoutineSequentialSender]: [Blocked] while the container is
    locked by the encryption, [Stopped] on the nil sentinel. *)
Definition RoutineSequentialSender (peer : PeerId) : M W Progress :=
  let* x := get_peer peer in
  match p_outbound x with
  | [] => ret Blocked
  | None :: q => upd_peer peer (set_p_outbound q) ;;; ret Stopped
  | Some c :: q =>
      let* oc := gets (fun t => out_at t c) in
      if oc_locked oc then ret Blocked
      else
        upd_peer peer (set_p_outbound q) ;;;
        upd_out c (fun x => mkOutContainer true (oc_elems x)) ;;;
        if negb (p_isRunning x) then ret Continue
        else
          let dataSent := existsb (fun e => negb (length (oe_packet e) =? MessageKeepaliveSize)%nat)
                            (oc_elems oc) in
          timersAnyAuthenticatedPacketTraversal peer ;;;
          timersAnyAuthenticatedPacketSent peer ;;;
          let* err := SendBuffers peer (map oe_packet (oc_elems oc)) in
          whenM dataSent (timersDataSent peer) ;;;
          PutOutboundElementsContainer c ;;;
          let err := match err with
                     | Some (ErrUDPGSODisabled retry) => retry
                     | err => err
                     end in
          match err with
          | Some _ => ret Continue
          | None => let* _ := keepKeyFreshSending peer in ret Continue
          end
  end.

(** ** Reading from the source *)

(** One read of [RoutineReadFromSourceSink]: the packets of the batch with the
    peers they are for are grouped in [elemsByPeer] ... *)
Definition group_packet (pkt : bytes * bytes) (elemsByPeer : gmap PeerId ContainerId)
  : M W (gmap PeerId ContainerId) :=
  let '(packet, dst) := pkt in
  if (length packet <? 1)%nat then ret elemsByPeer
  else
    let* keyMap := gets t_keyMap in
    match keyMap !! dst with
    | None => ret elemsByPeer
    | Some peer =>
        let elem := mkOutElem packet 0 None None in
        match elemsByPeer !! peer with
        | Some c =>
            upd_out c (fun x => mkOutContainer (oc_locked x) (oc_elems x ++ [elem])) ;;;
            ret elemsByPeer
        | None =>
            let* c := new_out_container [elem] in
            ret (<[peer := c]> elemsByPeer)
        end
    end.

Fixpoint group_packets (pkts : list (bytes * bytes)) (elemsByPeer : gmap PeerId ContainerId)
  : M W (gmap PeerId ContainerId) :=
  match pkts with
  | [] => ret elemsByPeer
  | pkt :: pkts =>
      let* elemsByPeer := group_packet pkt elemsByPeer in group_packets pkts elemsByPeer
  end.

(** ... and staged; a peer whose staged packets could not be sent keeps its
    container in [elemsByPeer] (the [continue] before the [delete]). *)
Fixpoint stage_groups (groups : list (PeerId * ContainerId)) (elemsByPeer : gmap PeerId ContainerId)
  : M W (gmap PeerId ContainerId) :=
  match groups with
  | [] => ret elemsByPeer
  | (peer, c) :: groups =>
      let* x := get_peer peer in
      if p_isRunning x then
        StagePackets peer c ;;;
        let* err := SendStagedPackets peer in
        match err with
        | Some _ => stage_groups groups elemsByPeer
        | None => stage_groups groups (delete peer elemsByPeer)
        end
      else
        PutOutboundElementsContainer c ;;;
        stage_groups groups (delete peer elemsByPeer)
  end.

Definition read_from_source (pkts : list (bytes * bytes)) (elemsByPeer : gmap PeerId ContainerId)
  : M W (gmap PeerId ContainerId) :=
  let* elemsByPeer := group_packets pkts elemsByPeer in
  stage_groups (map_to_list elemsByPeer) elemsByPeer.

(** [RoutineReadFromSourceSink] on the answers of [Read], the packets and the
    error of each; it ends at the first error.  The answer is [None] while it
    still reads, and otherwise whether it has started to close the transport. *)
Fixpoint RoutineReadFromSourceSink {E} (reads : list (list (bytes * bytes) * option E))
    (elemsByPeer : gmap PeerId ContainerId) : M W (option bool) :=
  match reads with
  | [] => ret None
  | (pkts, readErr) :: reads =>
      let* elemsByPeer := read_from_source pkts elemsByPeer in
      match readErr with
      | None => RoutineReadFromSourceSink reads elemsByPeer
      | Some _ => let* closed := isClosed in ret (Some (negb closed))
      end
  end.

End Send.
End Send.
