(* ===== verification/NetSink.v ===== *)
(** The source and sink of the program (src/source_sink.go): packets of the
    user-space network stack are routed to peers by their destination address,
    decrypted packets are injected into the stack.

    The stack is gVisor's: class [Stack] has the operations the source uses of
    its packets and of its link endpoint. *)
From S2P Require Import Prelude Env Crypto State Demo Timers Send.
From stdpp Require Import prelude gmap list strings.
Open Scope Z_scope.

Module NetSink.
Import Crypto.Noise_helpers State.State Timers.Timers Send.Send.

Inductive Protocol := IPv4ProtocolNumber | IPv6ProtocolNumber | OtherProtocol.

Section Sink.
Context {P N : Type}.

(** The destination address is that of a header that [IsValid] accepts. *)
Class Stack := {
  pkt_protocol : P -> Protocol;              (* NetworkProtocolNumber *)
  ipv4_destination : P -> option bytes;
  ipv6_destination : P -> option bytes;
  pkt_view : P -> bytes;                     (* ToView *)
  InjectInbound : Protocol -> bytes -> N -> N;
  ep_Read : N -> N * option P;
  stack_Close : N -> N;                      (* RemoveNIC, Close and the endpoint's Close *)
}.

Context {stk : Stack}.

Record sourceSink := mkSourceSink {
  stack : N;
  incoming : list P;                          (* the packets whose WriteNotify waits to send *)
  incoming_closed : bool;
  peerNames : gmap string NoisePublicKey;
  peerAddresses : gmap NoisePublicKey (list Addr);
  fromPeerAddress : gmap Addr NoisePublicKey;
  publicKey : NoisePublicKey;
  defaultGateway : option NoisePublicKey;
  send_panics : bool;                         (* a WriteNotify sent on the closed channel *)
}.

(** The maps of [newSourceSink]. *)
Definition new_sink (st : N) (pk : NoisePublicKey) (gateway : option NoisePublicKey) : sourceSink :=
  mkSourceSink st [] false ∅ ∅ ∅ pk gateway false.

Definition set_stack (st : N) (ss : sourceSink) : sourceSink :=
  mkSourceSink st (incoming ss) (incoming_closed ss) (peerNames ss) (peerAddresses ss)
    (fromPeerAddress ss) (publicKey ss) (defaultGateway ss) (send_panics ss).
Definition set_incoming (l : list P) (ss : sourceSink) : sourceSink :=
  mkSourceSink (stack ss) l (incoming_closed ss) (peerNames ss) (peerAddresses ss)
    (fromPeerAddress ss) (publicKey ss) (defaultGateway ss) (send_panics ss).

Definition set_panics (b : bool) (ss : sourceSink) : sourceSink :=
  mkSourceSink (stack ss) (incoming ss) (incoming_closed ss) (peerNames ss) (peerAddresses ss)
    (fromPeerAddress ss) (publicKey ss) (defaultGateway ss) b.

(** ** Peers *)

Definition add_address (pk : NoisePublicKey) (ss : sourceSink) (addr : Addr) : sourceSink :=
  mkSourceSink (stack ss) (incoming ss) (incoming_closed ss) (peerNames ss)
    (<[pk := default [] (peerAddresses ss !! pk) ++ [addr]]> (peerAddresses ss))
    (<[addr := pk]> (fromPeerAddress ss)) (publicKey ss) (defaultGateway ss) (send_panics ss).

Definition AddPeer (name : string) (pk : NoisePublicKey) (addrs : list Addr) (ss : sourceSink) : sourceSink :=
  let ss := if bool_decide (name = EmptyString) then ss
            else mkSourceSink (stack ss) (incoming ss) (incoming_closed ss) (<[name := pk]> (peerNames ss))
                   (peerAddresses ss) (fromPeerAddress ss) (publicKey ss) (defaultGateway ss) (send_panics ss) in
  fold_left (add_address pk) addrs ss.

(** ** Reading *)

Inductive SinkError :=
| InvalidIPv4Header | InvalidIPv6Header | UnknownProtocol | UnknownDestination | ReadPacket | SinkClosed.

(** The address a packet is for. *)
Definition peer_addr (pkt : P) : SinkError + Addr :=
  match pkt_protocol pkt with
  | IPv4ProtocolNumber =>
      match ipv4_destination pkt with Some b => inr (Addr4 b) | None => inl InvalidIPv4Header end
  | IPv6ProtocolNumber =>
      match ipv6_destination pkt with Some b => inr (Addr6 b EmptyString) | None => inl InvalidIPv6Header end
  | OtherProtocol => inl UnknownProtocol
  end.

(** [packetFn]: the bytes of the packet, as many as there is room for, and the
    peer they go to. *)
Definition packetFn (ss : sourceSink) (room : nat) (pkt : P) : SinkError + (bytes * NoisePublicKey) :=
  match peer_addr pkt with
  | inl e => inl e
  | inr peerAddr =>
      let dst := match fromPeerAddress ss !! peerAddr with
                 | Some pk => Some pk
                 | None => defaultGateway ss
                 end in
      match dst with
      | None => inl UnknownDestination
      | Some pk =>
          match pkt_view pkt with
          | [] => inl ReadPacket
          | view => inr (take room view, pk)
          end
      end
  end.

(** The packets that wait, at most [count] of them, until one is refused. *)
Fixpoint read_loop (ss : sourceSink) (room count : nat) (l : list P)
  : list P * (list (bytes * NoisePublicKey) * option SinkError) :=
  match count with
  | O => (l, ([], None))
  | S count =>
      match l with
      | [] => ([], ([], if incoming_closed ss then Some SinkClosed else None))
      | pkt :: l =>
          match packetFn ss room pkt with
          | inl e => (l, ([], Some e))
          | inr d => let '(l, (ds, err)) := read_loop ss room count l in (l, (d :: ds, err))
          end
      end
  end.

(** [Read] into [nbufs] buffers with [room] bytes behind the offset; [None] while
    there is nothing to read. *)
Definition Read (nbufs room : nat) (ss : sourceSink)
  : option (sourceSink * (list (bytes * NoisePublicKey) * option SinkError)) :=
  match incoming ss, incoming_closed ss with
  | [], false => None
  | [], true => Some (ss, ([], Some SinkClosed))
  | _ :: _, _ => let '(l, r) := read_loop ss room nbufs (incoming ss) in Some (set_incoming l ss, r)
  end.

(** A packet of the stack is sent on the channel, which has no buffer: it waits
    for a [Read].  A send on a closed channel panics. *)
Definition WriteNotify (ss : sourceSink) : sourceSink :=
  match ep_Read (stack ss) with
  | (st, None) => set_stack st ss
  | (st, Some pkt) =>
      if incoming_closed ss then set_panics true (set_stack st ss)
      else set_incoming (incoming ss ++ [pkt]) (set_stack st ss)
  end.

(** ** Writing *)

Definition version (b : Byte.byte) : Z := Z.shiftr (Z_of_byte b) 4.

Fixpoint write_loop (bufs : list bytes) (offset : nat) (ss : sourceSink) : sourceSink * bool :=
  match bufs with
  | [] => (ss, true)
  | buf :: bufs =>
      match drop offset buf with
      | [] => write_loop bufs offset ss
      | (b :: _) as pkt =>
          if version b =? 4 then
            write_loop bufs offset (set_stack (InjectInbound IPv4ProtocolNumber pkt (stack ss)) ss)
          else if version b =? 6 then
            write_loop bufs offset (set_stack (InjectInbound IPv6ProtocolNumber pkt (stack ss)) ss)
          else (ss, false)
      end
  end.

Definition EAFNOSUPPORT : Z := 97.

Definition Write (bufs : list bytes) (offset : nat) (ss : sourceSink) : sourceSink * (Z * option Error) :=
  let '(ss, ok) := write_loop bufs offset ss in
  (ss, if ok then (Z.of_nat (length bufs), None) else (0, Some (ErrOS EAFNOSUPPORT))).

(** Closing the channel makes the sends that wait on it panic. *)
Definition Close (ss : sourceSink) : sourceSink * option Error :=
  (mkSourceSink (stack_Close (stack ss)) [] true (peerNames ss) (peerAddresses ss)
     (fromPeerAddress ss) (publicKey ss) (defaultGateway ss)
     (send_panics ss || match incoming ss with [] => false | _ => true end), None).

Definition BatchSize : Z := IdealBatchSize.

(** The sink as the transport sees it. *)
#[global] Instance net_sink : SourceSink sourceSink := {|
  sink_Write bufs _ offset ss := Write bufs offset ss;
  sink_Close := Close;
  sink_BatchSize _ := BatchSize;
|}.

(** ** Routing *)

(** The peers as the program adds them: name, key, addresses. *)
Definition configure (calls : list (string * NoisePublicKey * list Addr)) (ss : sourceSink) : sourceSink :=
  fold_left (fun ss c => AddPeer c.1.1 c.1.2 c.2 ss) calls ss.

(** The peer an address belongs to: the last one that was added with it. *)
Fixpoint owner (calls : list (string * NoisePublicKey * list Addr)) (a : Addr) : option NoisePublicKey :=
  match calls with
  | [] => None
  | c :: calls =>
      match owner calls a with
      | Some pk => Some pk
      | None => if bool_decide (a ∈ c.2) then Some c.1.2 else None
      end
  end.

Lemma add_addresses_routes pk addrs : forall ss a,
  fromPeerAddress (fold_left (add_address pk) addrs ss) !! a =
    (if bool_decide (a ∈ addrs) then Some pk else fromPeerAddress ss !! a).
Proof.
  induction addrs as [|x addrs IH]; intros ss a; simpl; [done|]. rewrite IH. simpl.
  destruct (decide (a = x)) as [->|Hne].
  - rewrite lookup_insert_eq, (bool_decide_true (x ∈ x :: addrs)) by by left. by destruct (bool_decide _).
  - rewrite lookup_insert_ne by done. by rewrite (bool_decide_ext (a ∈ addrs) (a ∈ x :: addrs)) by set_solver.
Qed.

Lemma AddPeer_routes name pk addrs ss a :
  fromPeerAddress (AddPeer name pk addrs ss) !! a =
    (if bool_decide (a ∈ addrs) then Some pk else fromPeerAddress ss !! a).
Proof. unfold AddPeer. rewrite add_addresses_routes. by destruct (bool_decide (name = _)). Qed.

Lemma configure_routes calls : forall ss a,
  fromPeerAddress (configure calls ss) !! a =
    match owner calls a with Some pk => Some pk | None => fromPeerAddress ss !! a end.
Proof.
  induction calls as [|c calls IH]; intros ss a; simpl; [done|]. unfold configure in IH. rewrite IH.
  destruct (owner calls a); [done|]. rewrite AddPeer_routes. by destruct (bool_decide _).
Qed.

Lemma configure_gateway calls : forall ss, defaultGateway (configure calls ss) = defaultGateway ss.
Proof.
  induction calls as [|c calls IH]; intros ss; [done|]. simpl. unfold configure in IH. rewrite IH.
  unfold AddPeer. set (ss' := if bool_decide _ then _ else _).
  transitivity (defaultGateway ss'); [|unfold ss'; by destruct (bool_decide _)].
  generalize ss'. clear. induction c.2 as [|x addrs IH]; intros ss; simpl; [done|]. by rewrite IH.
Qed.

(** An owner is one of the peers that were added. *)
Lemma owner_key calls a pk : owner calls a = Some pk -> pk ∈ map (fun c => c.1.2) calls.
Proof.
  induction calls as [|c calls IH]; [done|]. cbn [owner map]. destruct (owner calls a) as [q|].
  - intros [= ->]. right. by apply IH.
  - case_bool_decide; [|done]. intros [= ->]. left.
Qed.

(** What [read_loop] takes, hands on and leaves. *)
Definition read_ok (ss : sourceSink) (room count : nat) (l rest : list P)
    (ds : list (bytes * NoisePublicKey)) (err : option SinkError) : Prop :=
  exists taken, Forall2 (fun pkt d => packetFn ss room pkt = inr d) taken ds /\
    (length ds <= count)%nat /\
    match err with
    | None => l = taken ++ rest /\ (length ds = count \/ rest = [])
    | Some e => (e = SinkClosed /\ incoming_closed ss = true /\ l = taken /\ rest = []) \/
                exists pkt, packetFn ss room pkt = inl e /\ l = taken ++ pkt :: rest
    end.

Lemma read_loop_ok ss room count : forall l,
  let '(rest, (ds, err)) := read_loop ss room count l in read_ok ss room count l rest ds err.
Proof.
  induction count as [|count IH]; intros l; simpl.
  { exists []. split; [constructor|]. split; [simpl; lia|]. split; [done|by left]. }
  destruct l as [|pkt l].
  { exists []. split; [constructor|]. split; [simpl; lia|]. destruct (incoming_closed ss) eqn:E; [by left|].
    split; [done|by right]. }
  destruct (packetFn ss room pkt) as [e|d] eqn:Hp.
  { exists []. split; [constructor|]. split; [simpl; lia|]. right. by exists pkt. }
  specialize (IH l). destruct (read_loop ss room count l) as [rest [ds err]].
  destruct IH as (taken & Hf & Hc & He). exists (pkt :: taken). split; [by constructor|].
  split; [simpl; lia|]. destruct err as [e|].
  - destruct He as [(-> & ? & -> & ->)|(q & Hq & ->)]; [by left|]. right. by exists q.
  - destruct He as [-> He]. split; [done|]. destruct He as [<-| ->]; [by left|by right].
Qed.

(** C37. Packets are read in order and each goes to its peer: with the peers
    of a configuration, [Read] takes the packets that wait, as many as there are
    buffers, and gives each with the peer that owns its destination address or
    else the gateway; it stops at the first packet that has neither, and leaves
    what it has not taken. *)
Theorem packets_routed calls st pk gateway nbufs room l
    (ss := set_incoming l (configure calls (new_sink st pk gateway))) :
  l <> [] ->
  exists taken rest ds err, Read nbufs room ss = Some (set_incoming rest ss, (ds, err)) /\
    Forall2 (fun pkt d => exists a, peer_addr pkt = inr a /\
        d.1 = take room (pkt_view pkt) /\
        (owner calls a = Some d.2 \/ owner calls a = None /\ gateway = Some d.2)) taken ds /\
    (length ds <= nbufs)%nat /\
    match err with
    | None => l = taken ++ rest /\ (length ds = nbufs \/ rest = [])
    | Some e => (e = SinkClosed /\ incoming_closed ss = true /\ l = taken /\ rest = []) \/
                exists pkt, packetFn ss room pkt = inl e /\ l = taken ++ pkt :: rest
    end.
Proof.
  intros Hl. unfold Read. change (incoming ss) with l. destruct l as [|p0 l0] eqn:El; [done|]. rewrite <- El in *.
  pose proof (read_loop_ok ss room nbufs l) as H.
  destruct (read_loop ss room nbufs l) as [rest [ds err]]. destruct H as (taken & Hf & Hc & He).
  exists taken, rest, ds, err. split; [done|]. split; [|done].
  eapply Forall2_impl; [exact Hf|]. intros pkt d Hd. unfold packetFn in Hd.
  destruct (peer_addr pkt) as [e|a] eqn:Ha; [done|]. exists a. split; [done|].
  change (fromPeerAddress ss) with (fromPeerAddress (configure calls (new_sink st pk gateway))) in Hd.
  rewrite configure_routes in Hd. change (defaultGateway ss) with
    (defaultGateway (configure calls (new_sink st pk gateway))) in Hd. rewrite configure_gateway in Hd.
  cbn [fromPeerAddress defaultGateway new_sink] in Hd. rewrite lookup_empty in Hd.
  destruct (owner calls a) as [q|].
  - destruct (pkt_view pkt); [done|]. injection Hd as <-. by split; [|left].
  - destruct gateway as [q|]; [|done]. destruct (pkt_view pkt); [done|]. injection Hd as <-. by split; [|right].
Qed.

(** C38. One packet of the local stack to an address that no peer has,
    without a gateway, makes [Read] fail, and [RoutineReadFromSourceSink] answers
    a failed read by closing the transport.  The packets behind it are not read:
    the close makes the [WriteNotify] of each of them panic. *)
Theorem unknown_destination_closes `{!Crypto, !Bind B} nbufs room ss pkt l a (t : Transport B sourceSink) :
  incoming ss = pkt :: l -> (0 < nbufs)%nat -> peer_addr pkt = inr a ->
  fromPeerAddress ss !! a = None -> defaultGateway ss = None ->
  t_state t <> transportStateClosed ->
  exists ss' reads, Read nbufs room ss = Some (ss', reads) /\ reads = ([], Some UnknownDestination) /\
    snd (RoutineReadFromSourceSink [reads] ∅ t) = Some true /\
    (l <> [] -> send_panics (fst (Close ss')) = true).
Proof.
  intros Hi Hn Ha Hf Hg Hs. unfold Read. rewrite Hi. destruct nbufs as [|n]; [lia|].
  cbn [read_loop]. unfold packetFn. rewrite Ha, Hf, Hg. eexists _, _. split; [done|]. split; [done|].
  cbn [RoutineReadFromSourceSink]. unfold read_from_source. cbn [group_packets].
  unfold bind, ret. rewrite map_to_list_empty. cbn [stage_groups]. unfold isClosed, gets. simpl.
  rewrite bool_decide_false by done. split; [done|]. destruct l; [done|]. intros _. apply orb_true_r.
Qed.

End Sink.

(** *** Witnesses

    Packets are a destination address and their bytes; the stack keeps what is
    injected. *)

#[local] Instance demo_stack : @Stack (bytes * bytes) (list bytes) := {|
  pkt_protocol _ := IPv4ProtocolNumber;
  ipv4_destination p := Some p.1;
  ipv6_destination _ := None;
  pkt_view p := p.2;
  InjectInbound _ pkt st := st ++ [pkt];
  ep_Read st := (st, None);
  stack_Close st := st;
|}.

Definition addr_a : bytes := map byte_of_Z [10; 7; 0; 2].
Definition addr_b : bytes := map byte_of_Z [10; 7; 0; 3].
Definition addr_c : bytes := map byte_of_Z [8; 8; 8; 8].
Definition demo_calls : list (string * NoisePublicKey * list Addr) :=
  [("alice"%string, [Byte.x01], [Addr4 addr_a]); ("bob"%string, [Byte.x02], [Addr4 addr_b])].
Definition demo_pkts : list (bytes * bytes) := [(addr_b, zero_bytes 3); (addr_a, zero_bytes 4)].

Lemma packets_routed_witness :
  exists taken rest ds err,
    Read 8 100 (set_incoming demo_pkts (configure demo_calls (new_sink [] [] None))) =
      Some (set_incoming rest (set_incoming demo_pkts (configure demo_calls (new_sink [] [] None))), (ds, err)) /\
    Forall2 (fun pkt d => exists a, peer_addr pkt = inr a /\ d.1 = take 100 (pkt_view pkt) /\
      (owner demo_calls a = Some d.2 \/ owner demo_calls a = None /\ None = Some d.2)) taken ds.
Proof.
  destruct (packets_routed demo_calls [] [] None 8 100 demo_pkts) as (taken & rest & ds & err & H1 & H2 & _);
    [discriminate|]. exists taken, rest, ds, err. split; [exact H1|exact H2].
Defined.

Section Witness.
Import Demo.Demo.
#[local] Instance toy : Crypto := Toy.toy_crypto.

Definition demo_lost : @sourceSink (bytes * bytes) (list bytes) :=
  set_incoming [(addr_c, zero_bytes 5); (addr_a, zero_bytes 5)] (configure demo_calls (new_sink [] [] None)).

Lemma unknown_destination_closes_witness :
  exists ss' reads, Read 8 100 demo_lost = Some (ss', reads) /\ reads = ([], Some UnknownDestination) /\
    snd (RoutineReadFromSourceSink [reads] ∅ (NewTransport demo_lost ([] : LogBind) (demo_env_at 1000))) = Some true /\
    ([(addr_a, zero_bytes 5)] <> [] -> send_panics (fst (Close ss')) = true).
Proof.
  apply (unknown_destination_closes 8 100 demo_lost (addr_c, zero_bytes 5) [(addr_a, zero_bytes 5)] (Addr4 addr_c));
    [reflexivity|lia|reflexivity|vm_compute; reflexivity|vm_compute; reflexivity|discriminate].
Defined.
End Witness.

End NetSink.
