(* ===== verification/Receive.v ===== *)
(** The inbound flow of internal/transport/receive.go: classification of the
    datagrams of a batch, decryption, the handshake worker, the sequential
    receiver of a peer, and [IsUnderLoad] of internal/transport/transport.go. *)
From S2P Require Import Prelude Replay RateLimiter Env Crypto Wire Cookie State IndexTable Noise Timers Send.
From stdpp Require Import prelude gmap list.
Open Scope Z_scope.

Module Receive.
Import Env.Env Wire.Wire Cookie.Cookie State.State IndexTable.IndexTable Noise.Noise
  Timers.Timers Send.Send.

Section Receive.
Context {C : Crypto} {B S : Type} `{!Bind B} `{!SourceSink S}.
Abbreviation W := (Transport B S).

(** ** Key freshness *)

Definition keepKeyFreshReceiving (peer : PeerId) : M W (option Error) :=
  let* x := get_peer peer in
  if tm_sentLastMinuteHandshake (p_timers x) then ret None
  else
    match current (p_keypairs x) with
    | None => ret None
    | Some k =>
        let* kp := get_keypair k in
        if kp_isInitiator kp then
          let* age := since (kp_created kp) in
          if RejectAfterTime - KeepaliveTimeout - RekeyTimeout <? age then
            upd_timers peer (set_tm_sentLastMinuteHandshake true) ;;;
            SendHandshakeInitiation peer false
          else ret None
        else ret None
    end.

(** ** Classifying datagrams *)

Definition new_in_container (elems : list QueueInboundElement) : M W ContainerId :=
  let* c := fresh in
  modify (fun t => set_t_inContainers (<[c := mkInContainer true elems]> (t_inContainers t)) t) ;;;
  ret c.

(** [PutInboundElementsContainer]: the elements are dropped. *)
Definition PutInboundElementsContainer (c : ContainerId) : M W unit :=
  upd_in c (fun x => mkInContainer (ic_locked x) []).

(** The send on [queue.handshake.c] with its [default] branch: a full queue
    drops the message. *)
Definition offer_handshake (elem : QueueHandshakeElement) : M W unit :=
  modify (fun t =>
    if Z.of_nat (length (t_handshakeQ t)) <? QueueHandshakeSize
    then set_t_handshakeQ (t_handshakeQ t ++ [elem]) t else t).

(** The transport branch of the switch: the element joins the container of its
    peer.  An entry with a keypair has a peer ([Invariant.table_ok]). *)
Definition receive_transport (packet : bytes) (endpoint : Endpoint)
    (elemsByPeer : gmap PeerId ContainerId) : M W (gmap PeerId ContainerId) :=
  if (length packet <? MessageTransportSize)%nat then ret elemsByPeer
  else
    let receiver := le_get (slice MessageTransportOffsetReceiver MessageTransportOffsetCounter packet) in
    let* value := table_Lookup receiver in
    match e_keypair value, e_peer value with
    | Some k, Some peer =>
        let* kp := get_keypair k in
        let* t := now in
        if time_Add (kp_created kp) RejectAfterTime <? t then ret elemsByPeer
        else
          let elem := mkInElem packet (Some packet) 0 k endpoint in
          match elemsByPeer !! peer with
          | Some c =>
              upd_in c (fun x => mkInContainer (ic_locked x) (ic_elems x ++ [elem])) ;;;
              ret elemsByPeer
          | None =>
              let* c := new_in_container [elem] in
              ret (<[peer := c]> elemsByPeer)
          end
    | _, _ => ret elemsByPeer
    end.

(** The size the switch asks of a handshake message; [None]: unknown type. *)
Definition handshake_size (msgType : Z) : option nat :=
  if msgType =? MessageInitiationType then Some MessageInitiationSize
  else if msgType =? MessageResponseType then Some MessageResponseSize
  else if msgType =? MessageCookieReplyType then Some MessageCookieReplySize
  else None.

(** The body of the loop over the datagrams of a batch. *)
Definition receive_packet (pkt : bytes * Endpoint) (elemsByPeer : gmap PeerId ContainerId)
  : M W (gmap PeerId ContainerId) :=
  let '(packet, endpoint) := pkt in
  if (length packet <? MinMessageSize)%nat then ret elemsByPeer
  else
    let msgType := le_get (slice 0 4 packet) in
    if msgType =? MessageTransportType then receive_transport packet endpoint elemsByPeer
    else
      match handshake_size msgType with
      | None => ret elemsByPeer
      | Some size =>
          if negb (length packet =? size)%nat then ret elemsByPeer
          else
            offer_handshake (mkHsElem msgType packet endpoint) ;;;
            ret elemsByPeer
      end.

Fixpoint receive_packets (pkts : list (bytes * Endpoint)) (elemsByPeer : gmap PeerId ContainerId)
  : M W (gmap PeerId ContainerId) :=
  match pkts with
  | [] => ret elemsByPeer
  | pkt :: pkts =>
      let* elemsByPeer := receive_packet pkt elemsByPeer in receive_packets pkts elemsByPeer
  end.

(** The loop that hands the containers over. *)
Definition deliver_group (group : PeerId * ContainerId) : M W unit :=
  let '(peer, c) := group in
  let* x := get_peer peer in
  if p_isRunning x then
    upd_peer peer (fun x => set_p_inbound (p_inbound x ++ [Some c]) x) ;;;
    modify (fun t => set_t_decryptionQ (t_decryptionQ t ++ [c]) t)
  else PutInboundElementsContainer c.

Definition receive_batch (pkts : list (bytes * Endpoint)) : M W unit :=
  let* elemsByPeer := receive_packets pkts ∅ in
  forM (map_to_list elemsByPeer) deliver_group.

(** [RoutineReceiveIncoming] on the answers of its [recv], with the counter
    [deathSpiral]: the answers it did not ask for any more when it returned,
    [None] while it is still receiving. *)
Fixpoint RoutineReceiveIncoming (recvs : list (Error + list (bytes * Endpoint))) (deathSpiral : Z)
  : M W (option (list (Error + list (bytes * Endpoint)))) :=
  match recvs with
  | [] => ret None
  | inl ErrNetClosed :: recvs => ret (Some recvs)
  | inl _ :: recvs =>
      if deathSpiral <? 10 then RoutineReceiveIncoming recvs (deathSpiral + 1)
      else ret (Some recvs)
  | inr pkts :: recvs =>
      receive_batch pkts ;;;
      RoutineReceiveIncoming recvs 0
  end.

(** ** Decryption *)

(** One element of [RoutineDecryption]; the content is opened in place. *)
Definition decrypt_elem (kp : Keypair) (elem : QueueInboundElement) : QueueInboundElement :=
  match ie_packet elem with
  | None => elem
  | Some packet =>
      let counter :=
        le_get (slice MessageTransportOffsetCounter MessageTransportOffsetContent packet) in
      let content := drop MessageTransportOffsetContent packet in
      match aead_Open (kp_receive kp) (aead_nonce counter) content [] with
      | Some plain =>
          mkInElem (splice MessageTransportOffsetContent plain (ie_buffer elem)) (Some plain)
            counter (ie_keypair elem) (ie_endpoint elem)
      | None => mkInElem (ie_buffer elem) None counter (ie_keypair elem) (ie_endpoint elem)
      end
  end.

Definition decrypt_at (t : W) (elem : QueueInboundElement) : QueueInboundElement :=
  decrypt_elem (keypair_at t (ie_keypair elem)) elem.

(** One turn of [RoutineDecryption] on the first container of the queue. *)
Definition RoutineDecryption : M W unit :=
  let* q := gets t_decryptionQ in
  match q with
  | [] => ret tt
  | c :: q =>
      modify (set_t_decryptionQ q) ;;;
      let* t := gets (fun t => t) in
      upd_in c (fun x => mkInContainer false (map (decrypt_at t) (ic_elems x)))
  end.

(** ** Handshake messages *)

Definition IsUnderLoad : M W bool :=
  let* t := now in
  let* q := gets t_handshakeQ in
  if QueueHandshakeSize / 8 <=? Z.of_nat (length q) then
    modify (set_t_underLoadUntil (time_Add t UnderLoadAfterTime)) ;;;
    ret true
  else gets (fun w => t <? t_underLoadUntil w).

(** [rate.limiter.Allow(ip)]; [None]: it panics. *)
Definition limiter_Allow (ip : Addr) : M W (option bool) :=
  let* t := now in
  let* rate := gets t_limiter in
  match RateLimiter.Allow rate ip t with
  | None => ret None
  | Some (rate, ok) => modify (set_t_limiter rate) ;;; ret (Some ok)
  end.

(** How a turn of [RoutineHandshake] ends: nothing in the queue, [goto skip],
    the end of the second switch, a panic of the limiter. *)
Inductive Outcome := Idle | Skip | Done | Panic.

Definition handle_cookie_reply (elem : QueueHandshakeElement) : M W Outcome :=
  match read_cookie_reply (he_packet elem) with
  | None => ret Skip
  | Some reply =>
      let* entry := table_Lookup (mc_Receiver reply) in
      match e_peer entry with
      | None => ret Skip
      | Some peer =>
          let* x := get_peer peer in
          whenM (p_isRunning x) (
            let* (gen, _) := on_env (ConsumeReply (p_cookieGenerator x) reply) in
            upd_peer peer (set_p_cookieGenerator gen)) ;;;
          ret Skip
      end
  end.

(** The MAC checks and the rate limit of the first switch; [None]: go on. *)
Definition check_macs (elem : QueueHandshakeElement) : M W (option Outcome) :=
  let* checker := gets t_cookieChecker in
  if negb (CheckMAC1 checker (he_packet elem)) then ret (Some Skip)
  else
    let* underLoad := IsUnderLoad in
    if underLoad then
      let* valid := on_env (CheckMAC2 checker (he_packet elem) (DstToBytes (he_endpoint elem))) in
      if negb valid then
        let* _ := SendHandshakeCookie elem in ret (Some Skip)
      else
        let* allowed := limiter_Allow (DstIP (he_endpoint elem)) in
        match allowed with
        | None => ret (Some Panic)
        | Some true => ret None
        | Some false => ret (Some Skip)
        end
    else ret None.

Definition rxBytes_Add (peer : PeerId) (n : Z) : M W unit :=
  upd_peer peer (fun x => set_p_rxBytes (u64 (p_rxBytes x + n)) x).

Definition handle_initiation (elem : QueueHandshakeElement) : M W Outcome :=
  match read_initiation (he_packet elem) with
  | None => ret Skip
  | Some msg =>
      let* peer := ConsumeMessageInitiation msg in
      match peer with
      | None => ret Skip
      | Some peer =>
          timersAnyAuthenticatedPacketTraversal peer ;;;
          timersAnyAuthenticatedPacketReceived peer ;;;
          SetEndpointFromPacket peer (he_endpoint elem) ;;;
          rxBytes_Add peer (Z.of_nat (length (he_packet elem))) ;;;
          let* err := SendHandshakeResponse peer in
          match err with Some _ => ret Skip | None => ret Done end
      end
  end.

Definition handle_response (elem : QueueHandshakeElement) : M W Outcome :=
  match read_response (he_packet elem) with
  | None => ret Skip
  | Some msg =>
      let* peer := ConsumeMessageResponse msg in
      match peer with
      | None => ret Skip
      | Some peer =>
          SetEndpointFromPacket peer (he_endpoint elem) ;;;
          rxBytes_Add peer (Z.of_nat (length (he_packet elem))) ;;;
          timersAnyAuthenticatedPacketTraversal peer ;;;
          timersAnyAuthenticatedPacketReceived peer ;;;
          let* err := BeginSymmetricSession peer in
          match err with
          | Some _ => ret Skip
          | None =>
              timersSessionDerived peer ;;;
              timersHandshakeComplete peer ;;;
              let* err := SendKeepalive peer in
              match err with Some _ => ret Skip | None => ret Done end
          end
      end
  end.

Definition handle_handshake (elem : QueueHandshakeElement) : M W Outcome :=
  if he_msgType elem =? MessageCookieReplyType then handle_cookie_reply elem
  else if (he_msgType elem =? MessageInitiationType) || (he_msgType elem =? MessageResponseType) then
    let* stop := check_macs elem in
    match stop with
    | Some outcome => ret outcome
    | None =>
        if he_msgType elem =? MessageInitiationType then handle_initiation elem
        else handle_response elem
    end
  else ret Skip.

(** One turn of [RoutineHandshake]. *)
Definition RoutineHandshake : M W Outcome :=
  let* q := gets t_handshakeQ in
  match q with
  | [] => ret Idle
  | elem :: q =>
      modify (set_t_handshakeQ q) ;;;
      handle_handshake elem
  end.

(** ** Sequential reception *)

(** The locals of one turn of [RoutineSequentialReceiver]: the element
    [elems[validTailPacket]], [dataPacketReceived] and [rxBytesLen]. *)
Record RecvLocals := mkLocals {
  validTail : option QueueInboundElement;
  dataPacketReceived : bool;
  rxBytesLen : Z;
}.

(** [replayFilter.ValidateCounter(elem.counter, RejectAfterMessages)]. *)
Definition validate_counter (k : KeypairId) (counter : Z) : M W bool :=
  let* kp := get_keypair k in
  let '(f, ok) := Replay.validate (kp_replayFilter kp) counter RejectAfterMessages in
  upd_keypair k (set_kp_replayFilter f) ;;;
  whenM ok (modify (fun t => set_t_accepted ((k, counter) :: t_accepted t) t)) ;;;
  ret ok.

Definition receive_elem (peer : PeerId) (elem : QueueInboundElement) (l : RecvLocals)
  : M W RecvLocals :=
  match ie_packet elem with
  | None => ret l
  | Some packet =>
      let* ok := validate_counter (ie_keypair elem) (ie_counter elem) in
      if negb ok then ret l
      else
        let l := mkLocals (Some elem) (dataPacketReceived l) (rxBytesLen l) in
        let* rotated := ReceivedWithKeypair peer (ie_keypair elem) in
        let* err :=
          (if rotated then
             SetEndpointFromPacket peer (ie_endpoint elem) ;;;
             timersHandshakeComplete peer ;;;
             SendStagedPackets peer
           else ret None) in
        match err with
        | Some _ => ret l
        | None =>
            let n := u64 (rxBytesLen l + Z.of_nat (length packet + MinMessageSize)) in
            if (length packet =? 0)%nat
            then ret (mkLocals (validTail l) (dataPacketReceived l) n)
            else
              upd_peer peer (fun x => set_p_bufs
                (p_bufs x ++ [take (MessageTransportOffsetContent + length packet) (ie_buffer elem)]) x) ;;;
              ret (mkLocals (validTail l) true n)
        end
  end.

Fixpoint receive_elems (peer : PeerId) (elems : list QueueInboundElement) (l : RecvLocals)
  : M W RecvLocals :=
  match elems with
  | [] => ret l
  | elem :: elems => let* l := receive_elem peer elem l in receive_elems peer elems l
  end.

Definition BatchSize (t : W) : Z :=
  let size := bind_BatchSize (t_bind t) in
  let dSize := sink_BatchSize (t_sink t) in
  if size <? dSize then dSize else size.

(** The end of a turn: timers, the write to the sink, the reset of [bufs]. *)
Definition flush_received (peer : PeerId) (l : RecvLocals) (c : ContainerId) : M W unit :=
  whenM (dataPacketReceived l) (timersDataReceived peer) ;;;
  let* x := get_peer peer in
  whenM (0 <? length (p_bufs x))%nat (
    let* n := gets BatchSize in
    let peers := replicate (Z.to_nat n) (p_pk x) in
    let* _ := on_sink (sink_Write (p_bufs x) peers MessageTransportOffsetContent) in
    ret tt) ;;;
  upd_peer peer (set_p_bufs []) ;;;
  PutInboundElementsContainer c.

(** One turn of [RoutineSequentialReceiver]: [Blocked] while the container is
    locked by the decryption, [Stopped] on the nil sentinel.  The [continue] of
    a failed [keepKeyFreshReceiving] leaves [bufs] as it is. *)
Definition RoutineSequentialReceiver (peer : PeerId) : M W Progress :=
  let* x := get_peer peer in
  match p_inbound x with
  | [] => ret Blocked
  | None :: q => upd_peer peer (set_p_inbound q) ;;; ret Stopped
  | Some c :: q =>
      let* ic := gets (fun t => in_at t c) in
      if ic_locked ic then ret Blocked
      else
        upd_peer peer (set_p_inbound q) ;;;
        upd_in c (fun x => mkInContainer true (ic_elems x)) ;;;
        let* l := receive_elems peer (ic_elems ic) (mkLocals None false 0) in
        rxBytes_Add peer (rxBytesLen l) ;;;
        match validTail l with
        | None => flush_received peer l c ;;; ret Continue
        | Some elem =>
            SetEndpointFromPacket peer (ie_endpoint elem) ;;;
            let* err := keepKeyFreshReceiving peer in
            match err with
            | Some _ => ret Continue
            | None =>
                timersAnyAuthenticatedPacketTraversal peer ;;;
                timersAnyAuthenticatedPacketReceived peer ;;;
                flush_received peer l c ;;;
                ret Continue
            end
        end
  end.

End Receive.
End Receive.
