(* ===== verification/Lifecycle.v ===== *)
(** The life of peers and of the transport: the expiration functions of
    internal/transport/timers.go, starting, stopping and zeroing peers
    (internal/transport/peer.go, channels.go), and the state changes of the
    transport (internal/transport/transport.go). *)
From S2P Require Import Prelude Replay RateLimiter Env Crypto Wire Cookie State IndexTable Noise Timers Send Receive.
From stdpp Require Import prelude gmap list.
Open Scope Z_scope.

Module Lifecycle.
Import Env.Env Crypto.Noise_helpers Wire.Wire Cookie.Cookie State.State IndexTable.IndexTable
  Noise.Noise Timers.Timers Send.Send Receive.Receive.

Section Lifecycle.
Context {C : Crypto} {B S : Type} `{!Bind B} `{!SourceSink S}.
Abbreviation W := (Transport B S).

(** ** Key material of a peer *)

Definition ZeroAndFlushAll (peer : PeerId) : M W unit :=
  (* clear key pairs *)
  let* x := get_peer peer in
  DeleteKeypair (previous (p_keypairs x)) ;;;
  DeleteKeypair (current (p_keypairs x)) ;;;
  DeleteKeypair (next (p_keypairs x)) ;;;
  upd_peer peer (set_p_keypairs (mkKeypairs None None None)) ;;;
  (* clear handshake state *)
  let* h := get_handshake peer in
  table_Delete (hs_localIndex h) ;;;
  upd_handshake peer Clear ;;;
  FlushStagedPackets peer.

Definition ExpireCurrentKeypairs (peer : PeerId) : M W unit :=
  let* h := get_handshake peer in
  table_Delete (hs_localIndex h) ;;;
  upd_handshake peer Clear ;;;
  let* t := now in
  upd_handshake peer (set_hs_lastSentHandshake (time_Add t (- (RekeyTimeout + Second)))) ;;;
  let* x := get_peer peer in
  match current (p_keypairs x) with
  | None => ret tt
  | Some k => upd_keypair k (set_kp_sendNonce RejectAfterMessages)
  end ;;;
  match next (p_keypairs x) with
  | None => ret tt
  | Some k => upd_keypair k (set_kp_sendNonce RejectAfterMessages)
  end.

(** ** The expiration functions of the timers *)

Definition expiredRetransmitHandshake (peer : PeerId) : M W unit :=
  let* x := get_peer peer in
  if MaxTimerHandshakes <? tm_handshakeAttempts (p_timers x) then
    let* active := timersActive peer in
    whenM active (upd_timers peer (fun ts =>
      set_tm_sendKeepalive (Del (tm_sendKeepalive ts)) ts)) ;;;
    FlushStagedPackets peer ;;;
    let* active := timersActive peer in
    let* x := get_peer peer in
    whenM (active && negb (IsPending (tm_zeroKeyMaterial (p_timers x))))
      (upd_timers peer (fun ts =>
         set_tm_zeroKeyMaterial (Mod (RejectAfterTime * 3) (tm_zeroKeyMaterial ts)) ts))
  else
    upd_timers peer (fun ts =>
      set_tm_handshakeAttempts (u32 (tm_handshakeAttempts ts + 1)) ts) ;;;
    let* _ := SendHandshakeInitiation peer true in
    ret tt.

Definition expiredSendKeepalive (peer : PeerId) : M W unit :=
  let* _ := SendKeepalive peer in
  let* x := get_peer peer in
  whenM (tm_needAnotherKeepalive (p_timers x)) (
    upd_timers peer (set_tm_needAnotherKeepalive false) ;;;
    let* active := timersActive peer in
    whenM active (upd_timers peer (fun ts =>
      set_tm_sendKeepalive (Mod KeepaliveTimeout (tm_sendKeepalive ts)) ts))).

Definition expiredNewHandshake (peer : PeerId) : M W unit :=
  let* _ := SendHandshakeInitiation peer false in
  ret tt.

Definition expiredZeroKeyMaterial (peer : PeerId) : M W unit := ZeroAndFlushAll peer.

Definition expiredPersistentKeepalive (peer : PeerId) : M W unit :=
  let* x := get_peer peer in
  whenM (0 <? p_persistentKeepaliveInterval x) (
    let* _ := SendKeepalive peer in
    ret tt).

(** The five timers of a peer, with their expiration functions ([timersInit]). *)
Inductive TimerName :=
| retransmitHandshake | sendKeepalive | newHandshake | zeroKeyMaterial | persistentKeepalive.

Definition get_timer (n : TimerName) (ts : PeerTimers) : Timer :=
  match n with
  | retransmitHandshake => tm_retransmitHandshake ts
  | sendKeepalive => tm_sendKeepalive ts
  | newHandshake => tm_newHandshake ts
  | zeroKeyMaterial => tm_zeroKeyMaterial ts
  | persistentKeepalive => tm_persistentKeepalive ts
  end.
Definition set_timer (n : TimerName) (tm : Timer) (ts : PeerTimers) : PeerTimers :=
  match n with
  | retransmitHandshake => set_tm_retransmitHandshake tm ts
  | sendKeepalive => set_tm_sendKeepalive tm ts
  | newHandshake => set_tm_newHandshake tm ts
  | zeroKeyMaterial => set_tm_zeroKeyMaterial tm ts
  | persistentKeepalive => set_tm_persistentKeepalive tm ts
  end.
Definition expired (n : TimerName) : PeerId -> M W unit :=
  match n with
  | retransmitHandshake => expiredRetransmitHandshake
  | sendKeepalive => expiredSendKeepalive
  | newHandshake => expiredNewHandshake
  | zeroKeyMaterial => expiredZeroKeyMaterial
  | persistentKeepalive => expiredPersistentKeepalive
  end.

(** The callback of the runtime timer of [NewTimer]. *)
Definition timer_fires (n : TimerName) (peer : PeerId) : M W unit :=
  let* x := get_peer peer in
  let '(tm, due) := fire (get_timer n (p_timers x)) in
  upd_timers peer (set_timer n tm) ;;;
  whenM due (expired n peer).

(** ** Starting and stopping a peer *)

(** [flushInboundQueue] and [flushOutboundQueue]: the queues are drained (the
    sentinel is never left in them: [Stop] waits for the routines). *)
Definition flushInboundQueue (peer : PeerId) : M W unit :=
  let* x := get_peer peer in
  upd_peer peer (set_p_inbound []) ;;;
  forM (p_inbound x) (fun c =>
    match c with Some c => PutInboundElementsContainer c | None => ret tt end).
Definition flushOutboundQueue (peer : PeerId) : M W unit :=
  let* x := get_peer peer in
  upd_peer peer (set_p_outbound []) ;;;
  forM (p_outbound x) (fun c =>
    match c with Some c => PutOutboundElementsContainer c | None => ret tt end).

Definition Start (peer : PeerId) : M W unit :=
  let* closed := isClosed in
  let* x := get_peer peer in
  if closed || p_isRunning x then ret tt
  else
    let* t := now in
    upd_handshake peer (set_hs_lastSentHandshake (time_Add t (- (RekeyTimeout + Second)))) ;;;
    timersStart peer ;;;
    flushInboundQueue peer ;;;
    flushOutboundQueue peer ;;;
    (* the two routines start, [bufs] empty *)
    upd_peer peer (set_p_bufs []) ;;;
    upd_peer peer (set_p_isRunning true).

(** [n] turns of a routine, up to the first that stops it. *)
Fixpoint turns (n : nat) (routine : M W Progress) : M W unit :=
  match n with
  | O => ret tt
  | Datatypes.S n =>
      let* p := routine in
      match p with
      | Stopped => ret tt
      | _ => turns n routine
      end
  end.

Fixpoint repeatM (n : nat) (m : M W unit) : M W unit :=
  match n with
  | O => ret tt
  | Datatypes.S n => m ;;; repeatM n m
  end.

(** What [peer.stopping.Wait()] waits for: the workers release the containers
    of their queues and the two routines of the peer run to their sentinel. *)
Definition stopping_Wait (peer : PeerId) : M W unit :=
  let* n := gets (fun t => length (t_decryptionQ t)) in
  repeatM n RoutineDecryption ;;;
  let* x := get_peer peer in
  turns (length (p_inbound x)) (RoutineSequentialReceiver peer) ;;;
  let* n := gets (fun t => length (t_encryptionQ t)) in
  repeatM n RoutineEncryption ;;;
  let* x := get_peer peer in
  turns (length (p_outbound x)) (RoutineSequentialSender peer).

Definition Stop (peer : PeerId) : M W unit :=
  let* x := get_peer peer in
  upd_peer peer (set_p_isRunning false) ;;;
  if negb (p_isRunning x) then ret tt
  else
    timersStop peer ;;;
    upd_peer peer (fun x => set_p_inbound (p_inbound x ++ [None]) x) ;;;
    upd_peer peer (fun x => set_p_outbound (p_outbound x ++ [None]) x) ;;;
    stopping_Wait peer ;;;
    ZeroAndFlushAll peer.

(** ** Peers of the transport *)

Definition NewPeer (pk : NoisePublicKey) : M W (Error + PeerId) :=
  let* closed := isClosed in
  if closed then ret (inl ErrTransportClosed)
  else
    let* keyMap := gets t_keyMap in
    if MaxPeers <=? Z.of_nat (size keyMap) then ret (inl ErrTooManyPeers)
    else
      match keyMap !! pk with
      | Some _ => ret (inl ErrExistingPeer)
      | None =>
          let* peer := fresh in
          let* privateKey := gets t_privateKey in
          modify (fun t => set_t_peers (<[peer := zeroPeer]> (t_peers t)) t) ;;;
          upd_peer peer (set_p_pk pk) ;;;
          upd_peer peer (fun x => set_p_cookieGenerator (generator_Init (p_cookieGenerator x) pk) x) ;;;
          upd_handshake peer (set_hs_precomputedStaticStatic
            (default (zero_bytes 32) (sharedSecret privateKey pk))) ;;;
          upd_handshake peer (set_hs_remoteStatic pk) ;;;
          upd_peer peer (set_p_endpoint None) ;;;
          timersInit peer ;;;
          modify (fun t => set_t_keyMap (<[pk := peer]> (t_keyMap t)) t) ;;;
          ret (inr peer)
      end.

Definition LookupPeer (pk : NoisePublicKey) : M W (option PeerId) :=
  gets (fun t => t_keyMap t !! pk).

Definition removePeerLocked (peer : PeerId) (key : NoisePublicKey) : M W unit :=
  Stop peer ;;;
  modify (fun t => set_t_keyMap (delete key (t_keyMap t)) t).

Definition RemovePeer (key : NoisePublicKey) : M W unit :=
  let* keyMap := gets t_keyMap in
  match keyMap !! key with
  | None => ret tt
  | Some peer => removePeerLocked peer key
  end.

Definition RemoveAllPeers : M W unit :=
  let* keyMap := gets t_keyMap in
  forM (map_to_list keyMap) (fun kp => removePeerLocked kp.2 kp.1) ;;;
  modify (set_t_keyMap ∅).

(** ** The bind *)

Definition closeBindLocked : M W (option Error) := on_bind bind_Close.

Definition BindUpdate : M W (option Error) :=
  (* close existing sockets *)
  let* err := closeBindLocked in
  match err with
  | Some err => ret (Some err)
  | None =>
      (* open new sockets *)
      let* up := isUp in
      if negb up then ret None
      else
        let* port := gets t_port in
        let* (port, err) := on_bind (bind_Open port) in
        modify (set_t_port port) ;;;
        match err with
        | Some err => modify (set_t_port 0) ;;; ret (Some err)
        | None => ret None
        end
  end.

Definition BindClose : M W (option Error) := closeBindLocked.

Definition UpdatePort (port : Z) : M W (option Error) :=
  modify (set_t_port port) ;;;
  BindUpdate.

(** ** The state of the transport *)

Definition all_peers : M W (list PeerId) := gets (fun t => map snd (map_to_list (t_keyMap t))).

Definition upLocked : M W (option Error) :=
  let* err := BindUpdate in
  match err with
  | Some err => ret (Some err)
  | None =>
      let* peers := all_peers in
      forM peers (fun peer =>
        Start peer ;;;
        let* x := get_peer peer in
        whenM (0 <? p_persistentKeepaliveInterval x) (
          let* _ := SendKeepalive peer in ret tt)) ;;;
      ret None
  end.

Definition downLocked : M W (option Error) :=
  let* err := BindClose in
  let* peers := all_peers in
  forM peers Stop ;;;
  ret err.

Definition changeState (want : transportState) : M W (option Error) :=
  let* old := gets t_state in
  if bool_decide (old = transportStateClosed) then ret None
  else if bool_decide (want = old) then ret None
  else
    let down (err : option Error) :=
      modify (set_t_state transportStateDown) ;;;
      let* errDown := downLocked in
      ret (match err with None => errDown | Some _ => err end) in
    match want with
    | transportStateUp =>
        modify (set_t_state transportStateUp) ;;;
        let* err := upLocked in
        match err with
        | None => ret None
        | Some _ => down err
        end
    | transportStateDown => down None
    | transportStateClosed => ret None
    end.

Definition Up : M W (option Error) := changeState transportStateUp.
Definition Down : M W (option Error) := changeState transportStateDown.

Definition SetPrivateKey (sk : NoisePrivateKey) : M W unit :=
  let* privateKey := gets t_privateKey in
  if key_Equals sk privateKey then ret tt
  else
    (* remove peers with matching public keys *)
    let publicKey := PublicKey sk in
    let* keyMap := gets t_keyMap in
    forM (map_to_list keyMap) (fun kp =>
      let* h := get_handshake kp.2 in
      whenM (key_Equals (hs_remoteStatic h) publicKey) (removePeerLocked kp.2 kp.1)) ;;;
    (* update key material *)
    modify (set_t_privateKey sk) ;;;
    modify (set_t_publicKey publicKey) ;;;
    modify (fun t => set_t_cookieChecker (checker_Init (t_cookieChecker t) publicKey) t) ;;;
    (* do static-static DH pre-computations *)
    let* peers := all_peers in
    forM peers (fun peer =>
      upd_handshake peer (fun h => set_hs_precomputedStaticStatic
        (default (zero_bytes 32) (sharedSecret sk (hs_remoteStatic h))) h)) ;;;
    forM peers ExpireCurrentKeypairs.

(** [rate.limiter.Close()]; [false]: it panics. *)
Definition limiter_Close : M W bool :=
  let* rate := gets t_limiter in
  match RateLimiter.Close rate with
  | None => ret false
  | Some rate => modify (set_t_limiter rate) ;;; ret true
  end.

(** [Close]; the answer is whether it returned without a panic. *)
Definition Close : M W bool :=
  let* closed := isClosed in
  if closed then ret true
  else
    modify (set_t_state transportStateClosed) ;;;
    let* _ := on_sink sink_Close in
    let* _ := downLocked in
    RemoveAllPeers ;;;
    let* ok := limiter_Close in
    whenM ok (modify (set_t_closed true)) ;;;
    ret ok.

Definition SendKeepalivesToPeersWithCurrentKeypair : M W unit :=
  let* up := isUp in
  if negb up then ret tt
  else
    let* peers := all_peers in
    forM peers (fun peer =>
      let* x := get_peer peer in
      match current (p_keypairs x) with
      | None => ret tt
      | Some k =>
          let* kp := get_keypair k in
          let* t := now in
          whenM (negb (time_Add (kp_created kp) RejectAfterTime <? t)) (
            let* _ := SendKeepalive peer in ret tt)
      end).

End Lifecycle.
End Lifecycle.
