(* ===== verification/Buffers.v ===== *)
(** The memory behind the inbound flow: the message buffers, elements and
    containers of internal/transport/pools.go that receive.go and channels.go
    take, hand on by pointer and give back.

    Receive.v treats what is in a queue as values.  Here a buffer is an address:
    a reader fills the buffers it has, an element points to the buffer its
    datagram is in, decryption writes into it, and what is given back to a pool
    is filled again.  The steps of the readers, the decryption and handshake
    workers, the receivers of the peers and the finalizers interleave freely.
    The outbound flow takes its message buffers from the same pool; here it is no
    more than the buffers it has, which it may write into and gives back.
    The pools are those of the transport, without a bound (Pools.v): any object
    that was given back may be handed out next, or a new one, and the garbage
    collector may take some. *)
From S2P Require Import Prelude Env Crypto Wire State Receive.
From stdpp Require Import prelude gmap list relations.
Open Scope Z_scope.

Module Buffers.
Import Env.Env Crypto.Noise_helpers Wire.Wire State.State Receive.Receive.

(** ** The pools *)

(** A [sync.Pool] and the objects it has handed out, by address: [free] in the
    order in which they are handed out, [aside] what is not at hand (another
    processor's), [gone] what was collected; addresses from [fresh] on are not
    yet in use. *)
Record Pool (A : Type) := mkPool {
  heap : gmap nat A;
  free : list nat;
  aside : list nat;
  gone : list nat;
  fresh : nat;
}.
Arguments mkPool {A}.
Arguments heap {A}.
Arguments free {A}.
Arguments aside {A}.
Arguments gone {A}.
Arguments fresh {A}.

Definition pool_Get {A} (p : Pool A) : Pool A * nat :=
  match free p with
  | x :: l => (mkPool (heap p) l (aside p) (gone p) (fresh p), x)
  | [] => (mkPool (heap p) [] (aside p) (gone p) (S (fresh p)), fresh p)
  end.

Definition pool_Put {A} (x : nat) (p : Pool A) : Pool A :=
  mkPool (heap p) (x :: free p) (aside p) (gone p) (fresh p).

Definition pool_write {A} (x : nat) (a : A) (p : Pool A) : Pool A :=
  mkPool (<[x := a]> (heap p)) (free p) (aside p) (gone p) (fresh p).

(** The objects that are not in use go where the scheduler and the collector
    want them. *)
Definition pool_mix {A} (l h g : list nat) (p : Pool A) : option (Pool A) :=
  if decide (l ++ h ++ g ≡ₚ free p ++ aside p) then Some (mkPool (heap p) l h (g ++ gone p) (fresh p))
  else None.

Definition empty_pool {A} : Pool A := mkPool ∅ [] [] [] 0.

(** ** The objects *)

(** [type QueueInboundElement struct]: [el_packet] is a part of the buffer, by
    its offset and length.  [el_datum], which no step reads, is the datagram the
    element was made for. *)
Record Elem := mkElem {
  el_buffer : option nat;
  el_packet : option (nat * nat);
  el_counter : Z;
  el_keypair : option KeypairId;
  el_endpoint : option Endpoint;
  el_datum : bytes;
}.
Definition zeroElem : Elem := mkElem None None 0 None None [].

(** [type QueueInboundElementsContainer struct]. *)
Record Cont := mkCont { ct_locked : bool; ct_elems : list nat }.
Definition zeroCont : Cont := mkCont false [].

(** [type QueueHandshakeElement struct]; the packet is the front of the buffer. *)
Record Hs := mkHs { h_msgType : Z; h_buffer : nat; h_size : nat; h_endpoint : Endpoint; h_datum : bytes }.

(** What [recv] has put at an index of its slices; [pk_datum], which no step
    reads, is the datagram itself. *)
Record Pkt := mkPkt { pk_index : nat; pk_size : nat; pk_endpoint : Endpoint; pk_datum : bytes }.

(** The locals of [RoutineReceiveIncoming]: [bufsArrs], what the loop over the
    batch has still to do, [elemsByPeer]. *)
Record Reader := mkReader {
  r_arrs : list nat;
  r_pending : list Pkt;
  r_groups : gmap PeerId nat;
}.

(** [peer.queue.inbound.c] and the container [RoutineSequentialReceiver] works on. *)
Record Inbox := mkInbox { ib_queue : list nat; ib_hold : option nat }.

(** A decryption worker: the container and the elements it has still to open. *)
Record Worker := mkWorker { w_cont : nat; w_todo : list nat }.

Record Mem := mkMem {
  buffers : Pool bytes;
  elements : Pool Elem;
  containers : Pool Cont;
  readers : list Reader;
  inboxes : list Inbox;
  decryption : list nat;             (* queue.decryption.c *)
  workers : list (option Worker);
  handshake : list Hs;               (* queue.handshake.c *)
  handling : list Hs;                (* with the handshake workers *)
  lost : list nat;                   (* containers a receiver has left behind *)
  outbound : list nat;               (* message buffers the outbound flow has taken *)
  nil_put : bool;                    (* a nil was given to a pool or opened *)
}.

Definition start (nreaders npeers nworkers : nat) : Mem :=
  mkMem empty_pool empty_pool empty_pool (replicate nreaders (mkReader [] [] ∅))
    (replicate npeers (mkInbox [] None)) [] (replicate nworkers None) [] [] [] [] false.

Definition on_buffers (f : Pool bytes -> Pool bytes) (s : Mem) : Mem :=
  mkMem (f (buffers s)) (elements s) (containers s) (readers s) (inboxes s) (decryption s) (workers s)
    (handshake s) (handling s) (lost s) (outbound s) (nil_put s).
Definition on_elements (f : Pool Elem -> Pool Elem) (s : Mem) : Mem :=
  mkMem (buffers s) (f (elements s)) (containers s) (readers s) (inboxes s) (decryption s) (workers s)
    (handshake s) (handling s) (lost s) (outbound s) (nil_put s).
Definition on_containers (f : Pool Cont -> Pool Cont) (s : Mem) : Mem :=
  mkMem (buffers s) (elements s) (f (containers s)) (readers s) (inboxes s) (decryption s) (workers s)
    (handshake s) (handling s) (lost s) (outbound s) (nil_put s).
Definition set_reader (r : nat) (x : Reader) (s : Mem) : Mem :=
  mkMem (buffers s) (elements s) (containers s) (<[r := x]> (readers s)) (inboxes s) (decryption s) (workers s)
    (handshake s) (handling s) (lost s) (outbound s) (nil_put s).
Definition set_inbox (p : PeerId) (x : Inbox) (s : Mem) : Mem :=
  mkMem (buffers s) (elements s) (containers s) (readers s) (<[p := x]> (inboxes s)) (decryption s) (workers s)
    (handshake s) (handling s) (lost s) (outbound s) (nil_put s).
Definition set_decryption (l : list nat) (s : Mem) : Mem :=
  mkMem (buffers s) (elements s) (containers s) (readers s) (inboxes s) l (workers s)
    (handshake s) (handling s) (lost s) (outbound s) (nil_put s).
Definition set_worker (w : nat) (x : option Worker) (s : Mem) : Mem :=
  mkMem (buffers s) (elements s) (containers s) (readers s) (inboxes s) (decryption s) (<[w := x]> (workers s))
    (handshake s) (handling s) (lost s) (outbound s) (nil_put s).
Definition set_handshake (l : list Hs) (s : Mem) : Mem :=
  mkMem (buffers s) (elements s) (containers s) (readers s) (inboxes s) (decryption s) (workers s)
    l (handling s) (lost s) (outbound s) (nil_put s).
Definition set_handling (l : list Hs) (s : Mem) : Mem :=
  mkMem (buffers s) (elements s) (containers s) (readers s) (inboxes s) (decryption s) (workers s)
    (handshake s) l (lost s) (outbound s) (nil_put s).
Definition set_lost (l : list nat) (s : Mem) : Mem :=
  mkMem (buffers s) (elements s) (containers s) (readers s) (inboxes s) (decryption s) (workers s)
    (handshake s) (handling s) l (outbound s) (nil_put s).
Definition set_outbound (l : list nat) (s : Mem) : Mem :=
  mkMem (buffers s) (elements s) (containers s) (readers s) (inboxes s) (decryption s) (workers s)
    (handshake s) (handling s) (lost s) l (nil_put s).
Definition set_nil_put (s : Mem) : Mem :=
  mkMem (buffers s) (elements s) (containers s) (readers s) (inboxes s) (decryption s) (workers s)
    (handshake s) (handling s) (lost s) (outbound s) true.

Definition buf_at (s : Mem) (b : nat) : bytes := default [] (heap (buffers s) !! b).
Definition elem_at (s : Mem) (e : nat) : Elem := default zeroElem (heap (elements s) !! e).
Definition cont_at (s : Mem) (c : nat) : Cont := default zeroCont (heap (containers s) !! c).
Definition write_buf (b : nat) (x : bytes) : Mem -> Mem := on_buffers (pool_write b x).
Definition write_elem (e : nat) (x : Elem) : Mem -> Mem := on_elements (pool_write e x).
Definition write_cont (c : nat) (x : Cont) : Mem -> Mem := on_containers (pool_write c x).

(** ** Getting and putting *)

Definition GetMessageBuffer : M Mem nat := fun s =>
  let '(p, b) := pool_Get (buffers s) in (on_buffers (fun _ => p) s, b).

Definition PutMessageBuffer (msg : option nat) : M Mem unit := fun s =>
  match msg with
  | Some b => (on_buffers (pool_Put b) s, tt)
  | None => (set_nil_put s, tt)
  end.

Definition GetInboundElement : M Mem nat := fun s =>
  let '(p, e) := pool_Get (elements s) in (on_elements (fun _ => p) s, e).

Definition clearPointers (e : Elem) : Elem := mkElem None None (el_counter e) None None (el_datum e).

Definition PutInboundElement (e : nat) : M Mem unit := fun s =>
  (on_elements (pool_Put e) (write_elem e (clearPointers (elem_at s e)) s), tt).

Definition GetInboundElementsContainer : M Mem nat := fun s =>
  let '(p, c) := pool_Get (containers s) in
  let s := on_containers (fun _ => p) s in
  (write_cont c (mkCont false (ct_elems (cont_at s c))) s, c).

Definition PutInboundElementsContainer (c : nat) : M Mem unit := fun s =>
  (on_containers (pool_Put c) (write_cont c (mkCont (ct_locked (cont_at s c)) []) s), tt).

(** An element and its buffer go back. *)
Definition put_element (e : nat) : M Mem unit :=
  let* elem := gets (fun s => elem_at s e) in
  PutMessageBuffer (el_buffer elem) ;;;
  PutInboundElement e.

(** The elements of a container with their buffers, and the container. *)
Definition put_all (c : nat) : M Mem unit :=
  let* x := gets (fun s => cont_at s c) in
  forM (ct_elems x) put_element ;;;
  PutInboundElementsContainer c.

(** ** The steps *)

Inductive mem_action :=
| Grow (r : nat)                                        (* bufsArrs[i] = GetMessageBuffer() *)
| Recv (r : nat) (contents : list bytes) (pkts : list (nat * Endpoint))
| Sort (r : nat) (route : option (PeerId * KeypairId))  (* the loop over the batch, once *)
| Deliver (r : nat) (p : PeerId) (running : bool)       (* the loop over elemsByPeer, once *)
| Return (r : nat)
| Take_decryption (w : nat)
| Decrypt (w : nat) (junk : bytes)
| Unlock (w : nat)
| Take_handshake
| Done_handshake (i : nat)
| Take_inbound (p : PeerId)
| Release (p : PeerId) (err : bool)
| Flush (p : PeerId)                                    (* flushInboundQueue, once *)
| Borrow                                                (* the outbound flow, which shares the pool of *)
| Scribble (i : nat) (x : bytes)                        (* the message buffers: it takes them, writes *)
| Give_back (i : nat)                                   (* into them and gives them back *)
| Mix_buffers (l h g : list nat)
| Mix_elements (l h g : list nat)
| Mix_containers (l h g : list nat).

Section Buffers.
Context {C : Crypto} (keys : KeypairId -> Keypair) (maxBatchSize : nat).

(** What [recv] leaves in the buffers of the reader. *)
Fixpoint fill_buffers (arrs : list nat) (contents : list bytes) (s : Mem) : Mem :=
  match arrs, contents with
  | b :: arrs, x :: contents => fill_buffers arrs contents (write_buf b x s)
  | _, _ => s
  end.

Definition batch_of (contents : list bytes) (pkts : list (nat * Endpoint)) : list Pkt :=
  imap (fun i pkt => mkPkt i (fst pkt) (snd pkt) (take (fst pkt) (default [] (contents !! i)))) pkts.

(** The reader takes a new buffer in place of the one at [i]. *)
Definition replace_buffer (r i : nat) : M Mem unit :=
  let* b := GetMessageBuffer in
  modify (fun s =>
    match readers s !! r with
    | Some rd => set_reader r (mkReader (<[i := b]> (r_arrs rd)) (r_pending rd) (r_groups rd)) s
    | None => s
    end).

(** A container of [elemsByPeer], made where there is none. *)
Definition group_container (r : nat) (p : PeerId) : M Mem nat :=
  let* rd := gets (fun s => readers s !! r) in
  match rd ≫= (fun rd => r_groups rd !! p) with
  | Some c => ret c
  | None =>
      let* c := GetInboundElementsContainer in
      modify (fun s =>
        let s := write_cont c (mkCont true (ct_elems (cont_at s c))) s in
        match readers s !! r with
        | Some rd => set_reader r (mkReader (r_arrs rd) (r_pending rd) (<[p := c]> (r_groups rd))) s
        | None => s
        end) ;;;
      ret c
  end.

(** The element of a transport message joins the container of its peer. *)
Definition add_element (r : nat) (p : PeerId) (k : KeypairId) (b : nat) (pkt : Pkt) : M Mem unit :=
  let* elem := GetInboundElement in
  modify (write_elem elem
    (mkElem (Some b) (Some (0%nat, pk_size pkt)) 0 (Some k) (Some (pk_endpoint pkt)) (pk_datum pkt))) ;;;
  let* c := group_container r p in
  modify (fun s => write_cont c (mkCont (ct_locked (cont_at s c)) (ct_elems (cont_at s c) ++ [elem])) s).

(** One datagram of the batch, in the buffer [b]; [route] is what
    the index table says of a transport message, [None] where there is no keypair
    or one that is too old. *)
Definition sort_packet (r b : nat) (pkt : Pkt) (route : option (PeerId * KeypairId)) : M Mem unit :=
  let size := pk_size pkt in
  let* buf := gets (fun s => buf_at s b) in
  let packet := take size buf in
  if (size <? MinMessageSize)%nat then ret tt
  else
    let msgType := le_get (slice 0 4 packet) in
    if msgType =? MessageTransportType then
      if (size <? MessageTransportSize)%nat then ret tt
      else
        match route with
        | None => ret tt
        | Some (p, k) => add_element r p k b pkt ;;; replace_buffer r (pk_index pkt)
        end
    else
      match handshake_size msgType with
      | None => ret tt
      | Some n =>
          if negb (size =? n)%nat then ret tt
          else
            let* q := gets handshake in
            if Z.of_nat (length q) <? QueueHandshakeSize then
              modify (set_handshake (q ++ [mkHs msgType b size (pk_endpoint pkt) (pk_datum pkt)])) ;;;
              replace_buffer r (pk_index pkt)
            else ret tt
      end.

(** The part of a buffer an element calls its packet. *)
Definition packet_of (s : Mem) (b : nat) (pkt : nat * nat) : bytes :=
  slice (fst pkt) (fst pkt + snd pkt) (buf_at s b).

(** One element of [RoutineDecryption].  [Open] writes over the content; where it
    fails, with whatever it has ([junk]). *)
Definition decrypt_element (e : nat) (junk : bytes) : M Mem unit :=
  let* s := gets (fun s => s) in
  let elem := elem_at s e in
  match el_buffer elem, el_packet elem, el_keypair elem with
  | Some b, Some (off, len), Some k =>
      let packet := packet_of s b (off, len) in
      let counter := le_get (slice MessageTransportOffsetCounter MessageTransportOffsetContent packet) in
      let content := drop MessageTransportOffsetContent packet in
      let at_content := (off + MessageTransportOffsetContent)%nat in
      match aead_Open (kp_receive (keys k)) (aead_nonce counter) content [] with
      | Some plain =>
          modify (write_buf b (splice at_content plain (buf_at s b))) ;;;
          modify (write_elem e (mkElem (Some b) (Some (at_content, length plain)) counter (Some k)
            (el_endpoint elem) (el_datum elem)))
      | None =>
          modify (write_buf b (splice at_content (take (length content) junk) (buf_at s b))) ;;;
          modify (write_elem e (mkElem (Some b) None counter (Some k) (el_endpoint elem) (el_datum elem)))
      end
  | _, _, _ => modify set_nil_put
  end.

(** The step of an action; [None] where it can not be taken. *)
Definition mem_exec (a : mem_action) (s : Mem) : option Mem :=
  match a with
  | Grow r =>
      rd ← readers s !! r;
      if (length (r_arrs rd) <? maxBatchSize)%nat then
        let '(s, b) := GetMessageBuffer s in
        Some (set_reader r (mkReader (r_arrs rd ++ [b]) (r_pending rd) (r_groups rd)) s)
      else None
  | Recv r contents pkts =>
      rd ← readers s !! r;
      if decide (length (r_arrs rd) = maxBatchSize /\ r_pending rd = [] /\ r_groups rd = ∅ /\
                 length contents = maxBatchSize /\ (length pkts <= maxBatchSize)%nat /\
                 Forall2 (fun x pkt => fst pkt <= length x)%nat (take (length pkts) contents) pkts) then
        Some (set_reader r (mkReader (r_arrs rd) (batch_of contents pkts) ∅) (fill_buffers (r_arrs rd) contents s))
      else None
  | Sort r route =>
      rd ← readers s !! r;
      match r_pending rd with
      | [] => None
      | pkt :: pending =>
          b ← r_arrs rd !! pk_index pkt;
          let s := set_reader r (mkReader (r_arrs rd) pending (r_groups rd)) s in
          Some (fst (sort_packet r b pkt route s))
      end
  | Deliver r p running =>
      rd ← readers s !! r;
      c ← r_groups rd !! p;
      ib ← inboxes s !! p;
      if decide (r_pending rd = []) then
        let s := set_reader r (mkReader (r_arrs rd) [] (delete p (r_groups rd))) s in
        if (running : bool) then
          Some (set_decryption (decryption s ++ [c]) (set_inbox p (mkInbox (ib_queue ib ++ [c]) (ib_hold ib)) s))
        else Some (fst (put_all c s))
      else None
  | Return r =>
      rd ← readers s !! r;
      if decide (length (r_arrs rd) = maxBatchSize /\ r_pending rd = [] /\ r_groups rd = ∅) then
        Some (fst (forM (r_arrs rd) (fun b => PutMessageBuffer (Some b)) (set_reader r (mkReader [] [] ∅) s)))
      else None
  | Take_decryption w =>
      match workers s !! w, decryption s with
      | Some None, c :: q =>
          Some (set_worker w (Some (mkWorker c (ct_elems (cont_at s c)))) (set_decryption q s))
      | _, _ => None
      end
  | Decrypt w junk =>
      match workers s !! w with
      | Some (Some (mkWorker c (e :: todo))) =>
          Some (set_worker w (Some (mkWorker c todo)) (fst (decrypt_element e junk s)))
      | _ => None
      end
  | Unlock w =>
      match workers s !! w with
      | Some (Some (mkWorker c [])) =>
          Some (set_worker w None (write_cont c (mkCont false (ct_elems (cont_at s c))) s))
      | _ => None
      end
  | Take_handshake =>
      match handshake s with
      | [] => None
      | h :: q => Some (set_handling (handling s ++ [h]) (set_handshake q s))
      end
  | Done_handshake i =>
      h ← handling s !! i;
      Some (fst (PutMessageBuffer (Some (h_buffer h)) (set_handling (delete i (handling s)) s)))
  | Take_inbound p =>
      match inboxes s !! p with
      | Some (mkInbox (c :: q) None) =>
          if ct_locked (cont_at s c) then None
          else Some (write_cont c (mkCont true (ct_elems (cont_at s c))) (set_inbox p (mkInbox q (Some c)) s))
      | _ => None
      end
  | Release p err =>
      match inboxes s !! p with
      | Some (mkInbox q (Some c)) =>
          let s := set_inbox p (mkInbox q None) s in
          if (err : bool) then Some (set_lost (c :: lost s) s) else Some (fst (put_all c s))
      | _ => None
      end
  | Flush p =>
      match inboxes s !! p with
      | Some (mkInbox (c :: q) hold) =>
          if ct_locked (cont_at s c) then None
          else Some (fst (put_all c (set_inbox p (mkInbox q hold) s)))
      | _ => None
      end
  | Borrow => let '(s, b) := GetMessageBuffer s in Some (set_outbound (outbound s ++ [b]) s)
  | Scribble i x => b ← outbound s !! i; Some (write_buf b x s)
  | Give_back i =>
      b ← outbound s !! i;
      Some (fst (PutMessageBuffer (Some b) (set_outbound (delete i (outbound s)) s)))
  | Mix_buffers l h g => x ← pool_mix l h g (buffers s); Some (on_buffers (fun _ => x) s)
  | Mix_elements l h g => x ← pool_mix l h g (elements s); Some (on_elements (fun _ => x) s)
  | Mix_containers l h g => x ← pool_mix l h g (containers s); Some (on_containers (fun _ => x) s)
  end.

Inductive step (s s' : Mem) : Prop :=
| step_exec a : mem_exec a s = Some s' -> step s s'.

Definition reachable (s : Mem) : Prop := exists n1 n2 n3, rtc step (start n1 n2 n3) s.

(** ** The places of the objects *)

Definition r_conts (rd : Reader) : list nat := snd <$> map_to_list (r_groups rd).
Definition ib_conts (ib : Inbox) : list nat := ib_queue ib ++ option_list (ib_hold ib).
Definition conts (s : Mem) : list nat := (readers s ≫= r_conts) ++ (inboxes s ≫= ib_conts) ++ lost s.
Definition elems_of (s : Mem) (c : nat) : list nat := ct_elems (cont_at s c).
Definition elems (s : Mem) : list nat := conts s ≫= elems_of s.
Definition buf_of (s : Mem) (e : nat) : list nat := option_list (el_buffer (elem_at s e)).
Definition front (s : Mem) : list nat :=
  (readers s ≫= r_arrs) ++ (h_buffer <$> handshake s) ++ (h_buffer <$> handling s) ++ outbound s.
Definition bufs (s : Mem) : list nat := front s ++ (elems s ≫= buf_of s).
Definition idle {A} (p : Pool A) : list nat := free p ++ aside p ++ gone p.

(** A list of steps. *)
Fixpoint mem_exec_all (l : list mem_action) (s : Mem) : option Mem :=
  match l with
  | [] => Some s
  | a :: l => s ← mem_exec a s; mem_exec_all l s
  end.

End Buffers.
End Buffers.
