(* ===== verification/Ownership.v ===== *)
(** Who owns the objects of Buffers.v: the account of every object, and that what
    a holder of a buffer reads is what was put there for it. *)
From S2P Require Import Prelude Env Crypto Wire State Receive Buffers.
From stdpp Require Import prelude gmap list relations.
Open Scope Z_scope.

Module Ownership.
Import Env.Env Crypto.Noise_helpers Wire.Wire State.State Receive.Receive Buffers.Buffers.

Section Ownership.
Context {C : Crypto} (keys : KeypairId -> Keypair) (maxBatchSize : nat).
Abbreviation mem_exec := (mem_exec keys maxBatchSize).
Abbreviation mem_exec_all := (mem_exec_all keys maxBatchSize).
Abbreviation step := (step keys maxBatchSize).
Abbreviation reachable := (reachable keys maxBatchSize).
Abbreviation decrypt_element := (decrypt_element keys).

(** ** Counting *)

Definition occ (x : nat) (l : list nat) : nat := count_occ Nat.eq_dec l x.
Arguments occ : simpl never.

Lemma occ_app x l1 l2 : occ x (l1 ++ l2) = (occ x l1 + occ x l2)%nat.
Proof. apply count_occ_app. Qed.
Lemma occ_cons x y l : occ x (y :: l) = (occ x [y] + occ x l)%nat.
Proof. apply (occ_app x [y] l). Qed.
Lemma occ_nil x : occ x [] = 0%nat.
Proof. done. Qed.
Lemma occ_one x y : occ x [y] = if decide (x = y) then 1%nat else 0%nat.
Proof. unfold occ. simpl. repeat case_match; congruence. Qed.
Lemma occ_perm x l1 l2 : l1 ≡ₚ l2 -> occ x l1 = occ x l2.
Proof. intros H. unfold occ. by rewrite (proj1 (Permutation_count_occ Nat.eq_dec l1 l2) H). Qed.
Lemma occ_in x l : x ∈ l <-> (0 < occ x l)%nat.
Proof. rewrite list_elem_of_In. unfold occ. rewrite (count_occ_In Nat.eq_dec l x). lia. Qed.

Lemma occ_bind_app {A} x (f : A -> list nat) l1 l2 : occ x ((l1 ++ l2) ≫= f) = (occ x (l1 ≫= f) + occ x (l2 ≫= f))%nat.
Proof. by rewrite bind_app, occ_app. Qed.

Lemma occ_bind_insert {A} x (f : A -> list nat) l : forall i a b, l !! i = Some a ->
  (occ x (<[i := b]> l ≫= f) + occ x (f a) = occ x (l ≫= f) + occ x (f b))%nat.
Proof.
  induction l as [|y l IH]; intros [|i] a b H; [done..|injection H as ->|]; csimpl; rewrite !occ_app; [lia|].
  specialize (IH i a b H). lia.
Qed.

Lemma occ_insert x l i a b : l !! i = Some a -> (occ x (<[i := b]> l) + occ x [a] = occ x l + occ x [b])%nat.
Proof.
  assert (Hid : forall l : list nat, l ≫= (fun y => [y]) = l) by (clear; intros l; induction l; [done|]; csimpl; by f_equal).
  intros H. pose proof (occ_bind_insert x (fun y => [y]) l i a b H) as E. by rewrite !Hid in E.
Qed.

Lemma bind_same {A B} (f g : A -> list B) l : (forall y, y ∈ l -> f y = g y) -> l ≫= f = l ≫= g.
Proof. induction l as [|y l IH]; intros H; [done|]. csimpl. rewrite IH by set_solver. f_equal. set_solver. Qed.

(** What is in the pools, in the places and in hand, is each object once. *)
Definition counted {A} (p : Pool A) (places hand : list nat) : Prop :=
  forall x, (occ x (idle p) + occ x places + occ x hand = if decide (x < fresh p)%nat then 1 else 0)%nat.

Record acct (hb he hc : list nat) (s : Mem) : Prop := {
  ac_bufs : counted (buffers s) (bufs s) hb;
  ac_elems : counted (elements s) (elems s) he;
  ac_conts : counted (containers s) (conts s) hc;
  ac_empty : forall c, c ∉ conts s -> c ∉ hc -> elems_of s c = [];
}.

Lemma counted_hand {A} (p : Pool A) places hand x : counted p places hand -> x ∈ hand -> x ∉ places.
Proof. intros H Hx Hp. specialize (H x). apply occ_in in Hx, Hp. case_decide; lia. Qed.

Lemma counted_le {A} (p : Pool A) places hand x : counted p places hand -> (occ x places + occ x hand <= 1)%nat.
Proof. intros H. specialize (H x). case_decide; lia. Qed.

Lemma counted_ext {A B} (p : Pool A) (q : Pool B) l1 l2 h1 h2 : fresh q = fresh p ->
  (forall x, occ x (idle q) + occ x l2 + occ x h2 = occ x (idle p) + occ x l1 + occ x h1)%nat ->
  counted p l1 h1 -> counted q l2 h2.
Proof. intros Hf H Hc x. by rewrite H, Hf. Qed.

Lemma counted_Get {A} (p : Pool A) l h : counted p l h -> counted (fst (pool_Get p)) l (snd (pool_Get p) :: h).
Proof.
  intros H x. specialize (H x). unfold idle in *. rewrite !occ_app in *. unfold pool_Get. destruct (free p) as [|y l'] eqn:E.
  - cbn [fst snd free aside gone fresh]. rewrite (occ_cons x _ h), occ_one. rewrite occ_nil in *.
    repeat case_decide; lia.
  - cbn [fst snd free aside gone fresh]. rewrite (occ_cons x _ h). rewrite (occ_cons x y l') in H. lia.
Qed.

Lemma counted_Put {A} (p : Pool A) l h x : counted p l (x :: h) -> counted (pool_Put x p) l h.
Proof.
  apply counted_ext; [done|]. intros y. unfold idle, pool_Put. cbn [free aside gone].
  rewrite !occ_app, (occ_cons y x (free p)), (occ_cons y x h). lia.
Qed.

Lemma counted_mix {A} l h g (p q : Pool A) ps hd : pool_mix l h g p = Some q -> counted p ps hd -> counted q ps hd.
Proof.
  unfold pool_mix. case_decide as Hp; [|done]. intros [= <-]. apply counted_ext; [done|]. intros x. unfold idle. simpl.
  apply (occ_perm x) in Hp. rewrite !occ_app in *. lia.
Qed.

(** ** Getting, putting and writing in the account *)

Lemma buf_of_write e x s e' : e <> e' -> buf_of (write_elem e x s) e' = buf_of s e'.
Proof. intros He. unfold buf_of, elem_at. simpl. by rewrite lookup_insert_ne. Qed.

Lemma elem_at_write e x s : elem_at (write_elem e x s) e = x.
Proof. unfold elem_at. simpl. by rewrite lookup_insert_eq. Qed.

Lemma elem_at_other e x s e' : e <> e' -> elem_at (write_elem e x s) e' = elem_at s e'.
Proof. intros He. unfold elem_at. simpl. by rewrite lookup_insert_ne. Qed.

Lemma cont_at_write c x s c' : cont_at (write_cont c x s) c' = if decide (c = c') then x else cont_at s c'.
Proof. unfold cont_at. simpl. rewrite lookup_insert. by case_decide. Qed.

Lemma buf_at_write b x s b' : buf_at (write_buf b x s) b' = if decide (b = b') then x else buf_at s b'.
Proof. unfold buf_at. simpl. rewrite lookup_insert. by case_decide. Qed.

Lemma acct_write_buf b x hb he hc s : acct hb he hc s -> acct hb he hc (write_buf b x s).
Proof. by intros []. Qed.

Lemma acct_write_elem e x hb he hc s : e ∉ elems s -> acct hb he hc s -> acct hb he hc (write_elem e x s).
Proof.
  intros He [H1 H2 H3 H4]. split; [|done..].
  assert (E : bufs (write_elem e x s) = bufs s); [|by rewrite E].
  unfold bufs. f_equal. apply bind_same. intros y Hy. apply buf_of_write. by intros ->.
Qed.

(** A change of a container that leaves its elements, or of one that is in no place. *)
Lemma elems_write_cont c x s : ct_elems x = elems_of s c \/ c ∉ conts s -> elems (write_cont c x s) = elems s.
Proof.
  intros Hx. unfold elems. change (conts (write_cont c x s)) with (conts s). apply bind_same. intros y Hy.
  unfold elems_of at 1. rewrite cont_at_write. case_decide as Hc; [|done]. subst. by destruct Hx.
Qed.

Lemma acct_write_cont c x hb he hc s : ct_elems x = elems_of s c \/ (c ∉ conts s /\ (c ∈ hc \/ ct_elems x = [])) ->
  acct hb he hc s -> acct hb he hc (write_cont c x s).
Proof.
  intros Hx [H1 H2 H3 H4].
  assert (E : elems (write_cont c x s) = elems s) by (apply elems_write_cont; tauto).
  split; [|by rewrite E|done|].
  - assert (E' : bufs (write_cont c x s) = bufs s); [|by rewrite E'].
    change (bufs (write_cont c x s)) with (front s ++ (elems (write_cont c x s) ≫= buf_of s)).
    by rewrite E.
  - intros y Hy Hh. unfold elems_of at 1. rewrite cont_at_write. case_decide as Hc; [|by apply H4]. subst.
    destruct Hx as [->|[_ [?|?]]]; [by apply H4|done|done].
Qed.

Lemma acct_GetMessageBuffer hb he hc s : acct hb he hc s ->
  acct (snd (GetMessageBuffer s) :: hb) he hc (fst (GetMessageBuffer s)).
Proof.
  intros [H1 H2 H3 H4]. unfold GetMessageBuffer. pose proof (counted_Get _ _ _ H1) as H.
  destruct (pool_Get (buffers s)) as [p b]. by split.
Qed.

Lemma acct_PutMessageBuffer b hb he hc s : acct (b :: hb) he hc s -> acct hb he hc (fst (PutMessageBuffer (Some b) s)).
Proof. intros [H1 H2 H3 H4]. split; [by apply (counted_Put (buffers s))|done..]. Qed.

Lemma heap_Get {A} (p : Pool A) : heap (fst (pool_Get p)) = heap p.
Proof. unfold pool_Get. by destruct (free p). Qed.

Lemma acct_GetInboundElement hb he hc s : acct hb he hc s ->
  acct hb (snd (GetInboundElement s) :: he) hc (fst (GetInboundElement s)).
Proof.
  intros [H1 H2 H3 H4]. unfold GetInboundElement. pose proof (counted_Get _ _ _ H2) as H.
  pose proof (heap_Get (elements s)) as Hh. destruct (pool_Get (elements s)) as [p e]. cbn [fst snd] in *.
  split; [|done..]. enough (E : bufs (on_elements (fun _ => p) s) = bufs s) by by rewrite E.
  unfold bufs. f_equal. apply bind_same. intros y _. unfold buf_of, elem_at. simpl. by rewrite Hh.
Qed.

Lemma acct_PutInboundElement e hb he hc s : acct hb (e :: he) hc s -> acct hb he hc (fst (PutInboundElement e s)).
Proof.
  intros H. assert (He : e ∉ elems s) by (apply (counted_hand _ _ _ _ (ac_elems _ _ _ _ H)); set_solver).
  destruct (acct_write_elem e (clearPointers (elem_at s e)) _ _ _ _ He H) as [H1 H2 H3 H4].
  split; [done| |done|done]. by apply (counted_Put (elements (write_elem e _ s))).
Qed.

Lemma acct_PutContainer c hb he hc s : acct hb he (c :: hc) s -> acct hb he hc (fst (PutInboundElementsContainer c s)).
Proof.
  intros H. assert (Hc : c ∉ conts s) by (apply (counted_hand _ _ _ _ (ac_conts _ _ _ _ H)); set_solver).
  destruct (acct_write_cont c (mkCont (ct_locked (cont_at s c)) []) hb he (c :: hc) s) as [H1 H2 H3 H4];
    [right; split; [done|by right]|done|].
  split; [done|done|by apply (counted_Put (containers (write_cont c _ s)))|].
  intros y Hy Hh. destruct (decide (y = c)) as [->|Hne].
  - unfold elems_of, cont_at. simpl. by rewrite lookup_insert_eq.
  - apply (H4 y); [done|set_solver].
Qed.

(** A container that was handed out is in no place and empty. *)
Lemma acct_GetContainer hb he hc s (c := snd (GetInboundElementsContainer s)) (s' := fst (GetInboundElementsContainer s)) :
  acct hb he hc s ->
  acct hb he (c :: hc) s' /\ c ∉ conts s /\ elems_of s' c = [] /\ (forall c', c <> c' -> cont_at s' c' = cont_at s c').
Proof.
  intros [H1 H2 H3 H4]. subst c s'. unfold GetInboundElementsContainer.
  pose proof (counted_Get _ _ _ H3) as H. pose proof (heap_Get (containers s)) as Hh.
  destruct (pool_Get (containers s)) as [p c]. cbn [fst snd] in *.
  assert (Hat : forall y, cont_at (on_containers (fun _ => p) s) y = cont_at s y)
    by (intros y; unfold cont_at; simpl; by rewrite Hh).
  assert (Hc : c ∉ conts s) by (apply (counted_hand _ _ _ _ H); set_solver).
  assert (Hc' : c ∉ hc).
  { intros Hin. pose proof (counted_le _ _ _ c H) as Hle. rewrite occ_cons, occ_one in Hle. apply occ_in in Hin. case_decide; [lia|done]. }
  assert (He : elems_of s c = []) by by apply H4.
  assert (Hel : elems (on_containers (fun _ => p) s) = elems s).
  { unfold elems. apply bind_same. intros y _. unfold elems_of. by rewrite Hat. }
  split; [|split; [done|split]].
  - apply acct_write_cont; [left; unfold elems_of; simpl; by rewrite Hat|]. split; [|by rewrite Hel|done|].
    + change (bufs (on_containers (fun _ => p) s)) with (front s ++ (elems (on_containers (fun _ => p) s) ≫= buf_of s)).
      by rewrite Hel.
    + intros y Hy Hh'. unfold elems_of. rewrite Hat. apply H4; [done|set_solver].
  - unfold elems_of. rewrite cont_at_write, decide_True by done. simpl. rewrite Hat. exact He.
  - intros c' Hne. rewrite cont_at_write, decide_False by done. apply Hat.
Qed.

(** What giving back and taking out leaves as it is: all but the elements [es]
    and the containers [cs], which are in hand. *)
Record framed (es cs : list nat) (s s' : Mem) : Prop := {
  fr_readers : readers s' = readers s;
  fr_inboxes : inboxes s' = inboxes s;
  fr_decryption : decryption s' = decryption s;
  fr_workers : workers s' = workers s;
  fr_handshake : handshake s' = handshake s;
  fr_handling : handling s' = handling s;
  fr_lost : lost s' = lost s;
  fr_outbound : outbound s' = outbound s;
  fr_nil : nil_put s' = nil_put s;
  fr_buf b : buf_at s' b = buf_at s b;
  fr_elem e : e ∉ es -> elem_at s' e = elem_at s e;
  fr_cont c : c ∉ cs -> cont_at s' c = cont_at s c;
}.

Lemma framed_refl es cs s : framed es cs s s.
Proof. by split. Qed.

Lemma framed_trans es cs s s1 s2 : framed es cs s s1 -> framed es cs s1 s2 -> framed es cs s s2.
Proof.
  intros F1 F2. split; intros.
  1-9: by destruct F1, F2; etrans.
  - by rewrite (fr_buf _ _ _ _ F2), (fr_buf _ _ _ _ F1).
  - by rewrite (fr_elem _ _ _ _ F2), (fr_elem _ _ _ _ F1).
  - by rewrite (fr_cont _ _ _ _ F2), (fr_cont _ _ _ _ F1).
Qed.

Lemma framed_weaken es es' cs s s' : es ⊆ es' -> framed es cs s s' -> framed es' cs s s'.
Proof. intros Hs []. split; auto. Qed.

Lemma mem_bind_gets {A D} (f : Mem -> A) (k : A -> M Mem D) s : bind (gets f) k s = k (f s) s.
Proof. done. Qed.

Lemma mem_bind_assoc {A D E} (m : M Mem A) (g : A -> M Mem D) (h : D -> M Mem E) s :
  bind (bind m g) h s = bind m (fun a => bind (g a) h) s.
Proof. unfold bind. by destruct (m s). Qed.

Lemma put_element_run e b hb he hc s : el_buffer (elem_at s e) = Some b -> acct (b :: hb) (e :: he) hc s ->
  acct hb he hc (fst (put_element e s)) /\ framed [e] [] s (fst (put_element e s)).
Proof.
  intros Hb H. unfold put_element. rewrite mem_bind_gets, Hb. unfold bind.
  pose proof (acct_PutMessageBuffer b _ _ _ _ H) as H1. cbn [PutMessageBuffer fst] in *.
  split; [by apply acct_PutInboundElement|]. split; try done.
  intros y Hy. set (s1 := on_buffers (pool_Put b) s).
  exact (elem_at_other e (clearPointers (elem_at s1 e)) s1 y ltac:(set_solver)).
Qed.

Lemma put_elements_run es : forall hb he hc s, Forall (fun e => is_Some (el_buffer (elem_at s e))) es ->
  acct ((es ≫= buf_of s) ++ hb) (es ++ he) hc s ->
  acct hb he hc (fst (forM es put_element s)) /\ framed es [] s (fst (forM es put_element s)).
Proof.
  induction es as [|e es IH]; intros hb he hc s Hf H; [split; [done|apply framed_refl]|].
  apply Forall_cons in Hf as [[b Hb] Hf]. cbn [forM]. unfold bind.
  assert (Hn : e ∉ es).
  { pose proof (counted_le _ _ _ e (ac_elems _ _ _ _ H)) as Hle. rewrite <- app_comm_cons, occ_cons, occ_one, occ_app in Hle.
    intros Hin%occ_in. case_decide; [lia|done]. }
  csimpl in H. unfold buf_of at 1 in H. rewrite Hb in H. cbn [option_list app] in H.
  destruct (put_element_run e b _ _ _ s Hb H) as [H1 F1]. destruct (put_element e s) as [s1 u]. cbn [fst] in *.
  assert (Hsame : forall y, y ∈ es -> elem_at s1 y = elem_at s y).
  { intros y Hy. apply (fr_elem _ _ _ _ F1). intros ->%list_elem_of_singleton. done. }
  destruct (IH hb he hc s1) as [H2 F2].
  - rewrite Forall_forall in Hf |- *. intros y Hy. rewrite Hsame by done. by apply Hf.
  - replace (es ≫= buf_of s1) with (es ≫= buf_of s); [done|]. apply bind_same. intros y Hy. unfold buf_of. by rewrite Hsame.
  - split; [done|]. eapply framed_trans; [eapply framed_weaken; [|exact F1]|eapply framed_weaken; [|exact F2]]; set_solver.
Qed.

(** Giving a whole container back. *)
Lemma put_all_run c hb he hc s : Forall (fun e => is_Some (el_buffer (elem_at s e))) (elems_of s c) ->
  acct ((elems_of s c ≫= buf_of s) ++ hb) (elems_of s c ++ he) (c :: hc) s ->
  acct hb he hc (fst (put_all c s)) /\ framed (elems_of s c) [c] s (fst (put_all c s)).
Proof.
  intros Hf H. unfold put_all. rewrite mem_bind_gets. fold (elems_of s c). unfold bind.
  destruct (put_elements_run (elems_of s c) hb he (c :: hc) s Hf H) as [H1 F1].
  destruct (forM _ put_element s) as [s1 u]. cbn [fst] in *.
  split; [by apply acct_PutContainer|]. destruct F1. split; try done.
  - intros y Hy. unfold PutInboundElementsContainer. cbn [fst].
    transitivity (cont_at (write_cont c (mkCont (ct_locked (cont_at s1 c)) []) s1) y); [done|].
    rewrite cont_at_write, decide_False by set_solver. apply fr_cont0. set_solver.
Qed.

(** Taking a container out of its place. *)
Lemma acct_take c s s' : acct [] [] [] s -> (forall x, occ x (conts s) = occ x (conts s') + occ x [c])%nat ->
  buffers s' = buffers s -> elements s' = elements s -> containers s' = containers s ->
  (forall x, occ x (front s') = occ x (front s)) ->
  acct (elems_of s c ≫= buf_of s) (elems_of s c) [c] s'.
Proof.
  intros [H1 H2 H3 H4] Hc Eb Ee Ec Er.
  assert (Hel : forall y, elems_of s' y = elems_of s y) by (intros y; unfold elems_of, cont_at; by rewrite Ec).
  assert (Hbf : forall y, buf_of s' y = buf_of s y) by (intros y; unfold buf_of, elem_at; by rewrite Ee).
  assert (Hp : conts s ≡ₚ c :: conts s').
  { apply (Permutation_count_occ Nat.eq_dec). intros x. specialize (Hc x). rewrite (Nat.add_comm _ _), <- occ_app in Hc. exact Hc. }
  assert (Hpe : elems s ≡ₚ elems_of s c ++ elems s').
  { unfold elems. rewrite Hp. csimpl. f_equiv. by rewrite (bind_same (elems_of s') (elems_of s)). }
  assert (Hpb : elems s ≫= buf_of s ≡ₚ (elems_of s c ≫= buf_of s) ++ (elems s' ≫= buf_of s')).
  { rewrite Hpe, bind_app. f_equiv. by rewrite (bind_same (buf_of s') (buf_of s)). }
  split.
  - rewrite Eb. revert H1. apply counted_ext; [done|]. intros x. unfold bufs. rewrite !occ_app, Er, (occ_perm x _ _ Hpb), occ_app, occ_nil. lia.
  - rewrite Ee. revert H2. apply counted_ext; [done|]. intros x. rewrite (occ_perm x _ _ Hpe), occ_app, occ_nil. lia.
  - rewrite Ec. revert H3. apply counted_ext; [done|]. intros x. rewrite Hc, occ_nil. lia.
  - intros y Hy Hh. rewrite Hel. apply H4; [|set_solver]. rewrite Hp. set_solver.
Qed.

(** ** What is in the buffers *)

(** Containers no worker has begun with, those of the workers, and both. *)
Definition waiting (s : Mem) : list nat := (readers s ≫= r_conts) ++ decryption s.
Definition w_conts (w : option Worker) : list nat := option_list (w_cont <$> w).
Definition busy (s : Mem) : list nat := waiting s ++ (workers s ≫= w_conts).

Definition pending_ok (s : Mem) (rd : Reader) : Prop :=
  NoDup (pk_index <$> r_pending rd) /\
  Forall (fun pkt => pk_size pkt = length (pk_datum pkt) /\
    exists b, r_arrs rd !! pk_index pkt = Some b /\ take (pk_size pkt) (buf_at s b) = pk_datum pkt) (r_pending rd).

Definition hs_ok (s : Mem) (h : Hs) : Prop :=
  h_size h = length (h_datum h) /\ take (h_size h) (buf_at s (h_buffer h)) = h_datum h.

(** The value Receive.v has for an element that was just made. *)
Definition received (e : Elem) (k : KeypairId) (ep : Endpoint) : QueueInboundElement :=
  mkInElem (el_datum e) (Some (el_datum e)) 0 k ep.

(** An element whose buffer holds its datagram. *)
Definition sealed (s : Mem) (e : nat) : Prop :=
  exists b k ep, let d := el_datum (elem_at s e) in
    elem_at s e = mkElem (Some b) (Some (0%nat, length d)) 0 (Some k) (Some ep) d /\
    take (length d) (buf_at s b) = d /\ (MessageTransportOffsetContent <= length d)%nat.

(** An element that is what [decrypt_elem] makes of its datagram. *)
Definition opened (s : Mem) (e : nat) : Prop :=
  exists b k ep, let v := decrypt_elem (keys k) (received (elem_at s e) k ep) in
    elem_at s e = mkElem (Some b) ((fun plain => (MessageTransportOffsetContent, length plain)) <$> ie_packet v)
      (ie_counter v) (Some k) (Some ep) (el_datum (elem_at s e)) /\
    (MessageTransportOffsetContent <= length (el_datum (elem_at s e)))%nat /\
    forall plain, ie_packet v = Some plain ->
      take (MessageTransportOffsetContent + length plain) (buf_at s b) =
      take (MessageTransportOffsetContent + length plain) (ie_buffer v).

Record tidy (s : Mem) : Prop := {
  ti_pending : forall r rd, readers s !! r = Some rd -> pending_ok s rd;
  ti_hs : forall h, h ∈ handshake s ++ handling s -> hs_ok s h;
  ti_once : forall c, (occ c (busy s) <= 1)%nat;
  ti_busy : forall c, c ∈ busy s -> c ∈ conts s /\ ct_locked (cont_at s c) = true;
  ti_waiting : forall c, c ∈ waiting s -> Forall (sealed s) (elems_of s c);
  ti_workers : forall w c todo, workers s !! w = Some (Some (mkWorker c todo)) ->
    exists done, elems_of s c = done ++ todo /\ Forall (opened s) done /\ Forall (sealed s) todo;
  ti_rest : forall c, c ∈ conts s -> c ∉ busy s -> Forall (opened s) (elems_of s c);
  ti_held : forall p ib c, inboxes s !! p = Some ib -> ib_hold ib = Some c -> c ∉ busy s;
}.

(** An element that was not touched, nor its buffer. *)
Definition untouched (s s' : Mem) (e : nat) : Prop :=
  elem_at s' e = elem_at s e /\ forall b, b ∈ buf_of s e -> buf_at s' b = buf_at s b.

Lemma sealed_untouched s s' e : untouched s s' e -> sealed s e -> sealed s' e.
Proof.
  intros [He Hb] (b & k & ep & E & H). exists b, k, ep. cbv zeta in *. rewrite He. split; [done|].
  rewrite Hb; [done|]. unfold buf_of. rewrite E. set_solver.
Qed.

Lemma opened_untouched s s' e : untouched s s' e -> opened s e -> opened s' e.
Proof.
  intros [He Hb] (b & k & ep & E & Hl & H). exists b, k, ep. cbv zeta in *. rewrite He. split; [done|]. split; [done|].
  rewrite Hb; [done|]. unfold buf_of. rewrite E. set_solver.
Qed.

Lemma has_buffer s e : sealed s e \/ opened s e -> is_Some (el_buffer (elem_at s e)).
Proof. by intros [(b & k & ep & E & _)|(b & k & ep & E & _)]; rewrite E; eexists. Qed.

Lemma tidy_buffers s c : tidy s -> c ∈ conts s -> Forall (fun e => is_Some (el_buffer (elem_at s e))) (elems_of s c).
Proof.
  intros H Hc. destruct (decide (c ∈ busy s)) as [Hb|Hb].
  - apply elem_of_app in Hb as [Hw|Hw].
    + eapply Forall_impl; [by apply (ti_waiting s H)|]. intros e He. apply has_buffer. by left.
    + apply list_elem_of_bind in Hw as ([[w todo]|] & Hin & Hw); [|set_solver].
      apply list_elem_of_singleton in Hin. simpl in Hin. subst w. apply list_elem_of_lookup in Hw as [i Hw].
      destruct (ti_workers s H i c todo Hw) as (done & -> & H1 & H2). apply Forall_app. split.
      * eapply Forall_impl; [exact H1|]. intros e He. apply has_buffer. by right.
      * eapply Forall_impl; [exact H2|]. intros e He. apply has_buffer. by left.
  - eapply Forall_impl; [by apply (ti_rest s H)|]. intros e He. apply has_buffer. by right.
Qed.

(** A step that takes containers and messages away, moves them on, or changes
    what they do not use. *)
Lemma tidy_mono s s' : tidy s ->
  (forall r rd, readers s' !! r = Some rd -> pending_ok s' rd) ->
  (forall h, h ∈ handshake s' ++ handling s' -> h ∈ handshake s ++ handling s /\ buf_at s' (h_buffer h) = buf_at s (h_buffer h)) ->
  (forall c, occ c (busy s') <= occ c (busy s))%nat -> (forall c, c ∈ waiting s' -> c ∈ waiting s) -> workers s' = workers s ->
  (forall c, c ∈ conts s' -> c ∈ conts s /\ elems_of s' c = elems_of s c /\ Forall (untouched s s') (elems_of s c) /\
    (c ∈ busy s -> c ∈ busy s' /\ ct_locked (cont_at s' c) = true)) ->
  (forall c, c ∈ busy s' -> c ∈ conts s') ->
  (forall p ib c, inboxes s' !! p = Some ib -> ib_hold ib = Some c -> c ∉ busy s) -> tidy s'.
Proof.
  intros [T1 T2 T3 T4 T5 T6 T7 _] Hp Hh Hb Hw Hwk Hc Hbc Hhd.
  assert (Hbin : forall c, c ∈ busy s' -> c ∈ busy s) by (intros c Hin; apply occ_in in Hin; specialize (Hb c); apply occ_in; lia).
  assert (Hs : forall c, c ∈ conts s' -> forall P Q, (forall e, untouched s s' e -> P e -> Q e) -> forall l, l ⊆ elems_of s c -> Forall P l -> Forall Q l).
  { intros c Hin P Q HPQ l Hl. rewrite !Forall_forall. intros HP e He. destruct (Hc c Hin) as (_ & _ & Hu & _).
    rewrite Forall_forall in Hu. auto. }
  split; [done| |intros c; specialize (Hb c); specialize (T3 c); lia| | | | |].
  - intros h Hin. destruct (Hh h Hin) as [Hin' E]. unfold hs_ok. rewrite E. by apply T2.
  - intros c Hin. split; [by apply Hbc|]. destruct (Hc c (Hbc c Hin)) as (_ & _ & _ & Hl). by apply Hl, Hbin.
  - intros c Hin. assert (Hin' : c ∈ conts s') by (apply Hbc, elem_of_app; by left). destruct (Hc c Hin') as (_ & -> & _).
    eapply (Hs c Hin' (sealed s)); [apply sealed_untouched|done|]. auto.
  - intros w c todo E. rewrite Hwk in E. destruct (T6 w c todo E) as (done & Ed & H1 & H2).
    assert (Hin' : c ∈ conts s').
    { apply Hbc. apply elem_of_app. right. rewrite Hwk. apply list_elem_of_bind. eexists. split; [|by eapply list_elem_of_lookup_2].
      by apply list_elem_of_singleton. }
    destruct (Hc c Hin') as (_ & -> & _). exists done. split; [done|]. split.
    + eapply (Hs c Hin' (opened s)); [apply opened_untouched|intros x Hx; rewrite Ed; apply elem_of_app; by left|done].
    + eapply (Hs c Hin' (sealed s)); [apply sealed_untouched|intros x Hx; rewrite Ed; apply elem_of_app; by right|done].
  - intros c Hin Hn. destruct (Hc c Hin) as (Hin' & -> & _ & Hl).
    eapply (Hs c Hin (opened s)); [apply opened_untouched|done|]. apply T7; [done|]. intros Hbusy. by apply Hn, Hl.
  - intros p ib c Hib Hc' Hin%Hbin. by apply (Hhd p ib c).
Qed.

(** ** Distinct places *)

Lemma occ_bind_in {A} x (f : A -> list nat) l a : a ∈ l -> (occ x (f a) <= occ x (l ≫= f))%nat.
Proof. revert a. induction l as [|y l IH]; intros a Ha; [by apply elem_of_nil in Ha|]. csimpl. rewrite occ_app. apply elem_of_cons in Ha as [->|Ha]; [lia|]. specialize (IH a Ha). lia. Qed.

Lemma occ_bind_two x (f : nat -> list nat) l a b : a <> b -> a ∈ l -> b ∈ l -> (occ x (f a) + occ x (f b) <= occ x (l ≫= f))%nat.
Proof.
  intros Hne Ha Hb. induction l as [|y l IH]; [by apply elem_of_nil in Ha|]. csimpl. rewrite occ_app.
  apply elem_of_cons in Ha as [->|Ha], Hb as [->|Hb]; [done| | |].
  - pose proof (occ_bind_in x f l b Hb). lia.
  - pose proof (occ_bind_in x f l a Ha). lia.
  - specialize (IH Ha Hb). lia.
Qed.

Section Places.
Context (s : Mem) (hb he hc : list nat) (H : acct hb he hc s).

Lemma bufs_once b : (occ b (front s) + occ b (elems s ≫= buf_of s) + occ b hb <= 1)%nat.
Proof. pose proof (counted_le _ _ _ b (ac_bufs _ _ _ _ H)) as Hle. unfold bufs in Hle. rewrite occ_app in Hle. lia. Qed.

Lemma elems_once e : (occ e (elems s) + occ e he <= 1)%nat.
Proof. exact (counted_le _ _ _ e (ac_elems _ _ _ _ H)). Qed.

Lemma conts_once c : (occ c (conts s) + occ c hc <= 1)%nat.
Proof. exact (counted_le _ _ _ c (ac_conts _ _ _ _ H)). Qed.

(** A buffer in front is no element's. *)
Lemma front_not_elem b e : b ∈ front s -> e ∈ elems s -> b ∉ buf_of s e.
Proof.
  intros Hb He Hin. pose proof (bufs_once b) as Ho. pose proof (occ_bind_in b (buf_of s) _ _ He). apply occ_in in Hb, Hin. lia.
Qed.

Lemma elem_buffers_apart b e e' : e ∈ elems s -> e' ∈ elems s -> b ∈ buf_of s e -> b ∈ buf_of s e' -> e = e'.
Proof.
  intros He He' Hb Hb'. destruct (decide (e = e')) as [|Hne]; [done|]. pose proof (bufs_once b) as Ho.
  pose proof (occ_bind_two b (buf_of s) _ _ _ Hne He He'). apply occ_in in Hb, Hb'. lia.
Qed.

Lemma elem_of_elems c e : c ∈ conts s -> e ∈ elems_of s c -> e ∈ elems s.
Proof. intros Hc He. apply list_elem_of_bind. by exists c. Qed.

Lemma conts_apart e c c' : c ∈ conts s -> c' ∈ conts s -> e ∈ elems_of s c -> e ∈ elems_of s c' -> c = c'.
Proof.
  intros Hc Hc' He He'. destruct (decide (c = c')) as [|Hne]; [done|]. pose proof (elems_once e) as Ho.
  pose proof (occ_bind_two e (elems_of s) _ _ _ Hne Hc Hc'). unfold elems in Ho. apply occ_in in He, He'. lia.
Qed.

Lemma elems_of_once c e : c ∈ conts s -> (occ e (elems_of s c) <= 1)%nat.
Proof. intros Hc. pose proof (elems_once e) as Ho. pose proof (occ_bind_in e (elems_of s) _ _ Hc). unfold elems in Ho. lia. Qed.

End Places.

(** A change of places that moves no object in or out but for buffers in hand. *)
Lemma acct_move hb hb' he hc s s' : buffers s' = buffers s -> elements s' = elements s -> containers s' = containers s ->
  (forall x, occ x (conts s') = occ x (conts s)) ->
  (forall x, occ x (front s') + occ x hb' = occ x (front s) + occ x hb)%nat -> acct hb he hc s -> acct hb' he hc s'.
Proof.
  intros Eb Ee Ec Hc Hf [H1 H2 H3 H4].
  assert (Hel : forall y, elems_of s' y = elems_of s y) by (intros y; unfold elems_of, cont_at; by rewrite Ec).
  assert (Hbf : forall y, buf_of s' y = buf_of s y) by (intros y; unfold buf_of, elem_at; by rewrite Ee).
  assert (Hp : conts s' ≡ₚ conts s) by by apply (Permutation_count_occ Nat.eq_dec).
  assert (Hpe : elems s' ≡ₚ elems s) by (unfold elems; rewrite Hp; by rewrite (bind_same (elems_of s') (elems_of s))).
  assert (Hpb : elems s' ≫= buf_of s' ≡ₚ elems s ≫= buf_of s) by (rewrite Hpe; by rewrite (bind_same (buf_of s') (buf_of s))).
  split.
  - rewrite Eb. revert H1. apply counted_ext; [done|]. intros x. unfold bufs. rewrite !occ_app, (occ_perm x _ _ Hpb). specialize (Hf x). lia.
  - rewrite Ee. revert H2. apply counted_ext; [done|]. intros x. by rewrite (occ_perm x _ _ Hpe).
  - rewrite Ec. revert H3. apply counted_ext; [done|]. intros x. by rewrite Hc.
  - intros y Hy Hh. rewrite Hel. apply H4; [|done]. by rewrite <- Hp.
Qed.

(** An element in hand, with its buffer, joins a container. *)
Lemma acct_attach c e b l hb he hc s : el_buffer (elem_at s e) = Some b -> c ∈ conts s ->
  acct (b :: hb) (e :: he) hc s -> acct hb he hc (write_cont c (mkCont l (elems_of s c ++ [e])) s).
Proof.
  intros Hb Hc H. set (s' := write_cont _ _ s).
  assert (Hpe : elems s' ≡ₚ e :: elems s).
  { destruct (proj1 (elem_of_Permutation _ _) Hc) as [l' Hl]. unfold elems. change (conts s') with (conts s).
    pose proof (conts_once _ _ _ _ H c) as Ho. rewrite (occ_perm c _ _ Hl), occ_cons, occ_one, decide_True in Ho by done.
    rewrite Hl. csimpl. unfold elems_of at 1, s'. rewrite cont_at_write, decide_True by done. cbn [ct_elems].
    rewrite (bind_same (elems_of (write_cont c _ s)) (elems_of s) l').
    - rewrite <- app_assoc. cbn [app]. by rewrite Permutation_middle.
    - intros y Hy. unfold elems_of at 1. rewrite cont_at_write, decide_False; [done|]. intros <-. apply occ_in in Hy. lia. }
  destruct H as [H1 H2 H3 H4]. split; [| |done|].
  - revert H1. apply counted_ext; [done|]. intros x. unfold bufs. change (front s') with (front s). change (buf_of s') with (buf_of s).
    rewrite !occ_app, (occ_perm x (elems s' ≫= buf_of s) ((e :: elems s) ≫= buf_of s)) by by rewrite Hpe.
    csimpl. unfold buf_of at 1. rewrite Hb. cbn [option_list]. change (idle (buffers s')) with (idle (buffers s)). rewrite (occ_app x [b]), (occ_cons x b hb). lia.
  - revert H2. apply counted_ext; [done|]. intros x. rewrite (occ_perm x _ _ Hpe). rewrite (occ_cons x e (elems s)), (occ_cons x e he).
    change (idle (elements s')) with (idle (elements s)). lia.
  - intros y Hy Hh. unfold elems_of, s'. rewrite cont_at_write, decide_False by (by intros ->). by apply H4.
Qed.

(** ** The invariant *)

Record Inv (s : Mem) : Prop := {
  inv_acct : acct [] [] [] s;
  inv_tidy : tidy s;
  inv_nil : nil_put s = false;
}.

Lemma occ_conts_reader x r rd rd' s : readers s !! r = Some rd ->
  (occ x (conts (set_reader r rd' s)) + occ x (r_conts rd) = occ x (conts s) + occ x (r_conts rd'))%nat.
Proof. intros H. unfold conts. rewrite !occ_app. pose proof (occ_bind_insert x r_conts _ _ _ rd' H). cbn [readers set_reader inboxes lost]. lia. Qed.

Lemma occ_waiting_reader x r rd rd' s : readers s !! r = Some rd ->
  (occ x (waiting (set_reader r rd' s)) + occ x (r_conts rd) = occ x (waiting s) + occ x (r_conts rd'))%nat.
Proof. intros H. unfold waiting. rewrite !occ_app. pose proof (occ_bind_insert x r_conts _ _ _ rd' H). cbn [readers set_reader decryption]. lia. Qed.

Lemma occ_front_reader x r rd rd' s : readers s !! r = Some rd ->
  (occ x (front (set_reader r rd' s)) + occ x (r_arrs rd) = occ x (front s) + occ x (r_arrs rd'))%nat.
Proof. intros H. unfold front. rewrite !occ_app. pose proof (occ_bind_insert x r_arrs _ _ _ rd' H). cbn [readers set_reader handshake handling outbound]. lia. Qed.

Lemma occ_conts_inbox x p ib ib' s : inboxes s !! p = Some ib ->
  (occ x (conts (set_inbox p ib' s)) + occ x (ib_conts ib) = occ x (conts s) + occ x (ib_conts ib'))%nat.
Proof. intros H. unfold conts. rewrite !occ_app. pose proof (occ_bind_insert x ib_conts _ _ _ ib' H). cbn [readers set_inbox inboxes lost]. lia. Qed.

Lemma occ_busy x s : occ x (busy s) = (occ x (waiting s) + occ x (workers s ≫= w_conts))%nat.
Proof. apply occ_app. Qed.

(** A step after which the same messages wait, the same containers are at work
    and nothing in memory that is in use has changed. *)
Lemma tidy_quiet s s' : tidy s ->
  (forall r rd, readers s' !! r = Some rd -> pending_ok s' rd) ->
  (forall h, h ∈ handshake s' ++ handling s' -> h ∈ handshake s ++ handling s) ->
  (forall c, occ c (waiting s') = occ c (waiting s)) -> workers s' = workers s -> inboxes s' = inboxes s ->
  (forall c, occ c (conts s') = occ c (conts s)) ->
  (forall b, b ∈ elems s ≫= buf_of s \/ b ∈ h_buffer <$> (handshake s' ++ handling s') -> buf_at s' b = buf_at s b) ->
  (forall e, e ∈ elems s -> elem_at s' e = elem_at s e) ->
  (forall c, c ∈ conts s -> elems_of s' c = elems_of s c /\ (c ∈ busy s -> ct_locked (cont_at s' c) = ct_locked (cont_at s c))) ->
  tidy s'.
Proof.
  intros T Hp Hh Hw Hwk Hib Hc Hb He Hk.
  assert (Hbusy : forall c, occ c (busy s') = occ c (busy s)) by (intros c; by rewrite !occ_busy, Hw, Hwk).
  assert (Hin : forall c, c ∈ conts s' <-> c ∈ conts s) by (intros c; by rewrite !occ_in, Hc).
  apply (tidy_mono s); try done.
  - intros h Hin'. split; [by apply Hh|]. apply Hb. right. apply list_elem_of_fmap. by exists h.
  - intros c. by rewrite Hbusy.
  - intros c. by rewrite !occ_in, Hw.
  - intros c Hin'%Hin. destruct (Hk c Hin') as [E Hl]. split; [done|]. split; [done|]. split.
    + apply Forall_forall. intros e He'. assert (He2 : e ∈ elems s) by by eapply elem_of_elems. split; [by apply He|].
      intros b Hb'. apply Hb. left. apply list_elem_of_bind. by exists e.
    + intros Hb'. split; [by rewrite occ_in, Hbusy, <- occ_in|]. rewrite Hl by done. by apply (ti_busy s T).
  - intros c. rewrite occ_in, Hbusy, <- occ_in. intros Hb'. by apply Hin, (ti_busy s T).
  - rewrite Hib. apply (ti_held s T).
Qed.

Lemma pending_ok_mono s s' rd rd' : pending_ok s rd -> r_pending rd' `suffix_of` r_pending rd ->
  (forall i b, r_arrs rd !! i = Some b -> i ∈ pk_index <$> r_pending rd' -> r_arrs rd' !! i = Some b /\ buf_at s' b = buf_at s b) ->
  pending_ok s' rd'.
Proof.
  intros [Hn Hf] [l Hl] Hb. rewrite Hl in Hn, Hf. rewrite fmap_app in Hn. apply NoDup_app in Hn as (_ & _ & Hn).
  apply Forall_app in Hf as [_ Hf]. split; [done|]. rewrite Forall_forall in Hf |- *. intros pkt Hin.
  destruct (Hf pkt Hin) as (Hs & b & Hi & Hbuf). split; [done|]. destruct (Hb _ b Hi) as [Hi' E].
  { apply list_elem_of_fmap. by exists pkt. }
  exists b. by rewrite E.
Qed.

Lemma readers_set r rd' s r' rd : readers (set_reader r rd' s) !! r' = Some rd ->
  (r' = r /\ rd = rd') \/ (r' <> r /\ readers s !! r' = Some rd).
Proof. intros [(-> & <- & _)|[Hne H]]%list_lookup_insert_Some; [by left|right; by split]. Qed.

(** A change of a reader that leaves its containers. *)
Lemma tidy_reader s r rd rd' : tidy s -> readers s !! r = Some rd -> r_groups rd' = r_groups rd ->
  pending_ok s rd' -> tidy (set_reader r rd' s).
Proof.
  intros T Hr Hg Hp. assert (Ec : r_conts rd' = r_conts rd) by (unfold r_conts; by rewrite Hg).
  apply (tidy_quiet s); try done.
  - intros r' x [[-> ->]|[Hne Hx]]%readers_set; [done|]. by apply (ti_pending s T r').
  - intros c. pose proof (occ_waiting_reader c r rd rd' s Hr). rewrite Ec in *. lia.
  - intros c. pose proof (occ_conts_reader c r rd rd' s Hr). rewrite Ec in *. lia.
Qed.

Lemma acct_reader hb hb' he hc s r rd rd' : acct hb he hc s -> readers s !! r = Some rd -> r_groups rd' = r_groups rd ->
  (forall x, occ x (r_arrs rd') + occ x hb' = occ x (r_arrs rd) + occ x hb)%nat -> acct hb' he hc (set_reader r rd' s).
Proof.
  intros A Hr Hg Ha. assert (Ec : r_conts rd' = r_conts rd) by (unfold r_conts; by rewrite Hg).
  revert A. apply acct_move; try done; intros x.
  - pose proof (occ_conts_reader x r rd rd' s Hr). rewrite Ec in *. lia.
  - pose proof (occ_front_reader x r rd rd' s Hr). specialize (Ha x). lia.
Qed.

(** ** Every step keeps it *)

Lemma tidy_Get s : tidy s -> tidy (fst (GetMessageBuffer s)).
Proof.
  intros T. unfold GetMessageBuffer. pose proof (heap_Get (buffers s)) as Hh. destruct (pool_Get (buffers s)) as [p b]. cbn [fst] in *.
  assert (Hb : forall y, buf_at (on_buffers (fun _ => p) s) y = buf_at s y) by (intros y; unfold buf_at; simpl; by rewrite Hh).
  apply (tidy_quiet s); try done. intros r rd Hr. eapply pending_ok_mono; [by apply (ti_pending s T r)|done|]. intros i y Hi _. by rewrite Hb.
Qed.

Lemma Get_places s : let s' := fst (GetMessageBuffer s) in
  readers s' = readers s /\ inboxes s' = inboxes s /\ decryption s' = decryption s /\ workers s' = workers s /\
  handshake s' = handshake s /\ handling s' = handling s /\ lost s' = lost s /\ nil_put s' = nil_put s /\
  elements s' = elements s /\ containers s' = containers s /\ heap (buffers s') = heap (buffers s).
Proof.
  unfold GetMessageBuffer. pose proof (heap_Get (buffers s)) as Hh. destruct (pool_Get (buffers s)) as [p b]. by split_and!.
Qed.

Lemma grow_inv r s s' : mem_exec (Grow r) s = Some s' -> Inv s -> Inv s'.
Proof.
  intros E [A T N]. simpl in E. destruct (readers s !! r) as [rd|] eqn:Hr; [|done]. simpl in E.
  destruct (_ <? _)%nat; [|done]. pose proof (acct_GetMessageBuffer _ _ _ _ A) as A1. pose proof (tidy_Get s T) as T1.
  pose proof (Get_places s) as P. cbv zeta in P.
  destruct (GetMessageBuffer s) as [s1 b]. cbn [fst snd] in *. injection E as <-. destruct P as (Er & _ & _ & _ & _ & _ & _ & En & _).
  rewrite <- Er in Hr. split; [| |simpl; congruence].
  - eapply acct_reader; [exact A1|exact Hr|done|]. intros x. cbn [r_arrs]. rewrite occ_app, occ_nil. lia.
  - eapply tidy_reader; [done|exact Hr|done|]. eapply pending_ok_mono; [by apply (ti_pending s1 T1 r)|done|].
    intros i y Hi _. split; [by apply lookup_app_l_Some|done].
Qed.

Lemma fill_places arrs : forall contents s, let s' := fill_buffers arrs contents s in
  readers s' = readers s /\ inboxes s' = inboxes s /\ decryption s' = decryption s /\ workers s' = workers s /\
  handshake s' = handshake s /\ handling s' = handling s /\ lost s' = lost s /\ nil_put s' = nil_put s /\
  elements s' = elements s /\ containers s' = containers s /\ idle (buffers s') = idle (buffers s) /\ fresh (buffers s') = fresh (buffers s).
Proof. induction arrs as [|b arrs IH]; intros [|x contents] s; try by split_and!. apply (IH contents (write_buf b x s)). Qed.

Lemma fill_other arrs b : b ∉ arrs -> forall contents s, buf_at (fill_buffers arrs contents s) b = buf_at s b.
Proof.
  induction arrs as [|a arrs IH]; intros Hb [|x contents] s; try done. apply not_elem_of_cons in Hb as [Hne Hb]. simpl.
  by rewrite IH, buf_at_write, decide_False by congruence.
Qed.

Lemma fill_at arrs : forall contents s i b x, NoDup arrs -> arrs !! i = Some b -> contents !! i = Some x ->
  buf_at (fill_buffers arrs contents s) b = x.
Proof.
  induction arrs as [|a arrs IH]; intros [|y contents] s [|i] b x Hn Hb Hx; try done; apply NoDup_cons in Hn as [Ha Hn]; simpl in *.
  - injection Hb as ->. injection Hx as ->. rewrite fill_other by done. by rewrite buf_at_write, decide_True.
  - by eapply IH.
Qed.

Lemma NoDup_occ l : (forall x, (occ x l <= 1)%nat) -> NoDup l.
Proof. intros H. apply NoDup_ListNoDup. apply (NoDup_count_occ Nat.eq_dec). exact H. Qed.

Lemma hs_in_front s h : h ∈ handshake s ++ handling s -> h_buffer h ∈ front s.
Proof.
  intros Hin. unfold front. rewrite app_assoc, app_assoc. apply elem_of_app. left. rewrite <- app_assoc, <- fmap_app.
  apply elem_of_app. right. apply list_elem_of_fmap. by exists h.
Qed.

Lemma arrs_in_front s r rd b : readers s !! r = Some rd -> b ∈ r_arrs rd -> b ∈ front s.
Proof. intros Hr Hb. unfold front. apply elem_of_app. left. apply list_elem_of_bind. exists rd. split; [done|by eapply list_elem_of_lookup_2]. Qed.

(** The buffers of a reader are its own. *)
Lemma arrs_apart s hb he hc r rd b : acct hb he hc s -> readers s !! r = Some rd -> b ∈ r_arrs rd ->
  (forall r' rd', r' <> r -> readers s !! r' = Some rd' -> b ∉ r_arrs rd') /\
  b ∉ h_buffer <$> (handshake s ++ handling s) /\ b ∉ elems s ≫= buf_of s.
Proof.
  intros A Hr Hb. pose proof (bufs_once s _ _ _ A b) as Ho. unfold front in Ho. rewrite !occ_app in Ho.
  pose proof (occ_bind_in b r_arrs (readers s) rd (list_elem_of_lookup_2 _ _ _ Hr)) as Hin.
  assert (Hb' := Hb). apply occ_in in Hb'. split_and!.
  - intros r' rd' Hne Hr' Hb2. apply occ_in in Hb2.
    pose proof (occ_bind_insert b r_arrs (readers s) r' rd' (mkReader [] [] ∅) Hr') as Hi. cbn [r_arrs] in Hi. rewrite occ_nil in Hi.
    assert (Hr2 : <[r' := mkReader [] [] ∅]> (readers s) !! r = Some rd) by by rewrite list_lookup_insert_ne.
    pose proof (occ_bind_in b r_arrs _ rd (list_elem_of_lookup_2 _ _ _ Hr2)). lia.
  - rewrite fmap_app. intros Hh%occ_in. rewrite occ_app in Hh. lia.
  - intros Hh%occ_in. lia.
Qed.

Lemma arrs_NoDup s hb he hc r rd : acct hb he hc s -> readers s !! r = Some rd -> NoDup (r_arrs rd).
Proof.
  intros A Hr. apply NoDup_occ. intros b. pose proof (bufs_once s _ _ _ A b) as Ho. unfold front in Ho. rewrite !occ_app in Ho.
  pose proof (occ_bind_in b r_arrs (readers s) rd (list_elem_of_lookup_2 _ _ _ Hr)). lia.
Qed.

Lemma acct_fill arrs hb he hc : forall contents s, acct hb he hc s -> acct hb he hc (fill_buffers arrs contents s).
Proof. induction arrs as [|b arrs IH]; intros [|x contents] s A; try done. by apply IH, acct_write_buf. Qed.

(** While a reader has nothing pending, its buffers are written to by nobody else
    and used by nobody else. *)
Lemma tidy_fill s r rd contents : acct [] [] [] s -> tidy s -> readers s !! r = Some rd -> r_pending rd = [] ->
  tidy (fill_buffers (r_arrs rd) contents s).
Proof.
  intros A T Hr Hp. pose proof (fill_places (r_arrs rd) contents s) as P. cbv zeta in P.
  pose proof (fun b Hb => fill_other (r_arrs rd) b Hb contents s) as Ho.
  destruct P as (Er & Ei & Ed & Ew & Eh & Eg & El & _ & Ee & Ec & _).
  apply (tidy_quiet s); rewrite ?Eh, ?Eg; try done.
  - intros r' x Hx. rewrite Er in Hx. destruct (decide (r' = r)) as [->|Hne].
    + rewrite Hr in Hx. injection Hx as <-. unfold pending_ok. rewrite Hp. split; constructor.
    + eapply pending_ok_mono; [by apply (ti_pending s T r')|done|]. intros i b Hi _. split; [done|]. apply Ho. intros Hb.
      destruct (arrs_apart s _ _ _ r rd b A Hr Hb) as (Hap & _). exact (Hap r' x Hne Hx (list_elem_of_lookup_2 _ _ _ Hi)).
  - intros c. unfold waiting. by rewrite Er, Ed.
  - intros c. unfold conts. by rewrite Er, Ei, El.
  - intros b Hb. apply Ho. intros Hb'. destruct (arrs_apart s _ _ _ r rd b A Hr Hb') as (_ & ? & ?). by destruct Hb.
  - intros e _. unfold elem_at. by rewrite Ee.
  - intros c _. unfold elems_of, cont_at. by rewrite Ec.
Qed.

Lemma pending_batch s rd arrs contents pkts : NoDup arrs -> (length pkts <= length arrs)%nat -> length contents = length arrs ->
  Forall2 (fun x pkt => fst pkt <= length x)%nat (take (length pkts) contents) pkts ->
  r_arrs rd = arrs -> r_pending rd = batch_of contents pkts -> pending_ok (fill_buffers arrs contents s) rd.
Proof.
  intros Hn Hlp Hlc Hs Ha Hp. unfold pending_ok. rewrite Ha, Hp. unfold batch_of. split.
  - rewrite fmap_imap. replace (imap _ pkts) with (seq 0 (length pkts)); [apply NoDup_seq|].
    apply list_eq. intros i. rewrite list_lookup_imap. destruct (pkts !! i) as [pk|] eqn:Hpk; simpl.
    + apply lookup_lt_Some in Hpk. by rewrite lookup_seq_lt.
    + apply lookup_ge_None in Hpk. by apply lookup_seq_ge.
  - apply Forall_forall. intros pkt Hin. apply list_elem_of_lookup in Hin as [i Hi]. rewrite list_lookup_imap in Hi.
    destruct (pkts !! i) as [pk|] eqn:Hpk; [|done]. injection Hi as <-. cbn [pk_size pk_datum pk_index].
    assert (Hi : (i < length pkts)%nat) by by eapply lookup_lt_Some.
    destruct (lookup_lt_is_Some_2 contents i ltac:(lia)) as [x Hx]. destruct (lookup_lt_is_Some_2 arrs i ltac:(lia)) as [b Hb].
    rewrite Hx. cbn [default from_option id]. assert (Hle : (pk.1 <= length x)%nat).
    { refine (Forall2_lookup_lr _ _ _ i _ _ Hs _ Hpk). by rewrite lookup_take_lt. }
    split; [rewrite length_take; lia|]. exists b. split; [done|]. by rewrite (fill_at arrs contents s i b x Hn Hb Hx).
Qed.

Lemma recv_inv r contents pkts s s' : mem_exec (Recv r contents pkts) s = Some s' -> Inv s -> Inv s'.
Proof.
  intros E [A T N]. simpl in E. destruct (readers s !! r) as [rd|] eqn:Hr; [|done]. simpl in E.
  case_decide as Hg; [|done]. destruct Hg as (Hla & Hp & Hgr & Hlc & Hlp & Hs). injection E as <-.
  pose proof (fill_places (r_arrs rd) contents s) as P. cbv zeta in P. destruct P as (Er & _ & _ & _ & _ & _ & _ & En & _).
  assert (Hr1 : readers (fill_buffers (r_arrs rd) contents s) !! r = Some rd) by by rewrite Er.
  split; [| |simpl; congruence].
  - eapply acct_reader; [by apply acct_fill|exact Hr1|by rewrite Hgr|]. intros x. simpl. lia.
  - eapply tidy_reader; [by eapply tidy_fill|exact Hr1|by rewrite Hgr|].
    apply (pending_batch _ _ _ _ pkts); [by eapply arrs_NoDup|by rewrite Hla|by rewrite Hla|done..].
Qed.

Lemma pending_ok_heap s s' rd : heap (buffers s') = heap (buffers s) -> pending_ok s rd -> pending_ok s' rd.
Proof. intros Eh H. eapply pending_ok_mono; [exact H|done|]. intros i b Hi _. split; [done|]. unfold buf_at. by rewrite Eh. Qed.

(** The reader's slot [i] gets a new buffer; the one that was there is in hand. *)
Lemma replace_run r i rd b hb he hc s (s' := fst (replace_buffer r i s)) :
  readers s !! r = Some rd -> r_arrs rd !! i = Some b -> i ∉ pk_index <$> r_pending rd ->
  (acct hb he hc s -> acct (b :: hb) he hc s') /\ (tidy s -> tidy s') /\
  nil_put s' = nil_put s /\ elements s' = elements s /\ containers s' = containers s /\ (forall x, occ x (conts s') = occ x (conts s)).
Proof.
  intros Hr Hb Hi. subst s'. unfold replace_buffer, bind.
  pose proof (acct_GetMessageBuffer hb he hc s) as A1. pose proof (tidy_Get s) as T1. pose proof (Get_places s) as P. cbv zeta in P.
  destruct (GetMessageBuffer s) as [s1 b1]. cbn [fst snd] in *. destruct P as (Er & Ei & _ & _ & _ & _ & El & En & Ee & Ec & Eh).
  rewrite <- Er in Hr. unfold modify. cbn [fst]. rewrite Hr. set (rd' := mkReader _ _ _). split_and!; try done.
  - intros A. eapply acct_reader; [by apply A1|exact Hr|done|]. intros x. cbn [r_arrs rd'].
    pose proof (occ_insert x (r_arrs rd) i b b1 Hb). rewrite (occ_cons x b hb), (occ_cons x b1 hb). lia.
  - intros T. eapply tidy_reader; [by apply T1|exact Hr|done|]. eapply pending_ok_mono; [by apply (ti_pending s1 (T1 T) r)|done|].
    intros j y Hj Hin. split; [|done]. cbn [r_arrs rd']. rewrite list_lookup_insert_ne; [done|]. by intros ->.
  - intros x. pose proof (occ_conts_reader x r rd rd' s1 Hr) as H. unfold conts in *. change (r_conts rd') with (r_conts rd) in H.
    rewrite Er, Ei, El in *. lia.
Qed.

Lemma replace_cont r i c x s : fst (replace_buffer r i (write_cont c x s)) = write_cont c x (fst (replace_buffer r i s)).
Proof.
  unfold replace_buffer, bind, GetMessageBuffer, modify. simpl. destruct (pool_Get (buffers s)) as [p b]. simpl.
  by destruct (readers s !! r).
Qed.

Lemma replace_handshake r i l s : fst (replace_buffer r i (set_handshake l s)) = set_handshake l (fst (replace_buffer r i s)).
Proof.
  unfold replace_buffer, bind, GetMessageBuffer, modify. simpl. destruct (pool_Get (buffers s)) as [p b]. simpl.
  by destruct (readers s !! r).
Qed.

Lemma busy_waiting c s : c ∈ waiting s -> c ∈ busy s.
Proof. intros H. apply elem_of_app. by left. Qed.

(** An element with its datagram joins a container that waits. *)
Lemma tidy_attach c e s : tidy s -> c ∈ waiting s -> sealed s e ->
  tidy (write_cont c (mkCont (ct_locked (cont_at s c)) (elems_of s c ++ [e])) s).
Proof.
  intros [T1 T2 T3 T4 T5 T6 T7 T8] Hc He. set (s' := write_cont c _ s).
  assert (Hat : forall y, y <> c -> cont_at s' y = cont_at s y) by (intros y Hy; unfold s'; by rewrite cont_at_write, decide_False by done).
  assert (Hel : forall y, y <> c -> elems_of s' y = elems_of s y) by (intros y Hy; unfold elems_of; by rewrite Hat).
  assert (Hnw : forall w y todo, workers s !! w = Some (Some (mkWorker y todo)) -> y <> c).
  { intros w y todo Hw ->. specialize (T3 c). rewrite occ_busy in T3. apply occ_in in Hc.
    pose proof (occ_bind_in c w_conts _ _ (list_elem_of_lookup_2 _ _ _ Hw)) as H.
    change (w_conts (Some (mkWorker c todo))) with [c] in H. rewrite occ_one, decide_True in H by done. lia. }
  split; [done|done|done| | | | |exact T8].
  - intros y Hy. split; [by apply T4|]. destruct (decide (y = c)) as [->|Hne]; [|rewrite Hat by done; by apply T4].
    unfold s'. rewrite cont_at_write, decide_True by done. by apply T4.
  - intros y Hy. destruct (decide (y = c)) as [->|Hne]; [|rewrite Hel by done; by apply T5].
    unfold elems_of, s'. rewrite cont_at_write, decide_True by done. cbn [ct_elems]. apply Forall_app. split; [by apply T5|].
    by repeat constructor.
  - intros w y todo Hw. rewrite Hel by (by eapply Hnw). by apply (T6 w).
  - intros y Hy Hb. rewrite Hel; [by apply T7|]. intros ->. by apply Hb, busy_waiting.
Qed.

(** What the container that [group_container] gives is. *)
Record grouped (e r : nat) (rd : Reader) (s : Mem) (c : nat) (s' : Mem) : Prop := {
  gr_acct : acct [] [e] [] s';
  gr_tidy : tidy s';
  gr_nil : nil_put s' = nil_put s;
  gr_elements : elements s' = elements s;
  gr_buffers : buffers s' = buffers s;
  gr_waiting : c ∈ waiting s';
  gr_reader : exists rd', readers s' !! r = Some rd' /\ r_arrs rd' = r_arrs rd /\ r_pending rd' = r_pending rd;
}.

Lemma conts_of_group s r rd p c : readers s !! r = Some rd -> r_groups rd !! p = Some c -> c ∈ waiting s.
Proof.
  intros Hr Hp. apply elem_of_app. left. apply list_elem_of_bind. exists rd. split; [|by eapply list_elem_of_lookup_2].
  apply list_elem_of_fmap. exists (p, c). split; [done|]. by apply elem_of_map_to_list.
Qed.

Lemma acct_place c hb he hc s s' : acct hb he (c :: hc) s -> elems_of s c = [] ->
  (forall x, occ x (conts s') = occ x (conts s) + occ x [c])%nat ->
  buffers s' = buffers s -> elements s' = elements s -> containers s' = containers s ->
  (forall x, occ x (front s') = occ x (front s)) -> acct hb he hc s'.
Proof.
  intros [H1 H2 H3 H4] He Hc Eb Ee Ec Er.
  assert (Hel : forall y, elems_of s' y = elems_of s y) by (intros y; unfold elems_of, cont_at; by rewrite Ec).
  assert (Hbf : forall y, buf_of s' y = buf_of s y) by (intros y; unfold buf_of, elem_at; by rewrite Ee).
  assert (Hp : conts s' ≡ₚ c :: conts s).
  { apply (Permutation_count_occ Nat.eq_dec). intros x. specialize (Hc x). rewrite (Nat.add_comm _ _), <- occ_app in Hc. exact Hc. }
  assert (Hpe : elems s' ≡ₚ elems s).
  { unfold elems. rewrite Hp. csimpl. rewrite Hel, He. by rewrite (bind_same (elems_of s') (elems_of s)). }
  assert (Hpb : elems s' ≫= buf_of s' ≡ₚ elems s ≫= buf_of s) by (rewrite Hpe; by rewrite (bind_same (buf_of s') (buf_of s))).
  split.
  - rewrite Eb. revert H1. apply counted_ext; [done|]. intros x. unfold bufs. by rewrite !occ_app, Er, (occ_perm x _ _ Hpb).
  - rewrite Ee. revert H2. apply counted_ext; [done|]. intros x. by rewrite (occ_perm x _ _ Hpe).
  - rewrite Ec. revert H3. apply counted_ext; [done|]. intros x. rewrite Hc, (occ_cons x c hc). lia.
  - intros y Hy Hh. rewrite Hel. apply H4; [|]; intros Hin; apply Hy || apply Hh; rewrite ?Hp; [set_solver|].
    apply elem_of_cons in Hin as [->|?]; [|done]. exfalso. apply Hy. rewrite Hp. set_solver.
Qed.

(** An empty container is locked and joins those of a reader. *)
Lemma tidy_place c s s' : tidy s -> c ∉ conts s -> elems_of s c = [] ->
  (forall x, occ x (conts s') = occ x (conts s) + occ x [c])%nat ->
  (forall x, occ x (waiting s') = occ x (waiting s) + occ x [c])%nat ->
  (forall r rd, readers s' !! r = Some rd -> pending_ok s' rd) -> handshake s' = handshake s -> handling s' = handling s ->
  workers s' = workers s -> inboxes s' = inboxes s -> buffers s' = buffers s -> elements s' = elements s ->
  (forall y, cont_at s' y = if decide (c = y) then mkCont true (elems_of s c) else cont_at s y) -> tidy s'.
Proof.
  intros [T1 T2 T3 T4 T5 T6 T7 T8] Hc He Hconts Hwait Hp Eh Eg Ew Eib Eb Ee Hat.
  assert (Hbusy : forall x, (occ x (busy s') = occ x (busy s) + occ x [c])%nat) by (intros x; rewrite !occ_busy, Hwait, Ew; lia).
  assert (Hcb : c ∉ busy s) by (intros Hin; by apply Hc, T4).
  assert (Hu : forall y, untouched s s' y) by (intros y; split; [unfold elem_at; by rewrite Ee|intros b _; unfold buf_at; by rewrite Eb]).
  assert (Hin : forall l l' y, (forall x, occ x l' = occ x l + occ x [c])%nat -> y ∈ l' -> y <> c -> y ∈ l).
  { intros l l' y Hl Hy Hne. apply occ_in. apply occ_in in Hy. rewrite Hl, occ_one, decide_False in Hy by done. lia. }
  assert (Hsame : forall y, y <> c -> elems_of s' y = elems_of s y) by (intros y Hne; unfold elems_of; by rewrite Hat, decide_False by congruence).
  assert (Hnil : elems_of s' c = []) by (unfold elems_of; rewrite Hat, decide_True by done; exact He).
  split; [done| | | | | | |].
  - rewrite Eh, Eg. intros h Hh. unfold hs_ok, buf_at. rewrite Eb. by apply T2.
  - intros x. rewrite Hbusy, occ_one. case_decide; [subst|specialize (T3 x); lia].
    destruct (occ c (busy s)) eqn:E; [lia|]. exfalso. apply Hcb, occ_in. lia.
  - intros y Hy. destruct (decide (y = c)) as [->|Hne].
    + split; [apply occ_in; rewrite Hconts, occ_one, decide_True by done; lia|]. by rewrite Hat, decide_True.
    + apply (Hin _ _ y Hbusy Hy) in Hne as Hy'. destruct (T4 y Hy') as [Hy1 Hy2]. split; [|by rewrite Hat, decide_False by congruence].
      apply occ_in in Hy1. apply occ_in. rewrite Hconts. lia.
  - intros y Hy. destruct (decide (y = c)) as [->|Hne]; [by rewrite Hnil|]. rewrite Hsame by done.
    eapply Forall_impl; [exact (T5 y (Hin _ _ y Hwait Hy Hne))|]. intros e. by apply sealed_untouched.
  - intros w y todo Hw. rewrite Ew in Hw. destruct (decide (y = c)) as [->|Hne].
    { exfalso. apply Hcb, elem_of_app. right. apply list_elem_of_bind. exists (Some (mkWorker c todo)).
      split; [by apply list_elem_of_singleton|by eapply list_elem_of_lookup_2]. }
    rewrite Hsame by done. destruct (T6 w y todo Hw) as (done & E & H1 & H2). exists done. split; [done|]. split.
    + eapply Forall_impl; [exact H1|]. intros e. by apply opened_untouched.
    + eapply Forall_impl; [exact H2|]. intros e. by apply sealed_untouched.
  - intros y Hy Hb. destruct (decide (y = c)) as [->|Hne]; [by rewrite Hnil|]. rewrite Hsame by done.
    eapply Forall_impl; [apply (T7 y (Hin _ _ y Hconts Hy Hne))|intros e; by apply opened_untouched].
    intros Hb'. apply Hb, occ_in. apply occ_in in Hb'. rewrite Hbusy. lia.
  - rewrite Eib. intros p ib y Hib Hy Hin'. destruct (decide (y = c)) as [->|Hne].
    + apply Hc. unfold conts. rewrite !elem_of_app. right. left. apply list_elem_of_bind. exists ib.
      split; [|by eapply list_elem_of_lookup_2]. unfold ib_conts. rewrite Hy. apply elem_of_app. right. by apply list_elem_of_singleton.
    + by apply (T8 p ib y Hib Hy), (Hin _ _ y Hbusy).
Qed.

Lemma GetContainer_places s : let s' := fst (GetInboundElementsContainer s) in
  readers s' = readers s /\ inboxes s' = inboxes s /\ decryption s' = decryption s /\ workers s' = workers s /\
  handshake s' = handshake s /\ handling s' = handling s /\ lost s' = lost s /\ nil_put s' = nil_put s /\
  elements s' = elements s /\ buffers s' = buffers s.
Proof. unfold GetInboundElementsContainer. destruct (pool_Get (containers s)). by split_and!. Qed.

Lemma r_conts_insert x arrs pend rd p c : r_groups rd !! p = None ->
  (occ x (r_conts (mkReader arrs pend (<[p := c]> (r_groups rd)))) = occ x (r_conts rd) + occ x [c])%nat.
Proof.
  intros Hp. unfold r_conts. cbn [r_groups]. rewrite (occ_perm x _ (snd <$> ((p, c) :: map_to_list (r_groups rd)))) by by rewrite map_to_list_insert.
  rewrite fmap_cons, occ_cons. cbn [snd]. lia.
Qed.

Lemma r_conts_delete x arrs pend rd p c : r_groups rd !! p = Some c ->
  (occ x (r_conts rd) = occ x (r_conts (mkReader arrs pend (delete p (r_groups rd)))) + occ x [c])%nat.
Proof.
  intros Hp. unfold r_conts. cbn [r_groups].
  rewrite (occ_perm x (snd <$> map_to_list (r_groups rd)) (snd <$> ((p, c) :: map_to_list (delete p (r_groups rd)))))
    by by rewrite map_to_list_delete.
  rewrite fmap_cons, occ_cons. cbn [snd]. lia.
Qed.

(** A new container for a peer that has none in [elemsByPeer]. *)
Lemma new_group e r rd p s (out := group_container r p s) : acct [] [e] [] s -> tidy s -> readers s !! r = Some rd -> r_groups rd !! p = None ->
  grouped e r rd s (snd out) (fst out).
Proof.
  intros A T Hr Hp. subst out. unfold group_container. rewrite mem_bind_gets, Hr. simpl. rewrite Hp. unfold bind, modify.
  destruct (acct_GetContainer _ _ _ _ A) as (A1 & Hc & He & Hoth). pose proof (GetContainer_places s) as F. cbv zeta in F.
  pose proof (ac_empty _ _ _ _ A (snd (GetInboundElementsContainer s)) Hc ltac:(by intros ?%elem_of_nil)) as He0.
  destruct (GetInboundElementsContainer s) as [s1 c]. cbn [fst snd] in *.
  destruct F as (Er & Ei & Ed & Ew & Eh & Eg & El & En & Ee & Eb).
  set (s2 := write_cont c (mkCont true (ct_elems (cont_at s1 c))) s1). change (readers s2) with (readers s1).
  assert (Hr1 : readers s1 !! r = Some rd) by by rewrite Er. rewrite Hr1.
  set (rd' := mkReader (r_arrs rd) (r_pending rd) (<[p := c]> (r_groups rd))). set (s3 := set_reader r rd' s2).
  pose proof (fun x => r_conts_insert x (r_arrs rd) (r_pending rd) rd p c Hp) as Hrc. fold rd' in Hrc.
  assert (Hconts : forall x, (occ x (conts s3) = occ x (conts s) + occ x [c])%nat).
  { intros x. pose proof (occ_conts_reader x r rd rd' s2 Hr1) as H. rewrite Hrc in H. fold s3 in H.
    replace (conts s2) with (conts s) in H; [lia|]. unfold conts. simpl. by rewrite Er, Ei, El. }
  assert (Hwait : forall x, (occ x (waiting s3) = occ x (waiting s) + occ x [c])%nat).
  { intros x. pose proof (occ_waiting_reader x r rd rd' s2 Hr1) as H. rewrite Hrc in H. fold s3 in H.
    replace (waiting s2) with (waiting s) in H; [lia|]. unfold waiting. simpl. by rewrite Er, Ed. }
  change (ret c s3) with (s3, c). cbn [fst snd]. split; try done.
  - apply (acct_place c _ _ _ s2); try done; [by apply acct_write_cont; [left|]| | |].
    + unfold elems_of, s2. rewrite cont_at_write, decide_True by done. exact He.
    + intros x. rewrite Hconts. unfold conts. simpl. by rewrite Er, Ei, El.
    + intros x. pose proof (occ_front_reader x r rd rd' s2 Hr1) as H. change (r_arrs rd') with (r_arrs rd) in H. fold s3 in H. lia.
  - apply (tidy_place c s); try done.
    + intros r' x Hx. apply (pending_ok_heap s); [simpl; by rewrite Eb|]. apply readers_set in Hx as [[-> ->]|[Hne Hx]].
      * exact (ti_pending s T r rd Hr).
      * simpl in Hx. rewrite Er in Hx. by apply (ti_pending s T r').
    + intros y. change (cont_at s3 y) with (cont_at s2 y). unfold s2. rewrite cont_at_write. case_decide as Hy; [|by apply Hoth].
      unfold elems_of in He, He0 |- *. by rewrite He, He0.
  - apply occ_in. rewrite Hwait, occ_one, decide_True by done. lia.
  - exists rd'. split; [|done]. simpl. rewrite Er. apply list_lookup_insert_eq. by eapply lookup_lt_Some.
Qed.

Lemma group_run e r rd p s (out := group_container r p s) : acct [] [e] [] s -> tidy s -> readers s !! r = Some rd ->
  grouped e r rd s (snd out) (fst out).
Proof.
  intros A T Hr. destruct (r_groups rd !! p) as [c|] eqn:Hp; [|by eapply new_group].
  subst out. unfold group_container. rewrite mem_bind_gets, Hr. simpl. rewrite Hp. split; try done.
  - by eapply conts_of_group.
  - by exists rd.
Qed.

Lemma GetElement_places s : let s' := fst (GetInboundElement s) in
  readers s' = readers s /\ inboxes s' = inboxes s /\ decryption s' = decryption s /\ workers s' = workers s /\
  handshake s' = handshake s /\ handling s' = handling s /\ lost s' = lost s /\ nil_put s' = nil_put s /\
  containers s' = containers s /\ buffers s' = buffers s /\ heap (elements s') = heap (elements s).
Proof.
  unfold GetInboundElement. pose proof (heap_Get (elements s)) as Hh. destruct (pool_Get (elements s)) as [p b]. by split_and!.
Qed.

Lemma tidy_GetElement s : tidy s -> tidy (fst (GetInboundElement s)).
Proof.
  intros T. unfold GetInboundElement. pose proof (heap_Get (elements s)) as Hh. destruct (pool_Get (elements s)) as [p b]. cbn [fst] in *.
  apply (tidy_quiet s); try done; [by apply (ti_pending s T)|]. intros e _. unfold elem_at. simpl. by rewrite Hh.
Qed.

Lemma tidy_write_elem e x s : tidy s -> e ∉ elems s -> tidy (write_elem e x s).
Proof.
  intros T He. apply (tidy_quiet s); try done; [by apply (ti_pending s T)|]. intros y Hy. apply elem_at_other. by intros ->.
Qed.

(** What is known of a datagram that is being sorted. *)
Record at_hand (s : Mem) (r : nat) (rd : Reader) (b : nat) (pkt : Pkt) : Prop := {
  ah_reader : readers s !! r = Some rd;
  ah_slot : r_arrs rd !! pk_index pkt = Some b;
  ah_once : pk_index pkt ∉ pk_index <$> r_pending rd;
  ah_size : pk_size pkt = length (pk_datum pkt);
  ah_datum : take (pk_size pkt) (buf_at s b) = pk_datum pkt;
}.

Lemma add_element_run r rd p k b pkt s : Inv s -> at_hand s r rd b pkt -> (MessageTransportOffsetContent <= pk_size pkt)%nat ->
  Inv (fst ((add_element r p k b pkt ;;; replace_buffer r (pk_index pkt)) s)).
Proof.
  intros [A T N] [Hr Hb Hi Hs Hd] Hlen. unfold add_element. rewrite !mem_bind_assoc. unfold bind at 1.
  pose proof (acct_GetInboundElement _ _ _ _ A) as A1. pose proof (tidy_GetElement s T) as T1.
  pose proof (GetElement_places s) as P. cbv zeta in P.
  destruct (GetInboundElement s) as [s1 e]. cbn [fst snd] in *. destruct P as (Er & _ & _ & _ & _ & _ & _ & En & _ & Eb & _).
  assert (He : e ∉ elems s1) by (apply (counted_hand _ _ _ _ (ac_elems _ _ _ _ A1)); set_solver).
  set (x := mkElem (Some b) (Some (0%nat, pk_size pkt)) 0 (Some k) (Some (pk_endpoint pkt)) (pk_datum pkt)).
  rewrite mem_bind_assoc. change (bind (modify (write_elem e x)) ?k s1) with (k tt (write_elem e x s1)). cbv beta.
  set (s2 := write_elem e x s1). pose proof (acct_write_elem e x _ _ _ _ He A1) as A2. pose proof (tidy_write_elem e x s1 T1 He) as T2.
  fold s2 in A2, T2. assert (Hr2 : readers s2 !! r = Some rd) by (change (readers s2) with (readers s1); by rewrite Er).
  pose proof (group_run e r rd p s2 A2 T2 Hr2) as G. rewrite mem_bind_assoc. unfold bind at 1. destruct (group_container r p s2) as [s3 c]. cbn [fst snd] in G.
  destruct G as [A3 T3 N3 Ee3 Eb3 Hw (rd3 & Hr3 & Ha3 & Hp3)].
  change (bind (modify ?f) ?k s3) with (k tt (f s3)). cbv beta. rewrite replace_cont.
  assert (Hx : elem_at s3 e = x) by (unfold elem_at; rewrite Ee3; apply elem_at_write).
  assert (Hse : sealed s3 e).
  { exists b, k, (pk_endpoint pkt). rewrite Hx. cbn [el_datum x]. rewrite <- Hs. split; [done|]. split; [|done].
    unfold buf_at. rewrite Eb3. change (buffers s2) with (buffers s1). rewrite Eb. exact Hd. }
  destruct (replace_run r (pk_index pkt) rd3 b [] [e] [] s3) as (A4 & T4 & N4 & Ee4 & Ec4 & Hc4); [done|by rewrite Ha3|by rewrite Hp3|].
  destruct (replace_run r (pk_index pkt) rd3 b [] [e] [] (write_cont c (mkCont (ct_locked (cont_at s3 c)) (elems_of s3 c ++ [e])) s3))
    as (_ & T5 & _); [done|by rewrite Ha3|by rewrite Hp3|]. rewrite replace_cont in T5.
  set (s4 := fst (replace_buffer r (pk_index pkt) s3)) in *.
  split.
  - replace (ct_elems (cont_at s3 c)) with (elems_of s4 c) by (unfold elems_of, cont_at; by rewrite Ec4).
    apply (acct_attach c e b); [|apply occ_in; rewrite Hc4; apply occ_in|by apply A4].
    + unfold elem_at. rewrite Ee4. fold (elem_at s3 e). by rewrite Hx.
    + apply (ti_busy s3 T3). by apply busy_waiting.
  - apply T5. by apply tidy_attach.
  - etrans; [exact N4|]. rewrite N3. etrans; [exact En|exact N].
Qed.

(** A message joins the handshake queue. *)
Lemma push_run r rd b pkt t s : Inv s -> at_hand s r rd b pkt ->
  Inv (fst (replace_buffer r (pk_index pkt) (set_handshake (handshake s ++ [mkHs t b (pk_size pkt) (pk_endpoint pkt) (pk_datum pkt)]) s))).
Proof.
  intros [A T N] [Hr Hb Hi Hs Hd]. set (h := mkHs _ _ _ _ _).
  destruct (replace_run r (pk_index pkt) rd b [] [] [] s Hr Hb Hi) as (A1 & _).
  destruct (replace_run r (pk_index pkt) rd b [] [] [] (set_handshake (handshake s ++ [h]) s) Hr Hb Hi) as (_ & T2 & N2 & _).
  split; [| |by rewrite N2].
  - rewrite replace_handshake. set (s1 := fst (replace_buffer _ _ s)) in *.
    assert (Eh : handshake s1 = handshake s).
    { unfold s1, replace_buffer, bind. pose proof (Get_places s) as P. cbv zeta in P. destruct (GetMessageBuffer s) as [s2 b2].
      cbn [fst modify] in *. destruct P as (_ & _ & _ & _ & Eh & _). by destruct (readers s2 !! r). }
    specialize (A1 A). revert A1. apply acct_move; try done. intros x. unfold front.
    cbn [readers handshake handling outbound set_handshake]. rewrite !occ_app, Eh, fmap_app, occ_app.
    change (h_buffer <$> [h]) with [b]. rewrite (occ_cons x b []), occ_nil. lia.
  - apply T2. destruct T as [T1 T2' T3 T4 T5 T6 T7 T8]. split; try done. intros y Hy. cbn [handshake handling set_handshake] in Hy.
    rewrite <- app_assoc in Hy. apply elem_of_app in Hy as [Hy|Hy]; [apply T2', elem_of_app; by left|].
    apply elem_of_cons in Hy as [->|Hy]; [by split|]. apply T2', elem_of_app. by right.
Qed.

Lemma sort_packet_inv r rd b pkt route s : Inv s -> at_hand s r rd b pkt -> Inv (fst (sort_packet r b pkt route s)).
Proof.
  intros I H. unfold sort_packet. rewrite mem_bind_gets. destruct (_ <? MinMessageSize)%nat; [done|].
  destruct (_ =? MessageTransportType).
  - destruct (Nat.ltb_spec (pk_size pkt) MessageTransportSize) as [|Hl]; [done|]. destruct route as [[p k]|]; [|done].
    apply (add_element_run r rd); [done|done|]. etrans; [|exact Hl]. vm_compute. lia.
  - destruct (handshake_size _) as [n|]; [|done]. destruct (negb _); [done|]. rewrite mem_bind_gets. destruct (_ <? _); [|done].
    by apply (push_run r rd).
Qed.

Lemma sort_inv r route s s' : mem_exec (Sort r route) s = Some s' -> Inv s -> Inv s'.
Proof.
  intros E [A T N]. simpl in E. destruct (readers s !! r) as [rd|] eqn:Hr; [|done]. simpl in E.
  destruct (r_pending rd) as [|pkt pending] eqn:Hp; [done|]. destruct (r_arrs rd !! pk_index pkt) as [b|] eqn:Hb; [|done].
  simpl in E. injection E as <-. set (rd' := mkReader (r_arrs rd) pending (r_groups rd)).
  destruct (ti_pending s T r rd Hr) as [Hn Hf]. rewrite Hp in Hn, Hf. apply NoDup_cons in Hn as [Hi Hn].
  apply Forall_cons in Hf as [(Hs & b' & Hb' & Hd) Hf]. assert (b' = b) as -> by congruence.
  apply (sort_packet_inv r rd').
  - split; [| |done].
    + eapply acct_reader; [done|exact Hr|done|]. done.
    + eapply tidy_reader; [done|exact Hr|done|]. by split.
  - split; try done. simpl. apply list_lookup_insert_eq. by eapply lookup_lt_Some.
Qed.

(** A container that leaves its place and goes back to the pool with what is in it. *)
Lemma drop_inv c s s1 : Inv s -> c ∈ conts s ->
  (forall x, occ x (conts s) = occ x (conts s1) + occ x [c])%nat ->
  (forall x, x <> c -> occ x (waiting s1) = occ x (waiting s)) -> c ∉ busy s1 ->
  buffers s1 = buffers s -> elements s1 = elements s -> containers s1 = containers s ->
  (forall x, occ x (front s1) = occ x (front s)) -> workers s1 = workers s ->
  handshake s1 = handshake s -> handling s1 = handling s -> nil_put s1 = nil_put s ->
  (forall r rd, readers s1 !! r = Some rd -> pending_ok s rd) ->
  (forall p ib y, inboxes s1 !! p = Some ib -> ib_hold ib = Some y -> y ∉ busy s) -> Inv (fst (put_all c s1)).
Proof.
  intros [A T N] Hc Hconts Hwait Hcb Eb Ee Ec Ef Ew Eh Eg En Hp Hib.
  pose proof (acct_take c s s1 A Hconts Eb Ee Ec Ef) as A1.
  assert (Hel : forall y, elems_of s1 y = elems_of s y) by (intros y; unfold elems_of, cont_at; by rewrite Ec).
  assert (Hat : forall y, elem_at s1 y = elem_at s y) by (intros y; unfold elem_at; by rewrite Ee).
  destruct (put_all_run c [] [] [] s1) as [A2 F].
  { rewrite Hel. eapply Forall_impl; [by apply (tidy_buffers s c T)|]. intros e. by rewrite Hat. }
  { rewrite Hel, !app_nil_r. by rewrite (bind_same (buf_of s1) (buf_of s)) by (intros y _; unfold buf_of; by rewrite Hat). }
  rewrite Hel in F. destruct (put_all c s1) as [s2 u]. cbn [fst] in *. destruct F as [F1 F2 F3 F4 F5 F6 F7 _ F8 F9 F10 F11].
  assert (Hc2 : conts s2 = conts s1) by (unfold conts; by rewrite F1, F2, F7).
  assert (Hw2 : waiting s2 = waiting s1) by (unfold waiting; by rewrite F1, F3).
  assert (Hb2 : busy s2 = busy s1) by (unfold busy; by rewrite Hw2, F4).
  assert (Hbusy : forall x, x <> c -> occ x (busy s1) = occ x (busy s)) by (intros x Hx; by rewrite !occ_busy, Hwait, Ew).
  assert (Hne : forall y, y ∈ conts s1 -> y <> c /\ y ∈ conts s).
  { intros y Hy%occ_in. pose proof (conts_once s _ _ _ A y) as Ho. rewrite Hconts, occ_one in Ho. split.
    - intros ->. rewrite decide_True in Ho by done. lia.
    - apply occ_in. rewrite Hconts. lia. }
  assert (Hbuf : forall b, buf_at s2 b = buf_at s b) by (intros b; rewrite F9; unfold buf_at; by rewrite Eb).
  split; [done| |congruence]. apply (tidy_mono s); try congruence.
  - intros r rd Hr. rewrite F1 in Hr. eapply pending_ok_mono; [by apply (Hp r)|done|]. intros i b Hi _. by rewrite Hbuf.
  - rewrite F5, F6, Eh, Eg. intros h Hin. split; [done|apply Hbuf].
  - intros x. rewrite Hb2. destruct (decide (x = c)) as [->|Hx]; [|by rewrite Hbusy].
    destruct (occ c (busy s1)) eqn:E; [lia|]. exfalso. apply Hcb, occ_in. lia.
  - intros x Hx. rewrite Hw2 in Hx. assert (x <> c) by (intros ->; by apply Hcb, busy_waiting).
    apply occ_in. apply occ_in in Hx. by rewrite <- Hwait.
  - intros y Hy. rewrite Hc2 in Hy. destruct (Hne y Hy) as [Hyc Hys]. split; [done|].
    assert (Hcy : cont_at s2 y = cont_at s y) by (rewrite F11 by set_solver; unfold cont_at; by rewrite Ec).
    split; [unfold elems_of; by rewrite Hcy|]. split.
    + apply Forall_forall. intros e He. split; [|intros b _; apply Hbuf]. rewrite F10; [apply Hat|].
      intros He'. by apply Hyc, (conts_apart s _ _ _ A e).
    + intros Hin. split; [|rewrite Hcy; by apply (ti_busy s T)]. rewrite Hb2. apply occ_in. rewrite Hbusy by done. by apply occ_in.
  - intros y Hy. rewrite Hb2 in Hy. rewrite Hc2. assert (Hyc : y <> c) by by intros ->. apply occ_in in Hy. rewrite Hbusy in Hy by done.
    apply occ_in in Hy. apply (ti_busy s T) in Hy as [Hy _]. apply occ_in in Hy. apply occ_in. rewrite Hconts, occ_one, decide_False in Hy by done. lia.
  - intros p ib y. rewrite F2. apply Hib.
Qed.

Lemma inboxes_set p ib' s p' ib : inboxes (set_inbox p ib' s) !! p' = Some ib ->
  (p' = p /\ ib = ib') \/ (p' <> p /\ inboxes s !! p' = Some ib).
Proof. intros [(-> & <- & _)|[Hne H]]%list_lookup_insert_Some; [by left|right; by split]. Qed.

Lemma ib_conts_cons x c q h : occ x (ib_conts (mkInbox (c :: q) h)) = (occ x (ib_conts (mkInbox q h)) + occ x [c])%nat.
Proof. unfold ib_conts. cbn [ib_queue ib_hold]. rewrite <- app_comm_cons, occ_cons. lia. Qed.

Lemma ib_conts_hold x c q : occ x (ib_conts (mkInbox q (Some c))) = (occ x (ib_conts (mkInbox q None)) + occ x [c])%nat.
Proof. exact (eq_trans (occ_app x q [c]) (f_equal (fun n => n + occ x [c])%nat (f_equal (occ x) (eq_sym (app_nil_r q))))). Qed.

Lemma inbox_conts s p ib c : inboxes s !! p = Some ib -> c ∈ ib_conts ib -> c ∈ conts s.
Proof.
  intros Hib Hc. unfold conts. rewrite !elem_of_app. right. left. apply list_elem_of_bind. exists ib. split; [done|].
  by eapply list_elem_of_lookup_2.
Qed.

Lemma unlocked_idle s c : tidy s -> ct_locked (cont_at s c) = false -> c ∉ busy s.
Proof. intros T Hl Hin. destruct (ti_busy s T c Hin) as [_ H]. congruence. Qed.

Lemma flush_inv p s s' : mem_exec (Flush p) s = Some s' -> Inv s -> Inv s'.
Proof.
  intros E I. simpl in E. destruct (inboxes s !! p) as [[[|c q] hold]|] eqn:Hib; try done.
  destruct (ct_locked (cont_at s c)) eqn:Hl; [done|]. injection E as <-. pose proof (inv_tidy _ I) as T.
  apply (drop_inv c s); try done.
  - apply (inbox_conts s p _ c Hib). set_solver.
  - intros x. pose proof (occ_conts_inbox x p _ (mkInbox q hold) s Hib) as H. rewrite ib_conts_cons in H. lia.
  - exact (unlocked_idle s c T Hl).
  - apply (ti_pending s T).
  - intros p' ib y [[-> ->]|[Hne H]]%inboxes_set; [|by apply (ti_held s T p')]. intros Hy. by apply (ti_held s T p _ y Hib).
Qed.

Lemma release_inv p err s s' : mem_exec (Release p err) s = Some s' -> Inv s -> Inv s'.
Proof.
  intros E I. simpl in E. destruct (inboxes s !! p) as [[q [c|]]|] eqn:Hib; try done. pose proof (inv_tidy _ I) as T.
  assert (Hheld : forall p' ib y, inboxes (set_inbox p (mkInbox q None) s) !! p' = Some ib -> ib_hold ib = Some y -> y ∉ busy s).
  { intros p' ib y [[-> ->]|[Hne H]]%inboxes_set; [done|]. by apply (ti_held s T p'). }
  assert (Hconts : forall x, (occ x (conts s) = occ x (conts (set_inbox p (mkInbox q None) s)) + occ x [c])%nat).
  { intros x. pose proof (occ_conts_inbox x p _ (mkInbox q None) s Hib) as H. rewrite ib_conts_hold in H. lia. }
  destruct err.
  - injection E as <-. set (s' := set_lost (c :: lost s) (set_inbox p (mkInbox q None) s)).
    assert (Hc' : forall x, occ x (conts s') = occ x (conts s)).
    { intros x. rewrite Hconts. unfold conts, s'. simpl. rewrite !occ_app, (occ_cons x c). lia. }
    destruct I as [A _ N]. split; [by revert A; apply acct_move| |done].
    apply (tidy_mono s); try done; [by apply (ti_pending s T)| |].
    + intros y Hy. apply occ_in in Hy. rewrite Hc' in Hy. split; [by apply occ_in|]. split; [done|]. split; [by apply Forall_true|].
      intros Hin. split; [done|]. by apply (ti_busy s T).
    + intros y Hy. apply occ_in. rewrite Hc'. apply occ_in. by apply (ti_busy s T).
  - injection E as <-. apply (drop_inv c s); try done.
    + apply (inbox_conts s p _ c Hib). set_solver.
    + exact (ti_held s T p _ c Hib eq_refl).
    + apply (ti_pending s T).
Qed.

Lemma deliver_inv r p running s s' : mem_exec (Deliver r p running) s = Some s' -> Inv s -> Inv s'.
Proof.
  intros E I. simpl in E. destruct (readers s !! r) as [rd|] eqn:Hr; [|done]. simpl in E.
  destruct (r_groups rd !! p) as [c|] eqn:Hg; [|done]. simpl in E. destruct (inboxes s !! p) as [ib|] eqn:Hib; [|done]. simpl in E.
  case_decide as Hp; [|done]. set (rd' := mkReader (r_arrs rd) [] (delete p (r_groups rd))) in E. set (s0 := set_reader r rd' s) in E.
  pose proof (fun x => r_conts_delete x (r_arrs rd) [] rd p c Hg) as Hrc. fold rd' in Hrc.
  assert (Hw : c ∈ waiting s) by by eapply conts_of_group. pose proof (inv_tidy _ I) as T. pose proof (inv_acct _ I) as A.
  assert (Hconts0 : forall x, (occ x (conts s) = occ x (conts s0) + occ x [c])%nat).
  { intros x. pose proof (occ_conts_reader x r rd rd' s Hr) as H. fold s0 in H. rewrite Hrc in H. lia. }
  assert (Hwait0 : forall x, (occ x (waiting s) = occ x (waiting s0) + occ x [c])%nat).
  { intros x. pose proof (occ_waiting_reader x r rd rd' s Hr) as H. fold s0 in H. rewrite Hrc in H. lia. }
  assert (Hfront : forall x, occ x (front s0) = occ x (front s)).
  { intros x. pose proof (occ_front_reader x r rd rd' s Hr) as H. fold s0 in H. change (r_arrs rd') with (r_arrs rd) in H. lia. }
  assert (Hpend : forall r' x, readers s0 !! r' = Some x -> pending_ok s x).
  { intros r' x [[-> ->]|[Hne Hx]]%readers_set; [split; constructor|by apply (ti_pending s T r')]. }
  destruct running; injection E as <-.
  - set (s' := set_decryption _ _).
    assert (Hconts : forall x, occ x (conts s') = occ x (conts s)).
    { intros x. rewrite Hconts0. pose proof (occ_conts_inbox x p ib (mkInbox (ib_queue ib ++ [c]) (ib_hold ib)) s0 Hib) as H.
      unfold ib_conts in H. cbn [ib_queue ib_hold] in H. rewrite !occ_app in H. change (conts s') with (conts (set_inbox p (mkInbox (ib_queue ib ++ [c]) (ib_hold ib)) s0)). lia. }
    assert (Hwait : forall x, occ x (waiting s') = occ x (waiting s)).
    { intros x. rewrite Hwait0. unfold waiting. simpl. rewrite !occ_app. lia. }
    split; [revert A; apply acct_move; try done; intros x; by rewrite Hfront| |exact (inv_nil _ I)].
    assert (Hb : forall x, occ x (busy s') = occ x (busy s)) by (intros x; by rewrite !occ_busy, Hwait).
    apply (tidy_mono s); try done.
    + intros x. by rewrite Hb.
    + intros x. by rewrite !occ_in, Hwait.
    + intros y Hy%occ_in. rewrite Hconts in Hy. split; [by apply occ_in|]. split; [done|]. split; [by apply Forall_true|].
      intros Hin. split; [by rewrite occ_in, Hb, <- occ_in|]. by apply (ti_busy s T).
    + intros y Hy%occ_in. rewrite Hb in Hy. apply occ_in. rewrite Hconts. apply occ_in. by apply (ti_busy s T), occ_in.
    + intros p' x y [[-> ->]|[Hne H]]%inboxes_set; [by apply (ti_held s T p ib)|by apply (ti_held s T p')].
  - apply (drop_inv c s); try done; [by apply (ti_busy s T), busy_waiting| | |apply (ti_held s T)].
    + intros x Hx. rewrite Hwait0, occ_one, decide_False by done. lia.
    + intros Hin%occ_in. pose proof (ti_once s T c) as Ho. rewrite occ_busy in Ho, Hin. rewrite Hwait0, occ_one, decide_True in Ho by done.
      change (workers s0) with (workers s) in Hin. lia.
Qed.

Lemma put_buffers_run l : forall hb he hc s (s' := fst (forM l (fun b => PutMessageBuffer (Some b)) s)),
  (acct (l ++ hb) he hc s -> acct hb he hc s') /\ readers s' = readers s /\ inboxes s' = inboxes s /\ decryption s' = decryption s /\
  workers s' = workers s /\ handshake s' = handshake s /\ handling s' = handling s /\ lost s' = lost s /\ nil_put s' = nil_put s /\
  elements s' = elements s /\ containers s' = containers s /\ heap (buffers s') = heap (buffers s).
Proof.
  induction l as [|b l IH]; intros hb he hc s; [by split_and!|]. cbv zeta in *.
  destruct (IH hb he hc (fst (PutMessageBuffer (Some b) s))) as (A & F). split; [|exact F].
  intros H. apply A. by apply acct_PutMessageBuffer.
Qed.

Lemma return_inv r s s' : mem_exec (Return r) s = Some s' -> Inv s -> Inv s'.
Proof.
  intros E [A T N]. simpl in E. destruct (readers s !! r) as [rd|] eqn:Hr; [|done]. simpl in E.
  case_decide as Hg; [|done]. destruct Hg as (_ & Hp & Hgr). injection E as <-. set (s1 := set_reader r (mkReader [] [] ∅) s).
  assert (A1 : acct (r_arrs rd ++ []) [] [] s1).
  { eapply acct_reader; [done|exact Hr|by rewrite Hgr|]. intros x. rewrite app_nil_r. cbn [r_arrs]. rewrite occ_nil. lia. }
  assert (T1 : tidy s1) by (eapply tidy_reader; [done|exact Hr|by rewrite Hgr|]; split; constructor).
  pose proof (put_buffers_run (r_arrs rd) [] [] [] s1) as P. cbv zeta in P.
  set (s2 := fst (forM _ _ s1)) in *. destruct P as (A2 & Er & Ei & Ed & Ew & Eh & Eg & El & En & Ee & Ec & Eb).
  split; [by apply A2| |by rewrite En]. apply (tidy_quiet s1); rewrite ?Eh, ?Eg; try done.
  - intros r' x Hx. rewrite Er in Hx. eapply pending_ok_heap; [exact Eb|by apply (ti_pending s1 T1 r')].
  - intros c. unfold waiting. by rewrite Er, Ed.
  - intros c. unfold conts. by rewrite Er, Ei, El.
  - intros b _. unfold buf_at. by rewrite Eb.
  - intros e _. unfold elem_at. by rewrite Ee.
  - intros c _. unfold elems_of, cont_at. by rewrite Ec.
Qed.

Lemma take_handshake_inv s s' : mem_exec Take_handshake s = Some s' -> Inv s -> Inv s'.
Proof.
  intros E [A T N]. simpl in E. destruct (handshake s) as [|h q] eqn:Hh; [done|]. injection E as <-.
  split; [| |done].
  - revert A. apply acct_move; try done. intros x. unfold front. simpl. rewrite Hh, fmap_cons, fmap_app, !occ_app.
    rewrite (occ_cons x (h_buffer h) (h_buffer <$> q)). simpl. lia.
  - destruct T as [T1 T2 T3 T4 T5 T6 T7 T8]. split; try done. simpl. rewrite Hh in T2. set_solver.
Qed.

Lemma done_handshake_inv i s s' : mem_exec (Done_handshake i) s = Some s' -> Inv s -> Inv s'.
Proof.
  intros E [A T N]. cbn [mem_exec] in E. destruct (handling s !! i) as [h|] eqn:Hh; [|done]. injection E as <-.
  set (s1 := set_handling (delete i (handling s)) s). pose proof (delete_Permutation _ _ _ Hh) as Hp.
  split; [| |done].
  - apply acct_PutMessageBuffer. revert A. apply acct_move; try done. intros x. unfold front. simpl.
    rewrite !occ_app, (occ_perm x _ _ (fmap_Permutation h_buffer _ _ Hp)).
    rewrite fmap_cons, (occ_cons x (h_buffer h) (h_buffer <$> delete i (handling s))), occ_nil. lia.
  - destruct T as [T1 T2 T3 T4 T5 T6 T7 T8]. split; try done. intros y Hy. apply T2. simpl in Hy.
    apply elem_of_app in Hy as [Hy|Hy]; apply elem_of_app; [by left|right]. rewrite Hp. by right.
Qed.

Lemma take_inbound_inv p s s' : mem_exec (Take_inbound p) s = Some s' -> Inv s -> Inv s'.
Proof.
  intros E [A T N]. simpl in E. destruct (inboxes s !! p) as [[[|c q] [|]]|] eqn:Hib; try done.
  destruct (ct_locked (cont_at s c)) eqn:Hl; [done|]. injection E as <-.
  assert (Hcb := unlocked_idle s c T Hl). set (s1 := set_inbox p (mkInbox q (Some c)) s).
  assert (Hconts : forall x, occ x (conts s1) = occ x (conts s)).
  { intros x. pose proof (occ_conts_inbox x p _ (mkInbox q (Some c)) s Hib) as H. rewrite ib_conts_cons, ib_conts_hold in H. fold s1 in H. lia. }
  split; [|  |done].
  - apply acct_write_cont; [by left|]. revert A. by apply acct_move.
  - apply (tidy_mono s); try done; [by apply (ti_pending s T)| | |].
    + intros y Hy. assert (Hys : y ∈ conts s) by (apply occ_in; rewrite <- Hconts; by apply occ_in). split; [done|].
      split; [unfold elems_of; rewrite cont_at_write; by case_decide; subst|]. split; [by apply Forall_true|].
      intros Hin. split; [done|]. rewrite cont_at_write. case_decide; [done|]. by apply (ti_busy s T).
    + intros y Hy. apply (ti_busy s T) in Hy as [Hy _]. apply occ_in. change (conts (write_cont c ?x s1)) with (conts s1). rewrite Hconts. by apply occ_in.
    + intros p' ib y [[-> ->]|[Hne H]]%inboxes_set; [by intros [= <-]|by apply (ti_held s T p')].
Qed.

Lemma occ_worker x w o o' s : workers s !! w = Some o ->
  (occ x (workers (set_worker w o' s) ≫= w_conts) + occ x (w_conts o) = occ x (workers s ≫= w_conts) + occ x (w_conts o'))%nat.
Proof. intros H. exact (occ_bind_insert x w_conts _ _ _ o' H). Qed.

Lemma workers_set w o s w' o' : workers (set_worker w o s) !! w' = Some o' ->
  (w' = w /\ o' = o) \/ (w' <> w /\ workers s !! w' = Some o').
Proof. intros [(-> & <- & _)|[Hne H]]%list_lookup_insert_Some; [by left|right; by split]. Qed.

Lemma worker_busy s w c todo : workers s !! w = Some (Some (mkWorker c todo)) -> c ∈ busy s.
Proof.
  intros Hw. apply elem_of_app. right. apply list_elem_of_bind. exists (Some (mkWorker c todo)).
  split; [by apply list_elem_of_singleton|by eapply list_elem_of_lookup_2].
Qed.

(** The container of a worker is with nobody else. *)
Lemma worker_apart s w c todo : tidy s -> workers s !! w = Some (Some (mkWorker c todo)) ->
  c ∉ waiting s /\ forall w' c' todo', w' <> w -> workers s !! w' = Some (Some (mkWorker c' todo')) -> c' <> c.
Proof.
  intros T Hw. pose proof (ti_once s T c) as Ho. rewrite occ_busy in Ho.
  pose proof (occ_worker c w _ None s Hw) as Hi. change (w_conts (Some (mkWorker c todo))) with [c] in Hi.
  change (w_conts None) with (@nil nat) in Hi. rewrite occ_nil, occ_one, decide_True in Hi by done. split.
  - intros Hin%occ_in. lia.
  - intros w' c' todo' Hne Hw' ->.
    assert (Hw2 : workers (set_worker w None s) !! w' = Some (Some (mkWorker c todo'))) by (simpl; by rewrite list_lookup_insert_ne).
    pose proof (occ_bind_in c w_conts _ _ (list_elem_of_lookup_2 _ _ _ Hw2)) as H.
    change (w_conts (Some (mkWorker c todo'))) with [c] in H. rewrite occ_one, decide_True in H by done. lia.
Qed.

Lemma take_decryption_inv w s s' : mem_exec (Take_decryption w) s = Some s' -> Inv s -> Inv s'.
Proof.
  intros E [A T N]. simpl in E. destruct (workers s !! w) as [[|]|] eqn:Hw; try done. destruct (decryption s) as [|c q] eqn:Hd; [done|].
  injection E as <-. set (x := mkWorker c _). set (s' := set_worker _ _ _).
  assert (Hbusy : forall y, occ y (busy s') = occ y (busy s)).
  { intros y. rewrite !occ_busy. pose proof (occ_worker y w _ (Some x) s Hw) as H. change (w_conts (Some x)) with [c] in H.
    change (w_conts None) with (@nil nat) in H. rewrite occ_nil in H. unfold waiting. rewrite Hd, !occ_app, (occ_cons y c q).
    change (workers s') with (workers (set_worker w (Some x) s)). simpl. simpl in H. lia. }
  split; [revert A; by apply acct_move| |done]. destruct T as [T1 T2 T3 T4 T5 T6 T7 T8].
  assert (Hcw : c ∈ waiting s) by (unfold waiting; rewrite Hd; set_solver).
  split; [done|done|intros y; by rewrite Hbusy| | | | |].
  - intros y Hy. apply (T4 y). apply occ_in. rewrite <- Hbusy. by apply occ_in.
  - intros y Hy. apply (T5 y). unfold waiting in *. rewrite Hd. cbn [s' readers decryption set_worker set_decryption] in Hy. set_solver.
  - intros w' y todo [[-> [= -> ->]]|[Hne H]]%workers_set; [|by apply (T6 w')].
    exists []. split; [done|]. split; [constructor|by apply T5].
  - intros y Hy Hb. apply (T7 y Hy). intros Hin. apply Hb. apply occ_in. rewrite Hbusy. by apply occ_in.
  - intros p ib y Hib Hh Hin. apply (T8 p ib y Hib Hh). apply occ_in. rewrite <- Hbusy. by apply occ_in.
Qed.

Lemma unlock_inv w s s' : mem_exec (Unlock w) s = Some s' -> Inv s -> Inv s'.
Proof.
  intros E [A T N]. simpl in E. destruct (workers s !! w) as [[[c [|]]|]|] eqn:Hw; try done. injection E as <-.
  set (s1 := write_cont c _ s). set (s' := set_worker w None s1).
  assert (Hbusy : forall y, (occ y (busy s) = occ y (busy s') + occ y [c])%nat).
  { intros y. rewrite !occ_busy. pose proof (occ_worker y w _ None s Hw) as H. change (w_conts (Some (mkWorker c []))) with [c] in H.
    change (w_conts None) with (@nil nat) in H. rewrite occ_nil in H. change (workers s') with (workers (set_worker w None s)).
    change (waiting s') with (waiting s). lia. }
  assert (Hel : forall y, elems_of s' y = elems_of s y).
  { intros y. change (elems_of s' y) with (elems_of s1 y). unfold elems_of, s1. rewrite cont_at_write. by case_decide; subst. }
  split; [| |done].
  - apply (acct_move [] [] [] [] s1); try done. apply acct_write_cont; [by left|done].
  - destruct (worker_apart s w c [] T Hw) as [Hnw Hap]. destruct T as [T1 T2 T3 T4 T5 T6 T7 T8].
    assert (Hbin : forall y, y ∈ busy s' -> y ∈ busy s /\ y <> c).
    { intros y Hy%occ_in. specialize (T3 y). specialize (Hbusy y). rewrite occ_one in Hbusy. split; [apply occ_in; lia|].
      intros ->. rewrite decide_True in Hbusy by done. lia. }
    split; [done|done|intros y; specialize (T3 y); specialize (Hbusy y); lia| | | | |].
    + intros y [Hy Hne]%Hbin. split; [by apply T4|]. change (cont_at s' y) with (cont_at s1 y). unfold s1.
      rewrite cont_at_write, decide_False by congruence. by apply T4.
    + intros y Hy. rewrite Hel. by apply T5.
    + intros w' y todo [[-> ?]|[Hne H]]%workers_set; [done|]. rewrite Hel. by apply (T6 w').
    + intros y Hy Hb. rewrite Hel. destruct (decide (y = c)) as [->|Hne].
      * destruct (T6 w c [] Hw) as (done & Ed & Ho & _). by rewrite Ed, app_nil_r.
      * apply T7; [done|]. intros Hin%occ_in. apply Hb, occ_in. specialize (Hbusy y). rewrite occ_one, decide_False in Hbusy by done. lia.
    + intros p ib y Hib Hh [Hin _]%Hbin. by apply (T8 p ib y).
Qed.

Lemma take_splice_through {A} off (new l : list A) : (off <= length l)%nat ->
  take (off + length new) (splice off new l) = take off l ++ new.
Proof.
  intros H. unfold splice. rewrite app_assoc, take_app_le by (rewrite length_app, length_take; lia).
  apply take_ge. rewrite length_app, length_take. lia.
Qed.

Lemma acct_write_same e x hb he hc s : el_buffer x = el_buffer (elem_at s e) -> acct hb he hc s -> acct hb he hc (write_elem e x s).
Proof.
  intros Hx [H1 H2 H3 H4]. split; [|done..].
  assert (E : bufs (write_elem e x s) = bufs s); [|by rewrite E].
  unfold bufs. f_equal. apply bind_same. intros y _. destruct (decide (e = y)) as [<-|Hne]; [|by apply buf_of_write].
  unfold buf_of. by rewrite elem_at_write, Hx.
Qed.

(** Opening an element that is sealed. *)
Lemma decrypt_element_run e junk s (s' := fst (decrypt_element e junk s)) : sealed s e -> exists b,
  b ∈ buf_of s e /\ (forall hb he hc, acct hb he hc s -> acct hb he hc s') /\ opened s' e /\
  (forall y, y <> e -> elem_at s' y = elem_at s y) /\ (forall y, y <> b -> buf_at s' y = buf_at s y) /\
  readers s' = readers s /\ inboxes s' = inboxes s /\ decryption s' = decryption s /\ workers s' = workers s /\
  handshake s' = handshake s /\ handling s' = handling s /\ lost s' = lost s /\ nil_put s' = nil_put s /\ containers s' = containers s.
Proof.
  intros (b & k & ep & E & Hd & Hl). exists b. subst s'. unfold decrypt_element. rewrite mem_bind_gets, E. cbn [el_buffer el_packet el_keypair el_endpoint el_datum].
  set (d := el_datum (elem_at s e)) in *. assert (Hp : packet_of s b (0%nat, length d) = d).
  { unfold packet_of, slice. cbn [fst snd]. by rewrite Nat.sub_0_r, drop_0. }
  rewrite Hp. set (v := decrypt_elem (keys k) (mkInElem d (Some d) 0 k ep)).
  assert (Hv : v = decrypt_elem (keys k) (mkInElem d (Some d) 0 k ep)) by done. unfold decrypt_elem in Hv. cbn [ie_packet ie_buffer ie_keypair ie_endpoint] in Hv.
  split; [unfold buf_of; rewrite E; set_solver|]. assert (Hlen : (MessageTransportOffsetContent <= length (buf_at s b))%nat).
  { rewrite <- Hd, length_take in Hl. lia. }
  destruct (aead_Open _ _ _ _) as [plain|] eqn:Ho; unfold bind, modify; cbn [fst].
  - split_and!; try done.
    + intros hb he hc A. apply acct_write_same; [|by apply acct_write_buf]. change (elem_at (write_buf b ?x s) e) with (elem_at s e). by rewrite E.
    + exists b, k, ep. rewrite elem_at_write. unfold received. cbn [el_datum]. fold v. rewrite Hv. cbn [ie_packet ie_counter ie_buffer fmap option_fmap option_map].
      split; [done|]. split; [done|]. intros ? [= <-]. change (buf_at (write_elem e ?x ?t) b) with (buf_at t b). rewrite buf_at_write, decide_True by done.
      rewrite !(take_splice_through MessageTransportOffsetContent) by lia. f_equal.
      rewrite <- Hd, take_take. f_equal. lia.
    + intros y Hy. by rewrite elem_at_other.
    + intros y Hy. change (buf_at (write_elem e ?x ?t) y) with (buf_at t y). by rewrite buf_at_write, decide_False.
  - split_and!; try done.
    + intros hb he hc A. apply acct_write_same; [|by apply acct_write_buf]. change (elem_at (write_buf b ?x s) e) with (elem_at s e). by rewrite E.
    + exists b, k, ep. rewrite elem_at_write. unfold received. cbn [el_datum]. fold v. rewrite Hv. done.
    + intros y Hy. by rewrite elem_at_other.
    + intros y Hy. change (buf_at (write_elem e ?x ?t) y) with (buf_at t y). by rewrite buf_at_write, decide_False.
Qed.

(** The step of a worker that opens the element [e] of its container [c]. *)
Section Opening.
Context (s s' : Mem) (w c e b : nat) (todo : list nat) (A : acct [] [] [] s) (T : tidy s).
Context (Hw : workers s !! w = Some (Some (mkWorker c (e :: todo)))) (Hb : b ∈ buf_of s e) (Ho : opened s' e).
Context (Hat : forall y, y <> e -> elem_at s' y = elem_at s y) (Hbuf : forall y, y <> b -> buf_at s' y = buf_at s y).
Context (Er : readers s' = readers s) (Ei : inboxes s' = inboxes s) (Ed : decryption s' = decryption s)
  (Ew : workers s' = <[w := Some (mkWorker c todo)]> (workers s)) (Eh : handshake s' = handshake s)
  (Eg : handling s' = handling s) (El : lost s' = lost s) (Ec : containers s' = containers s).

Lemma opening_elems : exists ok, elems_of s c = ok ++ e :: todo /\ Forall (opened s) ok /\ Forall (sealed s) todo /\
  e ∉ ok /\ e ∉ todo /\ c ∈ conts s /\ e ∈ elems s.
Proof.
  destruct (ti_workers s T w c _ Hw) as (ok & E & Hok & [_ Hto]%Forall_cons).
  pose proof (ti_busy s T c (worker_busy _ _ _ _ Hw)) as [Hc _].
  pose proof (elems_of_once s _ _ _ A c e Hc) as Honce. rewrite E, occ_app, (occ_cons e e todo), occ_one, decide_True in Honce by done.
  exists ok. split_and!; try done; [intros ?%occ_in; lia..|]. apply (elem_of_elems s c e Hc). rewrite E. apply elem_of_app. right. by left.
Qed.

(** Elements of a container among which [e] is not. *)
Lemma opening_others y l (P Q : nat -> Prop) : y ∈ conts s -> (forall z, z ∈ l -> z ∈ elems_of s y) -> e ∉ l ->
  (forall z, untouched s s' z -> P z -> Q z) -> Forall P l -> Forall Q l.
Proof.
  intros Hy Hl Hel HPQ. rewrite !Forall_forall. intros HP z Hz. apply HPQ; [|by apply HP].
  destruct opening_elems as (_ & _ & _ & _ & _ & _ & _ & He). assert (Hne : z <> e) by by intros ->.
  split; [by apply Hat|]. intros b' Hb'. apply Hbuf. intros ->. apply Hne, (elem_buffers_apart s _ _ _ A b); try done.
  exact (elem_of_elems s y z Hy (Hl z Hz)).
Qed.

Lemma opening_apart y : y ∈ conts s -> y <> c -> e ∉ elems_of s y.
Proof.
  intros Hy Hyc Hin. destruct opening_elems as (ok & E & _ & _ & _ & _ & Hc & _). apply Hyc, (conts_apart s _ _ _ A e); try done.
  rewrite E. apply elem_of_app. right. by left.
Qed.

Lemma opening_front y : y ∈ front s -> buf_at s' y = buf_at s y.
Proof.
  intros Hy. destruct opening_elems as (_ & _ & _ & _ & _ & _ & _ & He). apply Hbuf. intros ->.
  by apply (front_not_elem s _ _ _ A b e).
Qed.

Lemma opening_busy y : y ∈ busy s' <-> y ∈ busy s.
Proof.
  assert (E : occ y (busy s') = occ y (busy s)); [|by rewrite !occ_in, E].
  rewrite !occ_busy. replace (waiting s') with (waiting s) by (unfold waiting; by rewrite Er, Ed).
  pose proof (occ_worker y w _ (Some (mkWorker c todo)) s Hw) as H.
  change (w_conts (Some (mkWorker c (e :: todo)))) with (w_conts (Some (mkWorker c todo))) in H. rewrite Ew. simpl in H. lia.
Qed.

Lemma opening_workers w' y todo' : workers s' !! w' = Some (Some (mkWorker y todo')) ->
  exists ok, elems_of s y = ok ++ todo' /\ Forall (opened s') ok /\ Forall (sealed s') todo'.
Proof.
  rewrite Ew. intros [(<- & [= <- <-] & _)|[Hne H]]%list_lookup_insert_Some.
  - destruct opening_elems as (ok & E & Hok & Hto & H1 & H2 & Hc & _). exists (ok ++ [e]). split; [by rewrite E, <- app_assoc|]. split.
    + apply Forall_app. split; [|by repeat constructor]. revert Hok. apply (opening_others c); [done| |done|apply opened_untouched].
      intros z Hz. rewrite E. apply elem_of_app. by left.
    + revert Hto. apply (opening_others c); [done| |done|apply sealed_untouched].
      intros z Hz. rewrite E. apply elem_of_app. right. by right.
  - destruct (ti_workers s T w' y todo' H) as (ok & E & H1 & H2). exists ok. split; [done|].
    destruct (worker_apart s w c _ T Hw) as [_ Hap]. assert (Hy : y ∈ conts s) by by apply (ti_busy s T), (worker_busy s w' y todo').
    pose proof (opening_apart y Hy (Hap w' y todo' ltac:(congruence) H)) as Hey. rewrite E in Hey. split.
    + revert H1. apply (opening_others y); [done| | |apply opened_untouched].
      * intros z Hz. rewrite E. apply elem_of_app. by left.
      * intros Hz. apply Hey, elem_of_app. by left.
    + revert H2. apply (opening_others y); [done| | |apply sealed_untouched].
      * intros z Hz. rewrite E. apply elem_of_app. by right.
      * intros Hz. apply Hey, elem_of_app. by right.
Qed.

Lemma tidy_open : tidy s'.
Proof.
  assert (Hcat : forall y, cont_at s' y = cont_at s y) by (intros y; unfold cont_at; by rewrite Ec).
  assert (Hel : forall y, elems_of s' y = elems_of s y) by (intros y; unfold elems_of; by rewrite Hcat).
  assert (Hcs : conts s' = conts s) by (unfold conts; by rewrite Er, Ei, El).
  assert (Hws : waiting s' = waiting s) by (unfold waiting; by rewrite Er, Ed).
  split.
  - intros r rd Hr. rewrite Er in Hr. eapply pending_ok_mono; [by apply (ti_pending s T r)|done|]. intros i y Hy _. split; [done|].
    apply opening_front. eapply arrs_in_front; [done|]. by eapply list_elem_of_lookup_2.
  - rewrite Eh, Eg. intros h Hin. unfold hs_ok. rewrite opening_front; [by apply (ti_hs s T)|]. by apply hs_in_front.
  - intros y. pose proof (ti_once s T y) as H. rewrite occ_busy in *. rewrite Hws, Ew.
    pose proof (occ_worker y w _ (Some (mkWorker c todo)) s Hw) as H'.
    change (w_conts (Some (mkWorker c (e :: todo)))) with (w_conts (Some (mkWorker c todo))) in H'. simpl in H'. lia.
  - intros y Hy%opening_busy. rewrite Hcs, Hcat. by apply (ti_busy s T).
  - intros y Hy. rewrite Hws in Hy. rewrite Hel. assert (Hyc : y ∈ conts s) by by apply (ti_busy s T), busy_waiting.
    destruct (worker_apart s w c _ T Hw) as [Hnw _].
    apply (opening_others y _ (sealed s)); [done|done| |apply sealed_untouched|by apply (ti_waiting s T)].
    apply opening_apart; [done|by intros ->].
  - intros w' y todo' H. rewrite Hel. by apply (opening_workers w').
  - intros y Hy Hb'. rewrite Hcs in Hy. rewrite Hel. rewrite opening_busy in Hb'.
    apply (opening_others y _ (opened s)); [done|done| |apply opened_untouched|by apply (ti_rest s T)].
    apply opening_apart; [done|]. intros ->. by apply Hb', (worker_busy s w c (e :: todo)).
  - intros p ib y. rewrite opening_busy, Ei. apply (ti_held s T).
Qed.

End Opening.

Lemma decrypt_inv w junk s s' : mem_exec (Decrypt w junk) s = Some s' -> Inv s -> Inv s'.
Proof.
  intros E [A T N]. simpl in E. destruct (workers s !! w) as [[[c [|e todo]]|]|] eqn:Hw; try done. injection E as <-.
  destruct (ti_workers s T w c _ Hw) as (ok & _ & _ & [Hse _]%Forall_cons).
  destruct (decrypt_element_run e junk s Hse) as (b & Hb & A1 & Ho & Hat & Hbuf & Er & Ei & Edq & Ew & Eh & Eg & El & En & Ec).
  set (s1 := fst (decrypt_element e junk s)) in *.
  split; [apply (acct_move [] [] [] [] s1); try done; by apply A1| |simpl; congruence].
  apply (tidy_open s _ w c e b todo); try done. simpl. by rewrite Ew.
Qed.

Lemma mix_inv a s s' : (exists l h g, a = Mix_buffers l h g \/ a = Mix_elements l h g \/ a = Mix_containers l h g) ->
  mem_exec a s = Some s' -> Inv s -> Inv s'.
Proof.
  intros (l & h & g & Ha) E [A T N].
  assert (Hh : forall X (p q : Pool X), pool_mix l h g p = Some q -> heap q = heap p).
  { intros X p q. unfold pool_mix. case_decide; [|done]. by intros [= <-]. }
  destruct Ha as [->|[->| ->]]; cbn [mem_exec] in E; destruct (pool_mix l h g _) as [p|] eqn:Ep; try done; injection E as <-;
    pose proof (Hh _ _ _ Ep) as Hp; split; try done.
  - destruct A. split; [by eapply counted_mix|done..].
  - assert (Hb : forall y, buf_at (on_buffers (fun _ => p) s) y = buf_at s y) by (intros y; unfold buf_at; simpl; by rewrite Hp).
    apply (tidy_quiet s); try done. intros r rd Hr. apply (pending_ok_heap s); [done|]. by apply (ti_pending s T r).
  - destruct A as [A1 A2 A3 A4]. split; [|by apply (counted_mix l h g (elements s))|done..].
    replace (bufs (on_elements (fun _ => p) s)) with (bufs s); [done|]. unfold bufs. f_equal. apply bind_same. intros y _.
    unfold buf_of, elem_at. simpl. by rewrite Hp.
  - apply (tidy_quiet s); try done; [by apply (ti_pending s T)|]. intros e _. unfold elem_at. simpl. by rewrite Hp.
  - assert (Hat : forall y, cont_at (on_containers (fun _ => p) s) y = cont_at s y) by (intros y; unfold cont_at; simpl; by rewrite Hp).
    assert (He : elems (on_containers (fun _ => p) s) = elems s) by (apply bind_same; intros y _; unfold elems_of; by rewrite Hat).
    destruct A as [A1 A2 A3 A4]. split; [|by rewrite He|by apply (counted_mix l h g (containers s))|].
    + replace (bufs (on_containers (fun _ => p) s)) with (bufs s); [done|]. unfold bufs. by rewrite He.
    + intros c Hc Hn. unfold elems_of. rewrite Hat. by apply A4.
  - assert (Hat : forall y, cont_at (on_containers (fun _ => p) s) y = cont_at s y) by (intros y; unfold cont_at; simpl; by rewrite Hp).
    apply (tidy_quiet s); try done; [by apply (ti_pending s T)|]. intros c _. unfold elems_of. by rewrite Hat.
Qed.

(** The buffers the outbound flow has are those of nobody else. *)
Lemma outbound_apart s hb he hc b : acct hb he hc s -> b ∈ outbound s ->
  (forall r rd, readers s !! r = Some rd -> b ∉ r_arrs rd) /\ b ∉ h_buffer <$> (handshake s ++ handling s) /\ b ∉ elems s ≫= buf_of s.
Proof.
  intros A Hb%occ_in. pose proof (bufs_once s _ _ _ A b) as Ho. unfold front in Ho. rewrite !occ_app in Ho. split_and!.
  - intros r rd Hr Hin%occ_in. pose proof (occ_bind_in b r_arrs _ _ (list_elem_of_lookup_2 _ _ _ Hr)). lia.
  - rewrite fmap_app. intros Hin%occ_in. rewrite occ_app in Hin. lia.
  - intros Hin%occ_in. lia.
Qed.

Lemma borrow_inv s s' : mem_exec Borrow s = Some s' -> Inv s -> Inv s'.
Proof.
  intros E [A T N]. cbn [Buffers.mem_exec] in E. pose proof (acct_GetMessageBuffer _ _ _ _ A) as A1. pose proof (tidy_Get s T) as T1.
  pose proof (Get_places s) as P. cbv zeta in P. destruct (GetMessageBuffer s) as [s1 b]. cbn [fst snd] in *. injection E as <-.
  destruct P as (_ & _ & _ & _ & _ & _ & _ & En & _). split; [| |simpl; congruence].
  - revert A1. apply acct_move; try done. intros x. unfold front. simpl. rewrite !occ_app, occ_nil. lia.
  - destruct T1. by split.
Qed.

Lemma scribble_inv i x s s' : mem_exec (Scribble i x) s = Some s' -> Inv s -> Inv s'.
Proof.
  intros E [A T N]. cbn [Buffers.mem_exec] in E. destruct (outbound s !! i) as [b|] eqn:Hb; [|done]. injection E as <-.
  destruct (outbound_apart s _ _ _ b A (list_elem_of_lookup_2 _ _ _ Hb)) as (H1 & H2 & H3).
  split; [by apply acct_write_buf| |done]. apply (tidy_quiet s); try done.
  - intros r rd Hr. eapply pending_ok_mono; [by apply (ti_pending s T r)|done|]. intros j y Hj _. split; [done|].
    rewrite buf_at_write, decide_False; [done|]. intros <-. by apply (H1 r rd Hr), (list_elem_of_lookup_2 _ j).
  - intros y Hy. rewrite buf_at_write, decide_False; [done|]. intros <-. by destruct Hy.
Qed.

Lemma give_back_inv i s s' : mem_exec (Give_back i) s = Some s' -> Inv s -> Inv s'.
Proof.
  intros E [A T N]. cbn [Buffers.mem_exec] in E. destruct (outbound s !! i) as [b|] eqn:Hb; [|done]. injection E as <-.
  pose proof (delete_Permutation _ _ _ Hb) as Hp. split; [| |done].
  - apply acct_PutMessageBuffer. revert A. apply acct_move; try done. intros x. unfold front. simpl.
    rewrite !occ_app, (occ_perm x _ _ Hp), (occ_cons x b (delete i (outbound s))), occ_nil. lia.
  - destruct T. by split.
Qed.

Lemma exec_inv a s s' : mem_exec a s = Some s' -> Inv s -> Inv s'.
Proof.
  destruct a as [r|r contents pkts|r route|r p running|r|w|w junk|w| |i|p|p err|p| |i x|i|l h g|l h g|l h g]; intros E I.
  - by eapply grow_inv.
  - by eapply recv_inv.
  - by eapply sort_inv.
  - by eapply deliver_inv.
  - by eapply return_inv.
  - by eapply take_decryption_inv.
  - by eapply decrypt_inv.
  - by eapply unlock_inv.
  - by eapply take_handshake_inv.
  - by eapply done_handshake_inv.
  - by eapply take_inbound_inv.
  - by eapply release_inv.
  - by eapply flush_inv.
  - by eapply borrow_inv.
  - by eapply scribble_inv.
  - by eapply give_back_inv.
  - eapply mix_inv; [|done|done]. exists l, h, g. by left.
  - eapply mix_inv; [|done|done]. exists l, h, g. by right; left.
  - eapply mix_inv; [|done|done]. exists l, h, g. by right; right.
Qed.

Lemma start_inv n1 n2 n3 : Inv (start n1 n2 n3).
Proof.
  assert (Hb : forall {A B} (x : A) (f : A -> list B) n, f x = [] -> replicate n x ≫= f = []).
  { intros A B x f n Hx. induction n as [|n IH]; [done|]. csimpl. by rewrite Hx, IH. }
  assert (Hc : conts (start n1 n2 n3) = []) by (unfold conts; simpl; by rewrite !Hb).
  assert (He : elems (start n1 n2 n3) = []) by (unfold elems; by rewrite Hc).
  assert (Hf : bufs (start n1 n2 n3) = []) by (unfold bufs, front; rewrite He; simpl; by rewrite Hb).
  assert (Hy : busy (start n1 n2 n3) = []) by (unfold busy, waiting; simpl; by rewrite !Hb).
  split; [|split|done]; rewrite ?Hy.
  - split; rewrite ?Hc, ?He, ?Hf; [intros x; case_decide as H; [simpl in H; lia|done]..|done].
  - intros r rd Hr. apply lookup_replicate in Hr as [-> _]. split; constructor.
  - by intros h ?%elem_of_nil.
  - intros c. rewrite occ_nil. lia.
  - by intros c ?%elem_of_nil.
  - unfold waiting. simpl. rewrite Hb by done. by intros c ?%elem_of_nil.
  - intros w c todo Hw. simpl in Hw. by apply lookup_replicate in Hw as [? _].
  - intros c Hin. rewrite Hc in Hin. by apply elem_of_nil in Hin.
  - intros p ib c _ _. apply not_elem_of_nil.
Qed.

Lemma reachable_inv s : reachable s -> Inv s.
Proof.
  intros (n1 & n2 & n3 & H). assert (I := start_inv n1 n2 n3). induction H as [|x y z [a E] _ IH]; [done|].
  apply IH. by eapply exec_inv.
Qed.

(** ** What it means *)

Lemma counted_all {A} (p : Pool A) places : counted p places [] -> idle p ++ places ≡ₚ seq 0 (fresh p).
Proof.
  intros H. apply (Permutation_count_occ Nat.eq_dec). intros x. fold (occ x (idle p ++ places)) (occ x (seq 0 (fresh p))).
  specialize (H x). rewrite occ_app. rewrite occ_nil in H. assert (Hs : (occ x (seq 0 (fresh p)) <= 1)%nat).
  { unfold occ. apply (NoDup_count_occ Nat.eq_dec), NoDup_ListNoDup, NoDup_seq. }
  pose proof (occ_in x (seq 0 (fresh p))) as Hin. rewrite elem_of_seq in Hin. case_decide; [|].
  - assert (0 < occ x (seq 0 (fresh p)))%nat by (apply Hin; lia). lia.
  - assert (~ 0 < occ x (seq 0 (fresh p)))%nat by (intros ?%Hin; lia). lia.
Qed.

(** C26. However the routines of the inbound flow interleave and
    whatever the pools hand out, every message buffer, element and container that
    was ever taken is in exactly one place: with a reader, with a message of the
    handshake queue or its worker, in an element of a container on its way, with the
    outbound flow, or back in its pool (or collected from it).  So nothing is given back twice, no two
    holders share a buffer, nothing is lost but what a receiver leaves behind after
    an error, and no nil is given back or opened. *)
Theorem buffers_accounted s : reachable s ->
  idle (buffers s) ++ bufs s ≡ₚ seq 0 (fresh (buffers s)) /\
  idle (elements s) ++ elems s ≡ₚ seq 0 (fresh (elements s)) /\
  idle (containers s) ++ conts s ≡ₚ seq 0 (fresh (containers s)) /\
  nil_put s = false.
Proof. intros [[A1 A2 A3 _] _ N]%reachable_inv. split_and!; [by apply counted_all..|done]. Qed.

(** What a receiver gets to see of an element, by pointer and as a value: the
    packet, counter, keypair, endpoint, and the part of the buffer it passes to the
    sink. *)
Definition seen (s : Mem) (e : nat) : option bytes * Z * option KeypairId * option Endpoint * bytes :=
  let x := elem_at s e in
  let b := default 0%nat (el_buffer x) in
  (packet_of s b <$> el_packet x, el_counter x, el_keypair x, el_endpoint x,
   match el_packet x with
   | Some pkt => take (MessageTransportOffsetContent + snd pkt) (buf_at s b)
   | None => []
   end).

Definition seen_value (v : QueueInboundElement) : option bytes * Z * option KeypairId * option Endpoint * bytes :=
  (ie_packet v, ie_counter v, Some (ie_keypair v), Some (ie_endpoint v),
   match ie_packet v with
   | Some plain => take (MessageTransportOffsetContent + length plain) (ie_buffer v)
   | None => []
   end).

Lemma opened_seen s e : opened s e -> exists k ep, seen s e = seen_value (decrypt_elem (keys k) (received (elem_at s e) k ep)).
Proof.
  intros (b & k & ep & E & Hl & H). exists k, ep. cbv zeta in *. set (v := decrypt_elem (keys k) (received (elem_at s e) k ep)) in *.
  assert (Hk : ie_keypair v = k /\ ie_endpoint v = ep /\ forall plain, ie_packet v = Some plain ->
    ie_buffer v = splice MessageTransportOffsetContent plain (el_datum (elem_at s e))).
  { unfold v, decrypt_elem, received. cbn [ie_packet ie_buffer]. destruct (aead_Open _ _ _ _); split_and!; try done. by intros ? [= <-]. }
  destruct Hk as (Hk & Hep & Hbuf). unfold seen, seen_value. rewrite E. cbn [el_packet el_counter el_keypair el_endpoint el_buffer default from_option id].
  rewrite Hk, Hep. destruct (ie_packet v) as [plain|] eqn:Hp; cbn [fmap option_fmap option_map fst snd]; [|done].
  specialize (H plain eq_refl). rewrite H. repeat f_equal.
  unfold packet_of, slice. cbn [fst snd]. rewrite take_drop_commute.
  replace (MessageTransportOffsetContent + (MessageTransportOffsetContent + length plain - MessageTransportOffsetContent))%nat
    with (MessageTransportOffsetContent + length plain)%nat by lia.
  rewrite H, (Hbuf plain eq_refl), take_splice_through by done. rewrite drop_app_length'; [done|].
  rewrite length_take. lia.
Qed.

(** C32. Although buffers are shared by pointer, used again and opened
    in place, nobody writes into one that another is using: at any time, a message
    in the handshake queue or with its worker is the datagram the bind delivered,
    and what a receiver sees of the elements of its container is what [decrypt_elem]
    makes of the datagrams, as Receive.v has it, which passes datagrams on as values. *)
Theorem inbound_intact s : reachable s ->
  (forall h, h ∈ handshake s ++ handling s -> take (h_size h) (buf_at s (h_buffer h)) = h_datum h) /\
  (forall p ib c e, inboxes s !! p = Some ib -> ib_hold ib = Some c -> e ∈ elems_of s c ->
    exists k ep, seen s e = seen_value (decrypt_elem (keys k) (received (elem_at s e) k ep))).
Proof.
  intros [_ T _]%reachable_inv. split.
  - intros h Hh. by apply (ti_hs s T).
  - intros p ib c e Hib Hc He. apply opened_seen. pose proof (ti_held s T p ib c Hib Hc) as Hb.
    assert (Hin : c ∈ conts s).
    { apply (inbox_conts s p ib c Hib). unfold ib_conts. rewrite Hc. apply elem_of_app. right. by left. }
    pose proof (ti_rest s T c Hin Hb) as H. rewrite Forall_forall in H. by apply H.
Qed.

Lemma mem_exec_all_reachable l n1 n2 n3 s : mem_exec_all l (start n1 n2 n3) = Some s -> reachable s.
Proof.
  intros H. exists n1, n2, n3. revert H. generalize (start n1 n2 n3). induction l as [|a l IH]; intros s0 H; simpl in H.
  - injection H as ->. constructor.
  - destruct (mem_exec a s0) as [s1|] eqn:E; [|done]. econstructor; [by exists a|by apply IH].
Qed.

End Ownership.

(** *** Witnesses *)

#[local] Instance toy : Crypto := Toy.toy_crypto.

(** A reader with two buffers, a peer, a decryption worker: an initiation and a
    transport message arrive, twice; the first time round everything goes back and
    is used again. *)
Definition demo_keys (k : KeypairId) : Keypair := zeroKeypair.
Definition demo_plain : bytes := replicate 16 Byte.x2a.
Definition demo_transport : bytes :=
  transport_header 7 5 ++ aead_Seal (kp_receive zeroKeypair) (aead_nonce 5) demo_plain [].
Definition demo_initiation : bytes := le_put 4 MessageInitiationType ++ zero_bytes 144.
Definition demo_from : Endpoint := mkEndpoint (Addr4 (map byte_of_Z [10; 0; 0; 2])) 51820.

Definition demo_round (last : bool) : list mem_action :=
  [Recv 0 [demo_initiation; demo_transport] [(148, demo_from); (48, demo_from)]%nat;
   Sort 0 None; Sort 0 (Some (0%nat, 3%nat)); Take_handshake; Deliver 0 0 true;
   Take_decryption 0; Decrypt 0 []; Unlock 0; Take_inbound 0] ++
  if last then [] else [Release 0 false; Done_handshake 0].

Definition demo_run : list mem_action :=
  [Grow 0; Grow 0] ++ demo_round false ++ [Mix_buffers [1%nat; 0%nat] [] []] ++ demo_round true.

Definition demo_mem : Mem := default (start 0 0 0) (mem_exec_all demo_keys 2 demo_run (start 1 1 1)).

Lemma demo_mem_reachable : reachable demo_keys 2 demo_mem.
Proof.
  apply (mem_exec_all_reachable demo_keys 2 demo_run 1 1 1). unfold demo_mem.
  destruct (mem_exec_all demo_keys 2 demo_run (start 1 1 1)) eqn:E; [done|]. vm_compute in E. discriminate.
Qed.

Lemma buffers_accounted_witness :
  idle (buffers demo_mem) ++ bufs demo_mem ≡ₚ [0; 1; 2; 3]%nat /\ nil_put demo_mem = false.
Proof.
  destruct (buffers_accounted demo_keys 2 demo_mem demo_mem_reachable) as (H & _ & _ & Hn). split; [|exact Hn].
  assert (E : fresh (buffers demo_mem) = 4%nat) by (vm_compute; reflexivity). rewrite E in H. exact H.
Defined.

Lemma inbound_intact_witness :
  (exists h, h ∈ handling demo_mem /\ take (h_size h) (buf_at demo_mem (h_buffer h)) = demo_initiation) /\
  exists e k ep, elems_of demo_mem 0 = [e] /\
    seen demo_mem e = seen_value (decrypt_elem (demo_keys k) (received (elem_at demo_mem e) k ep)) /\
    seen demo_mem e = (Some demo_plain, 5, Some 3%nat, Some demo_from, take 16 demo_transport ++ demo_plain).
Proof.
  destruct (inbound_intact demo_keys 2 demo_mem demo_mem_reachable) as [Hh Hi]. split.
  - assert (E : exists h, handling demo_mem = [h] /\ h_datum h = demo_initiation) by (vm_compute; eexists; split; reflexivity).
    destruct E as (h & E & Ed). exists h. rewrite <- Ed. split; [rewrite E; by left|]. apply Hh. rewrite E. apply elem_of_app. right. by left.
  - assert (E : exists ib, inboxes demo_mem !! 0%nat = Some ib /\ ib_hold ib = Some 0%nat) by (vm_compute; eexists; split; reflexivity).
    destruct E as (ib & Eib & Ehd).
    assert (Ee : elems_of demo_mem 0 = [0%nat]) by (vm_compute; reflexivity).
    destruct (Hi 0%nat ib 0%nat 0%nat Eib Ehd) as (k & ep & Hs); [rewrite Ee; by left|].
    exists 0%nat, k, ep. split; [exact Ee|]. split; [exact Hs|]. vm_compute. reflexivity.
Defined.

End Ownership.
