(* ===== verification/Retransmission.v ===== *)
(** The retransmission of handshakes comes to an end: the timer of
    internal/transport/timers.go, which an initiation arms and whose expiration
    sends the next one.  The attempts are counted, and [SendHandshakeInitiation]
    in a retry leaves the count alone, whatever it does or fails to do. *)
From S2P Require Import Prelude Env Crypto Wire Cookie State Demo IndexTable Noise Timers Send Receive Lifecycle.
From stdpp Require Import prelude gmap list.
Open Scope Z_scope.

Module Retransmission.
Import Env.Env Crypto.Noise_helpers Wire.Wire Cookie.Cookie State.State Demo.Demo IndexTable.IndexTable
  Noise.Noise Timers.Timers Send.Send Receive.Receive Lifecycle.Lifecycle.

Section Retransmission.
Context {C : Crypto} {B S : Type} `{!Bind B} `{!SourceSink S}.
Abbreviation W := (Transport B S).
Implicit Types t : W.

Definition timers_at t (p : PeerId) : PeerTimers := p_timers (peer_at t p).
Definition attempts t (p : PeerId) : Z := tm_handshakeAttempts (timers_at t p).
Definition pending t (p : PeerId) : bool := IsPending (tm_retransmitHandshake (timers_at t p)).

(** ** What does not touch what is observed of a peer's timers *)

Section View.
Context {A : Type} (view : PeerTimers -> A) (p : PeerId) (a : A).
Definition seen t : Prop := view (timers_at t p) = a.

Lemma seen_put_peer q f t : (forall x, view (p_timers (f x)) = view (p_timers x)) -> seen t -> seen (put_peer q f t).
Proof.
  unfold seen, timers_at. intros Hf H. rewrite peer_at_put_peer. case_decide as E; [|done]. subst q. by rewrite Hf.
Qed.
Lemma seen_upd_peer q f : (forall x, view (p_timers (f x)) = view (p_timers x)) -> preserves seen (upd_peer q f).
Proof. intros Hf t. by apply seen_put_peer. Qed.
Lemma seen_upd_handshake q f : preserves seen (upd_handshake q f).
Proof. by apply seen_upd_peer. Qed.
Lemma seen_upd_timers q f : (forall ts, view (f ts) = view ts) -> preserves seen (upd_timers q f).
Proof. intros Hf. apply seen_upd_peer. intros x. apply Hf. Qed.
Lemma seen_on_env {D} (m : M Env D) : preserves seen (on_env m).
Proof. intros t H. unfold on_env. by destruct (m (t_env t)). Qed.
Lemma seen_on_bind {D} (m : M B D) : preserves seen (on_bind m).
Proof. intros t H. unfold on_bind. by destruct (m (t_bind t)). Qed.
Lemma seen_upd_table f : preserves seen (upd_table f).
Proof. by intros t H. Qed.
Lemma seen_upd_out c f : preserves seen (upd_out c f).
Proof. by intros t H. Qed.
Lemma seen_stuck b : preserves seen (modify (set_t_stuck b)).
Proof. by intros t H. Qed.
#[local] Hint Resolve seen_upd_handshake seen_on_env seen_on_bind seen_upd_table seen_upd_out seen_stuck : preserves.
#[local] Hint Extern 2 (preserves seen (upd_peer _ _)) => (apply seen_upd_peer; reflexivity) : preserves.
#[local] Hint Extern 1 (preserves seen now) => apply seen_on_env : preserves.
#[local] Hint Extern 1 (preserves seen (since _)) => apply seen_on_env : preserves.
#[local] Hint Extern 1 (preserves seen (get_peer _)) => apply preserves_gets : preserves.
#[local] Hint Extern 1 (preserves seen (get_handshake _)) => apply preserves_gets : preserves.
#[local] Hint Extern 1 (preserves seen isClosed) => apply preserves_gets : preserves.
#[local] Hint Extern 1 (preserves seen isUp) => apply preserves_gets : preserves.

Lemma seen_new_index q : preserves seen (NewIndexForHandshake q).
Proof.
  unfold NewIndexForHandshake. induction index_fuel as [|n IH]; cbn [new_index_loop]; preserves_tac.
Qed.
Lemma seen_CreateMessageInitiation q : preserves seen (CreateMessageInitiation q).
Proof. unfold CreateMessageInitiation, table_Delete. preserves_tac. apply seen_new_index. Qed.
Lemma seen_AddMacs q packet : preserves seen (peer_AddMacs q packet).
Proof. unfold peer_AddMacs. preserves_tac. Qed.
Lemma seen_SendBuffers q bufs : preserves seen (SendBuffers q bufs).
Proof. unfold SendBuffers. preserves_tac. Qed.
Lemma seen_FlushStagedPackets q : preserves seen (FlushStagedPackets q).
Proof. unfold FlushStagedPackets, set_staged, PutOutboundElementsContainer. preserves_tac. Qed.
Lemma seen_timersActive q : preserves seen (timersActive q).
Proof. unfold timersActive. preserves_tac. Qed.
End View.

(** ** A retry *)

#[local] Hint Resolve seen_upd_handshake seen_on_env seen_CreateMessageInitiation seen_AddMacs seen_SendBuffers
  seen_timersActive seen_FlushStagedPackets : preserves.
#[local] Hint Extern 1 (preserves (seen _ _ _) now) => apply seen_on_env : preserves.
#[local] Hint Extern 1 (preserves (seen _ _ _) (since _)) => apply seen_on_env : preserves.
#[local] Hint Extern 1 (preserves (seen _ _ _) (get_peer _)) => apply preserves_gets : preserves.
#[local] Hint Extern 1 (preserves (seen _ _ _) (get_handshake _)) => apply preserves_gets : preserves.
#[local] Hint Extern 2 (preserves (seen _ _ _) (upd_timers _ _)) => (apply seen_upd_timers; reflexivity) : preserves.

Lemma retry_keeps_attempts p a q : preserves (seen tm_handshakeAttempts p a) (SendHandshakeInitiation q true).
Proof.
  unfold SendHandshakeInitiation, timersAnyAuthenticatedPacketTraversal, timersAnyAuthenticatedPacketSent,
    timersHandshakeInitiated, jitter. cbn [negb whenM]. preserves_tac.
Qed.

Lemma give_up_keeps_pending p a :
  preserves (seen (fun ts => IsPending (tm_retransmitHandshake ts)) p a) (
    let* active := timersActive p in
    whenM active (upd_timers p (fun ts => set_tm_sendKeepalive (Del (tm_sendKeepalive ts)) ts)) ;;;
    FlushStagedPackets p ;;;
    let* active := timersActive p in
    let* x := get_peer p in
    whenM (active && negb (IsPending (tm_zeroKeyMaterial (p_timers x))))
      (upd_timers p (fun ts => set_tm_zeroKeyMaterial (Mod (RejectAfterTime * 3) (tm_zeroKeyMaterial ts)) ts))).
Proof. preserves_tac. Qed.

Definition fires (p : PeerId) t : W := fst (timer_fires retransmitHandshake p t).

Lemma fires_eq p t : fires p t =
  let t0 := put_peer p (fun x => set_p_timers (set_tm_retransmitHandshake zeroTimer (p_timers x)) x) t in
  if pending t p then fst (expiredRetransmitHandshake p t0) else t0.
Proof.
  unfold fires, timer_fires. rewrite bind_get_peer. cbn [get_timer]. unfold fire, pending, timers_at, IsPending.
  destruct (isPending _); unfold upd_timers; rewrite bind_upd_peer; done.
Qed.

Lemma fired_at p t (f := fun x => set_p_timers (set_tm_retransmitHandshake zeroTimer (p_timers x)) x) :
  pending (put_peer p f t) p = false /\ attempts (put_peer p f t) p = attempts t p.
Proof. unfold pending, attempts, timers_at. rewrite peer_at_put_peer_eq. done. Qed.

(** One expiration: it counts, or it is the last. *)
Lemma fires_step p t : 0 <= attempts t p < 2 ^ 32 - 1 ->
  (pending t p = false -> pending (fires p t) p = false) /\
  (pending t p = true -> attempts t p <= MaxTimerHandshakes -> attempts (fires p t) p = attempts t p + 1) /\
  (MaxTimerHandshakes < attempts t p -> pending (fires p t) p = false).
Proof.
  intros Ha. rewrite fires_eq. cbn zeta. set (f := fun x : Peer => _). destruct (fired_at p t) as [F1 F2].
  fold f in F1, F2. set (t0 := put_peer p f t) in *. clearbody t0.
  split_and!.
  - by intros ->.
  - intros -> Hle. unfold expiredRetransmitHandshake. rewrite bind_get_peer.
    change (tm_handshakeAttempts (p_timers (peer_at t0 p))) with (attempts t0 p). rewrite F2.
    rewrite (proj2 (Z.ltb_ge _ _) Hle). unfold upd_timers. rewrite bind_upd_peer.
    match goal with |- attempts (fst (bind _ _ ?x)) p = _ => set (t1 := x) end.
    assert (E1 : attempts t1 p = attempts t p + 1).
    { unfold t1, attempts, timers_at. rewrite peer_at_put_peer_eq. cbn [p_timers set_p_timers tm_handshakeAttempts
        set_tm_handshakeAttempts]. fold (timers_at t0 p). fold (attempts t0 p). rewrite F2.
      apply u32_small. change (0 <= attempts t p + 1 < 2 ^ 32). lia. }
    clearbody t1. pose proof (retry_keeps_attempts p (attempts t p + 1) p t1 E1) as H.
    unfold bind. by destruct (SendHandshakeInitiation p true t1).
  - intros Hgt. destruct (pending t p); [|done]. unfold expiredRetransmitHandshake. rewrite bind_get_peer.
    change (tm_handshakeAttempts (p_timers (peer_at t0 p))) with (attempts t0 p). rewrite F2.
    rewrite (proj2 (Z.ltb_lt _ _) Hgt). exact (give_up_keeps_pending p false t0 F1).
Qed.

Fixpoint firings (n : nat) (p : PeerId) t : W :=
  match n with O => t | Datatypes.S n => firings n p (fires p t) end.

Lemma not_pending_stays p n : forall t, pending t p = false -> pending (firings n p t) p = false.
Proof.
  induction n as [|n IH]; intros t H; [done|]. cbn [firings]. apply IH. rewrite fires_eq, H. apply fired_at.
Qed.


End Retransmission.

(** *** Witness: a peer whose endpoint never answers. *)

#[local] Instance toy : Crypto := Toy.toy_crypto.

Definition demo_waiting : Demo.W :=
  fst (SendHandshakeInitiation 0 false (demo_transport 1 (demo_env_at 1000) 2)).


End Retransmission.
