(* ===== verification/Net.v ===== *)
(** Dialing, listening and names: src/net.go and src/dns.go.

    A [noisyNet] resolves host names and opens connections on the user-space
    network stack.  It keeps references to the sink's maps of peers, so its
    operations read them from the [sourceSink] of NetSink.v.  The stack's TCP
    (gVisor's gonet) and the DNS client (miekg's) are the parameters of class
    [Gonet], on a world [W] that is their state and the clock.

    Connecting and resolving call each other: the DNS client connects to its
    server with [DialContext], which looks the server's host up.  The operations
    have fuel for that, and [dialing_terminates] shows that two levels are
    all that is used. *)
From S2P Require Import Prelude Crypto State NetSink Text.
From stdpp Require Import prelude gmap list strings.
From Stdlib Require Import Ascii.
Open Scope Z_scope.

Module Net.
Import Crypto.Noise_helpers State.State NetSink.NetSink Text.Text.

(** ** Contexts

    A context is cancelled by its owner, at [ctx_canceled], or by its deadline;
    package context documents which of them [Err] tells. *)

Record Context := mkContext { ctx_canceled : option Time; ctx_Deadline : option Time }.

Inductive CtxErr := Canceled | DeadlineExceeded.

Definition Background : Context := mkContext None None.

Definition reached (t : option Time) (now : Time) : bool := match t with Some t => t <=? now | None => false end.

(** [None] as long as the context is not done. *)
Definition ctx_Err (ctx : Context) (now : Time) : option CtxErr :=
  match ctx_canceled ctx, ctx_Deadline ctx with
  | Some c, Some d =>
      if (c <=? now) && (c <? d) then Some Canceled else if d <=? now then Some DeadlineExceeded else None
  | Some c, None => if c <=? now then Some Canceled else None
  | None, d => if reached d now then Some DeadlineExceeded else None
  end.

(** A parent's earlier deadline stays. *)
Definition WithDeadline (parent : Context) (d : Time) : Context :=
  match ctx_Deadline parent with
  | Some cur => if cur <? d then parent else mkContext (ctx_canceled parent) (Some d)
  | None => mkContext (ctx_canceled parent) (Some d)
  end.

(** ** Errors *)

Inductive DNSErr {E : Type} :=
| NoSuchHost
| CouldNotQuery (serverAddr : string) (err : E)
| QueryErrors (errs : list (DNSErr * string)).
Arguments DNSErr : clear implicits.

Inductive NetError {E : Type} :=
| UnknownNetworkError (network : string)
| AddrError (hostport : string)
| errNumericPort
| DNSError (err : DNSErr E) (name : string)
| ParseError (addr : string)
| errNoSuitableAddress
| errCanceled
| errTimeout
| errMissingAddress
| OpError (op : string) (err : NetError)
| StackError (err : E)                    (* an error of the stack *)
| Unbounded.                              (* no fuel left *)
Arguments NetError : clear implicits.

(** ** The stack and the DNS client *)

Definition ipv4_ProtocolNumber : Z := 2048.   (* 0x0800 *)
Definition ipv6_ProtocolNumber : Z := 34525.  (* 0x86dd *)

(** The address is the slice that [AddrFromSlice] is given. *)
Record FullAddress := mkFullAddress { NIC : Z; fa_Addr : bytes; fa_Port : Z }.

Inductive RR := RR_A (ip : bytes) | RR_AAAA (ip : bytes) | RR_other.

Definition TypeA : Z := 1.
Definition TypeAAAA : Z := 28.

Section Network.
Context {W C L E P N : Type}.

Definition DialContextFn : Type := Context -> string -> string -> W -> W * (NetError E + C).

Class Gonet := {
  Now : W -> W * Time;
  DialContextTCP : Context -> FullAddress -> Z -> W -> W * (E + C);
  ListenTCP : FullAddress -> Z -> W -> W * (E + L);
  Exchange : DialContextFn -> string -> Z -> string -> W -> W * (E + list RR);
}.

Context {gonet : Gonet}.

(** The maps of peers are those of the sink. *)
Record noisyNet := mkNoisyNet {
  localName : string;
  localAddrs : list Addr;
  dnsServers : list Addr;
}.

(** ** Deadlines *)

Definition saneMinimum : Duration := 2 * Second.

Definition partialDeadline (now deadline : Time) (addrsRemaining : Z) : NetError E + Time :=
  if deadline =? zeroTime then inr deadline
  else
    let timeRemaining := time_Sub deadline now in
    if timeRemaining <=? 0 then inl errTimeout
    else
      let timeout := Z.quot timeRemaining addrsRemaining in
      let timeout :=
        if timeout <? saneMinimum then
          if timeRemaining <? saneMinimum then timeRemaining else saneMinimum
        else timeout in
      inr (time_Add now timeout).

(** ** Addresses *)

(** [protoSplitter], [^(tcp)(4|6)?$]: which families the network accepts. *)
Definition protoSplitter (network : string) : option (bool * bool) :=
  if bool_decide (network = "tcp"%string) then Some (true, true)
  else if bool_decide (network = "tcp4"%string) then Some (true, false)
  else if bool_decide (network = "tcp6"%string) then Some (false, true)
  else None.

Definition addr_AsSlice (a : Addr) : bytes := match a with AddrZero => [] | Addr4 b => b | Addr6 b _ => b end.

(** The zero [AddrPort]. *)
Definition zeroAddrPort : Addr * Z := (AddrZero, 0).

Definition convertToFullAddr (endpoint : Addr * Z) : FullAddress * Z :=
  (mkFullAddress 1 (addr_AsSlice endpoint.1) endpoint.2,
   if addr_Is4 endpoint.1 then ipv4_ProtocolNumber else ipv6_ProtocolNumber).

Definition parsePort (sport : string) : option Z :=
  match Atoi sport with
  | Some port => if (port <? 0) || (65535 <? port) then None else Some port
  | None => None
  end.

Definition accepted (acceptV4 acceptV6 : bool) (ip : Addr) : bool :=
  (addr_Is4 ip && acceptV4) || (addr_Is6 ip && acceptV6).

(** The addresses of a host's that are parsed and wanted. *)
Fixpoint suitable (acceptV4 acceptV6 : bool) (port : Z) (allAddr : list string) : list (Addr * Z) :=
  match allAddr with
  | [] => []
  | addr :: allAddr =>
      match ParseAddr addr with
      | Some ip => if accepted acceptV4 acceptV6 ip then (ip, port) :: suitable acceptV4 acceptV6 port allAddr
                   else suitable acceptV4 acceptV6 port allAddr
      | None => suitable acceptV4 acceptV6 port allAddr
      end
  end.

(** ** Connecting *)

Definition ctx_error (e : CtxErr) : NetError E :=
  match e with Canceled => errCanceled | DeadlineExceeded => errTimeout end.

(** Whether the context is done now; one that never ends needs no clock. *)
Definition ctx_poll (ctx : Context) (w : W) : W * option CtxErr :=
  match ctx_canceled ctx, ctx_Deadline ctx with
  | None, None => (w, None)
  | _, _ => let '(w, now) := Now w in (w, ctx_Err ctx now)
  end.

(** The context of one attempt. *)
Definition attempt_context (ctx : Context) (remaining : Z) (w : W) : W * (NetError E + Context) :=
  match ctx_Deadline ctx with
  | None => (w, inr ctx)
  | Some deadline =>
      let '(w, now) := Now w in
      match partialDeadline now deadline remaining with
      | inl e => (w, inl e)
      | inr pd => (w, inr (if pd <? deadline then WithDeadline ctx pd else ctx))
      end
  end.

(** The loop over [addrs]: an attempt after another, until one succeeds or the
    context ends. *)
Fixpoint dial_loop (ctx : Context) (addrs : list (Addr * Z)) (firstErr : option (NetError E)) (w : W)
  : W * (NetError E + C) :=
  match addrs with
  | [] => (w, inl (default (OpError "dial" errMissingAddress) firstErr))
  | addr :: rest =>
      match ctx_poll ctx w with
      | (w, Some e) => (w, inl (OpError "dial" (ctx_error e)))
      | (w, None) =>
          match attempt_context ctx (Z.of_nat (length addrs)) w with
          | (w, inl e) => (w, inl (default (OpError "dial" e) firstErr))
          | (w, inr dialCtx) =>
              let '(fa, pn) := convertToFullAddr addr in
              match DialContextTCP dialCtx fa pn w with
              | (w, inr c) => (w, inr c)
              | (w, inl e) => dial_loop ctx rest (Some (default (StackError e) firstErr)) w
              end
          end
      end
  end.

(** ** DNS *)

(** [dns.Fqdn] is the client's; it is a part of [Exchange] here. *)
Definition serverAddr (server : Addr) : string := (addr_String server +:+ ":53")%string.

Definition queryDNS (dialContext : DialContextFn) (server : Addr) (host : string) (qtype : Z) (w : W)
  : W * (DNSErr E * string + list RR) :=
  match Exchange dialContext host qtype (serverAddr server) w with
  | (w, inl err) => (w, inl (CouldNotQuery (serverAddr server) err, host))
  | (w, inr answer) => (w, inr answer)
  end.

(** [net.IP.String]: four bytes, or sixteen of which the mapped ones are
    written like four; [?] and hexadecimal digits otherwise. *)
Fixpoint hexString (b : bytes) : string :=
  match b with
  | [] => EmptyString
  | x :: b => String (hex_char (Z_of_byte x / 16)) (String (hex_char (Z_of_byte x mod 16)) (hexString b))
  end.
Definition ip_String (b : bytes) : string :=
  match length b with
  | 0%nat => "<nil>"
  | 4%nat => string4 b
  | 16%nat => if is4In6 b then string4 (drop 12 b) else string6 b
  | _ => ("?" +:+ hexString b)%string
  end.

Fixpoint answers (l : list RR) : list string :=
  match l with
  | [] => []
  | RR_A ip :: l => ip_String ip :: answers l
  | RR_AAAA ip :: l => ip_String ip :: answers l
  | RR_other :: l => answers l
  end.

Fixpoint queries (dialContext : DialContextFn) (server : Addr) (host : string) (qtypes : list Z)
    (addrs : list string) (errs : list (DNSErr E * string)) (w : W)
  : W * (list string * list (DNSErr E * string)) :=
  match qtypes with
  | [] => (w, (addrs, errs))
  | qtype :: qtypes =>
      match queryDNS dialContext server host qtype w with
      | (w, inl err) => queries dialContext server host qtypes addrs (errs ++ [err]) w
      | (w, inr l) => queries dialContext server host qtypes (addrs ++ answers l) errs w
      end
  end.

Fixpoint resolve_loop (dialContext : DialContextFn) (servers : list Addr) (host : string)
    (errs : list (DNSErr E * string)) (w : W) : W * (NetError E + list string) :=
  match servers with
  | [] =>
      (w, inl (DNSError match errs with [] => NoSuchHost | _ => QueryErrors errs end host))
  | server :: servers =>
      let '(w, (addrs, errs)) := queries dialContext server host [TypeA; TypeAAAA] [] errs w in
      match addrs with
      | [] => resolve_loop dialContext servers host errs w
      | _ => (w, inr addrs)
      end
  end.

Definition resolveHost (servers : list Addr) (host : string) (dialContext : DialContextFn) (w : W)
  : W * (NetError E + list string) := resolve_loop dialContext servers host [] w.

(** ** Names *)

Definition LookupHost_with (dialContext : DialContextFn) (n : noisyNet) (ss : sourceSink (P := P) (N := N))
    (host : string) (w : W) : W * (NetError E + list string) :=
  match ParseAddr host with
  | Some addr => (w, inr [addr_String addr])
  | None =>
      if bool_decide (host = localName n) then (w, inr (map addr_String (localAddrs n)))
      else
        match peerNames ss !! host with
        | Some pk => (w, inr (map addr_String (default [] (peerAddresses ss !! pk))))
        | None =>
            let '(w, r) :=
              match dnsServers n with
              | [] => (w, inr [])
              | servers => resolveHost servers host dialContext w
              end in
            match r with
            | inl err => (w, inl err)
            | inr [] => (w, inl (DNSError NoSuchHost host))
            | inr addrs => (w, inr addrs)
            end
        end
  end.

Definition dial_with (lookup : string -> W -> W * (NetError E + list string))
    (ctx : Context) (network address : string) (w : W) : W * (NetError E + C) :=
  match protoSplitter network with
  | None => (w, inl (OpError "dial" (UnknownNetworkError network)))
  | Some (acceptV4, acceptV6) =>
      match SplitHostPort address with
      | None => (w, inl (OpError "dial" (AddrError address)))
      | Some (host, sport) =>
          match parsePort sport with
          | None => (w, inl (OpError "dial" errNumericPort))
          | Some port =>
              match lookup host w with
              | (w, inl err) => (w, inl (OpError "dial" err))
              | (w, inr allAddr) =>
                  match suitable acceptV4 acceptV6 port allAddr, allAddr with
                  | [], _ :: _ => (w, inl (OpError "dial" errNoSuitableAddress))
                  | addrs, _ => dial_loop ctx addrs None w
                  end
              end
          end
      end
  end.

(** [DialContext], with the calls it makes to itself through the DNS client. *)
Fixpoint DialContext (fuel : nat) (n : noisyNet) (ss : sourceSink (P := P) (N := N)) : DialContextFn :=
  fun ctx network address w =>
    match fuel with
    | O => (w, inl Unbounded)
    | S fuel => dial_with (LookupHost_with (DialContext fuel n ss) n ss) ctx network address w
    end.

Definition LookupHost (fuel : nat) (n : noisyNet) (ss : sourceSink (P := P) (N := N)) (host : string) (w : W) :=
  LookupHost_with (DialContext fuel n ss) n ss host w.

Definition Dial (fuel : nat) (n : noisyNet) (ss : sourceSink (P := P) (N := N)) (network address : string) (w : W) :=
  DialContext fuel n ss Background network address w.

(** ** Listening *)

(** The first local address of a family that is accepted, or nothing. *)
Fixpoint local_addr (acceptV4 acceptV6 : bool) (port : Z) (l : list Addr) : Addr * Z :=
  match l with
  | [] => zeroAddrPort
  | a :: l =>
      if addr_Is6 a && acceptV6 then (a, port)
      else if addr_Is4 a && acceptV4 then (a, port)
      else local_addr acceptV4 acceptV6 port l
  end.

Definition listen_addr (n : noisyNet) (network address : string) : NetError E + Addr * Z :=
  match protoSplitter network with
  | None => inl (OpError "listen" (UnknownNetworkError network))
  | Some (acceptV4, acceptV6) =>
      match SplitHostPort address with
      | None => inl (OpError "listen" (AddrError address))
      | Some (host, sport) =>
          match parsePort sport with
          | None => inl (OpError "listen" errNumericPort)
          | Some port =>
              match host with
              | EmptyString => inr (local_addr acceptV4 acceptV6 port (localAddrs n))
              | _ =>
                  match ParseAddr host with
                  | None => inl (OpError "listen" (ParseError host))
                  | Some ip =>
                      if addr_Is4 ip && negb acceptV4 then inl (OpError "listen" (UnknownNetworkError "tcp4"))
                      else if addr_Is6 ip && negb acceptV6 then inl (OpError "listen" (UnknownNetworkError "tcp6"))
                      else inr (ip, port)
                  end
              end
          end
      end
  end.

Definition Listen (n : noisyNet) (network address : string) (w : W) : W * (NetError E + L) :=
  match listen_addr n network address with
  | inl e => (w, inl e)
  | inr addr =>
      let '(fa, pn) := convertToFullAddr addr in
      match ListenTCP fa pn w with
      | (w, inr l) => (w, inr l)
      | (w, inl e) => (w, inl (StackError e))
      end
  end.

(** ** Theorems *)

(** The share of the time left that an attempt gets: it ends
    after now and not after the deadline, it is at least an even share of the
    time left and at least two seconds of it, and the last attempt has all of
    it.  After the deadline there is none. *)
Theorem partial_deadline now deadline n :
  deadline <> zeroTime -> deadline - now <= maxInt64 -> 1 <= n ->
  if deadline <=? now then partialDeadline now deadline n = inl errTimeout
  else exists t, partialDeadline now deadline n = inr t /\ now < t <= deadline /\
    t - now = Z.max ((deadline - now) / n) (Z.min saneMinimum (deadline - now)) /\
    (n = 1 -> t = deadline).
Proof.
  intros Hz Hm Hn. unfold partialDeadline, time_Sub, time_Add.
  rewrite (proj2 (Z.eqb_neq _ _)) by done. rewrite (Z.min_r maxInt64) by lia.
  destruct (Z.leb_spec deadline now) as [H|H].
  - rewrite (proj2 (Z.leb_le _ _)); [done|]. unfold minInt64. lia.
  - rewrite Z.max_r by (unfold minInt64; lia). rewrite (proj2 (Z.leb_gt _ _)) by lia.
    rewrite Z.quot_div_nonneg by lia. set (r := deadline - now) in *.
    assert (Hd : 0 <= r / n <= r) by (split; [apply Z.div_pos; lia|apply Z.div_le_upper_bound; nia]).
    unfold saneMinimum, Second in *. eexists. split; [done|].
    destruct (Z.ltb_spec (r / n) (2 * 1000000000)); [destruct (Z.ltb_spec r (2 * 1000000000))|].
    all: (split; [lia|]); (split; [lia|]); intros ->; rewrite Z.div_1_r in *; lia.
Qed.

(** *** Names and addresses *)

(** The peer of a name: the last one that was added with it. *)
Fixpoint named (calls : list (string * NoisePublicKey * list Addr)) (host : string) : option NoisePublicKey :=
  match calls with
  | [] => None
  | c :: calls =>
      match named calls host with
      | Some pk => Some pk
      | None => if bool_decide (c.1.1 = host /\ host <> EmptyString) then Some c.1.2 else None
      end
  end.

(** The addresses that a peer was added with, in order. *)
Definition addresses_of (calls : list (string * NoisePublicKey * list Addr)) (pk : NoisePublicKey) : list Addr :=
  concat (map (fun c => if bool_decide (c.1.2 = pk) then c.2 else []) calls).

Lemma add_addresses_maps pk addrs : forall ss : sourceSink (P := P) (N := N),
  peerNames (fold_left (add_address pk) addrs ss) = peerNames ss /\
  forall q, default [] (peerAddresses (fold_left (add_address pk) addrs ss) !! q) =
    default [] (peerAddresses ss !! q) ++ (if bool_decide (pk = q) then addrs else []).
Proof.
  induction addrs as [|x addrs IH]; intros ss; simpl.
  - split; [done|]. intros q. by destruct (bool_decide _); rewrite app_nil_r.
  - destruct (IH (add_address pk ss x)) as [H1 H2]. split; [done|]. intros q. rewrite H2. simpl.
    destruct (decide (pk = q)) as [->|Hne].
    + rewrite lookup_insert_eq, bool_decide_true by done. simpl. by rewrite <- app_assoc.
    + by rewrite lookup_insert_ne, bool_decide_false.
Qed.

Lemma configure_maps calls : forall ss : sourceSink (P := P) (N := N),
  (forall host, peerNames (configure calls ss) !! host =
     match named calls host with Some pk => Some pk | None => peerNames ss !! host end) /\
  (forall pk, default [] (peerAddresses (configure calls ss) !! pk) =
     default [] (peerAddresses ss !! pk) ++ addresses_of calls pk).
Proof.
  unfold configure, addresses_of. induction calls as [|[[name q] addrs] calls IH]; intros ss; simpl.
  { split; [done|]. intros pk. by rewrite app_nil_r. }
  destruct (IH (AddPeer name q addrs ss)) as [H1 H2]. clear IH. unfold AddPeer in *.
  set (ss' := if bool_decide (name = _) then ss else _) in *.
  destruct (add_addresses_maps q addrs ss') as [A1 A2].
  assert (Ha : peerAddresses ss' = peerAddresses ss) by (unfold ss'; by destruct (bool_decide _)).
  split.
  - intros host. rewrite H1, A1. destruct (named calls host); [done|]. unfold ss'.
    destruct (decide (name = EmptyString)) as [->|Hn]; simpl.
    + rewrite bool_decide_false; [done|]. by intros [<- ?].
    + rewrite (bool_decide_false (name = _)) by done. simpl. destruct (decide (name = host)) as [->|Hne].
      * by rewrite lookup_insert_eq, bool_decide_true.
      * rewrite lookup_insert_ne by done. rewrite bool_decide_false; [done|]. by intros [? _].
  - intros pk. by rewrite H2, A2, Ha, <- app_assoc.
Qed.

(** Printing and parsing between [LookupHost] and [DialContext] loses nothing. *)
Lemma suitable_String v4 v6 port l : Forall addr_wf l ->
  suitable v4 v6 port (map addr_String l) = map (fun a => (a, port)) (List.filter (accepted v4 v6) l).
Proof.
  induction 1 as [|a l Ha Hl IH]; [done|]. cbn [map suitable List.filter]. rewrite ParseAddr_String by done.
  rewrite IH. by destruct (accepted v4 v6 a).
Qed.

(** *** Connecting *)

(** Connecting to one after the other, as it is meant: the connection of the
    first that succeeds, or the error of the first of all. *)
Fixpoint first_success (targets : list (FullAddress * Z)) (w : W) : W * (option E + C) :=
  match targets with
  | [] => (w, inl None)
  | (fa, pn) :: targets =>
      match DialContextTCP Background fa pn w with
      | (w, inr c) => (w, inr c)
      | (w, inl e) =>
          match first_success targets w with
          | (w, inr c) => (w, inr c)
          | (w, inl _) => (w, inl (Some e))
          end
      end
  end.

Lemma dial_loop_background addrs : forall firstErr w,
  dial_loop Background addrs firstErr w =
    match first_success (map convertToFullAddr addrs) w with
    | (w, inr c) => (w, inr c)
    | (w, inl None) => (w, inl (default (OpError "dial" errMissingAddress) firstErr))
    | (w, inl (Some e)) => (w, inl (default (StackError e) firstErr))
    end.
Proof.
  induction addrs as [|a addrs IH]; intros firstErr w; [done|]. cbn [dial_loop map first_success].
  unfold ctx_poll, attempt_context. cbn [ctx_canceled ctx_Deadline Background].
  destruct (convertToFullAddr a) as [fa pn]. destruct (DialContextTCP Background fa pn w) as [w' [e|c]]; [|done].
  rewrite IH. destruct (first_success _ w') as [w'' [[e'|]|c]]; [|done|done]. by destruct firstErr.
Qed.

(** Connecting to a peer by its name: the addresses the peer was added with,
    those of the families that the network accepts, are tried with the port in
    order, and the result is the first connection that succeeds, or the error of
    the first attempt.  The DNS servers are not asked. *)
Lemma peer_dialed fuel n calls st pub gateway network host sport v4 v6 port pk w
    (ss := configure calls (new_sink st pub gateway))
    (addrs := List.filter (accepted v4 v6) (addresses_of calls pk)) :
  protoSplitter network = Some (v4, v6) ->
  plain_text host = true -> plain_text sport = true -> parsePort sport = Some port ->
  ParseAddr host = None -> host <> localName n -> named calls host = Some pk ->
  Forall addr_wf (addresses_of calls pk) ->
  Dial (S fuel) n ss network (host +:+ String ":" sport)%string w =
    match addresses_of calls pk, first_success (map (fun a => convertToFullAddr (a, port)) addrs) w with
    | [], _ => (w, inl (OpError "dial" errMissingAddress))
    | _, (w, inr c) => (w, inr c)
    | _, (w, inl (Some e)) => (w, inl (StackError e))
    | _, (w, inl None) => (w, inl (OpError "dial" errNoSuitableAddress))
    end.
Proof.
  intros Hp Hh Hs Hport Hip Hl Hn Hwf. unfold Dial. cbn [DialContext]. unfold dial_with.
  rewrite Hp, SplitHostPort_plain, Hport by done. unfold LookupHost_with.
  rewrite Hip, bool_decide_false by done. destruct (configure_maps calls (new_sink st pub gateway)) as [Hnames Haddrs].
  subst ss. rewrite Hnames, Hn, Haddrs. cbn [peerAddresses new_sink]. rewrite lookup_empty, app_nil_l.
  rewrite suitable_String by done. fold addrs. destruct (addresses_of calls pk) as [|a l] eqn:El; [done|].
  cbn [map]. rewrite <- (map_map (fun a => (a, port)) convertToFullAddr).
  destruct addrs as [|b addrs']; [done|]. cbn [map]. rewrite dial_loop_background. cbn [map].
  destruct (first_success _ w) as [w' [[e|]|c]] eqn:Ef; [done| |done]. exfalso. revert Ef. cbn [first_success].
  destruct (convertToFullAddr _) as [fa pn]. destruct (DialContextTCP _ _ _ _) as [w1 [e|c]]; [|done].
  by destruct (first_success _ w1) as [? []].
Qed.
(** *** The DNS client's own connections *)

(** A server's host is an address, so that looking it up asks nobody. *)
Lemma server_dialed fuel n ss ctx b w : length b = 4%nat ->
  DialContext (S fuel) n ss ctx "tcp" (serverAddr (Addr4 b)) w = dial_loop ctx [(Addr4 b, 53)] None w.
Proof.
  intros Hb. cbn [DialContext]. unfold dial_with, serverAddr.
  change (protoSplitter "tcp") with (Some (true, true)). cbn [addr_String].
  change ":53"%string with (String ":" "53"). rewrite SplitHostPort_plain by (done || apply string4_plain).
  change (parsePort "53") with (Some 53). unfold LookupHost_with.
  pose proof (ParseAddr_String (Addr4 b) Hb) as Hp. cbn [addr_String] in Hp. rewrite Hp.
  pose proof (suitable_String true true 53 [Addr4 b] ltac:(by repeat constructor)) as Hs.
  cbn [map] in Hs. rewrite Hs. done.
Qed.

Lemma server6_refused fuel n ss ctx b zone w : length b = 16%nat ->
  DialContext (S fuel) n ss ctx "tcp" (serverAddr (Addr6 b zone)) w =
    (w, inl (OpError "dial" (AddrError (serverAddr (Addr6 b zone))))).
Proof.
  intros Hb. cbn [DialContext]. unfold dial_with, serverAddr.
  change ":53"%string with (String ":" "53"). by rewrite SplitHostPort_addr6.
Qed.

(** The client uses its dialer for nothing but connections over tcp to the
    server it is given. *)
Definition exchange_dials_server : Prop := forall (f g : DialContextFn) host qtype server w,
  (forall ctx w, f ctx "tcp"%string server w = g ctx "tcp"%string server w) ->
  Exchange f host qtype server w = Exchange g host qtype server w.

(** The client has no answer without a connection. *)
Definition exchange_needs_connection : Prop := forall (f : DialContextFn) host qtype server w,
  (forall ctx w, exists e, f ctx "tcp"%string server w = (w, inl e)) ->
  exists w' e, Exchange f host qtype server w = (w', inl e).

Section Exchange_facts.
Hypothesis dials_server : exchange_dials_server.

Definition same_dialer (f g : DialContextFn) (server : Addr) : Prop :=
  forall ctx w, f ctx "tcp"%string (serverAddr server) w = g ctx "tcp"%string (serverAddr server) w.

Lemma queries_same f g server host : same_dialer f g server -> forall qtypes addrs errs w,
  queries f server host qtypes addrs errs w = queries g server host qtypes addrs errs w.
Proof.
  intros H. induction qtypes as [|q qtypes IH]; intros addrs errs w; [done|]. cbn [queries]. unfold queryDNS.
  rewrite (dials_server f g host q (serverAddr server) w H). by destruct (Exchange g _ _ _ _) as [w' [e|l]].
Qed.

Lemma resolve_same f g servers host : Forall (same_dialer f g) servers -> forall errs w,
  resolve_loop f servers host errs w = resolve_loop g servers host errs w.
Proof.
  induction 1 as [|s servers Hs Hr IH]; intros errs w; [done|]. cbn [resolve_loop].
  rewrite (queries_same f g s host Hs). destruct (queries g _ _ _ _ _ _) as [w' [[|a l] errs']]; [apply IH|done].
Qed.

Lemma LookupHost_same f g n ss host w : Forall (same_dialer f g) (dnsServers n) ->
  LookupHost_with f n ss host w = LookupHost_with g n ss host w.
Proof.
  intros H. unfold LookupHost_with, resolveHost. destruct (ParseAddr host); [done|].
  destruct (bool_decide _); [done|]. destruct (peerNames ss !! host); [done|].
  destruct (dnsServers n) as [|s servers] eqn:Es; [done|]. by rewrite (resolve_same f g).
Qed.

(** Whatever the fuel, a server is dialed alike. *)
Lemma servers_same n ss fuel1 fuel2 : Forall addr_wf (dnsServers n) ->
  Forall (same_dialer (DialContext (S fuel1) n ss) (DialContext (S fuel2) n ss)) (dnsServers n).
Proof.
  intros H. eapply Forall_impl; [exact H|]. intros [|b|b zone] Hb ctx w; [done| |].
  - by rewrite !server_dialed.
  - by rewrite !server6_refused.
Qed.
End Exchange_facts.

(** C20. Connecting and resolving do not call each other without
    end: a connection that the DNS client asks for while a host is resolved goes
    to a server that is given by its address, so no more than two levels of
    [DialContext] are ever open. *)
Theorem dialing_terminates n ss :
  exchange_dials_server -> Forall addr_wf (dnsServers n) ->
  (forall fuel ctx network address w,
    DialContext (2 + fuel) n ss ctx network address w = DialContext 2 n ss ctx network address w) /\
  (forall fuel host w, LookupHost (1 + fuel) n ss host w = LookupHost 1 n ss host w).
Proof.
  intros He Hs. assert (Hl : forall fuel host w, LookupHost_with (DialContext (S fuel) n ss) n ss host w =
    LookupHost_with (DialContext 1 n ss) n ss host w) by (intros; by apply LookupHost_same, servers_same).
  split; [|intros; apply Hl]. intros fuel ctx network address w. cbn [Nat.add].
  change (dial_with (LookupHost_with (DialContext (S fuel) n ss) n ss) ctx network address w =
    dial_with (LookupHost_with (DialContext 1 n ss) n ss) ctx network address w).
  unfold dial_with. destruct (protoSplitter network) as [[v4 v6]|]; [|done].
  destruct (SplitHostPort address) as [[host sport]|]; [|done]. destruct (parsePort sport); [|done].
  by rewrite Hl.
Qed.

Definition server6 (a : Addr) : Prop := addr_wf a /\ addr_Is6 a = true.

Lemma queries_refused fuel n ss host server : exchange_needs_connection -> server6 server ->
  forall qtypes addrs errs w, exists w' more, length more = length qtypes /\
    queries (DialContext (S fuel) n ss) server host qtypes addrs errs w = (w', (addrs, errs ++ more)).
Proof.
  intros He Hs. destruct server as [|b|b zone], Hs as [Hb H6]; [done|done|].
  induction qtypes as [|q qtypes IH]; intros addrs errs w0.
  - exists w0, []. cbn [queries]. by rewrite app_nil_r.
  - cbn [queries]. unfold queryDNS. destruct (He (DialContext (S fuel) n ss) host q (serverAddr (Addr6 b zone)) w0)
      as (w1 & e & ->); [intros; eexists; by apply server6_refused|].
    destruct (IH addrs (errs ++ [(CouldNotQuery (serverAddr (Addr6 b zone)) e, host)]) w1) as (w2 & more & Hm & ->).
    eexists w2, (_ :: more). rewrite <- app_assoc. split; [|done]. simpl. by rewrite Hm.
Qed.

Lemma resolve_refused fuel n ss host servers : exchange_needs_connection -> Forall server6 servers ->
  forall errs w, (servers <> [] \/ errs <> []) ->
  exists w' errs', resolve_loop (DialContext (S fuel) n ss) servers host errs w =
    (w', inl (DNSError (QueryErrors errs') host)).
Proof.
  intros He. induction 1 as [|s l Hx _ IH]; intros errs w Hor; cbn [resolve_loop].
  - destruct Hor as [?|?]; [done|]. destruct errs; [done|]. by eexists _, _.
  - destruct (queries_refused fuel n ss host s He Hx [TypeA; TypeAAAA] [] errs w) as (w1 & more & Hm & ->).
    apply IH. right. destruct errs; [|done]. by destruct more.
Qed.

(** Where all the DNS servers have IPv6 addresses, no name
    is ever resolved: the address of the server is written without brackets in
    front of the port, and the program's own [DialContext] refuses it. *)
Theorem ipv6_dns_unreachable n ss fuel host w :
  exchange_needs_connection ->
  dnsServers n <> [] -> Forall (fun a => addr_wf a /\ addr_Is6 a = true) (dnsServers n) ->
  ParseAddr host = None -> host <> localName n -> peerNames ss !! host = None ->
  exists w' errs, LookupHost (S fuel) n ss host w = (w', inl (DNSError (QueryErrors errs) host)).
Proof.
  intros He Hne Hs Hip Hl Hp. unfold LookupHost, LookupHost_with, resolveHost.
  rewrite Hip, bool_decide_false, Hp by done.
  destruct (resolve_refused fuel n ss host (dnsServers n) He Hs [] w) as (w' & errs & Er); [by left|].
  destruct (dnsServers n) as [|s0 servers]; [done|]. rewrite Er. eauto.
Qed.

(** *** Listening *)

(** Listening without a host takes the first local address of an
    accepted family, with the port asked for; without such an address the call
    does not fail: it listens on the zero address, as IPv6, whatever the network,
    and on port 0 instead of the port asked for. *)
Theorem listen_address n network sport v4 v6 port w :
  protoSplitter network = Some (v4, v6) -> plain_text sport = true -> parsePort sport = Some port ->
  Listen n network (String ":" sport) w =
    let '(fa, pn) :=
      match List.filter (accepted v4 v6) (localAddrs n) with
      | a :: _ => convertToFullAddr (a, port)
      | [] => (mkFullAddress 1 [] 0, ipv6_ProtocolNumber)
      end in
    match ListenTCP fa pn w with (w, inr l) => (w, inr l) | (w, inl e) => (w, inl (StackError e)) end.
Proof.
  intros Hp Hs Hport. unfold Listen, listen_addr. rewrite Hp, <- (str_nil (String ":" sport)).
  rewrite SplitHostPort_plain, Hport by done.
  assert (Ef : convertToFullAddr (local_addr v4 v6 port (localAddrs n)) =
    match List.filter (accepted v4 v6) (localAddrs n) with
    | a :: _ => convertToFullAddr (a, port)
    | [] => (mkFullAddress 1 [] 0, ipv6_ProtocolNumber)
    end).
  { induction (localAddrs n) as [|a l IH]; [done|]. cbn [local_addr List.filter]. unfold accepted at 1.
    destruct a as [|b|b z]; [exact IH| |]; simpl; [destruct v4|destruct v6]; simpl; (exact IH || done). }
  by rewrite Ef.
Qed.

End Network.
(** *** Witnesses

    A stack that keeps the addresses it was asked to connect to and to listen on,
    in which only the hosts that end in 3 answer; and a DNS client that answers
    once it is connected. *)

Definition demo_answers (fa : FullAddress) : bool := bool_decide (last (fa_Addr fa) = Some Byte.x03).

#[local] Instance demo_gonet : @Gonet (list FullAddress) FullAddress FullAddress unit := {|
  Now w := (w, 0);
  DialContextTCP _ fa _ w := (w ++ [fa], if demo_answers fa then inr fa else inl tt);
  ListenTCP fa _ w := (w ++ [fa], inr fa);
  Exchange dial _ qtype server w :=
    match dial Background "tcp"%string server w with
    | (w, inl _) => (w, inl tt)
    | (w, inr _) => (w, inr [RR_A addr_a])
    end;
|}.

Definition demo_net : noisyNet := mkNoisyNet "me" [Addr4 addr_c] [Addr4 addr_b].
Definition demo_net6 : noisyNet := mkNoisyNet "me" [] [Addr6 (zero_bytes 15 ++ [Byte.x03]) ""].
Definition demo_peers : list (string * bytes * list Addr) :=
  [("alice"%string, [Byte.x01], [Addr4 addr_a; Addr4 addr_b; Addr4 addr_c])].
Definition demo_sink : sourceSink (P := unit) (N := unit) := configure demo_peers (new_sink tt [] None).

Lemma partial_deadline_witness :
  exists t, partialDeadline (E := unit) (3 * Second) (13 * Second) 2 = inr t /\ 3 * Second < t <= 13 * Second /\
    t - 3 * Second = Z.max ((13 * Second - 3 * Second) / 2) (Z.min saneMinimum (13 * Second - 3 * Second)) /\
    (2 = 1 -> t = 13 * Second).
Proof.
  apply (partial_deadline (E := unit) (3 * Second) (13 * Second) 2); vm_compute; discriminate.
Defined.

Lemma dialing_terminates_witness :
  DialContext 7 demo_net demo_sink Background "tcp" "example.org:80" [] =
    DialContext 2 demo_net demo_sink Background "tcp" "example.org:80" [] /\
  snd (LookupHost 5 demo_net demo_sink "example.org" []) = inr ["10.7.0.2"; "10.7.0.2"]%string.
Proof.
  destruct (dialing_terminates demo_net demo_sink) as [H1 H2].
  - intros f g host q server w H. cbn [Exchange demo_gonet]. by rewrite H.
  - repeat constructor.
  - split; [apply (H1 5%nat)|]. rewrite (H2 4%nat). vm_compute. reflexivity.
Defined.

Lemma ipv6_dns_unreachable_witness :
  exists w' errs, LookupHost 1 demo_net6 demo_sink "example.org" [] = (w', inl (DNSError (QueryErrors errs) "example.org")).
Proof.
  apply (ipv6_dns_unreachable demo_net6 demo_sink 0 "example.org" []); try (vm_compute; reflexivity); try done.
  - intros f host q server w H. cbn [Exchange demo_gonet]. destruct (H Background w) as [e ->]. eauto.
  - repeat constructor.
Defined.

Lemma listen_address_witness :
  Listen demo_net "tcp4" ":80" [] = ([mkFullAddress 1 addr_c 80], inr (mkFullAddress 1 addr_c 80)) /\
  Listen demo_net "tcp6" ":80" [] = ([mkFullAddress 1 [] 0], inr (mkFullAddress 1 [] 0)).
Proof.
  split.
  - rewrite (listen_address demo_net "tcp4" "80" true false 80); reflexivity.
  - rewrite (listen_address demo_net "tcp6" "80" false true 80); reflexivity.
Defined.

End Net.
