(* ===== verification/Socket.v ===== *)
(** The socket: src/noisysocket.go, the constructor of src/source_sink.go, and
    the configuration (src/config/config.go, src/config/types/types.go,
    src/config/v1alpha1/types.go).

    [NewNoisySocket] puts the parts together: keys and addresses are parsed, the
    sink and the transport are built, each peer is given to both, and the
    transport goes up.  The transport keeps the sink; an [AddPeer] on it is an
    operation on the [t_sink] of the state.

    The configuration of gVisor's stack is the class [StackConfig]; the system's
    resolver is the argument [net_LookupHost]; the YAML decoder and the file
    system are arguments of [FromYAML]. *)
From S2P Require Import Prelude Env Crypto State Demo Noise Timers Send NetSink Receive Lifecycle Text Net.
From stdpp Require Import prelude gmap list strings.
From Stdlib Require Import Ascii.
Open Scope Z_scope.

Module Socket.
Import Env.Env Crypto.Noise_helpers State.State Noise.Noise Timers.Timers Send.Send NetSink.NetSink Receive.Receive
  Lifecycle.Lifecycle Text.Text Net.Net.

(** ** Configuration *)

Record TypeMeta := mkTypeMeta { Kind : string; APIVersion : string }.

Record WireGuardPeerConfig := mkPeerConfig {
  pc_Name : string;
  pc_PublicKey : string;
  pc_Endpoint : string;
  pc_IPs : list string;
}.

Record Config := mkConfig {
  c_TypeMeta : TypeMeta;
  c_Name : string;
  c_ListenPort : Z;                     (* uint16 *)
  c_PrivateKey : string;
  c_IPs : list string;
  c_DefaultGatewayPeerName : string;
  c_DNSServers : list string;
  c_Peers : list WireGuardPeerConfig;
}.

Definition zeroConfig : Config :=
  mkConfig (mkTypeMeta EmptyString EmptyString) EmptyString 0 EmptyString [] EmptyString [] [].

Definition ApiVersion : string := "noisysockets.github.com/v1alpha1".
Definition GetKind (c : Config) : string := "Config".
Definition GetAPIVersion (c : Config) : string := ApiVersion.
Definition GetConfigByKind (kind : string) : option Config :=
  if bool_decide (kind = "Config"%string) then Some zeroConfig else None.

Inductive ConfigError {E : Type} :=
| ReadFileFailed (err : E)
| TypeMetaFailed (err : E)
| UnsupportedApiVersion (version : string)
| UnsupportedKind (kind : string)
| UnmarshalFailed (err : E)
| MigrateFailed (err : E).
Arguments ConfigError : clear implicits.

Section FromYAML.
Context {E : Type} (ReadFile : string -> E + bytes) (unmarshalMeta : bytes -> E + TypeMeta)
  (unmarshalConfig : bytes -> Config -> E + Config).

(** Nothing to migrate from: no configuration and no error. *)
Definition migrate (c : Config) : E + option Config := inr None.

(** [inr None] is a nil configuration without an error. *)
Definition FromYAML (configPath : string) : ConfigError E + option Config :=
  match ReadFile configPath with
  | inl err => inl (ReadFileFailed err)
  | inr confBytes =>
      match unmarshalMeta confBytes with
      | inl err => inl (TypeMetaFailed err)
      | inr typeMeta =>
          if bool_decide (APIVersion typeMeta = ApiVersion) then
            match GetConfigByKind (Kind typeMeta) with
            | None => inl (UnsupportedKind (Kind typeMeta))
            | Some versionedConf =>
                match unmarshalConfig confBytes versionedConf with
                | inl err => inl (UnmarshalFailed err)
                | inr versionedConf =>
                    if bool_decide (GetAPIVersion versionedConf <> ApiVersion) then
                      match migrate versionedConf with
                      | inl err => inl (MigrateFailed err)
                      | inr conf => inr conf
                      end
                    else inr (Some versionedConf)
                end
            end
          else inl (UnsupportedApiVersion (APIVersion typeMeta))
      end
  end.
End FromYAML.

(** ** The stack *)

Inductive Subnet := IPv4EmptySubnet | IPv6EmptySubnet.
Record Route := mkRoute { Destination : Subnet; route_NIC : Z; Gateway : bytes }.

Inductive SocketError {E : Type} :=
| BadPrivateKey
| BadAddress (ip : string)
| NoGatewayPeer (name : string)
| BadGatewayKey
| BadGatewayAddress (ip : string)
| BadDNSServer (ip : string)
| SinkFailed (err : E)                    (* CreateNIC, AddProtocolAddress *)
| PortFailed (err : Error)
| BadPeerKey
| BadPeerAddress (ip : string)
| PeerFailed (err : Error)
| BadEndpoint (endpoint : string)
| EndpointUnresolved (host : string)
| EndpointPanics (host : string)          (* the resolver answered with no address *)
| BadEndpointAddress (ip : string)
| BadEndpointPort (port : string)
| UpFailed (err : Error).
Arguments SocketError : clear implicits.

Section Socket.
Context {C : Crypto} {B P N E : Type} `{!Bind B} {stk : Stack (P := P) (N := N)}.

(** A protocol number 0 is that of no family. *)
Class StackConfig := {
  stack_New : N;
  CreateNIC : N -> N * option E;
  AddProtocolAddress : Z -> bytes -> N -> N * option E;
  AddRoute : Route -> N -> N;
}.

Context {scf : StackConfig} (net_LookupHost : string -> option (list string)).
Abbreviation Sink := (sourceSink (P := P) (N := N)).
Abbreviation W := (Transport B Sink).

(** *** newSourceSink *)

Definition protoNumber (addr : Addr) : Z :=
  if addr_Is4 addr then ipv4_ProtocolNumber else if addr_Is6 addr then ipv6_ProtocolNumber else 0.

Fixpoint add_local_addrs (localAddrs : list Addr) (hasV4 hasV6 : bool) (st : N) : E + (N * (bool * bool)) :=
  match localAddrs with
  | [] => inr (st, (hasV4, hasV6))
  | addr :: localAddrs =>
      match AddProtocolAddress (protoNumber addr) (addr_AsSlice addr) st with
      | (_, Some err) => inl err
      | (st, None) =>
          add_local_addrs localAddrs (hasV4 || addr_Is4 addr)
            (hasV6 || (negb (addr_Is4 addr) && addr_Is6 addr)) st
      end
  end.

(** The first address of a family that the gateway has, or the zero address. *)
Definition gateway_addr (family : Addr -> bool) (defaultGateway : option NoisePublicKey) (addrs : list Addr) : bytes :=
  match defaultGateway with
  | None => []
  | Some _ => match List.find family addrs with Some a => addr_AsSlice a | None => [] end
  end.

Definition newSourceSink (name : string) (publicKey : NoisePublicKey) (localAddrs : list Addr)
    (defaultGateway : option NoisePublicKey) (defaultGatewayAddrs dnsServers : list Addr)
  : E + (Sink * noisyNet) :=
  match CreateNIC stack_New with
  | (_, Some err) => inl err
  | (st, None) =>
      match add_local_addrs localAddrs false false st with
      | inl err => inl err
      | inr (st, (hasV4, hasV6)) =>
          let st := if hasV4 then
                      AddRoute (mkRoute IPv4EmptySubnet 1 (gateway_addr addr_Is4 defaultGateway defaultGatewayAddrs)) st
                    else st in
          let st := if hasV6 then
                      AddRoute (mkRoute IPv6EmptySubnet 1 (gateway_addr addr_Is6 defaultGateway defaultGatewayAddrs)) st
                    else st in
          inr (new_sink (P := P) st publicKey defaultGateway, mkNoisyNet name localAddrs dnsServers)
      end
  end.

(** *** NewNoisySocket *)

(** The addresses, or the first text that is none. *)
Fixpoint parse_addrs (ips : list string) : string + list Addr :=
  match ips with
  | [] => inr []
  | ip :: ips =>
      match ParseAddr ip with
      | None => inl ip
      | Some addr => match parse_addrs ips with inl e => inl e | inr l => inr (addr :: l) end
      end
  end.

Definition zeroKey : bytes := zero_bytes 32.

(** The key and the addresses of the default gateway. *)
Definition find_gateway (conf : Config) : SocketError E + (option NoisePublicKey * list Addr) :=
  if bool_decide (c_DefaultGatewayPeerName conf = EmptyString) then inr (None, [])
  else
    match List.find (fun pc => bool_decide (pc_Name pc = c_DefaultGatewayPeerName conf)) (c_Peers conf) with
    | None => inl (NoGatewayPeer (c_DefaultGatewayPeerName conf))
    | Some pc =>
        match FromString zeroKey (pc_PublicKey pc) with
        | None => inl BadGatewayKey
        | Some pk =>
            match parse_addrs (pc_IPs pc) with
            | inl ip => inl (BadGatewayAddress ip)
            | inr addrs => inr (Some pk, addrs)
            end
        end
    end.

(** The endpoint of a peer's configuration. *)
Definition parse_endpoint (endpoint : string) : SocketError E + Endpoint :=
  match SplitHostPort endpoint with
  | None => inl (BadEndpoint endpoint)
  | Some (host, sport) =>
      match net_LookupHost host with
      | None => inl (EndpointUnresolved host)
      | Some [] => inl (EndpointPanics host)
      | Some (ip :: _) =>
          match ParseAddr ip with
          | None => inl (BadEndpointAddress ip)
          | Some addr =>
              match Atoi sport with
              | None => inl (BadEndpointPort sport)
              | Some port => inr (mkEndpoint addr (u16 port))
              end
          end
      end
  end.

(** One turn of the loop over the peers. *)
Definition add_peer (pc : WireGuardPeerConfig) : M W (option (SocketError E)) :=
  match FromString zeroKey (pc_PublicKey pc) with
  | None => ret (Some BadPeerKey)
  | Some pk =>
      match parse_addrs (pc_IPs pc) with
      | inl ip => ret (Some (BadPeerAddress ip))
      | inr addrs =>
          let* _ := on_sink (modify (AddPeer (pc_Name pc) pk addrs)) in
          let* r := NewPeer pk in
          match r with
          | inl err => ret (Some (PeerFailed err))
          | inr peer =>
              if bool_decide (pc_Endpoint pc = EmptyString) then ret None
              else
                match parse_endpoint (pc_Endpoint pc) with
                | inl err => ret (Some err)
                | inr ep => SetEndpointFromPacket peer ep ;;; ret None
                end
          end
      end
  end.

Fixpoint add_peers (pcs : list WireGuardPeerConfig) : M W (option (SocketError E)) :=
  match pcs with
  | [] => ret None
  | pc :: pcs =>
      let* err := add_peer pc in
      match err with
      | Some err => ret (Some err)
      | None => add_peers pcs
      end
  end.

(** From [SetPrivateKey] on. *)
Definition configure_transport (privateKey : NoisePrivateKey) (conf : Config) : M W (option (SocketError E)) :=
  SetPrivateKey privateKey ;;;
  let* err := UpdatePort (c_ListenPort conf) in
  match err with
  | Some err => ret (Some (PortFailed err))
  | None =>
      let* err := add_peers (c_Peers conf) in
      match err with
      | Some err => ret (Some err)
      | None =>
          let* err := Up in
          match err with
          | Some err => ret (Some (UpFailed err))
          | None => ret None
          end
      end
  end.

(** The transport is there, with its routines, as soon as it was made: also when
    an error is returned. *)
Definition NewNoisySocket (bind : B) (env : Env) (conf : Config) : option W * (SocketError E + noisyNet) :=
  match FromString zeroKey (c_PrivateKey conf) with
  | None => (None, inl BadPrivateKey)
  | Some privateKey =>
      match parse_addrs (c_IPs conf) with
      | inl ip => (None, inl (BadAddress ip))
      | inr addrs =>
          match find_gateway conf with
          | inl err => (None, inl err)
          | inr (defaultGateway, defaultGatewayAddrs) =>
              match parse_addrs (c_DNSServers conf) with
              | inl ip => (None, inl (BadDNSServer ip))
              | inr dns =>
                  match newSourceSink (c_Name conf) (PublicKey privateKey) addrs defaultGateway defaultGatewayAddrs dns with
                  | inl err => (None, inl (SinkFailed err))
                  | inr (sink, n) =>
                      match configure_transport privateKey conf (NewTransport sink bind env) with
                      | (t, Some err) => (Some t, inl err)
                      | (t, None) => (Some t, inr n)
                      end
                  end
              end
          end
      end
  end.

(** [Close] of the socket is the transport's. *)
Definition socket_Close : M W bool := Lifecycle.Lifecycle.Close.

(** ** What a socket is made of *)

(** The peers of the configuration, as they are given to [AddPeer]. *)
Fixpoint peer_calls (pcs : list WireGuardPeerConfig) : option (list (string * NoisePublicKey * list Addr)) :=
  match pcs with
  | [] => Some []
  | pc :: pcs =>
      match FromString zeroKey (pc_PublicKey pc), parse_addrs (pc_IPs pc), peer_calls pcs with
      | Some pk, inr addrs, Some calls => Some ((pc_Name pc, pk, addrs) :: calls)
      | _, _, _ => None
      end
  end.

Definition call_keys (calls : list (string * NoisePublicKey * list Addr)) : list NoisePublicKey :=
  map (fun c => c.1.2) calls.

(** What the operations that start a peer leave alone; [l] are peers that run. *)
Record steady (st : transportState) (ss : Sink) (km : gmap bytes PeerId) (l : list PeerId) (t : W) : Prop := {
  sd_state : t_state t = st;
  sd_sink : t_sink t = ss;
  sd_keyMap : t_keyMap t = km;
  sd_interval : forall p, p_persistentKeepaliveInterval (peer_at t p) = 0;
  sd_running : forall p, p ∈ l -> p_isRunning (peer_at t p) = true;
}.

Section Steady.
Context (st : transportState) (ss : Sink) (km : gmap bytes PeerId) (l : list PeerId).
Local Abbreviation K := (steady st ss km l).

Definition calm (f : Peer -> Peer) : Prop := forall x,
  p_persistentKeepaliveInterval (f x) = p_persistentKeepaliveInterval x /\
  (p_isRunning x = true -> p_isRunning (f x) = true).

Lemma steady_put_peer p f t : calm f -> K t -> K (put_peer p f t).
Proof.
  intros Hf [H1 H2 H3 H4 H5]. constructor; try done; intros q; rewrite peer_at_put_peer; case_decide as Epq; auto.
  - subst q. destruct (Hf (peer_at t p)) as [-> _]. apply H4.
  - intros Hq. subst q. apply Hf. by apply H5.
Qed.

Lemma steady_upd_peer p f : calm f -> preserves K (upd_peer p f).
Proof. intros Hf t. by apply steady_put_peer. Qed.
Lemma steady_upd_handshake p f : preserves K (upd_handshake p f).
Proof. apply steady_upd_peer. by intros x. Qed.
Lemma steady_upd_timers p f : preserves K (upd_timers p f).
Proof. apply steady_upd_peer. by intros x. Qed.
Lemma steady_now : preserves K now.
Proof. by intros t [H1 H2 H3 H4 H5]. Qed.
Lemma steady_upd_in c f : preserves K (upd_in c f).
Proof. by intros t [H1 H2 H3 H4 H5]. Qed.
Lemma steady_upd_out c f : preserves K (upd_out c f).
Proof. by intros t [H1 H2 H3 H4 H5]. Qed.
Lemma steady_on_bind {A} (m : M B A) : preserves K (on_bind m).
Proof. intros t [H1 H2 H3 H4 H5]. unfold on_bind. by destruct (m (t_bind t)). Qed.
Lemma steady_set_port port : preserves K (modify (set_t_port port)).
Proof. by intros t [H1 H2 H3 H4 H5]. Qed.
#[local] Hint Resolve steady_upd_handshake steady_upd_timers steady_now steady_upd_in steady_upd_out
  steady_on_bind steady_set_port : preserves.

Lemma steady_flush p : preserves K (flushInboundQueue p ;;; flushOutboundQueue p).
Proof.
  unfold flushInboundQueue, flushOutboundQueue, PutInboundElementsContainer, PutOutboundElementsContainer.
  preserves_tac; try (apply steady_upd_peer; by intros x); try apply preserves_gets.
Qed.

Lemma steady_BindUpdate : preserves K BindUpdate.
Proof. unfold BindUpdate, closeBindLocked. preserves_tac. Qed.

End Steady.

(** [m] keeps [P], and what follows it leads from [P] to [Q]. *)
Lemma bind_leads {A D} (P' Q : W -> Prop) (m : M W A) (k : A -> M W D) t :
  preserves P' m -> (forall a s, P' s -> Q (fst (k a s))) -> P' t -> Q (fst (bind m k t)).
Proof. intros Hm Hk Ht. unfold bind. specialize (Hm t Ht). destruct (m t) as [s a]. by apply Hk. Qed.

Lemma Start_steady st ss km l p t : st <> transportStateClosed -> steady st ss km l t ->
  steady st ss km (p :: l) (fst (Start p t)).
Proof.
  intros Hst Ht. unfold Start, isClosed. rewrite bind_gets, (sd_state _ _ _ _ _ Ht), bool_decide_false by done.
  rewrite bind_get_peer. cbn [orb]. destruct (p_isRunning (peer_at t p)) eqn:Hr.
  { destruct Ht as [H1 H2 H3 H4 H5]. constructor; try done. intros q [->|Hq]%elem_of_cons; [done|by apply H5]. }
  revert t Ht Hr. intros t Ht _.
  eapply bind_leads; [apply steady_now| |exact Ht]. clear t Ht. intros now' t Ht.
  eapply bind_leads; [apply steady_upd_handshake| |exact Ht]. clear t Ht. intros _ t Ht.
  eapply bind_leads; [unfold timersStart; preserves_tac; apply steady_upd_timers| |exact Ht]. clear t Ht. intros _ t Ht.
  assert (Hf : steady st ss km l (fst ((flushInboundQueue p ;;; flushOutboundQueue p) t))) by by apply steady_flush.
  unfold bind in Hf |- *. destruct (flushInboundQueue p t) as [t1 []]. destruct (flushOutboundQueue p t1) as [t2 []].
  cbn [fst] in Hf. unfold upd_peer, modify. cbn [fst].
  apply (steady_put_peer _ _ _ _ p (set_p_bufs [])) in Hf; [|by intros x].
  destruct Hf as [H1 H2 H3 H4 H5]. constructor; try done; intros q; rewrite peer_at_put_peer; case_decide as Epq.
  - subst q. apply H4.
  - apply H4.
  - done.
  - intros [->|Hq]%elem_of_cons; [done|by apply H5].
Qed.

Lemma Start_all_steady st ss km ps : forall l t, st <> transportStateClosed -> steady st ss km l t ->
  exists l', (forall p, p ∈ ps ++ l -> p ∈ l') /\
  steady st ss km l' (fst (forM ps (fun peer =>
      Start peer ;;;
      let* x := get_peer peer in
      whenM (0 <? p_persistentKeepaliveInterval x) (let* _ := SendKeepalive peer in ret tt)) t)).
Proof.
  induction ps as [|p ps IH]; intros l t Hst Ht; [by exists l|]. cbn [forM].
  assert (H1 := Start_steady st ss km l p t Hst Ht). unfold bind at 1 2. destruct (Start p t) as [t1 []].
  rewrite bind_get_peer. cbn [fst] in H1. rewrite (sd_interval _ _ _ _ _ H1). cbn [Z.ltb Z.compare whenM ret].
  destruct (IH (p :: l) t1 Hst H1) as (l' & Hl & Hs). exists l'. split; [|exact Hs].
  intros q Hq. apply Hl. set_solver.
Qed.

(** Going up without an error: all the peers run. *)
Lemma Up_steady ss km t t' : steady transportStateDown ss km [] t -> Up t = (t', None) ->
  exists l, steady transportStateUp ss km l t' /\ forall pk p, km !! pk = Some p -> p ∈ l.
Proof.
  intros Ht. unfold Up, changeState. rewrite bind_gets, (sd_state _ _ _ _ _ Ht).
  rewrite !bool_decide_false by done. unfold bind at 1. cbn [modify fst]. set (t0 := set_t_state transportStateUp t).
  assert (H0 : steady transportStateUp ss km [] t0) by by destruct Ht.
  assert (H1 := steady_BindUpdate _ _ _ _ t0 H0). unfold bind at 1. unfold upLocked. unfold bind at 1.
  destruct (BindUpdate t0) as [t1 [e|]]; cbn [fst] in H1.
  { cbn [ret]. unfold bind. cbn [modify]. destruct (downLocked _) as [t2 r]. by destruct r. }
  unfold all_peers. rewrite bind_gets. unfold bind at 1.
  destruct (Start_all_steady transportStateUp ss km (map snd (map_to_list (t_keyMap t1))) [] t1 ltac:(done) H1)
    as (l & Hl & Hs).
  destruct (forM _ _ t1) as [t2 []]. cbn [ret]. intros [= <-]. exists l. split; [exact Hs|].
  intros pk p Hp. apply Hl. rewrite app_nil_r. apply list_elem_of_fmap. exists (pk, p). split; [done|].
  rewrite (sd_keyMap _ _ _ _ _ H1). by apply elem_of_map_to_list.
Qed.

Lemma steady_fresh_peer st ss km l p t n : p ∉ l -> steady st ss km l t ->
  steady st ss km l (set_t_peers (<[p := zeroPeer]> (t_peers t)) (set_t_fresh n t)).
Proof.
  intros Hp [H1 H2 H3 H4 H5]. constructor; try done; intros q; unfold peer_at; cbn [set_t_peers t_peers];
    rewrite lookup_insert; case_decide as Epq; [done|apply H4| |].
  - subst q. done.
  - apply H5.
Qed.

Lemma steady_set_keyMap st ss km m l t : steady st ss km l t -> steady st ss m l (set_t_keyMap m t).
Proof. by intros [H1 H2 H3 H4 H5]. Qed.

Lemma NewPeer_steady ss km pk t : steady transportStateDown ss km [] t ->
  match NewPeer pk t with
  | (t', inl _) => steady transportStateDown ss km [] t'
  | (t', inr p) => km !! pk = None /\ steady transportStateDown ss (<[pk := p]> km) [] t'
  end.
Proof.
  intros Ht. unfold NewPeer, isClosed. rewrite bind_gets, (sd_state _ _ _ _ _ Ht), bool_decide_false by done.
  rewrite bind_gets, (sd_keyMap _ _ _ _ _ Ht).
  destruct (MaxPeers <=? _); [done|]. destruct (km !! pk) as [q|] eqn:Hk; [done|].
  unfold fresh, timersInit, upd_timers, upd_peer, upd_handshake, modify, gets, ret, bind.
  split; [done|]. set (t0 := set_t_peers _ _).
  assert (H0 : steady transportStateDown ss km [] t0) by (apply (steady_fresh_peer _ _ _ _ (t_fresh t) t); [set_solver|done]).
  match goal with |- steady _ _ _ _ (set_t_keyMap (<[pk := _]> (t_keyMap ?t1)) _) =>
    assert (H1 : steady transportStateDown ss km [] t1) end.
  { clearbody t0. unfold put_handshake. do 6 (apply steady_put_peer; [by intros x|]). exact H0. }
  rewrite (sd_keyMap _ _ _ _ _ H1). exact (steady_set_keyMap _ _ _ _ _ _ H1).
Qed.

Lemma add_peer_steady ss km pc t : steady transportStateDown ss km [] t ->
  match add_peer pc t with
  | (t', Some _) => t_state t' = transportStateDown
  | (t', None) => exists pk addrs p,
      FromString zeroKey (pc_PublicKey pc) = Some pk /\ parse_addrs (pc_IPs pc) = inr addrs /\ km !! pk = None /\
      steady transportStateDown (AddPeer (pc_Name pc) pk addrs ss) (<[pk := p]> km) [] t'
  end.
Proof.
  intros Ht. unfold add_peer. destruct (FromString zeroKey (pc_PublicKey pc)) as [pk|]; [|by apply Ht].
  destruct (parse_addrs (pc_IPs pc)) as [ip|addrs]; [by apply Ht|].
  unfold on_sink, modify. unfold bind at 1. rewrite (sd_sink _ _ _ _ _ Ht).
  set (t0 := set_t_sink _ t). assert (H0 : steady transportStateDown (AddPeer (pc_Name pc) pk addrs ss) km [] t0).
  { by destruct Ht. }
  assert (H1 := NewPeer_steady _ km pk t0 H0). unfold bind at 1. destruct (NewPeer pk t0) as [t1 [e|p]].
  { apply H1. }
  destruct H1 as [Hk H1]. case_bool_decide as Hep; [by exists pk, addrs, p|].
  destruct (parse_endpoint (pc_Endpoint pc)) as [e|ep]; [apply H1|].
  exists pk, addrs, p. split; [done|]. split; [done|]. split; [done|].
  apply (steady_put_peer _ _ _ _ p (set_p_endpoint (Some ep))); [by intros x|done].
Qed.

Lemma add_peers_steady pcs : forall ss km t, steady transportStateDown ss km [] t ->
  match add_peers pcs t with
  | (t', Some _) => t_state t' = transportStateDown
  | (t', None) => exists calls km', peer_calls pcs = Some calls /\ NoDup (call_keys calls) /\
      (forall pk, is_Some (km' !! pk) <-> pk ∈ call_keys calls \/ is_Some (km !! pk)) /\
      (forall pk, pk ∈ call_keys calls -> km !! pk = None) /\
      steady transportStateDown (configure calls ss) km' [] t'
  end.
Proof.
  induction pcs as [|pc pcs IH]; intros ss km t Ht; cbn [add_peers].
  { exists [], km. split; [done|]. split; [constructor|]. split; [set_solver|]. split; [set_solver|done]. }
  assert (H1 := add_peer_steady ss km pc t Ht). unfold bind at 1. destruct (add_peer pc t) as [t1 [e|]]; [done|].
  destruct H1 as (pk & addrs & p & Hpk & Ha & Hk & H1).
  specialize (IH _ _ _ H1). destruct (add_peers pcs t1) as [t2 [e|]]; [done|].
  destruct IH as (calls & km' & Hc & Hnd & Hkm & Hfresh & H2).
  exists ((pc_Name pc, pk, addrs) :: calls), km'. split; [cbn [peer_calls]; by rewrite Hpk, Ha, Hc|].
  cbn [call_keys map fst snd]. fold (call_keys calls). split.
  { constructor; [|done]. intros Hin. specialize (Hfresh pk Hin). by rewrite lookup_insert_eq in Hfresh. }
  split; [|split; [|exact H2]].
  - intros q. rewrite Hkm. rewrite elem_of_cons. destruct (decide (pk = q)) as [->|Hne].
    + rewrite lookup_insert_eq. split; [by left; left|]. intros _. by right.
    + rewrite lookup_insert_ne by done. split; [intros [?|?]; auto|]. intros [[->|?]|?]; auto. done.
  - intros q [->|Hq]%elem_of_cons; [done|]. specialize (Hfresh q Hq).
    destruct (decide (pk = q)) as [->|Hne]; [done|]. by rewrite lookup_insert_ne in Hfresh.
Qed.

(** ** The first steps of the transport *)

Lemma SetPrivateKey_steady sink b env sk :
  steady transportStateDown sink ∅ [] (fst (SetPrivateKey sk (NewTransport sink b env))).
Proof.
  assert (H0 : steady transportStateDown sink ∅ [] (NewTransport sink b env)).
  { constructor; try done. intros p Hp. by apply elem_of_nil in Hp. }
  unfold SetPrivateKey. rewrite bind_gets. destruct (key_Equals _ _); [done|]. rewrite bind_gets.
  cbn [t_keyMap NewTransport]. rewrite map_to_list_empty. cbn [forM]. rewrite bind_ret.
  unfold modify, all_peers, gets, bind. cbn [t_keyMap set_t_cookieChecker set_t_publicKey set_t_privateKey NewTransport].
  rewrite map_to_list_empty. cbn [map forM ret fst]. by destruct H0.
Qed.

Lemma UpdatePort_steady port st ss km l : preserves (steady st ss km l) (UpdatePort port).
Proof.
  unfold UpdatePort. apply preserves_bind; [apply steady_set_port|intros _; apply steady_BindUpdate].
Qed.

Lemma configure_transport_run sk conf sink b env :
  match configure_transport sk conf (NewTransport sink b env) with
  | (t, Some err) => (exists e, err = UpFailed e) \/ t_state t = transportStateDown
  | (t, None) => exists calls, peer_calls (c_Peers conf) = Some calls /\ NoDup (call_keys calls) /\
      t_state t = transportStateUp /\ t_sink t = configure calls sink /\
      forall pk, match t_keyMap t !! pk with
                 | Some p => pk ∈ call_keys calls /\ p_isRunning (peer_at t p) = true
                 | None => pk ∉ call_keys calls
                 end
  end.
Proof.
  unfold configure_transport. assert (H0 := SetPrivateKey_steady sink b env sk). unfold bind at 1.
  destruct (SetPrivateKey sk _) as [t0 []]. cbn [fst] in H0.
  assert (H1 := UpdatePort_steady (c_ListenPort conf) _ _ _ _ t0 H0). unfold bind at 1.
  destruct (UpdatePort _ t0) as [t1 [e|]]; [right; apply H1|]. cbn [fst] in H1.
  assert (H2 := add_peers_steady (c_Peers conf) _ _ _ H1). unfold bind at 1.
  destruct (add_peers _ t1) as [t2 [e|]]; [by right|].
  destruct H2 as (calls & km & Hc & Hnd & Hkm & _ & H2). unfold bind.
  destruct (Up t2) as [t3 [e|]] eqn:Hup; [left; eauto|]. cbn [ret].
  destruct (Up_steady _ _ _ _ H2 Hup) as (l & H3 & Hl). destruct H3 as [E1 E2 E3 _ E5].
  exists calls. split_and!; try done. intros pk. rewrite E3. specialize (Hkm pk). rewrite lookup_empty in Hkm.
  destruct (km !! pk) as [p|] eqn:Hp.
  - split; [|by apply E5, (Hl pk)]. destruct (proj1 Hkm ltac:(eauto)) as [?|[? ?]]; done.
  - intros Hin. by destruct (proj2 Hkm (or_introl Hin)).
Qed.

Lemma find_gateway_peer conf pk addrs calls : find_gateway conf = inr (Some pk, addrs) ->
  peer_calls (c_Peers conf) = Some calls -> pk ∈ call_keys calls.
Proof.
  unfold find_gateway. case_bool_decide; [done|]. destruct (List.find _ _) as [pc|] eqn:Hf; [|done].
  apply find_some in Hf as [Hin _]. destruct (FromString zeroKey (pc_PublicKey pc)) as [q|] eqn:Hq; [|done].
  destruct (parse_addrs (pc_IPs pc)) as [|a] eqn:Ha; [done|]. intros [= -> _]. revert calls Hin.
  induction (c_Peers conf) as [|x pcs IH]; intros calls Hin; [done|]. cbn [peer_calls].
  destruct Hin as [->|Hin].
  - rewrite Hq, Ha. destruct (peer_calls pcs) as [l|]; [|done]. intros [= <-]. left.
  - destruct (FromString zeroKey (pc_PublicKey x)) as [k|]; [|done]. destruct (parse_addrs (pc_IPs x)); [done|].
    destruct (peer_calls pcs) as [l0|]; [|done]. intros [= <-]. right. by apply (IH l0).
Qed.

Lemma newSourceSink_inv name pk addrs gw gwa dns sink n : newSourceSink name pk addrs gw gwa dns = inr (sink, n) ->
  exists st, sink = new_sink st pk gw /\ n = mkNoisyNet name addrs dns.
Proof.
  unfold newSourceSink. destruct (CreateNIC stack_New) as [st [e|]]; [done|].
  destruct (add_local_addrs addrs false false st) as [e|[st' [v4 v6]]]; [done|]. intros [= <- <-]. eauto.
Qed.

(** ** What a configuration has been parsed to *)

Lemma parse_addrs_wf ips : forall addrs, parse_addrs ips = inr addrs -> Forall addr_wf addrs.
Proof.
  induction ips as [|ip ips IH]; intros addrs; cbn [parse_addrs]; [by intros [= <-]|].
  destruct (ParseAddr ip) as [a|] eqn:Ha; [|done]. destruct (parse_addrs ips) as [|l]; [done|].
  intros [= <-]. constructor; [by eapply ParseAddr_wf|by apply IH].
Qed.

Definition call_wf (c : string * NoisePublicKey * list Addr) : Prop := length c.1.2 = 32%nat /\ Forall addr_wf c.2.

Lemma peer_calls_wf pcs : forall calls, peer_calls pcs = Some calls -> Forall call_wf calls.
Proof.
  induction pcs as [|pc pcs IH]; intros calls; cbn [peer_calls]; [by intros [= <-]|].
  destruct (FromString zeroKey (pc_PublicKey pc)) as [pk|] eqn:Hk; [|done].
  destruct (parse_addrs (pc_IPs pc)) as [|addrs] eqn:Ha; [done|]. destruct (peer_calls pcs) as [l|]; [|done].
  intros [= <-]. constructor; [|by apply IH]. split; [exact (length_FromString _ _ _ Hk)|by eapply parse_addrs_wf].
Qed.

Lemma addresses_of_wf calls pk : Forall call_wf calls -> Forall addr_wf (addresses_of calls pk).
Proof.
  unfold addresses_of. induction 1 as [|c calls [_ Hc] _ IH]; simpl; [done|]. apply Forall_app. split; [|done].
  by destruct (bool_decide _).
Qed.

Lemma owner_wf calls a pk : Forall call_wf calls -> owner calls a = Some pk -> addr_wf a.
Proof.
  induction 1 as [|c calls [_ Hc] _ IH]; cbn [owner]; [done|]. destruct (owner calls a); [done|].
  case_bool_decide as Ha; [|done]. intros _. rewrite Forall_forall in Hc. by apply Hc.
Qed.

(** What [NewNoisySocket] makes, taken apart. *)
Lemma NewNoisySocket_inv bind env conf t n : NewNoisySocket bind env conf = (Some t, inr n) ->
  exists sk addrs dns gw gwa st calls, FromString zeroKey (c_PrivateKey conf) = Some sk /\
    parse_addrs (c_IPs conf) = inr addrs /\ find_gateway conf = inr (gw, gwa) /\
    parse_addrs (c_DNSServers conf) = inr dns /\ n = mkNoisyNet (c_Name conf) addrs dns /\
    peer_calls (c_Peers conf) = Some calls /\ NoDup (call_keys calls) /\
    t_state t = transportStateUp /\ t_sink t = configure calls (new_sink st (PublicKey sk) gw) /\
    forall pk, match t_keyMap t !! pk with
               | Some p => pk ∈ call_keys calls /\ p_isRunning (peer_at t p) = true
               | None => pk ∉ call_keys calls
               end.
Proof.
  unfold NewNoisySocket. destruct (FromString zeroKey (c_PrivateKey conf)) as [sk|] eqn:Hsk; [|done].
  destruct (parse_addrs (c_IPs conf)) as [|addrs] eqn:Ha; [done|].
  destruct (find_gateway conf) as [|[gw gwa]] eqn:Hg; [done|].
  destruct (parse_addrs (c_DNSServers conf)) as [|dns] eqn:Hd; [done|].
  destruct (newSourceSink _ _ _ _ _ _) as [|[sink n']] eqn:Hs; [done|].
  apply newSourceSink_inv in Hs as (st & -> & ->).
  pose proof (configure_transport_run sk conf (new_sink (P:=P) st (PublicKey sk) gw) bind env) as H.
  destruct (configure_transport _ _ _) as [t' [e|]]; [done|]. intros [= <- <-].
  destruct H as (calls & Hc & Hnd & Hup & Hsink & Hkm). by exists sk, addrs, dns, gw, gwa, st, calls.
Qed.

(** C12. A socket that is built is ready: the transport is up, its peers
    are those of the configuration, no key twice, and all of them run; the sink
    has their names and addresses; and whatever packet of the local stack the
    sink accepts is for one of these peers, so that no packet read is without a
    peer to go to.  The default gateway is one of the peers as well. *)
Theorem socket_ready bind env conf t n :
  NewNoisySocket bind env conf = (Some t, inr n) ->
  exists sk addrs dns gw calls st,
    FromString zeroKey (c_PrivateKey conf) = Some sk /\ peer_calls (c_Peers conf) = Some calls /\
    parse_addrs (c_IPs conf) = inr addrs /\ parse_addrs (c_DNSServers conf) = inr dns /\
    n = mkNoisyNet (c_Name conf) addrs dns /\
    t_state t = transportStateUp /\ NoDup (call_keys calls) /\
    t_sink t = configure calls (new_sink st (PublicKey sk) gw) /\
    (forall pk, match t_keyMap t !! pk with
                | Some p => pk ∈ call_keys calls /\ p_isRunning (peer_at t p) = true
                | None => pk ∉ call_keys calls
                end) /\
    (forall pk, gw = Some pk -> is_Some (t_keyMap t !! pk)) /\
    (forall room pkt b pk, packetFn (t_sink t) room pkt = inr (b, pk) -> is_Some (t_keyMap t !! pk)).
Proof.
  intros (sk & addrs & dns & gw & gwa & st & calls & Hsk & Ha & Hg & Hd & -> & Hc & Hnd & Hup & Hsink & Hkm)%NewNoisySocket_inv.
  assert (Hin : forall pk, pk ∈ call_keys calls -> is_Some (t_keyMap t !! pk)).
  { intros pk Hpk. specialize (Hkm pk). destruct (t_keyMap t !! pk); [eauto|done]. }
  assert (Hgw : forall pk, gw = Some pk -> is_Some (t_keyMap t !! pk)).
  { intros pk ->. apply Hin. by apply (find_gateway_peer conf pk gwa). }
  exists sk, addrs, dns, gw, calls, st. split_and!; try done.
  intros room pkt b pk Hp. unfold packetFn in Hp. destruct (peer_addr pkt) as [|a]; [done|].
  rewrite Hsink, configure_routes, configure_gateway in Hp. cbn [fromPeerAddress defaultGateway new_sink] in Hp.
  rewrite lookup_empty in Hp. destruct (owner calls a) as [q|] eqn:Ho.
  - destruct (pkt_view pkt); [done|]. injection Hp as _ <-. apply Hin. by apply (owner_key calls a).
  - destruct gw as [q|]; [|done]. destruct (pkt_view pkt); [done|]. injection Hp as _ <-. by apply Hgw.
Qed.

(** C31. What a socket keeps has the form the rest of the program relies on:
    the local addresses, the DNS servers and the addresses that are routed are
    addresses of four or sixteen bytes, and the keys of the peers are of 32
    bytes. *)
Theorem socket_well_typed bind env conf t n :
  NewNoisySocket bind env conf = (Some t, inr n) ->
  Forall addr_wf (localAddrs n) /\ Forall addr_wf (dnsServers n) /\
  (forall pk p, t_keyMap t !! pk = Some p -> length pk = 32%nat) /\
  (forall a pk, fromPeerAddress (t_sink t) !! a = Some pk -> addr_wf a /\ length pk = 32%nat).
Proof.
  intros (sk & addrs & dns & gw & gwa & st & calls & Hsk & Ha & Hg & Hd & -> & Hc & Hnd & Hup & Hsink & Hkm)%NewNoisySocket_inv.
  pose proof (peer_calls_wf _ _ Hc) as Hwf.
  assert (Hkeys : forall pk, pk ∈ call_keys calls -> length pk = 32%nat).
  { intros pk (c & -> & Hin)%list_elem_of_fmap. rewrite Forall_forall in Hwf. by destruct (Hwf c Hin). }
  split_and!; [by eapply parse_addrs_wf|by eapply parse_addrs_wf| |].
  - intros pk p Hp. specialize (Hkm pk). rewrite Hp in Hkm. apply Hkeys, Hkm.
  - intros a pk. rewrite Hsink, configure_routes. cbn [fromPeerAddress new_sink]. rewrite lookup_empty.
    destruct (owner calls a) as [q|] eqn:Ho; [|done]. intros [= ->].
    split; [by eapply owner_wf|]. apply Hkeys. by apply (owner_key calls a).
Qed.

(** C17. Connecting to a peer by the name it has in the configuration, end to end:
    the addresses it was configured with, those of the families that the
    network accepts, are tried with the port in the order of the configuration,
    and the result is the first connection that succeeds, or the error of the
    first attempt.  The DNS servers are not asked. *)
Theorem socket_dials_peer {X L : Type} `{!Gonet (W := X) (C := V) (L := L) (E := E)}
    bind env conf t n calls fuel network host sport v4 v6 port pk (w : X)
    (addrs := List.filter (accepted v4 v6) (addresses_of calls pk)) :
  NewNoisySocket bind env conf = (Some t, inr n) ->
  peer_calls (c_Peers conf) = Some calls -> named calls host = Some pk -> host <> c_Name conf ->
  plain_text host = true -> ParseAddr host = None ->
  protoSplitter network = Some (v4, v6) -> plain_text sport = true -> parsePort sport = Some port ->
  Dial (S fuel) n (t_sink t) network (host +:+ String ":" sport)%string w =
    match addresses_of calls pk, first_success (map (fun a => convertToFullAddr (a, port)) addrs) w with
    | [], _ => (w, inl (OpError "dial" errMissingAddress))
    | _, (w, inr c) => (w, inr c)
    | _, (w, inl (Some e)) => (w, inl (StackError e))
    | _, (w, inl None) => (w, inl (OpError "dial" errNoSuitableAddress))
    end.
Proof.
  intros (sk & la & dns & gw & gwa & st & calls' & Hsk & Ha & Hg & Hd & -> & Hc & Hnd & Hup & Hsink & Hkm)%NewNoisySocket_inv.
  rewrite Hc. intros [= ->] Hn Hl Hh Hip Hp Hs Hport. rewrite Hsink.
  apply peer_dialed; try done. by apply addresses_of_wf, (peer_calls_wf (c_Peers conf)).
Qed.

(** An error after the transport was made leaves it behind:
    whatever is wrong with the port or a peer, the transport that was made is
    down and not closed, its routines run on, and the caller, who is given only
    the error, can not close it. *)
Theorem failed_socket_left_open bind env conf t err :
  NewNoisySocket bind env conf = (Some t, inl err) ->
  (exists e, err = UpFailed e) \/ t_state t = transportStateDown.
Proof.
  unfold NewNoisySocket. destruct (FromString zeroKey (c_PrivateKey conf)) as [sk|]; [|done].
  destruct (parse_addrs (c_IPs conf)); [done|]. destruct (find_gateway conf) as [|[gw gwa]]; [done|].
  destruct (parse_addrs (c_DNSServers conf)); [done|]. destruct (newSourceSink _ _ _ _ _ _) as [|[sink n]]; [done|].
  pose proof (configure_transport_run sk conf sink bind env) as H.
  destruct (configure_transport _ _ _) as [t' [e|]]; [|done]. by intros [= <- <-].
Qed.

(** The port of a peer's endpoint is any number that fits an int:
    it is cut to 16 bits where [DialContext] and [Listen] refuse it. *)
Theorem endpoint_port_wraps host sport ip rest addr port :
  plain_text host = true -> plain_text sport = true -> net_LookupHost host = Some (ip :: rest) ->
  ParseAddr ip = Some addr -> Atoi sport = Some port ->
  parse_endpoint (host +:+ String ":" sport)%string = inr (mkEndpoint addr (u16 port)) /\
  (0 <= port <= 65535 <-> parsePort sport = Some (u16 port)).
Proof.
  intros Hh Hs Hl Hip Hp. unfold parse_endpoint, parsePort. rewrite SplitHostPort_plain, Hl, Hip, Hp by done.
  split; [done|]. destruct (Z.ltb_spec port 0); [split; [lia|done]|].
  destruct (Z.ltb_spec 65535 port); simpl; [split; [lia|done]|].
  unfold u16. rewrite Z.mod_small by lia. split; [done|lia].
Qed.

End Socket.
(** A configuration that is read is there: the migration, which would give none,
    is never taken. *)
Lemma FromYAML_present {E} ReadFile unmarshalMeta unmarshalConfig path (r : option Config) :
  FromYAML (E := E) ReadFile unmarshalMeta unmarshalConfig path = inr r -> r <> None.
Proof.
  unfold FromYAML. destruct (ReadFile path); [done|]. destruct (unmarshalMeta _); [done|].
  case_bool_decide; [|done]. destruct (GetConfigByKind _); [|done]. destruct (unmarshalConfig _ _); [done|].
  rewrite bool_decide_false by (unfold GetAPIVersion; tauto). by intros [= <-].
Qed.

(** *** Witnesses

    A stack that takes every address, and two peers of which the second is the
    gateway. *)

#[local] Instance demo_stack : @Stack (bytes * bytes) (list bytes) := {|
  pkt_protocol _ := IPv4ProtocolNumber;
  ipv4_destination p := Some p.1;
  ipv6_destination _ := None;
  pkt_view p := p.2;
  InjectInbound _ pkt st := st ++ [pkt];
  ep_Read st := (st, None);
  stack_Close st := st;
|}.
#[local] Instance demo_stack_config : @StackConfig (list bytes) unit := {|
  stack_New := [];
  CreateNIC st := (st, None);
  AddProtocolAddress _ _ st := (st, None);
  AddRoute _ st := st;
|}.
#[local] Instance toy : Crypto := Toy.toy_crypto.

Definition addr_me : bytes := map byte_of_Z [10; 7; 0; 1].
Definition demo_lookup (host : string) : option (list string) := Some ["192.0.2.7"%string].
Definition demo_key (n : Z) : string := key_String (PublicKey (Demo.Demo.demo_sk n)).
Definition demo_peer (name : string) (n : Z) (endpoint ip : string) : WireGuardPeerConfig :=
  mkPeerConfig name (demo_key n) endpoint [ip].
Definition demo_config (peers : list WireGuardPeerConfig) : Config :=
  mkConfig (mkTypeMeta "Config" ApiVersion) "me" 51820 (key_String (Demo.Demo.demo_sk 1)) ["10.7.0.1"%string] "bob" [] peers.
Definition demo_peers : list WireGuardPeerConfig :=
  [demo_peer "alice" 2 "alice.example:51820" "10.7.0.2"; demo_peer "bob" 3 "" "10.7.0.3"].

Definition demo_socket (conf : Config) :=
  NewNoisySocket (B := list (Endpoint * list bytes)) (P := bytes * bytes) demo_lookup [] (demo_env 0 0) conf.
Definition demo_t (conf : Config) := default (NewTransport (new_sink [] [] None) [] (demo_env 0 0)) (fst (demo_socket conf)).

(** How the demonstration ends. *)
Definition demo_outcome (conf : Config) : option (SocketError unit + noisyNet) :=
  match demo_socket conf with (Some _, r) => Some r | _ => None end.
Lemma demo_socket_eq conf r : demo_outcome conf = Some r -> demo_socket conf = (Some (demo_t conf), r).
Proof. unfold demo_outcome, demo_t. destruct (demo_socket conf) as [[t|] r']; [|done]. by intros [= ->]. Qed.

Lemma socket_ready_witness :
  t_state (demo_t (demo_config demo_peers)) = transportStateUp /\
  (forall room pkt b pk, packetFn (t_sink (demo_t (demo_config demo_peers))) room pkt = inr (b, pk) ->
    is_Some (t_keyMap (demo_t (demo_config demo_peers)) !! pk)).
Proof.
  destruct (socket_ready demo_lookup [] (demo_env 0 0) (demo_config demo_peers)
    (demo_t (demo_config demo_peers)) (mkNoisyNet "me" [Addr4 addr_me] [])) as (sk & addrs & dns & gw & calls & st & H).
  { apply demo_socket_eq. vm_compute. reflexivity. }
  destruct H as (_ & _ & _ & _ & _ & H1 & _ & _ & _ & _ & H2). split; [exact H1|exact H2].
Defined.

Lemma socket_well_typed_witness :
  Forall addr_wf [Addr4 addr_me] /\
  (forall pk p, t_keyMap (demo_t (demo_config demo_peers)) !! pk = Some p -> length pk = 32%nat).
Proof.
  destruct (socket_well_typed demo_lookup [] (demo_env 0 0) (demo_config demo_peers)
    (demo_t (demo_config demo_peers)) (mkNoisyNet "me" [Addr4 addr_me] [])) as (H1 & _ & H2 & _).
  { apply demo_socket_eq. vm_compute. reflexivity. }
  split; [exact H1|exact H2].
Defined.

(** Only hosts that end in 3 answer. *)
#[local] Instance demo_gonet : @Gonet (list FullAddress) FullAddress unit unit := {|
  Now w := (w, 0);
  DialContextTCP _ fa _ w := (w ++ [fa], if bool_decide (last (fa_Addr fa) = Some Byte.x03) then inr fa else inl tt);
  ListenTCP fa _ w := (w, inl tt);
  Exchange _ _ _ _ w := (w, inl tt);
|}.

Lemma socket_dials_peer_witness :
  Dial 1 (mkNoisyNet "me" [Addr4 addr_me] []) (t_sink (demo_t (demo_config demo_peers))) "tcp" "bob:80" [] =
    ([mkFullAddress 1 addr_b 80], inr (mkFullAddress 1 addr_b 80)).
Proof.
  change "bob:80"%string with ("bob" +:+ String ":" "80")%string.
  assert (H : demo_socket (demo_config demo_peers) =
    (Some (demo_t (demo_config demo_peers)), inr (mkNoisyNet "me" [Addr4 addr_me] []))).
  { apply demo_socket_eq. vm_compute. reflexivity. }
  refine (eq_trans (socket_dials_peer demo_lookup [] (demo_env 0 0) (demo_config demo_peers) _ _
    (default [] (peer_calls demo_peers)) 0 "tcp" "bob" "80" true true 80 (PublicKey (Demo.Demo.demo_sk 3)) [] H
    _ _ _ _ _ _ _ _) _); vm_compute; (reflexivity || discriminate).
Defined.

Lemma failed_socket_left_open_witness :
  let conf := demo_config (demo_peers ++ [demo_peer "eve" 2 "" "10.7.0.4"]) in
  (exists e, PeerFailed (E := unit) ErrExistingPeer = UpFailed e) \/ t_state (demo_t conf) = transportStateDown.
Proof.
  apply (failed_socket_left_open demo_lookup [] (demo_env 0 0)
    (demo_config (demo_peers ++ [demo_peer "eve" 2 "" "10.7.0.4"]))).
  apply demo_socket_eq. vm_compute. reflexivity.
Defined.

Lemma endpoint_port_wraps_witness :
  parse_endpoint (E := unit) demo_lookup "alice.example:70000" = inr (mkEndpoint (Addr4 (map byte_of_Z [192; 0; 2; 7])) 4464) /\
  parsePort "70000" <> Some 4464.
Proof.
  destruct (endpoint_port_wraps (E := unit) demo_lookup "alice.example" "70000" "192.0.2.7" []
    (Addr4 (map byte_of_Z [192; 0; 2; 7])) 70000) as [H1 H2]; try (vm_compute; reflexivity).
  split; [exact H1|]. intros H. apply H2 in H. lia.
Defined.

End Socket.
