(* ===== verification/Invariant.v ===== *)
(** The invariant of the transport and the updates that keep it.

    [Inv L t] collects what every handler of internal/transport relies on: the
    addresses in use are allocated, the peers of the key map carry their own key
    and the static-static secret, send nonces are never assigned twice, receive
    counters are never accepted twice, the bounded queues are bounded, and, as
    long as the random source works, the index table holds exactly the indices
    of the handshakes and keypairs in use. *)
From S2P Require Import Prelude Replay Tai64n RateLimiter Env Crypto Wire Cookie State IndexTable Noise.
From stdpp Require Import prelude gmap list.
Open Scope Z_scope.

Module Invariant.
Import Env.Env Crypto.Noise_helpers Wire.Wire Cookie.Cookie State.State IndexTable.IndexTable Noise.Noise.

(** A keypair in one of the three slots. *)
Definition owns (ks : Keypairs) (k : KeypairId) : Prop :=
  current ks = Some k \/ previous ks = Some k \/ next ks = Some k.

Definition distinct (ks : Keypairs) : Prop :=
  forall k, (current ks = Some k -> previous ks <> Some k /\ next ks <> Some k) /\
            (previous ks = Some k -> next ks <> Some k).

(** The handshake has an index on the wire. *)
Definition in_flight (s : handshakeState) : bool :=
  match s with
  | handshakeInitiationCreated | handshakeResponseCreated | handshakeResponseConsumed => true
  | handshakeZeroed | handshakeInitiationConsumed => false
  end.

Section Inv.
Context {C : Crypto} {B S : Type}.
Abbreviation W := (Transport B S).
Implicit Types t : W.

Definition kps_at t (p : PeerId) : Keypairs := p_keypairs (peer_at t p).
Definition hs_at t (p : PeerId) : Handshake := p_handshake (peer_at t p).
Definition index_of t (k : KeypairId) : Z := kp_localIndex (keypair_at t k).

(** The entry an index must have: that of the handshake of a peer, or that of
    one of its keypairs. *)
Definition hs_entry (p : PeerId) : IndexTableEntry := mkIndexEntry (Some p) (Some p) None.
Definition kp_entry (p : PeerId) (k : KeypairId) : IndexTableEntry :=
  mkIndexEntry (Some p) None (Some k).
Definition claims t (p : PeerId) (i : Z) (e : IndexTableEntry) : Prop :=
  (hs_localIndex (hs_at t p) = i /\ i <> 0 /\ e = hs_entry p) \/
  (exists k, owns (kps_at t p) k /\ index_of t k = i /\ e = kp_entry p k).

(** The table is exactly the set of claims, and 0 is no index. *)
Record table_ok t : Prop := {
  table_exact i e : t_indexTable t !! i = Some e <-> exists p, claims t p i e;
  table_zero : t_indexTable t !! 0 = None;
  table_distinct p : distinct (kps_at t p);
}.

(** A handshake in flight has an index. *)
Definition flight_ok t : Prop := forall p,
  in_flight (hs_state (hs_at t p)) = true -> hs_localIndex (hs_at t p) <> 0.

Record nonce_ok t : Prop := {
  nonce_limit k : 0 <= kp_sendNonce (keypair_at t k) <= RejectAfterMessages;
  nonce_below k n : (k, n) ∈ t_assigned t ->
    0 <= n < kp_sendNonce (keypair_at t k) /\ (k < t_fresh t)%nat;
  nonce_once : NoDup (t_assigned t);
}.

(** The counters accepted on a keypair. *)
Definition seen_on (k : KeypairId) (l : list (KeypairId * Z)) : gset Z :=
  list_to_set (omap (fun x => if decide (x.1 = k) then Some x.2 else None) l).

Record replay_ok t : Prop := {
  replay_window k : exists w, Replay.w_seen w = seen_on k (t_accepted t) /\
      Replay.simulates (kp_replayFilter (keypair_at t k)) w;
  replay_once : NoDup (t_accepted t);
  replay_below k n : (k, n) ∈ t_accepted t -> (k < t_fresh t)%nat;
}.

(** A peer of the key map carries its key and the secret of the static keys. *)
Definition peer_keyed t (pk : NoisePublicKey) (p : PeerId) : Prop :=
  p_pk (peer_at t p) = pk /\ hs_remoteStatic (hs_at t p) = pk /\
  hs_precomputedStaticStatic (hs_at t p) =
    default (zero_bytes 32) (sharedSecret (t_privateKey t) pk).

(** An element of an inbound container. *)
Definition elem_ok (n : nat) (e : QueueInboundElement) : Prop :=
  (ie_keypair e < n)%nat /\ Replay.is_u64 (ie_counter e).

(** Who an entry of the table stands for is allocated. *)
Definition entry_ok (n : nat) (e : IndexTableEntry) : Prop :=
  (forall p, e_peer e = Some p -> (p < n)%nat) /\
  (forall p, e_handshake e = Some p -> (p < n)%nat) /\
  (forall k, e_keypair e = Some k -> (k < n)%nat).

(** The invariant; [L] are addresses of peers at hand. *)
Record Inv (L : PeerId -> Prop) t : Prop := {
  inv_live p : L p -> (p < t_fresh t)%nat;
  inv_free p : (t_fresh t <= p)%nat ->
    kps_at t p = zeroKeypairs /\ hs_localIndex (hs_at t p) = 0;
  inv_kps p k : owns (kps_at t p) k -> (k < t_fresh t)%nat;
  inv_elems c : Forall (elem_ok (t_fresh t)) (ic_elems (in_at t c));
  inv_entries i e : t_indexTable t !! i = Some e -> entry_ok (t_fresh t) e;
  inv_keyMap pk p : t_keyMap t !! pk = Some p -> (p < t_fresh t)%nat /\ peer_keyed t pk p;
  inv_identity : t_publicKey t = PublicKey (t_privateKey t) \/
    (t_privateKey t = zero_bytes 32 /\ t_publicKey t = zero_bytes 32);
  inv_staged p : (length (p_staged (peer_at t p)) <= QueueStagedSize)%nat;
  inv_queue : Z.of_nat (length (t_handshakeQ t)) <= QueueHandshakeSize;
  inv_nonce : nonce_ok t;
  inv_replay : replay_ok t;
  inv_table : good_rng (rng (t_env t)) -> t_stuck t = false -> table_ok t /\ flight_ok t;
}.

(** ** Equivalent states

    [same t t']: the invariant cannot tell them apart. *)

Definition pview (x : Peer) :=
  (p_pk x, p_keypairs x, p_staged x, hs_localIndex (p_handshake x), hs_state (p_handshake x),
   hs_remoteStatic (p_handshake x), hs_precomputedStaticStatic (p_handshake x)).
Definition kview (k : Keypair) := (kp_sendNonce k, kp_localIndex k, kp_replayFilter k).

Record same t t' : Prop := {
  same_peer p : pview (peer_at t' p) = pview (peer_at t p);
  same_keypair k : kview (keypair_at t' k) = kview (keypair_at t k);
  same_in c : ic_elems (in_at t' c) = ic_elems (in_at t c);
  same_fresh : t_fresh t' = t_fresh t;
  same_table : t_indexTable t' = t_indexTable t;
  same_keyMap : t_keyMap t' = t_keyMap t;
  same_privateKey : t_privateKey t' = t_privateKey t;
  same_publicKey : t_publicKey t' = t_publicKey t;
  same_queue : t_handshakeQ t' = t_handshakeQ t;
  same_assigned : t_assigned t' = t_assigned t;
  same_accepted : t_accepted t' = t_accepted t;
  same_rng : rng (t_env t') = rng (t_env t);
  same_stuck : t_stuck t' = t_stuck t;
}.

#[global] Instance same_equivalence : Equivalence same.
Proof.
  split.
  - by split.
  - intros t t' []. by split.
  - intros t1 t2 t3 [] []. split; etrans; eauto.
Qed.

Lemma pview_eq x y :
  pview x = pview y ->
  p_pk x = p_pk y /\ p_keypairs x = p_keypairs y /\ p_staged x = p_staged y /\
  hs_localIndex (p_handshake x) = hs_localIndex (p_handshake y) /\
  hs_state (p_handshake x) = hs_state (p_handshake y) /\
  hs_remoteStatic (p_handshake x) = hs_remoteStatic (p_handshake y) /\
  hs_precomputedStaticStatic (p_handshake x) = hs_precomputedStaticStatic (p_handshake y).
Proof. unfold pview. intros [=]. repeat split; congruence. Qed.

Lemma kview_eq k j :
  kview k = kview j ->
  kp_sendNonce k = kp_sendNonce j /\ kp_localIndex k = kp_localIndex j /\
  kp_replayFilter k = kp_replayFilter j.
Proof. unfold kview. intros [=]. repeat split; congruence. Qed.

Lemma same_kps t t' p : same t t' -> kps_at t' p = kps_at t p.
Proof. intros H. by destruct (pview_eq _ _ (same_peer _ _ H p)) as (_ & ? & _). Qed.

Lemma same_hs t t' p :
  same t t' ->
  hs_localIndex (hs_at t' p) = hs_localIndex (hs_at t p) /\
  hs_state (hs_at t' p) = hs_state (hs_at t p) /\
  hs_remoteStatic (hs_at t' p) = hs_remoteStatic (hs_at t p) /\
  hs_precomputedStaticStatic (hs_at t' p) = hs_precomputedStaticStatic (hs_at t p).
Proof.
  intros H. destruct (pview_eq _ _ (same_peer _ _ H p)) as (_ & _ & _ & ? & ? & ? & ?).
  by unfold hs_at.
Qed.

Lemma same_claims t t' p i e : same t t' -> claims t p i e -> claims t' p i e.
Proof.
  intros H [(Hi & Hz & He)|(k & Ho & Hi & He)].
  - left. by destruct (same_hs _ _ p H) as [-> _].
  - right. exists k. rewrite (same_kps _ _ p H). unfold index_of in *.
    by destruct (kview_eq _ _ (same_keypair _ _ H k)) as (_ & -> & _).
Qed.

Lemma same_table_ok t t' : same t t' -> table_ok t -> table_ok t'.
Proof.
  intros H [He Hz Hd]. split.
  - intros i e. rewrite (same_table _ _ H), He.
    split; intros [p Hp]; exists p; eauto using same_claims.
    by apply (same_claims t' t); [symmetry|].
  - by rewrite (same_table _ _ H).
  - intros p. rewrite (same_kps _ _ p H). apply Hd.
Qed.

Lemma same_flight_ok t t' : same t t' -> flight_ok t -> flight_ok t'.
Proof. intros H Hf p. destruct (same_hs _ _ p H) as (-> & -> & _). apply Hf. Qed.

Lemma same_nonce_ok t t' : same t t' -> nonce_ok t -> nonce_ok t'.
Proof.
  intros H [Hl Hb Ho].
  assert (E : forall k, kp_sendNonce (keypair_at t' k) = kp_sendNonce (keypair_at t k))
    by (intros k; by destruct (kview_eq _ _ (same_keypair _ _ H k))).
  split; [intros k; by rewrite E| |by rewrite (same_assigned _ _ H)].
  intros k n. rewrite E, (same_assigned _ _ H), (same_fresh _ _ H). apply Hb.
Qed.

Lemma same_replay_ok t t' : same t t' -> replay_ok t -> replay_ok t'.
Proof.
  intros H [Hw Ho Hb]. split.
  - intros k. destruct (kview_eq _ _ (same_keypair _ _ H k)) as (_ & _ & ->).
    rewrite (same_accepted _ _ H). apply Hw.
  - by rewrite (same_accepted _ _ H).
  - rewrite (same_accepted _ _ H), (same_fresh _ _ H). apply Hb.
Qed.

Lemma same_Inv L t t' : same t t' -> Inv L t -> Inv L t'.
Proof.
  intros H [Hlive Hfree Hkps Hel Hen Hkm Hid Hst Hq Hn Hr Ht]. split.
  - intros p. rewrite (same_fresh _ _ H). apply Hlive.
  - intros p. rewrite (same_fresh _ _ H), (same_kps _ _ p H).
    destruct (same_hs _ _ p H) as [-> _]. apply Hfree.
  - intros p k. rewrite (same_fresh _ _ H), (same_kps _ _ p H). apply Hkps.
  - intros c. rewrite (same_fresh _ _ H), (same_in _ _ H). apply Hel.
  - intros i e. rewrite (same_fresh _ _ H), (same_table _ _ H). apply Hen.
  - intros pk p. rewrite (same_fresh _ _ H), (same_keyMap _ _ H). unfold peer_keyed.
    rewrite (same_privateKey _ _ H). destruct (same_hs _ _ p H) as (_ & _ & -> & ->).
    destruct (pview_eq _ _ (same_peer _ _ H p)) as [-> _]. apply Hkm.
  - by rewrite (same_publicKey _ _ H), (same_privateKey _ _ H).
  - intros p. destruct (pview_eq _ _ (same_peer _ _ H p)) as (_ & _ & -> & _). apply Hst.
  - by rewrite (same_queue _ _ H).
  - by eapply same_nonce_ok.
  - by eapply same_replay_ok.
  - rewrite (same_rng _ _ H), (same_stuck _ _ H). intros Hg Hs.
    destruct (Ht Hg Hs). split; [by eapply same_table_ok|by eapply same_flight_ok].
Qed.

#[global] Instance Inv_proper L : Proper (same ==> iff) (Inv L).
Proof. intros t t' H. split; apply same_Inv; [done|by symmetry]. Qed.

Lemma Inv_weaken (L L' : PeerId -> Prop) t : (forall p, L' p -> L p) -> Inv L t -> Inv L' t.
Proof. intros H []. split; eauto. Qed.

(** An address at hand may be added. *)
Lemma Inv_add L t p : Inv L t -> (p < t_fresh t)%nat -> Inv (fun q => q = p \/ L q) t.
Proof. intros [] Hp. split; eauto. naive_solver. Qed.

(** ** Quiet updates: those that stay in the class of the state *)

Definition quiet (f : Peer -> Peer) : Prop := forall x, pview (f x) = pview x.
Definition hquiet (f : Handshake -> Handshake) : Prop := forall h,
  (hs_localIndex (f h), hs_state (f h), hs_remoteStatic (f h), hs_precomputedStaticStatic (f h)) =
  (hs_localIndex h, hs_state h, hs_remoteStatic h, hs_precomputedStaticStatic h).

Lemma same_put_peer p f t : quiet f -> same t (put_peer p f t).
Proof.
  intros Hf. split; try done. intros q. rewrite peer_at_put_peer. case_decide; [subst|done].
  apply Hf.
Qed.

Lemma same_put_handshake p f t : hquiet f -> same t (put_handshake p f t).
Proof.
  intros Hf. apply same_put_peer. intros x. specialize (Hf (p_handshake x)).
  unfold pview. simpl. congruence.
Qed.

Lemma same_set_env e t : rng e = rng (t_env t) -> same t (set_t_env e t).
Proof. intros H. by split. Qed.

Lemma quiet_timers f : quiet (fun x => set_p_timers (f (p_timers x)) x).
Proof. done. Qed.

(** A predicate that does not tell equivalent states apart is kept by every step
    that stays in the class of the state. *)
Class Closed (P : W -> Prop) : Prop := closed : forall t t', same t t' -> P t -> P t'.
#[global] Instance Inv_closed L : Closed (Inv L).
Proof. intros t t'. apply same_Inv. Qed.

Section Closed.
Context (P : W -> Prop) `{!Closed P}.

Lemma preserves_same {A} (m : M W A) : (forall t, same t (fst (m t))) -> preserves P m.
Proof. intros H t Ht. exact (closed t _ (H t) Ht). Qed.

Lemma preserves_modify f : (forall t, same t (f t)) -> preserves P (modify f).
Proof. intros H. by apply preserves_same. Qed.

Lemma preserves_upd_peer p f : quiet f -> preserves P (upd_peer (B:=B) (S:=S) p f).
Proof. intros Hf. apply preserves_same. intros t. by apply same_put_peer. Qed.

Lemma preserves_upd_handshake p f :
  hquiet f -> preserves P (upd_handshake (B:=B) (S:=S) p f).
Proof. intros Hf. apply preserves_same. intros t. by apply same_put_handshake. Qed.

Lemma preserves_upd_timers p f : preserves P (upd_timers (B:=B) (S:=S) p f).
Proof. apply preserves_upd_peer, quiet_timers. Qed.

Lemma preserves_on_env {A} (m : M Env A) :
  keeps_rng m -> preserves P (on_env (B:=B) (S:=S) m).
Proof.
  intros Hm. apply preserves_same. intros t. rewrite on_env_run. simpl. apply same_set_env, Hm.
Qed.

Lemma preserves_now : preserves P now.
Proof. apply preserves_on_env, keeps_Now. Qed.
Lemma preserves_since u : preserves P (since u).
Proof. apply preserves_on_env, keeps_Since. Qed.

Lemma preserves_on_bind {A} (m : M B A) : preserves P (on_bind (S:=S) m).
Proof. apply preserves_same. intros t. unfold on_bind. by destruct (m (t_bind t)). Qed.

Lemma preserves_on_sink {A} (m : M S A) : preserves P (on_sink (B:=B) m).
Proof. apply preserves_same. intros t. unfold on_sink. by destruct (m (t_sink t)). Qed.

Lemma preserves_upd_out c f : preserves P (upd_out (B:=B) (S:=S) c f).
Proof. by apply preserves_same. Qed.

End Closed.

(** Reading a value and going on with what it says of the state. *)
Lemma preserves_gets_bind {A D} (P : W -> Prop) (f : W -> A) (k : A -> M W D) :
  (forall t, P t -> P (fst (k (f t) t))) -> preserves P (bind (gets f) k).
Proof. intros H t Ht. by apply H. Qed.

(** ** Moves of one peer

    [moved p t t']: only the keypair slots and the index and state of the
    handshake of [p], the table and the fuel flag may differ. *)
Record moved (p : PeerId) t t' : Prop := {
  mv_peer q : q <> p -> pview (peer_at t' q) = pview (peer_at t q);
  mv_pk : p_pk (peer_at t' p) = p_pk (peer_at t p);
  mv_staged : p_staged (peer_at t' p) = p_staged (peer_at t p);
  mv_static : hs_remoteStatic (hs_at t' p) = hs_remoteStatic (hs_at t p);
  mv_shared : hs_precomputedStaticStatic (hs_at t' p) = hs_precomputedStaticStatic (hs_at t p);
  mv_keypair k : kview (keypair_at t' k) = kview (keypair_at t k);
  mv_in c : ic_elems (in_at t' c) = ic_elems (in_at t c);
  mv_fresh : t_fresh t' = t_fresh t;
  mv_keyMap : t_keyMap t' = t_keyMap t;
  mv_privateKey : t_privateKey t' = t_privateKey t;
  mv_publicKey : t_publicKey t' = t_publicKey t;
  mv_queue : t_handshakeQ t' = t_handshakeQ t;
  mv_assigned : t_assigned t' = t_assigned t;
  mv_accepted : t_accepted t' = t_accepted t;
  mv_rng : rng (t_env t') = rng (t_env t);
}.

Lemma mv_kps p t t' q : moved p t t' -> q <> p -> kps_at t' q = kps_at t q.
Proof. intros H Hq. by destruct (pview_eq _ _ (mv_peer _ _ _ H q Hq)) as (_ & ? & _). Qed.

Lemma mv_hs p t t' q :
  moved p t t' -> q <> p ->
  hs_localIndex (hs_at t' q) = hs_localIndex (hs_at t q) /\
  hs_state (hs_at t' q) = hs_state (hs_at t q).
Proof.
  intros H Hq. by destruct (pview_eq _ _ (mv_peer _ _ _ H q Hq)) as (_ & _ & _ & ? & ? & _).
Qed.

Lemma mv_index p t t' k : moved p t t' -> index_of t' k = index_of t k.
Proof. intros H. by destruct (kview_eq _ _ (mv_keypair _ _ _ H k)) as (_ & ? & _). Qed.

Lemma mv_claims p t t' q i e : moved p t t' -> q <> p -> claims t' q i e <-> claims t q i e.
Proof.
  intros H Hq. unfold claims. rewrite (mv_kps _ _ _ q H Hq).
  destruct (mv_hs _ _ _ q H Hq) as [-> _].
  split; (intros [?|(k & ? & ? & ?)]; [by left|right; exists k]).
  - by rewrite <- (mv_index _ _ _ k H).
  - by rewrite (mv_index _ _ _ k H).
Qed.

Lemma Inv_moved L p t t' :
  Inv L t -> moved p t t' -> (p < t_fresh t)%nat ->
  (forall k, owns (kps_at t' p) k -> (k < t_fresh t)%nat) ->
  (forall i e, t_indexTable t' !! i = Some e -> entry_ok (t_fresh t) e) ->
  (good_rng (rng (t_env t)) -> t_stuck t' = false -> table_ok t' /\
     (in_flight (hs_state (hs_at t' p)) = true -> hs_localIndex (hs_at t' p) <> 0)) ->
  (t_stuck t = true -> t_stuck t' = true) ->
  Inv L t'.
Proof.
  intros [Hlive Hfree Hkps Hel Hen Hkm Hid Hst Hq Hn Hr Ht] H Hp Hk He Htab Hstuck. split.
  - intros q. rewrite (mv_fresh _ _ _ H). apply Hlive.
  - intros q. rewrite (mv_fresh _ _ _ H). intros Hq'. assert (q <> p) by lia.
    rewrite (mv_kps _ _ _ q H) by done. destruct (mv_hs _ _ _ q H) as [-> _]; auto.
  - intros q k. rewrite (mv_fresh _ _ _ H). destruct (decide (q = p)) as [->|Hne]; [apply Hk|].
    rewrite (mv_kps _ _ _ q H) by done. apply Hkps.
  - intros c. rewrite (mv_fresh _ _ _ H), (mv_in _ _ _ H). apply Hel.
  - intros i e. rewrite (mv_fresh _ _ _ H). apply He.
  - intros pk q. rewrite (mv_fresh _ _ _ H), (mv_keyMap _ _ _ H). unfold peer_keyed.
    rewrite (mv_privateKey _ _ _ H). intros Hl. specialize (Hkm pk q Hl) as (Hlt & H1 & H2 & H3).
    split; [done|]. destruct (decide (q = p)) as [->|Hne].
    + by rewrite (mv_pk _ _ _ H), (mv_static _ _ _ H), (mv_shared _ _ _ H).
    + destruct (pview_eq _ _ (mv_peer _ _ _ H q Hne)) as (-> & _ & _ & _ & _ & E1 & E2).
      unfold hs_at in *. by rewrite E1, E2.
  - by rewrite (mv_publicKey _ _ _ H), (mv_privateKey _ _ _ H).
  - intros q. destruct (decide (q = p)) as [->|Hne]; [by rewrite (mv_staged _ _ _ H)|].
    destruct (pview_eq _ _ (mv_peer _ _ _ H q Hne)) as (_ & _ & -> & _). apply Hst.
  - by rewrite (mv_queue _ _ _ H).
  - destruct Hn as [Hl Hb Ho].
    assert (E : forall k, kp_sendNonce (keypair_at t' k) = kp_sendNonce (keypair_at t k))
      by (intros k; by destruct (kview_eq _ _ (mv_keypair _ _ _ H k))).
    split; [intros k; by rewrite E| |by rewrite (mv_assigned _ _ _ H)].
    intros k n. rewrite E, (mv_assigned _ _ _ H), (mv_fresh _ _ _ H). apply Hb.
  - destruct Hr as [Hw Ho Hb]. split.
    + intros k. destruct (kview_eq _ _ (mv_keypair _ _ _ H k)) as (_ & _ & ->).
      rewrite (mv_accepted _ _ _ H). apply Hw.
    + by rewrite (mv_accepted _ _ _ H).
    + rewrite (mv_accepted _ _ _ H), (mv_fresh _ _ _ H). apply Hb.
  - rewrite (mv_rng _ _ _ H). intros Hg Hs. destruct (Htab Hg Hs) as [Hok Hfl]. split; [done|].
    intros q. destruct (decide (q = p)) as [->|Hne]; [done|].
    destruct (mv_hs _ _ _ q H Hne) as [-> ->]. apply Ht; [done|].
    destruct (t_stuck t); [|done]. by rewrite Hstuck in Hs.
Qed.

(** ** The moves of the index table *)

Lemma claims_agree t p q i e e' :
  table_ok t -> claims t p i e -> claims t q i e' -> e = e'.
Proof.
  intros Hok Hp Hq.
  assert (t_indexTable t !! i = Some e) by (apply (table_exact _ Hok); by exists p).
  assert (t_indexTable t !! i = Some e') by (apply (table_exact _ Hok); by exists q).
  congruence.
Qed.

(** The index of a handshake is given up. *)
Lemma table_ok_drop p t t' :
  table_ok t -> moved p t t' -> kps_at t' p = kps_at t p -> hs_localIndex (hs_at t' p) = 0 ->
  t_indexTable t' = delete (hs_localIndex (hs_at t p)) (t_indexTable t) -> table_ok t'.
Proof.
  intros Hok H Hk Hz Htb. split.
  - intros i e. rewrite Htb, lookup_delete_Some, (table_exact _ Hok). split.
    + intros (Hne & q & Hc). exists q. destruct (decide (q = p)) as [->|Hq].
      * destruct Hc as [(? & _)|(k & ? & ? & ?)]; [done|].
        right. exists k. by rewrite Hk, (mv_index _ _ _ k H).
      * by apply (mv_claims _ _ _ q i e H Hq).
    + intros (q & Hc).
      assert (Hc' : claims t q i e /\ (q = p -> exists k, e = kp_entry p k)).
      { destruct (decide (q = p)) as [->|Hq].
        - destruct Hc as [(? & ? & _)|(k & Ho & Hi & He)]; [congruence|].
          split; [|by exists k]. right. exists k. by rewrite <- Hk, <- (mv_index _ _ _ k H).
        - split; [by apply (mv_claims _ _ _ q i e H Hq)|done]. }
      destruct Hc' as [Hc1 Hc2]. split; [|by exists q]. intros Hi.
      assert (i <> 0) as Hi0.
      { intros ->. assert (t_indexTable t !! 0 = Some e) as E
          by (apply (table_exact _ Hok); by exists q). by rewrite (table_zero _ Hok) in E. }
      assert (e = hs_entry p) as -> by (eapply (claims_agree t q p i); eauto; by left).
      destruct (decide (q = p)) as [Hq|Hq]; [by destruct (Hc2 Hq)|].
      destruct Hc1 as [(_ & _ & [= ])|(k & _ & _ & [= ])]; congruence.
  - rewrite Htb. apply lookup_delete_None. right. apply (table_zero _ Hok).
  - intros q. destruct (decide (q = p)) as [->|Hq]; [rewrite Hk|rewrite (mv_kps _ _ _ q H Hq)];
      apply (table_distinct _ Hok).
Qed.

(** An unused index is taken by a handshake that has none. *)
Lemma table_ok_take p t t' i :
  table_ok t -> moved p t t' -> kps_at t' p = kps_at t p -> hs_localIndex (hs_at t p) = 0 ->
  hs_localIndex (hs_at t' p) = i -> i <> 0 -> t_indexTable t !! i = None ->
  t_indexTable t' = <[i := hs_entry p]> (t_indexTable t) -> table_ok t'.
Proof.
  intros Hok H Hk Hz Hi Hi0 Hfree Htb. split.
  - intros j e. rewrite Htb, lookup_insert_Some, (table_exact _ Hok). split.
    + intros [(-> & <-)|(Hne & q & Hc)]; [exists p; by left|].
      exists q. destruct (decide (q = p)) as [->|Hq].
      * destruct Hc as [(? & ? & _)|(k & ? & ? & ?)]; [congruence|].
        right. exists k. by rewrite Hk, (mv_index _ _ _ k H).
      * by apply (mv_claims _ _ _ q j e H Hq).
    + intros (q & Hc). destruct (decide (i = j)) as [<-|Hne].
      * left. split; [done|].
        assert (~ claims t q i e) as Hno.
        { intros Hc'. assert (t_indexTable t !! i = Some e) as E
            by (apply (table_exact _ Hok); by exists q). congruence. }
        destruct (decide (q = p)) as [->|Hq].
        -- destruct Hc as [(_ & _ & ->)|(k & Ho & Hx & He)]; [done|]. destruct Hno.
           right. exists k. by rewrite <- Hk, <- (mv_index _ _ _ k H).
        -- by apply (mv_claims _ _ _ q i e H Hq) in Hc.
      * right. split; [done|]. exists q. destruct (decide (q = p)) as [->|Hq].
        -- destruct Hc as [(? & _)|(k & Ho & Hx & He)]; [congruence|].
           right. exists k. by rewrite <- Hk, <- (mv_index _ _ _ k H).
        -- by apply (mv_claims _ _ _ q j e H Hq).
  - rewrite Htb, lookup_insert_ne by done. apply (table_zero _ Hok).
  - intros q. destruct (decide (q = p)) as [->|Hq]; [rewrite Hk|rewrite (mv_kps _ _ _ q H Hq)];
      apply (table_distinct _ Hok).
Qed.

(** Keypairs are released with their indices. *)
Lemma table_ok_release p t t' :
  table_ok t -> moved p t t' -> hs_localIndex (hs_at t' p) = hs_localIndex (hs_at t p) ->
  (forall k, owns (kps_at t' p) k -> owns (kps_at t p) k) -> distinct (kps_at t' p) ->
  (forall j e, t_indexTable t' !! j = Some e <-> t_indexTable t !! j = Some e /\
     forall k, owns (kps_at t p) k -> ~ owns (kps_at t' p) k -> index_of t k <> j) ->
  table_ok t'.
Proof.
  intros Hok H Hi Hsub Hd Htb. split.
  - intros j e. rewrite Htb, (table_exact _ Hok). split.
    + intros ((q & Hc) & Hout). exists q. destruct (decide (q = p)) as [->|Hq].
      * destruct Hc as [Hc|(k & Ho & Hx & He)]; [left; by rewrite Hi|].
        right. exists k. rewrite (mv_index _ _ _ k H). split; [|done].
        destruct (decide (current (kps_at t' p) = Some k)); [by left|].
        destruct (decide (previous (kps_at t' p) = Some k)); [by right; left|].
        destruct (decide (next (kps_at t' p) = Some k)); [by right; right|].
        destruct (Hout k); [done|by intros [?|[?|?]]|done].
      * by apply (mv_claims _ _ _ q j e H Hq).
    + intros (q & Hc).
      assert (Hc' : claims t q j e).
      { destruct (decide (q = p)) as [->|Hq]; [|by apply (mv_claims _ _ _ q j e H Hq)].
        destruct Hc as [Hc|(k & Ho & Hx & He)]; [left; by rewrite <- Hi|].
        right. exists k. rewrite <- (mv_index _ _ _ k H). auto. }
      split; [by exists q|]. intros k Ho Hno Hx.
      assert (e = kp_entry p k) as ->
        by (eapply (claims_agree t q p j); eauto; right; by exists k).
      destruct (decide (q = p)) as [->|Hq].
      * destruct Hc as [(_ & _ & [= ])|(k' & Ho' & _ & [= ->])]; done.
      * destruct Hc' as [(_ & _ & [= ])|(k' & _ & _ & [= -> ->])]; done.
  - destruct (t_indexTable t' !! 0) as [e|] eqn:E; [|done].
    apply Htb in E as [E _]. by rewrite (table_zero _ Hok) in E.
  - intros q. destruct (decide (q = p)) as [->|Hq]; [done|].
    rewrite (mv_kps _ _ _ q H Hq). apply (table_distinct _ Hok).
Qed.

(** The index of a handshake becomes that of a new keypair. *)
Lemma table_ok_promote p k t t' :
  table_ok t -> moved p t t' ->
  hs_localIndex (hs_at t p) = index_of t k -> index_of t k <> 0 -> hs_localIndex (hs_at t' p) = 0 ->
  (forall j, owns (kps_at t' p) j <-> owns (kps_at t p) j \/ j = k) -> distinct (kps_at t' p) ->
  t_indexTable t' = <[index_of t k := kp_entry p k]> (t_indexTable t) -> table_ok t'.
Proof.
  intros Hok H Hi Hi0 Hz Ho Hd Htb.
  assert (Hhs : claims t p (index_of t k) (hs_entry p)) by (by left).
  split.
  - intros j e. rewrite Htb, lookup_insert_Some, (table_exact _ Hok). split.
    + intros [(<- & <-)|(Hne & q & Hc)].
      * exists p. right. exists k. rewrite Ho, (mv_index _ _ _ k H). auto.
      * exists q. destruct (decide (q = p)) as [->|Hq].
        -- destruct Hc as [(? & _)|(k' & ? & ? & ?)]; [congruence|].
           right. exists k'. rewrite Ho, (mv_index _ _ _ k' H). auto.
        -- by apply (mv_claims _ _ _ q j e H Hq).
    + intros (q & Hc). destruct (decide (index_of t k = j)) as [<-|Hne].
      * left. split; [done|]. destruct (decide (q = p)) as [->|Hq].
        -- destruct Hc as [(? & ? & _)|(k' & Hk' & Hx & ->)]; [congruence|].
           apply Ho in Hk' as [Hk'| ->]; [|done]. rewrite (mv_index _ _ _ k' H) in Hx.
           assert (hs_entry p = kp_entry p k') as [=]
             by (eapply (claims_agree t p p); eauto; right; by exists k').
        -- apply (mv_claims _ _ _ q _ e H Hq) in Hc.
           assert (e = hs_entry p) as -> by (eapply (claims_agree t q p); eauto).
           destruct Hc as [(_ & _ & [= ])|(k' & _ & _ & [= ])]; congruence.
      * right. split; [done|]. exists q. destruct (decide (q = p)) as [->|Hq].
        -- destruct Hc as [(? & ? & _)|(k' & Hk' & Hx & He)]; [congruence|].
           rewrite (mv_index _ _ _ k' H) in Hx. apply Ho in Hk' as [Hk'| ->]; [|congruence].
           right. by exists k'.
        -- by apply (mv_claims _ _ _ q j e H Hq).
  - rewrite Htb, lookup_insert_ne by done. apply (table_zero _ Hok).
  - intros q. destruct (decide (q = p)) as [->|Hq]; [done|].
    rewrite (mv_kps _ _ _ q H Hq). apply (table_distinct _ Hok).
Qed.

End Inv.

Ltac quiet_tac := intros ?; repeat case_match; reflexivity.

#[export] Hint Extern 1 (preserves _ (upd_timers _ _)) => (apply preserves_upd_timers; apply _) : preserves.
#[export] Hint Extern 1 (preserves _ (on_bind _)) => (apply preserves_on_bind; apply _) : preserves.
#[export] Hint Extern 1 (preserves _ (on_sink _)) => (apply preserves_on_sink; apply _) : preserves.
#[export] Hint Extern 1 (preserves _ (upd_out _ _)) => (apply preserves_upd_out; apply _) : preserves.
#[export] Hint Extern 1 (preserves _ now) => (apply preserves_now; apply _) : preserves.
#[export] Hint Extern 1 (preserves _ (since _)) => (apply preserves_since; apply _) : preserves.
#[export] Hint Extern 2 (preserves _ (upd_peer _ _)) =>
  (apply preserves_upd_peer; [apply _|solve [quiet_tac]]) : preserves.
#[export] Hint Extern 2 (preserves _ (upd_handshake _ _)) =>
  (apply preserves_upd_handshake; [apply _|solve [quiet_tac]]) : preserves.
#[export] Hint Extern 2 (preserves _ (on_env _)) =>
  (apply preserves_on_env; [apply _|solve [auto with preserves]]) : preserves.
#[export] Hint Extern 2 (preserves _ (modify _)) =>
  (apply preserves_modify; [apply _|solve [by intros ?; split]]) : preserves.
#[export] Hint Extern 1 (preserves _ (get_peer _)) => apply preserves_gets : preserves.
#[export] Hint Extern 1 (preserves _ (get_handshake _)) => apply preserves_gets : preserves.
#[export] Hint Extern 1 (preserves _ (get_keypair _)) => apply preserves_gets : preserves.
#[export] Hint Extern 1 (preserves _ isUp) => apply preserves_gets : preserves.
#[export] Hint Extern 1 (preserves _ isClosed) => apply preserves_gets : preserves.
#[export] Hint Extern 1 (preserves _ (table_Lookup _)) => apply preserves_gets : preserves.

(** One bind whose first part the automation closes. *)
Ltac pbind := apply preserves_bind; [preserves_tac|intros ?].

End Invariant.
