(* ===== verification/Keys.v ===== *)
(** The handshake handlers of Noise.v keep the invariant: indices are taken,
    promoted to keypairs and released without loss or leak. *)
From S2P Require Import Prelude Replay Tai64n Env Crypto Wire Cookie State IndexTable Noise Invariant.
From stdpp Require Import prelude gmap list.
Open Scope Z_scope.

Module Keys.
Import Env.Env Crypto.Noise_helpers Wire.Wire Cookie.Cookie State.State IndexTable.IndexTable
  Noise.Noise Invariant.Invariant.

Section EnvReaders.
Context {C : Crypto}.

Lemma keeps_NewPrivateKey : keeps_rng NewPrivateKey.
Proof. unfold NewPrivateKey. keeps_tac. Qed.
Lemma keeps_AddMacs g m : keeps_rng (AddMacs g m).
Proof. unfold AddMacs. keeps_tac. Qed.
Lemma keeps_CheckMAC2 st m src : keeps_rng (CheckMAC2 st m src).
Proof. unfold CheckMAC2. keeps_tac. Qed.
Lemma keeps_CreateReply st m r src : keeps_rng (CreateReply st m r src).
Proof. unfold CreateReply, refresh_secret. keeps_tac. Qed.
Lemma keeps_ConsumeReply st m : keeps_rng (ConsumeReply st m).
Proof. unfold ConsumeReply. keeps_tac. Qed.

End EnvReaders.

#[export] Hint Resolve keeps_NewPrivateKey keeps_AddMacs keeps_CheckMAC2 keeps_CreateReply
  keeps_ConsumeReply : preserves.

Section Keys.
Context {C : Crypto} {B S : Type}.
Abbreviation W := (Transport B S).
Implicit Types t : W.

(** Assignments of handshake fields that leave the keys of the peer alone. *)
Definition hkeyed (f : Handshake -> Handshake) : Prop := forall h,
  hs_remoteStatic (f h) = hs_remoteStatic h /\
  hs_precomputedStaticStatic (f h) = hs_precomputedStaticStatic h.

#[global] Instance moved_equivalence p : Equivalence (moved (B:=B) (S:=S) p).
Proof.
  split.
  - by split.
  - intros t t' []. split; intros; symmetry; auto.
  - intros t1 t2 t3 H1 H2.
    split; intros; (etrans; [apply H2|apply H1]); done.
Qed.

Lemma moved_put_handshake p f t : hkeyed f -> moved p t (put_handshake p f t).
Proof.
  intros Hf. split; try done.
  - intros q Hq. unfold put_handshake. by rewrite peer_at_put_peer_ne.
  - by rewrite peer_at_put_handshake_eq.
  - by rewrite peer_at_put_handshake_eq.
  - unfold hs_at. rewrite peer_at_put_handshake_eq. apply Hf.
  - unfold hs_at. rewrite peer_at_put_handshake_eq. apply Hf.
Qed.

Lemma moved_set_table p tb t : moved p t (set_t_indexTable tb t).
Proof. by split. Qed.
Lemma moved_set_env p e t : rng e = rng (t_env t) -> moved p t (set_t_env e t).
Proof. by split. Qed.
Lemma moved_set_stuck p s t : moved p t (set_t_stuck s t).
Proof. by split. Qed.

Lemma hs_at_put_handshake p f t : hs_at (put_handshake p f t) p = f (hs_at t p).
Proof. unfold hs_at. by rewrite peer_at_put_handshake_eq. Qed.
Lemma kps_at_put_handshake p f t : kps_at (put_handshake p f t) p = kps_at t p.
Proof. unfold kps_at. by rewrite peer_at_put_handshake_eq. Qed.

(** The state of a handshake that is not in flight may be set; one in flight
    needs an index. *)
Lemma Inv_set_handshake L p f t :
  Inv L t -> L p -> hkeyed f ->
  (forall h, hs_localIndex (f h) = hs_localIndex h) ->
  (good_rng (rng (t_env t)) -> t_stuck t = false -> in_flight (hs_state (f (hs_at t p))) = true ->
   hs_localIndex (hs_at t p) <> 0) ->
  Inv L (put_handshake p f t).
Proof.
  intros Ht Hp Hf Hi Hs. pose proof (inv_live _ _ Ht p Hp) as Hlt.
  assert (moved p t (put_handshake p f t)) as Hm by (by apply moved_put_handshake).
  eapply Inv_moved; eauto.
  - intros k. rewrite kps_at_put_handshake. apply (inv_kps _ _ Ht).
  - intros i e. apply (inv_entries _ _ Ht).
  - intros Hg Hk. rewrite hs_at_put_handshake, Hi. split; [|by apply Hs].
    destruct (inv_table _ _ Ht Hg Hk) as [[He Hz Hd] _]. split; [| |].
    + intros i e. rewrite t_indexTable_put_handshake, He.
      split; intros [q Hq]; exists q; revert Hq; unfold claims;
        destruct (decide (q = p)) as [->|Hne].
      1,3: rewrite hs_at_put_handshake, kps_at_put_handshake, Hi; done.
      all: rewrite (mv_kps _ _ _ q Hm Hne); by destruct (mv_hs _ _ _ q Hm Hne) as [-> _].
    + done.
    + intros q. destruct (decide (q = p)) as [->|Hne].
      * rewrite kps_at_put_handshake. apply Hd.
      * rewrite (mv_kps _ _ _ q Hm Hne). apply Hd.
Qed.

(** ** Taking an index *)

(** The handshake of [p] gives up its index and takes the one it is assigned. *)
Lemma Inv_reassign L p fuel t t' li i err f :
  Inv L t -> L p -> li = hs_localIndex (hs_at t p) ->
  new_index_loop fuel p (set_t_indexTable (delete li (t_indexTable t)) t) = (t', (i, err)) ->
  hkeyed f -> (err = None -> forall h, hs_localIndex (f h) = i) ->
  Inv L (put_handshake p f t').
Proof.
  intros Ht Hp -> Hn Hf Hi. pose proof (inv_live _ _ Ht p Hp) as Hlt.
  assert (Hen : entry_ok (t_fresh t) (hs_entry p)) by (by split_and!; intros ? [= <-]).
  assert (Hdel : forall j e, delete (hs_localIndex (hs_at t p)) (t_indexTable t) !! j = Some e ->
                   entry_ok (t_fresh t) e)
    by (intros j e [_ Hj]%lookup_delete_Some; by apply (inv_entries _ _ Ht) in Hj).
  apply new_index_spec in Hn. simpl in Hn. destruct err as [err|].
  - destruct Hn as (e & s & He & Hs & Hst & ->).
    eapply Inv_moved; [done| |done| | | |].
    + by rewrite <- moved_put_handshake, <- moved_set_stuck, <- moved_set_env, <- moved_set_table.
    + intros k. rewrite kps_at_put_handshake. apply (inv_kps _ _ Ht).
    + intros j e'. rewrite t_indexTable_put_handshake. apply Hdel.
    + simpl. intros Hg%Hs Hk. congruence.
    + apply Hst.
  - destruct Hn as (e & Hfree & He & Hi0 & ->). specialize (Hi eq_refl).
    set (t1 := put_handshake p (set_hs_localIndex 0)
                 (set_t_indexTable (delete (hs_localIndex (hs_at t p)) (t_indexTable t)) t)).
    set (t2 := set_t_indexTable _ _).
    assert (Hm1 : moved p t t1).
    { unfold t1. rewrite <- moved_put_handshake by done. apply moved_set_table. }
    assert (Hm2 : moved p t (put_handshake p f t2)).
    { rewrite <- moved_put_handshake by done. unfold t2.
      by rewrite <- moved_set_table, <- moved_set_env, <- moved_set_table. }
    eapply Inv_moved; [done|done|done| | | |].
    + intros k. rewrite kps_at_put_handshake. apply (inv_kps _ _ Ht).
    + intros j e'. rewrite t_indexTable_put_handshake. unfold t2. simpl.
      intros [[_ <-]|[_ Hj]]%lookup_insert_Some; [done|by apply Hdel in Hj].
    + simpl. intros Hg Hk. rewrite hs_at_put_handshake, Hi. split; [|auto].
      destruct (inv_table _ _ Ht Hg Hk) as [Hok _].
      assert (Hok1 : table_ok t1).
      { apply (table_ok_drop p t); auto; unfold t1.
        - by rewrite kps_at_put_handshake.
        - by rewrite hs_at_put_handshake. }
      apply (table_ok_take p t1 _ i); auto.
      * by rewrite <- Hm1.
      * unfold t1. by rewrite !kps_at_put_handshake.
      * unfold t1. by rewrite hs_at_put_handshake.
      * by rewrite hs_at_put_handshake, Hi.
    + done.
Qed.

(** The same without a further assignment. *)
Lemma Inv_reassign_failed L p fuel t t' li i err :
  Inv L t -> L p -> li = hs_localIndex (hs_at t p) ->
  new_index_loop fuel p (set_t_indexTable (delete li (t_indexTable t)) t) = (t', (i, Some err)) ->
  Inv L t'.
Proof.
  intros Ht Hp Hli Hn. rewrite (same_put_handshake p (fun h => h) t') by done.
  by eapply Inv_reassign.
Qed.

Lemma CreateMessageInitiation_inv L p :
  L p -> preserves (Inv L) (CreateMessageInitiation (B:=B) (S:=S) p).
Proof.
  intros Hp. unfold CreateMessageInitiation. pbind. pbind. destruct a0 as [sk failed]. pbind.
  destruct failed; [preserves_tac|]. pbind. pbind. pbind. pbind.
  destruct (sharedSecret _ _) as [ss|]; [|preserves_tac].
  destruct (KDF2 _ _) as [chainKey key]. pbind. pbind. pbind.
  apply preserves_gets_bind. intros t Ht. case_match; [done|].
  destruct (KDF2 _ _) as [chainKey2 key2]. mrun.
  unfold bind at 1, NewIndexForHandshake.
  destruct (new_index_loop _ _ _) as [t1 [i [err|]]] eqn:Hn.
  - refine (Inv_reassign_failed _ _ _ _ _ _ _ _ _ Hp _ Hn); [|unfold hs_at; by mrun].
    rewrite <- same_set_env by done. by rewrite <- same_put_handshake by quiet_tac.
  - mrun. refine (Inv_reassign _ _ _ _ _ _ _ _ _ _ Hp _ Hn _ _);
      [|unfold hs_at; by mrun|by intros|done].
    rewrite <- same_set_env by done. by rewrite <- same_put_handshake by quiet_tac.
Qed.

(** [Inv] with an index for the handshake of [p]. *)
Definition InvI L (p : PeerId) t : Prop :=
  Inv L t /\ (good_rng (rng (t_env t)) -> t_stuck t = false -> hs_localIndex (hs_at t p) <> 0).

#[global] Instance InvI_closed L p : Closed (InvI L p).
Proof.
  intros t t' H [Ht Hi]. split; [by eapply same_Inv|].
  rewrite (same_rng _ _ H), (same_stuck _ _ H). by destruct (same_hs _ _ p H) as [-> _].
Qed.

(** With an index, the handshake may be marked as in flight. *)
Lemma preserves_set_state L p s :
  L p -> preserves (InvI L p) (upd_handshake (B:=B) (S:=S) p (set_hs_state s)).
Proof.
  intros Hp t [Ht Hi]. split.
  - apply Inv_set_handshake; auto. by intros.
  - intros Hg Hs. change (fst (upd_handshake p (set_hs_state s) t))
      with (put_handshake p (set_hs_state s) t). rewrite hs_at_put_handshake. by apply Hi.
Qed.

Lemma CreateMessageResponse_inv L p :
  L p -> preserves (Inv L) (CreateMessageResponse (B:=B) (S:=S) p).
Proof.
  intros Hp. apply preserves_gets_bind. intros t Ht. case_match; [done|]. mrun.
  unfold bind at 1, NewIndexForHandshake.
  destruct (new_index_loop _ _ _) as [t1 [i err]] eqn:Hn. mrun.
  assert (Ht1 : Inv L (put_handshake p (set_hs_localIndex i) t1))
    by (by refine (Inv_reassign _ _ _ _ _ _ _ _ _ Ht Hp _ Hn _ _)).
  destruct err as [err|]; [done|].
  match goal with |- Inv L (fst (?m ?x)) => cut (InvI L p (fst (m x))); [by intros []|] end.
  match goal with |- InvI L p (fst (?m ?x)) => assert (preserves (InvI L p) m) as Hm end.
  { preserves_tac. by apply preserves_set_state. }
  apply Hm. split; [done|]. apply new_index_spec in Hn as (e & _ & Hr & Hi & ->). simpl in Hi.
  rewrite hs_at_put_handshake. simpl. rewrite Hr. intros Hg _. by apply Hi.
Qed.

(** ** Consuming messages *)

(** A peer found by key or by index is allocated. *)
Lemma ConsumeMessageInitiation_inv L msg t :
  Inv L t ->
  let '(t', r) := ConsumeMessageInitiation msg t in
  Inv (fun q => r = Some q \/ L q) t'.
Proof.
  intros Ht.
  assert (Hnone : Inv (fun q => None = Some q \/ L q) t)
    by (by eapply Inv_weaken; [|exact Ht]; intros ? [|]).
  unfold ConsumeMessageInitiation. destruct (negb _); [done|]. mrun.
  destruct (sharedSecret _ _) as [ss|]; [|done]. destruct (KDF2 _ _) as [c1 k1].
  destruct (aead_Open _ _ _ _) as [pk|]; [|done]. mrun.
  destruct (t_keyMap t !! pk) as [p|] eqn:Hpk; [|done]. mrun.
  destruct (negb (p_isRunning _)); [done|]. destruct (isZero _); [done|].
  destruct (KDF2 c1 _) as [c2 k2].
  destruct (aead_Open k2 _ _ _) as [ts|]; [|done]. mrun.
  assert (Hp : Inv (fun q => Some p = Some q \/ L q) t).
  { eapply Inv_weaken; [|apply (Inv_add L t p Ht), (inv_keyMap _ _ Ht pk p Hpk)].
    intros q [[= ->]|?]; auto. }
  destruct (negb (Tai64n.After _ _)); [unfold ret; by rewrite <- same_set_env by done|].
  destruct (_ <=? _); [unfold ret; by rewrite <- same_set_env by done|]. mrun.
  unfold ret. apply Inv_set_handshake; [|by left| | |].
  - by repeat ((rewrite <- same_set_env by done) || (rewrite <- same_put_handshake by quiet_tac)).
  - by intros h; repeat case_match.
  - by intros h; repeat case_match.
  - simpl. done.
Qed.

Lemma ConsumeMessageResponse_inv L msg t :
  Inv L t ->
  let '(t', r) := ConsumeMessageResponse msg t in
  Inv (fun q => r = Some q \/ L q) t'.
Proof.
  intros Ht.
  assert (Hnone : Inv (fun q => None = Some q \/ L q) t)
    by (by eapply Inv_weaken; [|exact Ht]; intros ? [|]).
  unfold ConsumeMessageResponse. destruct (negb _); [done|]. mrun.
  destruct (t_indexTable t !! mr_Receiver msg) as [e|] eqn:He; [|done]. simpl.
  destruct (e_handshake e) as [p|] eqn:Hh; [|done]. mrun.
  destruct (consume_response_keys _ _ _) as [[hash chainKey]|] eqn:Hc; [|done]. mrun.
  destruct (inv_entries _ _ Ht _ _ He) as (He1 & He2 & _).
  eapply (Inv_weaken (fun q => q = p \/ (e_peer e = Some q \/ L q))); [by auto|].
  unfold ret. apply Inv_set_handshake; [|by left|by intros|by intros|].
  - apply Inv_add; [|by apply He2]. destruct (e_peer e) as [q|] eqn:Hq; [|done].
    eapply Inv_weaken; [|apply (Inv_add L t q Ht); by apply He1]. intros r [[= ->]|?]; auto.
  - simpl. intros Hg Hs _. apply (inv_table _ _ Ht Hg Hs). unfold hs_at.
    revert Hc. unfold consume_response_keys.
    case_bool_decide as Hst; [|done]. intros _. by rewrite Hst.
Qed.

(** ** Releasing keypairs *)

(** The table without the indices of some keypairs. *)
Definition release t (os : list (option KeypairId)) (tb : gmap Z IndexTableEntry) :=
  fold_right (fun o tb => match o with Some k => delete (index_of t k) tb | None => tb end) tb os.

Lemma lookup_release t os tb j e :
  release t os tb !! j = Some e <->
  tb !! j = Some e /\ forall k, Some k ∈ os -> index_of t k <> j.
Proof.
  induction os as [|[k|] os IH]; simpl.
  - set_solver.
  - rewrite lookup_delete_Some, IH. split.
    + intros (Hk & He & Ho). split; [done|]. intros k' [[= ->]|Hk']%elem_of_cons; auto.
    + intros (He & Ho). split; [apply Ho; by left|]. split; [done|].
      intros k' Hk'. apply Ho. by right.
  - rewrite IH. split; intros [He Ho]; (split; [done|]); intros k Hk; apply Ho.
    + by apply elem_of_cons in Hk as [|].
    + by right.
Qed.

Lemma bind_DeleteKeypair {D} o (k : unit -> M W D) t :
  bind (DeleteKeypair o) k t = k tt (set_t_indexTable (release t [o] (t_indexTable t)) t).
Proof. destruct o; [done|]. unfold DeleteKeypair. rewrite bind_ret. by destruct t. Qed.

Lemma DeleteKeypair_drops o t :
  DeleteKeypair o t = (set_t_indexTable (release t [o] (t_indexTable t)) t, tt).
Proof. destruct o; [done|]. by destruct t. Qed.

(** ** A new keypair *)

Lemma keypair_at_new k kp n t j :
  keypair_at (set_t_keypairs (<[k := kp]> (t_keypairs t)) (set_t_fresh n t)) j =
  if decide (k = j) then kp else keypair_at t j.
Proof. unfold keypair_at. simpl. rewrite lookup_insert. by case_decide. Qed.

Lemma seen_on_none k l : (forall n, (k, n) ∉ l) -> seen_on k l = ∅.
Proof.
  intros Hl. unfold seen_on. apply set_eq. intros n. rewrite elem_of_list_to_set, list_elem_of_omap.
  split; [|set_solver]. intros ([k' n'] & Hin & H). simpl in H. case_decide; [|done].
  simplify_eq. by apply Hl in Hin.
Qed.

(** A fresh keypair starts with nonce 0 and an empty window. *)
Lemma Inv_new_keypair L kp t :
  Inv L t -> kp_sendNonce kp = 0 -> kp_replayFilter kp = Replay.Reset Replay.zeroFilter ->
  Inv L (set_t_keypairs (<[t_fresh t := kp]> (t_keypairs t))
           (set_t_fresh (Datatypes.S (t_fresh t)) t)).
Proof.
  intros Ht Hn Hf. set (t' := set_t_keypairs _ _).
  assert (Hat : forall j, (j < t_fresh t)%nat -> keypair_at t' j = keypair_at t j).
  { intros j Hj. unfold t'. rewrite keypair_at_new, decide_False; [done|lia]. }
  destruct Ht as [Hlive Hfree Hkps Hel Hen Hkm Hid Hst Hq [Hl Hb Ho] [Hw Hro Hrb] Htab].
  split; try done; simpl.
  - intros p Hp%Hlive. lia.
  - intros p Hp. apply Hfree. lia.
  - intros p k Hk%Hkps. lia.
  - intros c. eapply Forall_impl; [apply Hel|]. intros e [? ?]. split; [lia|done].
  - intros i e (? & ? & ?)%Hen. split_and!; intros; apply Nat.lt_lt_succ_r; eauto.
  - intros pk p [? ?]%Hkm. split; [lia|done].
  - split; [| |done].
    + intros k. unfold t'. rewrite keypair_at_new. case_decide; [rewrite Hn; done|apply Hl].
    + intros k n Hin. apply Hb in Hin as [? Hk]. rewrite Hat by done. simpl. split; [done|lia].
  - split; [|done|].
    + intros k. unfold t'. rewrite keypair_at_new. simpl. case_decide as Hk; [|apply Hw].
      subst k. exists Replay.empty_window. rewrite Hf. split; [|by apply Replay.simulates_Reset].
      symmetry. apply seen_on_none. intros n Hin%Hrb. lia.
    + intros k n Hin%Hrb. simpl. lia.
  - intros Hg Hs. destruct (Htab Hg Hs) as [[He Hz Hd] Hfl]. split; [|done]. split; [|done|done].
    intros i e. change (t_indexTable t') with (t_indexTable t). rewrite He.
    split; intros [p [Hc|(k & Hk & Hi & Hx)]]; exists p; [by left|right|by left|right];
      exists k; (split; [done|split; [|done]]); revert Hi; unfold index_of;
      by rewrite Hat by (by apply (Hkps p)).
Qed.

(** ** Rotation *)

(** The slots after [rotate_keypairs], the keypairs that stay and those it frees. *)
Definition rotated (isInitiator : bool) (k : KeypairId) (ks : Keypairs) : Keypairs :=
  if isInitiator then
    mkKeypairs (Some k) (match next ks with Some n => Some n | None => current ks end) None
  else mkKeypairs (current ks) None (Some k).
Definition kept (isInitiator : bool) (ks : Keypairs) : Keypairs :=
  if isInitiator then
    mkKeypairs None (match next ks with Some n => Some n | None => current ks end) None
  else mkKeypairs (current ks) None None.
Definition freed (isInitiator : bool) (ks : Keypairs) : list (option KeypairId) :=
  if isInitiator then
    [previous ks; match next ks with Some _ => current ks | None => None end]
  else [previous ks; next ks].

Lemma rotate_keypairs_slots p isInitiator k t :
  fst (rotate_keypairs p isInitiator k t) =
  set_t_indexTable (release t (freed isInitiator (kps_at t p)) (t_indexTable t))
    (put_peer p (set_p_keypairs (rotated isInitiator k (kps_at t p))) t).
Proof.
  assert (E : forall f g tb, (forall x, g (f x) = set_p_keypairs (rotated isInitiator k (kps_at t p)) x) ->
    put_peer p g (set_t_indexTable tb (put_peer p f t)) =
    set_t_indexTable tb (put_peer p (set_p_keypairs (rotated isInitiator k (kps_at t p))) t)).
  { intros f g tb Hfg.
    change (put_peer p g (set_t_indexTable tb (put_peer p f t)))
      with (set_t_indexTable tb (put_peer p g (put_peer p f t))).
    rewrite put_peer_fuse. unfold put_peer. by rewrite Hfg. }
  unfold rotate_keypairs, kps_at, rotated, freed in *. rewrite bind_get_peer.
  destruct isInitiator.
  - destruct (next (p_keypairs (peer_at t p))) as [n|] eqn:Hn; unfold bind at 1; simpl.
    + rewrite bind_upd_peer, DeleteKeypair_drops. simpl. rewrite bind_DeleteKeypair. simpl.
      by apply (E (set_p_keypairs _)).
    + rewrite bind_DeleteKeypair. by apply (E (set_p_keypairs _)).
  - rewrite bind_upd_peer, bind_DeleteKeypair, bind_upd_peer, DeleteKeypair_drops. simpl.
    match goal with |- set_t_indexTable ?tb (put_peer p ?g (set_t_indexTable ?tb' (put_peer p ?f t))) = _ =>
      rewrite (E f g tb') by done end.
    done.
Qed.

Lemma release_insert t os tb i e :
  (forall k, Some k ∈ os -> index_of t k <> i) ->
  release t os (<[i := e]> tb) = <[i := e]> (release t os tb).
Proof.
  intros H. induction os as [|[k|] os IH]; simpl; [done| |].
  - rewrite IH by (intros; apply H; by right). apply delete_insert_ne. apply H. by left.
  - apply IH. intros; apply H; by right.
Qed.

Lemma freed_spec b ks k :
  distinct ks -> Some k ∈ freed b ks <-> owns ks k /\ ~ owns (kept b ks) k.
Proof.
  intros Hd. destruct (Hd k) as [Hc Hp]. destruct ks as [c q n]. unfold freed, kept, owns in *.
  destruct b; simpl in *; rewrite !elem_of_cons, elem_of_nil; destruct n; naive_solver.
Qed.

Lemma kept_sub b ks k : owns (kept b ks) k -> owns ks k.
Proof. destruct ks as [c q [n|]], b; unfold kept, owns; naive_solver. Qed.
Lemma kept_distinct b ks : distinct ks -> distinct (kept b ks).
Proof. intros H k. destruct ks as [c q [n|]], b; unfold kept; simpl; split; naive_solver. Qed.
Lemma rotated_spec b k ks j : owns (rotated b k ks) j <-> owns (kept b ks) j \/ j = k.
Proof. destruct ks as [c q [n|]], b; unfold kept, rotated, owns; naive_solver. Qed.
Lemma rotated_distinct b k ks : ~ owns ks k -> distinct (rotated b k ks).
Proof.
  intros H j. destruct ks as [c q [n|]], b; unfold rotated, owns in *; simpl in *; split; naive_solver.
Qed.

Lemma peer_at_put_keypairs p ks t :
  kps_at (put_peer p (set_p_keypairs ks) t) p = ks /\
  hs_at (put_peer p (set_p_keypairs ks) t) p = hs_at t p.
Proof. unfold kps_at, hs_at. by rewrite !peer_at_put_peer_eq. Qed.

Lemma moved_put_keypairs p ks t : moved p t (put_peer p (set_p_keypairs ks) t).
Proof.
  split; try done; unfold hs_at; rewrite ?peer_at_put_peer_eq; try done.
  intros q Hq. by rewrite peer_at_put_peer_ne.
Qed.

(** Installing keypair [k] on the index of the handshake: swap, reset, rotate. *)
Lemma table_ok_rotate p b k t t' :
  table_ok t -> (forall q, ~ owns (kps_at t q) k) ->
  hs_localIndex (hs_at t p) = index_of t k -> index_of t k <> 0 -> moved p t t' ->
  hs_localIndex (hs_at t' p) = 0 -> kps_at t' p = rotated b k (kps_at t p) ->
  t_indexTable t' = release t (freed b (kps_at t p)) (<[index_of t k := kp_entry p k]> (t_indexTable t)) ->
  table_ok t'.
Proof.
  intros Hok Hno Hi Hi0 Hm Hz Hks Htb.
  pose proof (table_distinct _ Hok p) as Hd.
  set (tv := set_t_indexTable (release t (freed b (kps_at t p)) (t_indexTable t))
               (put_peer p (set_p_keypairs (kept b (kps_at t p))) t)).
  assert (Hmv : moved p t tv).
  { unfold tv. rewrite <- moved_set_table. apply moved_put_keypairs. }
  destruct (peer_at_put_keypairs p (kept b (kps_at t p)) t) as [Ek Eh].
  change (kps_at tv p = kept b (kps_at t p)) in Ek. change (hs_at tv p = hs_at t p) in Eh.
  assert (Hokv : table_ok tv).
  { apply (table_ok_release p t tv); rewrite ?Ek, ?Eh; auto using kept_distinct.
    - intros j. apply kept_sub.
    - intros j e. unfold tv. simpl. rewrite lookup_release.
      split; intros [He Hout]; (split; [done|]).
      + intros r Hr Hnr. apply Hout. by apply freed_spec.
      + intros r Hr. apply freed_spec in Hr as [? ?]; [|done]. by apply Hout. }
  assert (Hfresh : forall r, Some r ∈ freed b (kps_at t p) -> index_of t r <> index_of t k).
  { intros r [Hr _]%freed_spec E; [|done].
    assert (hs_entry p = kp_entry p r) as [=].
    apply (claims_agree t p p (index_of t k)); [done|by left|right; by exists r]. }
  apply (table_ok_promote p k tv t'); auto.
  - by rewrite <- Hmv.
  - by rewrite Eh.
  - intros j. rewrite Hks, Ek. apply rotated_spec.
  - rewrite Hks. by apply rotated_distinct.
  - rewrite Htb. by rewrite release_insert.
Qed.

(** The table after [SwapIndexForKeypair]. *)
Definition swapped (i : Z) (k : KeypairId) (tb : gmap Z IndexTableEntry) : gmap Z IndexTableEntry :=
  match tb !! i with
  | None => tb
  | Some e => <[i := mkIndexEntry (e_peer e) None (Some k)]> tb
  end.

Lemma bind_Swap {D} i k (g : unit -> M W D) t :
  bind (SwapIndexForKeypair i k) g t =
  g tt (set_t_indexTable (swapped i k (t_indexTable t)) t).
Proof.
  unfold SwapIndexForKeypair, bind, gets, swapped. simpl.
  destruct (t_indexTable t !! i); [done|]. simpl. by destruct t.
Qed.

Lemma bind_new_keypair {D} kp (g : KeypairId -> M W D) t :
  bind (new_keypair kp) g t =
  g (t_fresh t) (set_t_keypairs (<[t_fresh t := kp]> (t_keypairs t))
                   (set_t_fresh (Datatypes.S (t_fresh t)) t)).
Proof. done. Qed.

Lemma fst_bind_ret {A D} (m : M W A) (d : D) t : fst (bind m (fun _ => ret d) t) = fst (m t).
Proof. unfold bind. by destruct (m t). Qed.

Lemma Inv_install L p b k t :
  Inv L t -> L p -> (k < t_fresh t)%nat -> (forall q, ~ owns (kps_at t q) k) ->
  in_flight (hs_state (hs_at t p)) = false ->
  (good_rng (rng (t_env t)) -> t_stuck t = false ->
   hs_localIndex (hs_at t p) = index_of t k /\ index_of t k <> 0) ->
  let t1 := put_handshake p (set_hs_localIndex 0)
              (set_t_indexTable (swapped (index_of t k) k (t_indexTable t)) t) in
  Inv L (fst (rotate_keypairs p b k t1)).
Proof.
  intros Ht Hp Hk Hno Hfl Hi t1. pose proof (inv_live _ _ Ht p Hp) as Hlt.
  rewrite rotate_keypairs_slots.
  assert (Ek1 : kps_at t1 p = kps_at t p) by (unfold t1; by rewrite kps_at_put_handshake).
  rewrite Ek1.
  destruct (peer_at_put_keypairs p (rotated b k (kps_at t p)) t1) as [Ek Eh].
  change (release t1) with (release t).
  set (t' := set_t_indexTable _ _). change (kps_at t' p = rotated b k (kps_at t p)) in Ek.
  change (hs_at t' p = hs_at t1 p) in Eh. unfold t1 in Eh. rewrite hs_at_put_handshake in Eh.
  assert (Hm : moved p t t').
  { unfold t', t1. rewrite <- moved_set_table, <- moved_put_keypairs.
    rewrite <- moved_put_handshake by (by intros). apply moved_set_table. }
  eapply Inv_moved; [done|exact Hm|done| | | |done].
  - rewrite Ek. intros j [Hj| ->]%rotated_spec; [|done]. by eapply (inv_kps _ _ Ht p), kept_sub.
  - intros i e. unfold t'. simpl. rewrite lookup_release. intros [He _]. revert He. unfold t1. simpl.
    unfold swapped. destruct (t_indexTable t !! index_of t k) as [e0|] eqn:E0;
      [|apply (inv_entries _ _ Ht)].
    intros [[_ <-]|[_ He]]%lookup_insert_Some; [|by apply (inv_entries _ _ Ht) in He].
    destruct (inv_entries _ _ Ht _ _ E0) as (H1 & _ & _). split_and!; simpl; [done|done|].
    by intros ? [= <-].
  - intros Hg Hs. destruct (inv_table _ _ Ht Hg Hs) as [Hok _]. destruct (Hi Hg Hs) as [Hi1 Hi2].
    rewrite Eh. split;
      [|intros Hx; change (in_flight (hs_state (hs_at t p)) = true) in Hx; congruence].
    apply (table_ok_rotate p b k t); auto; [by rewrite Eh|].
    unfold t', t1. simpl. unfold swapped.
    assert (t_indexTable t !! index_of t k = Some (hs_entry p)) as ->.
    { apply (table_exact _ Hok). exists p. by left. }
    done.
Qed.

Lemma BeginSymmetricSession_inv L p :
  L p -> preserves (Inv L) (BeginSymmetricSession (B:=B) (S:=S) p).
Proof.
  intros Hp. apply preserves_gets_bind. intros t Ht. fold (hs_at t p).
  destruct (session_keys (hs_at t p)) as [[[b sk] rk]|] eqn:Hsk; [|done].
  mrun. rewrite bind_new_keypair, bind_Swap, bind_upd_handshake, fst_bind_ret.
  set (t1 := set_t_env _ _).
  assert (Hfl : in_flight (hs_state (hs_at t p)) = true).
  { revert Hsk. unfold session_keys. repeat case_bool_decide; simplify_eq/=; try done.
    - intros _. by rewrite H.
    - intros _. by rewrite H0. }
  assert (Ht1 : Inv L t1).
  { unfold t1. rewrite <- same_set_env by done.
    apply Inv_set_handshake; auto; by intros. }
  assert (Hs1 : hs_localIndex (hs_at t1 p) = hs_localIndex (hs_at t p) /\
                in_flight (hs_state (hs_at t1 p)) = false).
  { unfold t1. change (hs_at (set_t_env ?e ?x) p) with (hs_at x p).
    by rewrite hs_at_put_handshake. }
  set (kp := mkKeypair _ _ _ _ _ _ _ _). set (t2 := set_t_keypairs _ _).
  assert (Ht2 : Inv L t2) by (by apply Inv_new_keypair).
  assert (Hix : index_of t2 (t_fresh t1) = hs_localIndex (hs_at t p)).
  { unfold index_of, t2. by rewrite keypair_at_new, decide_True. }
  rewrite <- Hix. apply Inv_install; [done|done|apply Nat.lt_succ_diag_r| | |].
  - intros q Hq. by apply (inv_kps _ _ Ht1), Nat.lt_irrefl in Hq.
  - apply Hs1.
  - intros Hg Hs. rewrite Hix. change (hs_at t2 p) with (hs_at t1 p).
    split; [apply Hs1|]. by apply (inv_table _ _ Ht Hg Hs).
Qed.

Lemma ReceivedWithKeypair_inv L p k :
  L p -> preserves (Inv L) (ReceivedWithKeypair (B:=B) (S:=S) p k).
Proof.
  intros Hp. apply preserves_gets_bind. intros t Ht. cbv zeta.
  destruct (negb _); [done|]. mrun.
  rewrite bind_DeleteKeypair. mrun.
  change (release (put_peer ?q ?f t)) with (release t).
  pose proof (inv_live _ _ Ht p Hp) as Hlt. set (ks := p_keypairs (peer_at t p)).
  match goal with |- Inv L (fst (ret true ?x)) => set (t' := x) end.
  assert (E : t' = set_t_indexTable (release t [previous ks] (t_indexTable t))
                     (put_peer p (set_p_keypairs (mkKeypairs (next ks) (current ks) None)) t)).
  { unfold t'. change (put_peer p ?g (set_t_indexTable ?tb (put_peer p ?f t)))
      with (set_t_indexTable tb (put_peer p g (put_peer p f t))).
    by rewrite put_peer_fuse. }
  destruct (peer_at_put_keypairs p (mkKeypairs (next ks) (current ks) None) t) as [Ek Eh].
  assert (Hm : moved p t t') by (rewrite E, <- moved_set_table; apply moved_put_keypairs).
  assert (Ek' : kps_at t' p = mkKeypairs (next ks) (current ks) None) by (by rewrite E).
  assert (Eh' : hs_at t' p = hs_at t p) by (by rewrite E).
  assert (Hsub : forall j, owns (kps_at t' p) j -> owns ks j).
  { rewrite Ek'. unfold owns. simpl. naive_solver. }
  simpl. eapply Inv_moved; [done|exact Hm|done| | | |by rewrite E].
  - intros j Hj%Hsub. by eapply (inv_kps _ _ Ht p).
  - intros i e. rewrite E. intros [He _]%(lookup_release t [previous ks]).
    by apply (inv_entries _ _ Ht) in He.
  - rewrite Eh'. intros Hg Hs. rewrite E in Hs. destruct (inv_table _ _ Ht Hg Hs) as [Hok Hfl].
    split; [|apply Hfl]. pose proof (table_distinct _ Hok p) as Hd. fold ks in Hd.
    apply (table_ok_release p t t'); auto; [by rewrite Eh'| |].
    + rewrite Ek'. intros j. destruct (Hd j) as [? ?]. simpl. split; naive_solver.
    + intros j e. rewrite E at 1. change (t_indexTable (set_t_indexTable ?tb ?x)) with tb.
      rewrite (lookup_release t [previous ks]), Ek'.
      fold (kps_at t p) in ks. fold ks. unfold owns. simpl.
      split; intros [He Hout]; (split; [done|]); intros r Hr; [intros Hnr|]; apply Hout.
      * apply list_elem_of_singleton. naive_solver.
      * apply list_elem_of_singleton in Hr. naive_solver.
      * apply list_elem_of_singleton in Hr. destruct (Hd r). naive_solver.
Qed.

End Keys.
End Keys.
