(* ===== verification/Flow.v ===== *)
(** The timers and the outbound and inbound flows keep the invariant: nonces are
    assigned once, counters are accepted once, staged queues stay bounded. *)
From S2P Require Import Prelude Replay RateLimiter Env Crypto Wire Cookie State IndexTable Noise Timers Send Receive Invariant Keys.
From stdpp Require Import prelude gmap list.
Open Scope Z_scope.

Module Flow.
Import Env.Env Crypto.Noise_helpers Wire.Wire Cookie.Cookie State.State IndexTable.IndexTable
  Noise.Noise Timers.Timers Send.Send Receive.Receive Invariant.Invariant Keys.Keys.

(** ** Timers and datagrams *)

Section Timers.
Context {C : Crypto} {B S : Type} `{!Bind B}.
Abbreviation W := (Transport B S).
Implicit Types t : W.
Context (L : nat -> Prop).

Lemma timersActive_inv p : preserves (Inv L) (timersActive (B:=B) (S:=S) p).
Proof. unfold timersActive. preserves_tac. Qed.
Lemma jitter_inv : preserves (Inv L) (jitter (B:=B) (S:=S)).
Proof. unfold jitter. preserves_tac. Qed.
End Timers.

#[export] Hint Resolve timersActive_inv jitter_inv : preserves.

Section Hooks.
Context {C : Crypto} {B S : Type} `{!Bind B}.
Abbreviation W := (Transport B S).
Context (L : nat -> Prop).

Lemma timersDataSent_inv p : preserves (Inv L) (timersDataSent (B:=B) (S:=S) p).
Proof. unfold timersDataSent. preserves_tac. Qed.
Lemma timersDataReceived_inv p : preserves (Inv L) (timersDataReceived (B:=B) (S:=S) p).
Proof. unfold timersDataReceived. preserves_tac. Qed.
Lemma timersAuthSent_inv p :
  preserves (Inv L) (timersAnyAuthenticatedPacketSent (B:=B) (S:=S) p).
Proof. unfold timersAnyAuthenticatedPacketSent. preserves_tac. Qed.
Lemma timersAuthReceived_inv p :
  preserves (Inv L) (timersAnyAuthenticatedPacketReceived (B:=B) (S:=S) p).
Proof. unfold timersAnyAuthenticatedPacketReceived. preserves_tac. Qed.
Lemma timersInitiated_inv p : preserves (Inv L) (timersHandshakeInitiated (B:=B) (S:=S) p).
Proof. unfold timersHandshakeInitiated. preserves_tac. Qed.
Lemma timersComplete_inv p : preserves (Inv L) (timersHandshakeComplete (B:=B) (S:=S) p).
Proof. unfold timersHandshakeComplete. preserves_tac. Qed.
Lemma timersDerived_inv p : preserves (Inv L) (timersSessionDerived (B:=B) (S:=S) p).
Proof. unfold timersSessionDerived. preserves_tac. Qed.
Lemma timersTraversal_inv p :
  preserves (Inv L) (timersAnyAuthenticatedPacketTraversal (B:=B) (S:=S) p).
Proof. unfold timersAnyAuthenticatedPacketTraversal. preserves_tac. Qed.
Lemma timersInit_inv p : preserves (Inv L) (timersInit (B:=B) (S:=S) p).
Proof. unfold timersInit. preserves_tac. Qed.
Lemma timersStart_inv p : preserves (Inv L) (timersStart (B:=B) (S:=S) p).
Proof. unfold timersStart. preserves_tac. Qed.
Lemma timersStop_inv p : preserves (Inv L) (timersStop (B:=B) (S:=S) p).
Proof. unfold timersStop. preserves_tac. Qed.
Lemma SetEndpoint_inv p ep : preserves (Inv L) (SetEndpointFromPacket (B:=B) (S:=S) p ep).
Proof. unfold SetEndpointFromPacket. preserves_tac. Qed.
Lemma SetPresharedKey_inv p psk : preserves (Inv L) (SetPresharedKey (B:=B) (S:=S) p psk).
Proof. unfold SetPresharedKey. preserves_tac. Qed.
Lemma SendBuffers_inv p bufs : preserves (Inv L) (SendBuffers (B:=B) (S:=S) p bufs).
Proof. unfold SendBuffers. preserves_tac. Qed.
Lemma peer_AddMacs_inv p m : preserves (Inv L) (peer_AddMacs (B:=B) (S:=S) p m).
Proof. unfold peer_AddMacs. preserves_tac. Qed.
Lemma SendHandshakeCookie_inv e : preserves (Inv L) (SendHandshakeCookie (B:=B) (S:=S) e).
Proof. unfold SendHandshakeCookie. preserves_tac. Qed.
End Hooks.

#[export] Hint Resolve timersDataSent_inv timersDataReceived_inv timersAuthSent_inv
  timersAuthReceived_inv timersInitiated_inv timersComplete_inv timersDerived_inv
  timersTraversal_inv timersInit_inv timersStart_inv timersStop_inv SetEndpoint_inv
  SetPresharedKey_inv SendBuffers_inv peer_AddMacs_inv SendHandshakeCookie_inv : preserves.
#[export] Hint Resolve CreateMessageInitiation_inv CreateMessageResponse_inv
  BeginSymmetricSession_inv ReceivedWithKeypair_inv : preserves.

(** ** Sending *)

Section Send.
Context {C : Crypto} {B S : Type} `{!Bind B}.
Abbreviation W := (Transport B S).
Implicit Types t : W.

Lemma SendHandshakeInitiation_inv L p r :
  L p -> preserves (Inv L) (SendHandshakeInitiation (B:=B) (S:=S) p r).
Proof. intros. unfold SendHandshakeInitiation. preserves_tac. Qed.

Lemma SendHandshakeResponse_inv L p :
  L p -> preserves (Inv L) (SendHandshakeResponse (B:=B) (S:=S) p).
Proof. intros. unfold SendHandshakeResponse. preserves_tac. Qed.

Lemma keepKeyFreshSending_inv L p :
  L p -> preserves (Inv L) (keepKeyFreshSending (B:=B) (S:=S) p).
Proof.
  intros. unfold keepKeyFreshSending. preserves_tac; by apply SendHandshakeInitiation_inv.
Qed.

(** Allocating. *)
Lemma Inv_fresh L n t : Inv L t -> (t_fresh t <= n)%nat -> Inv L (set_t_fresh n t).
Proof.
  intros [Hlive Hfree Hkps Hel Hen Hkm Hid Hst Hq [Hl Hb Ho] [Hw Hro Hrb] Htab] Hn.
  split; try done; simpl.
  - intros p Hp%Hlive. lia.
  - intros p Hp. apply Hfree. lia.
  - intros p k Hk%Hkps. lia.
  - intros c. eapply Forall_impl; [apply Hel|]. intros e [? ?]. split; [lia|done].
  - intros i e (H1 & H2 & H3)%Hen.
    split_and!; intros x Hx; [apply H1 in Hx|apply H2 in Hx|apply H3 in Hx]; lia.
  - intros pk p [? ?]%Hkm. split; [lia|done].
  - split; [done| |done]. intros k m Hin%Hb. simpl. split; [apply Hin|lia].
  - split; [done|done|]. intros k m Hin%Hrb. simpl. lia.
  - intros Hg Hs. destruct (Htab Hg Hs) as [[He Hz Hd] Hfl]. split; [by split|done].
Qed.

Lemma fresh_inv L : preserves (Inv L) (fresh (B:=B) (S:=S)).
Proof. intros t Ht. by apply Inv_fresh; [|lia]. Qed.

Lemma set_staged_inv L p q :
  (length q <= QueueStagedSize)%nat -> preserves (Inv L) (set_staged (B:=B) (S:=S) p q).
Proof.
  intros Hq t Ht. change (fst (set_staged p q t)) with (put_peer p (set_p_staged q) t).
  assert (Hv : forall r, r <> p -> peer_at (put_peer p (set_p_staged q) t) r = peer_at t r)
    by (intros; by apply peer_at_put_peer_ne).
  assert (Hp : peer_at (put_peer p (set_p_staged q) t) p = set_p_staged q (peer_at t p))
    by apply peer_at_put_peer_eq.
  assert (Ek : forall r, kps_at (put_peer p (set_p_staged q) t) r = kps_at t r).
  { intros r. unfold kps_at. destruct (decide (r = p)) as [->|Hr]; [by rewrite Hp|by rewrite Hv]. }
  assert (Eh : forall r, hs_at (put_peer p (set_p_staged q) t) r = hs_at t r).
  { intros r. unfold hs_at. destruct (decide (r = p)) as [->|Hr]; [by rewrite Hp|by rewrite Hv]. }
  destruct Ht as [Hlive Hfree Hkps Hel Hen Hkm Hid Hst Hqu Hn Hr Htab].
  split; try done.
  - intros r Hl. rewrite Ek, Eh. by apply Hfree.
  - intros r k. rewrite Ek. apply Hkps.
  - intros pk r Hl. specialize (Hkm pk r Hl) as (H1 & H2 & H3). split; [done|].
    unfold peer_keyed. rewrite Eh. split; [|done].
    destruct (decide (r = p)) as [->|Hne]; [by rewrite Hp|by rewrite Hv].
  - intros r. destruct (decide (r = p)) as [->|Hne]; [by rewrite Hp|by rewrite Hv].
  - by destruct Hn; split.
  - by destruct Hr; split.
  - intros Hg Hs. destruct (Htab Hg Hs) as [[He Hz Hd] Hfl]. split; [split|].
    + intros i e. change (t_indexTable (put_peer p (set_p_staged q) t)) with (t_indexTable t).
      rewrite He. unfold claims. by setoid_rewrite Ek; setoid_rewrite Eh.
    + done.
    + intros r. rewrite Ek. apply Hd.
    + intros r. rewrite Eh. apply Hfl.
Qed.

Lemma PutOut_inv L c : preserves (Inv L) (PutOutboundElementsContainer (B:=B) (S:=S) c).
Proof. unfold PutOutboundElementsContainer. preserves_tac. Qed.

Lemma new_out_container_inv L elems :
  preserves (Inv L) (new_out_container (B:=B) (S:=S) elems).
Proof. unfold new_out_container. apply preserves_bind; [apply fresh_inv|]. intros. preserves_tac. Qed.

Lemma StagePackets_inv L p c : preserves (Inv L) (StagePackets (B:=B) (S:=S) p c).
Proof.
  apply preserves_gets_bind. intros t Ht. pose proof (inv_staged _ _ Ht p) as Hs.
  destruct (Nat.ltb_spec (length (p_staged (peer_at t p))) QueueStagedSize).
  - apply set_staged_inv; [|done]. rewrite length_app. simpl. lia.
  - destruct (p_staged (peer_at t p)) as [|c0 q] eqn:E; [done|].
    apply (preserves_bind (Inv L)); [apply PutOut_inv| |done]. intros _.
    apply set_staged_inv. rewrite length_app. simpl in *. lia.
Qed.

Lemma FlushStagedPackets_inv L p : preserves (Inv L) (FlushStagedPackets (B:=B) (S:=S) p).
Proof.
  unfold FlushStagedPackets. pbind. apply preserves_bind.
  - apply preserves_forM. intros. apply PutOut_inv.
  - intros _. apply set_staged_inv. simpl. lia.
Qed.

(** ** Nonces *)

Lemma keypair_at_nonce k n t j :
  keypair_at (put_keypair k (set_kp_sendNonce n) t) j =
  if decide (k = j) then set_kp_sendNonce n (keypair_at t k) else keypair_at t j.
Proof. apply keypair_at_put_keypair. Qed.

(** Only the nonces may tell the states apart. *)
Lemma Inv_nonces L k n l t :
  Inv L t -> nonce_ok (set_t_assigned l (put_keypair k (set_kp_sendNonce n) t)) ->
  Inv L (set_t_assigned l (put_keypair k (set_kp_sendNonce n) t)).
Proof.
  intros [Hlive Hfree Hkps Hel Hen Hkm Hid Hst Hq Hn [Hw Hro Hrb] Htab] Hok.
  set (t' := set_t_assigned _ _) in *.
  assert (Hi : forall j, index_of t' j = index_of t j).
  { intros j. unfold index_of, t'. change (keypair_at (set_t_assigned l ?x) j) with (keypair_at x j).
    rewrite keypair_at_nonce. case_decide; by subst. }
  split; try done.
  - split; [|done|done]. intros j. destruct (Hw j) as (w & ? & ?). exists w. split; [done|].
    unfold t'. change (keypair_at (set_t_assigned l ?x) j) with (keypair_at x j).
    rewrite keypair_at_nonce. case_decide; by subst.
  - intros Hg Hs. destruct (Htab Hg Hs) as [[He Hz Hd] Hfl]. split; [split|]; try done.
    intros i e. change (t_indexTable t') with (t_indexTable t). rewrite He. unfold claims.
    by setoid_rewrite Hi.
Qed.

(** A keypair may be exhausted at any time ... *)
Lemma exhaust_inv L k :
  preserves (Inv L) (upd_keypair (B:=B) (S:=S) k (set_kp_sendNonce RejectAfterMessages)).
Proof.
  intros t Ht. destruct (inv_nonce _ _ Ht) as [Hl Hb Ho].
  apply (Inv_nonces L k RejectAfterMessages (t_assigned t)); [done|].
  assert (E : forall j, kp_sendNonce (keypair_at t j) <=
                kp_sendNonce (keypair_at (put_keypair k (set_kp_sendNonce RejectAfterMessages) t) j)
                <= RejectAfterMessages).
  { intros j. rewrite keypair_at_nonce. destruct (Hl j). case_decide; subst; simpl; lia. }
  split; [| |done].
  - intros j. destruct (E j), (Hl j). simpl. unfold keypair_at in *. simpl in *. lia.
  - intros j n Hin. destruct (Hb j n Hin), (E j). unfold keypair_at in *. simpl in *. lia.
Qed.

(** ... and its next nonce assigned to an element. *)
Lemma Inv_assign L k t n :
  Inv L t -> L k -> n = kp_sendNonce (keypair_at t k) -> n < RejectAfterMessages ->
  Inv L (set_t_assigned ((k, n) :: t_assigned t) (put_keypair k (set_kp_sendNonce (n + 1)) t)).
Proof.
  intros Ht Hk En Hn. destruct (inv_nonce _ _ Ht) as [Hl Hb Ho].
  apply Inv_nonces; [done|]. pose proof (inv_live _ _ Ht k Hk) as Hlt. specialize (Hl k) as Hlk.
  split.
  - intros j. change (keypair_at (set_t_assigned ?l ?x) j) with (keypair_at x j).
    rewrite keypair_at_nonce. case_decide; [simpl; lia|apply Hl].
  - intros j m. change (keypair_at (set_t_assigned ?l ?x) j) with (keypair_at x j).
    rewrite keypair_at_nonce. simpl. intros [[= -> ->]|Hin]%elem_of_cons.
    + rewrite decide_True by done. simpl. lia.
    + apply Hb in Hin as [? ?]. case_decide; subst; simpl; lia.
  - simpl. apply NoDup_cons. split; [|done]. intros Hin%Hb. lia.
Qed.

Lemma put_keypair_fuse k f g t :
  put_keypair k g (put_keypair k f t) = put_keypair k (fun x => g (f x)) t.
Proof.
  unfold put_keypair at 1. rewrite keypair_at_put_keypair, decide_True by done.
  unfold put_keypair. simpl. by rewrite insert_insert_eq.
Qed.

Lemma bind_get_keypair {D} k (g : Keypair -> M W D) t :
  bind (get_keypair k) g t = g (keypair_at t k) t.
Proof. done. Qed.
Lemma bind_upd_keypair {D} k f (g : unit -> M W D) t :
  bind (upd_keypair k f) g t = g tt (put_keypair k f t).
Proof. done. Qed.
Lemma bind_assoc {A D E} (m : M W A) (g : A -> M W D) (h : D -> M W E) t :
  bind (bind m g) h t = bind m (fun a => bind (g a) h) t.
Proof. unfold bind. by destruct (m t). Qed.

(** The counter of a keypair within its limit: no wrap-around. *)
Lemma sendNonce_small n :
  0 <= n <= RejectAfterMessages -> u64 (n + 1) = n + 1 /\ u64 (u64 (n + 1) - 1) = n.
Proof.
  change RejectAfterMessages with (2 ^ 64 - 2 ^ 13 - 1). intros H.
  rewrite !u64_small by (unfold two64; lia). split; lia.
Qed.

Lemma assign_nonces_inv L p k elems :
  L k -> preserves (Inv L) (assign_nonces (B:=B) (S:=S) p k elems).
Proof.
  intros Hk. induction elems as [|e elems IH]; simpl; [apply preserves_ret|].
  intros t Ht. destruct (nonce_limit _ (inv_nonce _ _ Ht) k) as [H0 H1].
  unfold sendNonce_Add. rewrite bind_assoc, bind_get_keypair, bind_assoc, bind_upd_keypair, bind_ret.
  destruct (sendNonce_small _ (conj H0 H1)) as [-> ->].
  destruct (Z.leb_spec RejectAfterMessages (kp_sendNonce (keypair_at t k))).
  - rewrite bind_upd_keypair, put_keypair_fuse.
    apply preserves_bind with (P := Inv L); [exact IH| |].
    + intros [kept ooo]. apply preserves_ret.
    + by apply (exhaust_inv L k).
  - unfold bind at 1, modify.
    apply preserves_bind with (P := Inv L); [exact IH| |].
    + intros [kept ooo]. apply preserves_ret.
    + exact (Inv_assign L k t _ Ht Hk eq_refl H).
Qed.

(** ** Staged packets *)

Lemma dispatch_inv L p c : preserves (Inv L) (dispatch (B:=B) (S:=S) p c).
Proof. unfold dispatch. preserves_tac. apply PutOut_inv. Qed.

Lemma stage_ooo_inv L p (ooo : list QueueOutboundElement) :
  preserves (Inv L) (match ooo with
    | [] => ret tt
    | _ => let* c' := new_out_container ooo in StagePackets (B:=B) (S:=S) p c'
    end).
Proof.
  destruct ooo; [apply preserves_ret|].
  apply preserves_bind; [apply new_out_container_inv|]. intros. apply StagePackets_inv.
Qed.

(** The keypair of the current slot is allocated. *)
Lemma Inv_current L p k t :
  Inv L t -> current (kps_at t p) = Some k -> Inv (fun q => q = k \/ L q) t.
Proof. intros Ht Hk. apply Inv_add; [done|]. eapply (inv_kps _ _ Ht p). by left. Qed.

Lemma send_staged_loop_inv fuel : forall L p at_,
  L p -> (forall k, at_ = Some k -> L k) ->
  preserves (Inv L) (send_staged_loop (B:=B) (S:=S) fuel p at_).
Proof.
  induction fuel as [|fuel IH]; intros L p at_ Hp Hat; [apply preserves_ret|].
  cbn [send_staged_loop]. apply preserves_gets_bind. intros t Ht.
  assert (Hinit : preserves (Inv L) (let* err := SendHandshakeInitiation (B:=B) (S:=S) p false in
                                     ret (Some err))).
  { apply preserves_bind; [by apply SendHandshakeInitiation_inv|]. intros; apply preserves_ret. }
  destruct at_ as [k|].
  - pose proof (inv_staged _ _ Ht p) as Hs.
    destruct (p_staged (peer_at t p)) as [|c q]; [done|].
    assert (forall k', Some k = Some k' -> L k') as Hk by done.
    revert t Ht Hs. intros t Ht Hs. simpl in Hs.
    match goal with |- Inv L (fst (?m t)) => assert (preserves (Inv L) m) as Hm end; [|by apply Hm].
    apply preserves_bind; [apply set_staged_inv; lia|intros _]. pbind.
    apply preserves_bind; [apply assign_nonces_inv; by apply Hat|intros [kept ooo]]. pbind.
    apply preserves_bind; [apply stage_ooo_inv|intros _].
    destruct kept.
    + apply preserves_bind; [apply PutOut_inv|intros _]. by apply IH.
    + apply preserves_bind; [apply dispatch_inv|intros _]. destruct ooo; by apply IH.
  - unfold isUp. rewrite bind_gets. destruct (_ || _); [done|].
    destruct (current (p_keypairs (peer_at t p))) as [k|] eqn:Hk; [|by apply Hinit].
    rewrite bind_get_keypair. destruct (_ <=? _); [by apply Hinit|]. rewrite bind_since.
    assert (Ht1 : Inv L (set_t_env (fst (time_Now (t_env t))) t)) by (by rewrite <- same_set_env).
    destruct (_ <=? _); [by apply Hinit|].
    eapply (Inv_weaken (fun q => q = k \/ L q)); [by auto|].
    apply IH; [by right|by intros ? [= <-]; left|]. by apply (Inv_current L p).
Qed.

Lemma SendStagedPackets_inv L p : L p -> preserves (Inv L) (SendStagedPackets (B:=B) (S:=S) p).
Proof.
  intros. unfold SendStagedPackets. pbind.
  apply preserves_bind; [by apply send_staged_loop_inv|]. intros. apply preserves_ret.
Qed.

Lemma SendKeepalive_inv L p : L p -> preserves (Inv L) (SendKeepalive (B:=B) (S:=S) p).
Proof.
  intros Hp. apply preserves_gets_bind. intros t Ht.
  match goal with |- Inv L (fst (?m t)) => assert (preserves (Inv L) m) as Hm end; [|by apply Hm].
  apply preserves_bind; [|intros _; by apply SendStagedPackets_inv].
  destruct (bool_decide _ && _) eqn:E; [|apply preserves_ret].
  apply andb_true_iff in E as [E%bool_decide_eq_true _]. rewrite E. simpl.
  apply preserves_bind; [apply new_out_container_inv|]. intros. apply set_staged_inv. simpl.
  unfold QueueStagedSize. lia.
Qed.

Lemma RoutineEncryption_inv L : preserves (Inv L) (RoutineEncryption (B:=B) (S:=S)).
Proof. unfold RoutineEncryption. preserves_tac. Qed.

Lemma RoutineSequentialSender_inv L p :
  L p -> preserves (Inv L) (RoutineSequentialSender (B:=B) (S:=S) p).
Proof.
  intros Hp. unfold RoutineSequentialSender. preserves_tac;
    auto using PutOut_inv, keepKeyFreshSending_inv.
Qed.

(** ** Reading from the source *)

(** The groups are of allocated peers. *)
Definition groups_ok (m : gmap PeerId ContainerId) t : Prop :=
  forall p c, m !! p = Some c -> (p < t_fresh t)%nat.

Lemma group_packets_inv L pkts : forall m t,
  Inv L t -> groups_ok m t ->
  let '(t', m') := group_packets (B:=B) (S:=S) pkts m t in Inv L t' /\ groups_ok m' t'.
Proof.
  induction pkts as [|[packet dst] pkts IH]; intros m t Ht Hm; [done|].
  cbn [group_packets]. unfold bind at 1, group_packet.
  destruct (_ <? _)%nat; [by apply IH|]. unfold bind at 1, gets.
  destruct (t_keyMap t !! dst) as [p|] eqn:Hp; [|by apply IH].
  destruct (m !! p) as [c|] eqn:Hc.
  - apply IH; [|exact Hm]. by apply (preserves_upd_out (Inv L)).
  - destruct (inv_keyMap _ _ Ht _ _ Hp) as [Hlt _].
    apply IH; [by apply (new_out_container_inv L)|].
    intros q d. simpl. intros [[<- _]|[_ Hq]]%lookup_insert_Some; [lia|].
    apply Hm in Hq. lia.
Qed.

Lemma stage_groups_inv L groups : forall m,
  (forall p c, (p, c) ∈ groups -> L p) ->
  preserves (Inv L) (stage_groups (B:=B) (S:=S) groups m).
Proof.
  induction groups as [|[p c] groups IH]; intros m Hg; simpl; [apply preserves_ret|].
  assert (L p) by (eapply Hg; by left).
  assert (forall p c, (p, c) ∈ groups -> L p) by (intros; eapply Hg; by right).
  pbind. case_match.
  - apply preserves_bind; [apply StagePackets_inv|intros _].
    apply preserves_bind; [by apply SendStagedPackets_inv|]. intros [err|]; by apply IH.
  - apply preserves_bind; [apply PutOut_inv|intros _]. by apply IH.
Qed.

Lemma stage_groups_sub groups : forall m t,
  snd (stage_groups (B:=B) (S:=S) groups m t) ⊆ m.
Proof.
  induction groups as [|[p c] groups IH]; intros m t; [done|].
  cbn [stage_groups]. rewrite bind_get_peer. destruct (p_isRunning _).
  - unfold bind. destruct (StagePackets p c t) as [t1 ?]. destruct (SendStagedPackets p t1) as [t2 [err|]].
    + apply IH.
    + etrans; [apply IH|apply delete_subseteq].
  - unfold bind. destruct (PutOutboundElementsContainer c t) as [t1 ?].
    etrans; [apply IH|apply delete_subseteq].
Qed.

Lemma read_from_source_inv L pkts m t :
  Inv L t -> groups_ok m t ->
  let '(t', m') := read_from_source (B:=B) (S:=S) pkts m t in Inv L t' /\ groups_ok m' t'.
Proof.
  intros Ht Hm. unfold read_from_source, bind.
  pose proof (group_packets_inv L pkts m t Ht Hm) as Hg.
  destruct (group_packets pkts m t) as [t1 m1]. destruct Hg as [Ht1 Hm1].
  set (L' := fun q => L q \/ is_Some (m1 !! q)).
  assert (Ht2 : Inv L' (fst (stage_groups (map_to_list m1) m1 t1))).
  { apply stage_groups_inv.
    - intros p c Hin%elem_of_map_to_list. right. by exists c.
    - destruct Ht1. split; try done. intros p [?|[c Hc]]; [auto|by eapply Hm1]. }
  pose proof (stage_groups_sub (map_to_list m1) m1 t1) as Hsub.
  destruct (stage_groups (map_to_list m1) m1 t1) as [t2 m2]. simpl in *. split.
  - eapply Inv_weaken; [|exact Ht2]. by left.
  - intros p c Hp. apply (inv_live _ _ Ht2). right. exists c. by eapply lookup_weaken.
Qed.

End Send.

#[export] Hint Resolve SendHandshakeInitiation_inv SendHandshakeResponse_inv
  keepKeyFreshSending_inv SendStagedPackets_inv SendKeepalive_inv RoutineEncryption_inv
  RoutineSequentialSender_inv FlushStagedPackets_inv StagePackets_inv PutOut_inv
  exhaust_inv fresh_inv : preserves.

(** ** Receiving *)

Section Receive.
Context {C : Crypto} {B S : Type} `{!Bind B} `{!SourceSink S}.
Abbreviation W := (Transport B S).
Implicit Types t : W.

Lemma keepKeyFreshReceiving_inv L p :
  L p -> preserves (Inv L) (keepKeyFreshReceiving (B:=B) (S:=S) p).
Proof. intros. unfold keepKeyFreshReceiving. preserves_tac. Qed.

(** *** Replay *)

Lemma seen_on_cons k j n l :
  seen_on k ((j, n) :: l) = if decide (j = k) then {[n]} ∪ seen_on k l else seen_on k l.
Proof. unfold seen_on. simpl. by case_decide. Qed.

Lemma elem_of_seen_on k n l : n ∈ seen_on k l <-> (k, n) ∈ l.
Proof.
  unfold seen_on. rewrite elem_of_list_to_set, list_elem_of_omap. split.
  - intros ([k' n'] & Hin & H). simpl in H. case_decide; by simplify_eq.
  - intros Hin. exists (k, n). split; [done|]. simpl. by rewrite decide_True.
Qed.

Lemma spec_validate_cases w c limit :
  (forall d, d ∈ Replay.w_seen w -> d <= Replay.w_last w) ->
  (snd (Replay.spec_validate w c limit) = false /\ fst (Replay.spec_validate w c limit) = w) \/
  (snd (Replay.spec_validate w c limit) = true /\ c ∉ Replay.w_seen w /\
   Replay.w_seen (fst (Replay.spec_validate w c limit)) = {[c]} ∪ Replay.w_seen w).
Proof.
  intros Hw. unfold Replay.spec_validate. case_match; [by left|].
  case_match eqn:Hlast.
  - right. split; [done|]. split; [|done]. intros Hc%Hw. lia.
  - case_match; [by left|]. case_bool_decide; [by left|by right].
Qed.

Lemma keypair_at_filter k f t j :
  keypair_at (put_keypair k (set_kp_replayFilter f) t) j =
  if decide (k = j) then set_kp_replayFilter f (keypair_at t k) else keypair_at t j.
Proof. apply keypair_at_put_keypair. Qed.

(** Only the windows may tell the states apart. *)
Lemma Inv_windows L k f l t :
  Inv L t -> replay_ok (set_t_accepted l (put_keypair k (set_kp_replayFilter f) t)) ->
  Inv L (set_t_accepted l (put_keypair k (set_kp_replayFilter f) t)).
Proof.
  intros [Hlive Hfree Hkps Hel Hen Hkm Hid Hst Hq [Hl Hb Ho] Hr Htab] Hok.
  set (t' := set_t_accepted _ _) in *.
  assert (Hi : forall j, index_of t' j = index_of t j /\
                 kp_sendNonce (keypair_at t' j) = kp_sendNonce (keypair_at t j)).
  { intros j. unfold index_of, t'. change (keypair_at (set_t_accepted l ?x) j) with (keypair_at x j).
    rewrite keypair_at_filter. case_decide; by subst. }
  split; try done.
  - split; [| |done].
    + intros j. destruct (Hi j) as [_ ->]. apply Hl.
    + intros j n. destruct (Hi j) as [_ ->]. apply Hb.
  - intros Hg Hs. destruct (Htab Hg Hs) as [[He Hz Hd] Hfl]. split; [split|]; try done.
    intros i e. change (t_indexTable t') with (t_indexTable t). rewrite He. unfold claims.
    assert (E : forall j, index_of t' j = index_of t j) by (intros j; apply Hi).
    by setoid_rewrite E.
Qed.

Lemma validate_counter_inv L k c :
  L k -> Replay.is_u64 c -> preserves (Inv L) (validate_counter (B:=B) (S:=S) k c).
Proof.
  intros Hk Hc t Ht. destruct (inv_replay _ _ Ht) as [Hw Ho Hb].
  destruct (Hw k) as (w & Hseen & Hsim).
  destruct (Replay.ValidateCounter_step _ w c RejectAfterMessages Hsim Hc) as (f & b & HV & Hsim' & ->).
  unfold validate_counter. rewrite bind_get_keypair. unfold Replay.validate. rewrite HV. cbn [from_option].
  unfold id. rewrite bind_upd_keypair. pose proof Hsim as (_ & _ & Hle & _).
  assert (Hat : forall l j, keypair_at (set_t_accepted l (put_keypair k (set_kp_replayFilter f) t)) j =
            if decide (k = j) then set_kp_replayFilter f (keypair_at t k) else keypair_at t j)
    by (intros; apply keypair_at_filter).
  assert (Hbnd : forall d, d ∈ Replay.w_seen w -> d <= Replay.w_last w) by (intros d Hd; by apply Hle).
  destruct (spec_validate_cases w c RejectAfterMessages Hbnd) as [[Hf Hx]|(Htrue & Hnew & Hx)].
  - rewrite Hf. rewrite Hx in Hsim'. simpl.
    apply (Inv_windows L k f (t_accepted t)); [done|]. split; [|done|done].
    intros j. rewrite Hat. case_decide; [subst j; by exists w|apply Hw].
  - rewrite Htrue. simpl. apply (Inv_windows L k f ((k, c) :: t_accepted t)); [done|]. split.
    + intros j. rewrite Hat. simpl. rewrite seen_on_cons. case_decide; [subst j|apply Hw].
      eexists. split; [|exact Hsim']. by rewrite Hx, Hseen.
    + simpl. apply NoDup_cons. split; [|done]. rewrite Hseen in Hnew. by rewrite <- elem_of_seen_on.
    + simpl. intros j n [[= -> ->]|Hin]%elem_of_cons; [by apply (inv_live _ _ Ht)|by eapply Hb].
Qed.

(** *** Inbound containers *)

Lemma Inv_elems L m t :
  Inv L t ->
  (forall c x, m !! c = Some x -> Forall (elem_ok (t_fresh t)) (ic_elems x)) ->
  Inv L (set_t_inContainers m t).
Proof.
  intros [Hlive Hfree Hkps Hel Hen Hkm Hid Hst Hq Hn Hr Htab] Hm. split; try done.
  - intros c. unfold in_at. simpl. destruct (m !! c) as [x|] eqn:E; [by eapply Hm|apply Forall_nil_2].
  - by destruct Hn; split.
  - by destruct Hr; split.
  - intros Hg Hs. destruct (Htab Hg Hs) as [[He Hz Hd] Hfl]. split; [by split|done].
Qed.

Lemma Inv_insert_in L c x t :
  Inv L t -> Forall (elem_ok (t_fresh t)) (ic_elems x) ->
  Inv L (set_t_inContainers (<[c := x]> (t_inContainers t)) t).
Proof.
  intros Ht Hx. apply Inv_elems; [done|]. intros d y [[_ <-]|[_ Hd]]%lookup_insert_Some; [done|].
  pose proof (inv_elems _ _ Ht d) as H. unfold in_at in H. by rewrite Hd in H.
Qed.

Lemma upd_in_inv L c f :
  (forall n x, Forall (elem_ok n) (ic_elems x) -> Forall (elem_ok n) (ic_elems (f x))) ->
  preserves (Inv L) (upd_in (B:=B) (S:=S) c f).
Proof. intros Hf t Ht. apply Inv_insert_in; [done|]. apply Hf, (inv_elems _ _ Ht). Qed.

Lemma PutIn_inv L c : preserves (Inv L) (PutInboundElementsContainer (B:=B) (S:=S) c).
Proof. apply upd_in_inv. intros. apply Forall_nil_2. Qed.

(** *** A batch of datagrams *)

Lemma offer_handshake_inv L e : preserves (Inv L) (offer_handshake (B:=B) (S:=S) e).
Proof.
  intros t Ht. simpl. destruct (Z.ltb_spec (Z.of_nat (length (t_handshakeQ t))) QueueHandshakeSize);
    [|done].
  destruct Ht as [Hlive Hfree Hkps Hel Hen Hkm Hid Hst Hq Hn Hr Htab]. split; try done.
  - simpl. rewrite length_app. simpl. lia.
  - by destruct Hn; split.
  - by destruct Hr; split.
  - intros Hg Hs. destruct (Htab Hg Hs) as [[He Hz Hd] Hfl]. split; [by split|done].
Qed.

Lemma receive_transport_inv L packet ep m t :
  Inv L t -> groups_ok m t ->
  let '(t', m') := receive_transport (B:=B) (S:=S) packet ep m t in Inv L t' /\ groups_ok m' t'.
Proof.
  intros Ht Hm. unfold receive_transport. destruct (_ <? _)%nat; [done|].
  rewrite bind_table_Lookup. set (i := le_get _).
  destruct (t_indexTable t !! i) as [e|] eqn:He; [|done]. cbn [from_option]. unfold id.
  destruct (e_keypair e) as [k|] eqn:Hk; [|done].
  destruct (e_peer e) as [p|] eqn:Hp; [|done]. rewrite bind_get_keypair, bind_now.
  set (t1 := set_t_env _ t). assert (Ht1 : Inv L t1) by (by unfold t1; rewrite <- same_set_env).
  destruct (_ <? _); [done|].
  destruct (inv_entries _ _ Ht _ _ He) as (Hpl & _ & Hkl).
  assert (Hel : elem_ok (t_fresh t1) (mkInElem packet (Some packet) 0 k ep)).
  { split; [by apply Hkl|by split]. }
  destruct (m !! p) as [c|] eqn:Hc.
  - split; [|exact Hm]. apply Inv_insert_in; [done|]. simpl. apply Forall_app. split.
    + apply (inv_elems _ _ Ht1).
    + by apply Forall_singleton.
  - split.
    + apply (Inv_insert_in L (t_fresh t1) _ (set_t_fresh (Datatypes.S (t_fresh t1)) t1)).
      * apply Inv_fresh; [done|lia].
      * simpl. apply Forall_singleton. destruct Hel. split; [|done]. simpl in *. lia.
    + intros q d. simpl. intros [[<- _]|[_ Hq]]%lookup_insert_Some.
      * specialize (Hpl p Hp). lia.
      * apply Hm in Hq. lia.
Qed.

Lemma receive_packets_inv L pkts : forall m t,
  Inv L t -> groups_ok m t ->
  let '(t', m') := receive_packets (B:=B) (S:=S) pkts m t in Inv L t' /\ groups_ok m' t'.
Proof.
  induction pkts as [|[packet ep] pkts IH]; intros m t Ht Hm; [done|].
  cbn [receive_packets]. unfold bind at 1, receive_packet.
  destruct (_ <? _)%nat; [by apply IH|].
  destruct (_ =? _).
  - pose proof (receive_transport_inv L packet ep m t Ht Hm) as H.
    destruct (receive_transport packet ep m t) as [t1 m1]. destruct H. by apply IH.
  - destruct (handshake_size _); [|by apply IH]. destruct (negb _); [by apply IH|].
    apply IH; [|by simpl; case_match]. by apply (offer_handshake_inv L).
Qed.

Lemma deliver_group_inv L g : preserves (Inv L) (deliver_group (B:=B) (S:=S) g).
Proof. destruct g. unfold deliver_group. preserves_tac. apply PutIn_inv. Qed.

Lemma receive_batch_inv L pkts : preserves (Inv L) (receive_batch (B:=B) (S:=S) pkts).
Proof.
  intros t Ht. unfold receive_batch, bind.
  pose proof (receive_packets_inv L pkts ∅ t Ht) as H.
  destruct (receive_packets pkts ∅ t) as [t1 m1]. destruct H as [Ht1 _]; [by intros ?|].
  apply (preserves_forM (Inv L)); [|done]. intros. apply deliver_group_inv.
Qed.

Lemma RoutineReceiveIncoming_inv L recvs : forall d,
  preserves (Inv L) (RoutineReceiveIncoming (B:=B) (S:=S) recvs d).
Proof.
  induction recvs as [|[err|pkts] recvs IH]; intros d; simpl.
  - apply preserves_ret.
  - repeat case_match; auto using preserves_ret.
  - apply preserves_bind; [apply receive_batch_inv|]. intros. apply IH.
Qed.

Lemma decrypt_elem_ok n kp e : elem_ok n e -> elem_ok n (decrypt_elem kp e).
Proof.
  intros [Hk Hc]. unfold decrypt_elem. destruct (ie_packet e) as [packet|]; [|done].
  assert (Replay.is_u64 (le_get (slice MessageTransportOffsetCounter
            MessageTransportOffsetContent packet))).
  { pose proof (le_get_bound (slice MessageTransportOffsetCounter
                  MessageTransportOffsetContent packet)) as H.
    assert (length (slice MessageTransportOffsetCounter MessageTransportOffsetContent packet) <= 8)%nat
      by (unfold slice; rewrite length_take; apply Nat.le_min_l).
    split; [apply H|]. eapply Z.lt_le_trans; [apply H|].
    change two64 with (256 ^ 8). apply Z.pow_le_mono_r; lia. }
  by case_match.
Qed.

Lemma RoutineDecryption_inv L : preserves (Inv L) (RoutineDecryption (B:=B) (S:=S)).
Proof.
  unfold RoutineDecryption. pbind. case_match; [apply preserves_ret|]. pbind. pbind.
  apply upd_in_inv. intros m x Hx. simpl. rewrite Forall_map.
  eapply Forall_impl; [exact Hx|]. intros. by apply decrypt_elem_ok.
Qed.

(** *** Handshake messages *)

Lemma IsUnderLoad_inv L : preserves (Inv L) (IsUnderLoad (B:=B) (S:=S)).
Proof. unfold IsUnderLoad. preserves_tac. Qed.

Lemma limiter_Allow_inv L ip : preserves (Inv L) (limiter_Allow (B:=B) (S:=S) ip).
Proof. unfold limiter_Allow. preserves_tac. Qed.

Lemma check_macs_inv L e : preserves (Inv L) (check_macs (B:=B) (S:=S) e).
Proof.
  unfold check_macs. pbind. case_match; [apply preserves_ret|].
  apply preserves_bind; [apply IsUnderLoad_inv|intros under].
  destruct under; [|apply preserves_ret]. pbind. case_match; [preserves_tac|].
  apply preserves_bind; [apply limiter_Allow_inv|]. intros. preserves_tac.
Qed.

Lemma handle_cookie_reply_inv L e : preserves (Inv L) (handle_cookie_reply (B:=B) (S:=S) e).
Proof. unfold handle_cookie_reply. preserves_tac. Qed.

Lemma rxBytes_Add_inv L p n : preserves (Inv L) (rxBytes_Add (B:=B) (S:=S) p n).
Proof. unfold rxBytes_Add. preserves_tac. Qed.

(** A message is consumed, then its peer handled. *)
Lemma consume_then {D} L (m : M W (option PeerId)) (k : option PeerId -> M W D) :
  (forall t, Inv L t -> let '(t', r) := m t in Inv (fun q => r = Some q \/ L q) t') ->
  (forall r L', (forall p, r = Some p -> L' p) -> preserves (Inv L') (k r)) ->
  preserves (Inv L) (bind m k).
Proof.
  intros Hm Hk t Ht. specialize (Hm t Ht). unfold bind. destruct (m t) as [t' r].
  eapply (Inv_weaken (fun q => r = Some q \/ L q)); [by auto|]. apply Hk; [by auto|done].
Qed.

Lemma handle_initiation_inv L e : preserves (Inv L) (handle_initiation (B:=B) (S:=S) e).
Proof.
  unfold handle_initiation. case_match; [|apply preserves_ret].
  apply consume_then; [intros; by apply ConsumeMessageInitiation_inv|].
  intros [p|] L' HL; [|apply preserves_ret]. specialize (HL p eq_refl).
  preserves_tac; apply rxBytes_Add_inv.
Qed.

Lemma handle_response_inv L e : preserves (Inv L) (handle_response (B:=B) (S:=S) e).
Proof.
  unfold handle_response. case_match; [|apply preserves_ret].
  apply consume_then; [intros; by apply ConsumeMessageResponse_inv|].
  intros [p|] L' HL; [|apply preserves_ret]. specialize (HL p eq_refl).
  preserves_tac; apply rxBytes_Add_inv.
Qed.

Lemma RoutineHandshake_inv L : preserves (Inv L) (RoutineHandshake (B:=B) (S:=S)).
Proof.
  apply preserves_gets_bind. intros t Ht. destruct (t_handshakeQ t) as [|e q] eqn:E; [done|].
  apply (preserves_bind (Inv L) (ret tt)); [apply preserves_ret| |].
  - intros _. unfold handle_handshake. destruct (_ =? _); [apply handle_cookie_reply_inv|].
    destruct (_ || _); [|apply preserves_ret].
    apply preserves_bind; [apply check_macs_inv|]. intros [|]; [apply preserves_ret|].
    destruct (_ =? _); [apply handle_initiation_inv|apply handle_response_inv].
  - destruct Ht as [Hlive Hfree Hkps Hel Hen Hkm Hid Hst Hq Hn Hr Htab]. split; try done.
    + simpl. rewrite E in Hq. simpl in Hq. lia.
    + by destruct Hn; split.
    + by destruct Hr; split.
    + intros Hg Hs. destruct (Htab Hg Hs) as [[He Hz Hd] Hfl]. split; [by split|done].
Qed.

(** *** Sequential reception *)

Lemma receive_elem_inv L p e l :
  L p -> L (ie_keypair e) -> Replay.is_u64 (ie_counter e) ->
  preserves (Inv L) (receive_elem (B:=B) (S:=S) p e l).
Proof.
  intros Hp Hk Hc. unfold receive_elem. destruct (ie_packet e); [|apply preserves_ret].
  apply preserves_bind; [by apply validate_counter_inv|intros ok]. preserves_tac.
Qed.

Lemma receive_elems_inv L p elems : forall l,
  L p -> Forall (fun e => L (ie_keypair e) /\ Replay.is_u64 (ie_counter e)) elems ->
  preserves (Inv L) (receive_elems (B:=B) (S:=S) p elems l).
Proof.
  induction elems as [|e elems IH]; intros l Hp He; simpl; [apply preserves_ret|].
  apply Forall_cons in He as [[? ?] ?].
  apply preserves_bind; [by apply receive_elem_inv|]. intros. by apply IH.
Qed.

Lemma flush_received_inv L p l c : preserves (Inv L) (flush_received (B:=B) (S:=S) p l c).
Proof. unfold flush_received. preserves_tac. apply PutIn_inv. Qed.

Lemma RoutineSequentialReceiver_inv L p :
  L p -> preserves (Inv L) (RoutineSequentialReceiver (B:=B) (S:=S) p).
Proof.
  intros Hp. apply preserves_gets_bind. intros t Ht.
  destruct (p_inbound (peer_at t p)) as [|[c|] q]; [done| |by apply (preserves_upd_peer (Inv L))].
  rewrite bind_gets. destruct (ic_locked (in_at t c)); [done|].
  pose proof (inv_elems _ _ Ht c) as Hel.
  set (L' := fun q => L q \/ (q < t_fresh t)%nat).
  eapply (Inv_weaken L'); [by left|].
  match goal with |- Inv L' (fst (?m t)) => assert (preserves (Inv L') m) as Hm end.
  - pbind. apply preserves_bind; [by apply upd_in_inv|intros _].
    apply preserves_bind.
    + apply receive_elems_inv; [by left|]. eapply Forall_impl; [exact Hel|].
      intros e [? ?]. split; [by right|done].
    + intros l. apply preserves_bind; [apply rxBytes_Add_inv|intros _].
      assert (L' p) by (by left).
      destruct (validTail l); [|apply preserves_bind; [apply flush_received_inv|intros; preserves_tac]].
      pbind. apply preserves_bind; [by apply keepKeyFreshReceiving_inv|]. intros [|]; preserves_tac.
      all: apply flush_received_inv.
  - apply Hm. destruct Ht. split; try done. intros r [?|?]; auto.
Qed.

End Receive.

#[export] Hint Resolve keepKeyFreshReceiving_inv receive_batch_inv RoutineReceiveIncoming_inv
  RoutineDecryption_inv RoutineHandshake_inv RoutineSequentialReceiver_inv PutIn_inv : preserves.

End Flow.
