(* ===== verification/Frame.v ===== *)
(** What the hooks of the timers and the counters of a peer leave alone: all of
    the transport but the random source, the timers and the byte counts of its
    peers. *)
From S2P Require Import Prelude Replay RateLimiter Env Crypto Wire Cookie State IndexTable Noise Timers Send Receive.
From stdpp Require Import prelude gmap list.
Open Scope Z_scope.

Module Frame.
Import Env.Env State.State Noise.Noise Timers.Timers Send.Send Receive.Receive.

Section Frame.
Context {C : Crypto} {B S : Type} `{!Bind B} `{!SourceSink S}.
Abbreviation W := (Transport B S).
Implicit Types t : W.

(** A peer without its timers and counters. *)
Definition core (x : Peer) : Peer :=
  set_p_timers (p_timers zeroPeer) (set_p_txBytes 0 (set_p_rxBytes 0 (set_p_lastHandshakeNano 0 x))).

Record alike (t0 t : W) : Prop := {
  al_rest : t = set_t_env (t_env t) (set_t_peers (t_peers t) t0);
  al_peer q : core (peer_at t q) = core (peer_at t0 q);
  al_clock : clock (t_env t) = clock (t_env t0);
  al_ticks : ticks (t_env t) = ticks (t_env t0);
}.

Lemma alike_refl t : alike t t.
Proof. split; try done. by destruct t. Qed.

Lemma alike_trans t0 t1 t2 : alike t0 t1 -> alike t1 t2 -> alike t0 t2.
Proof. intros [E1 P1 C1 T1] [E2 P2 C2 T2]. split; [by rewrite E2, E1|intros q; by rewrite P2|by rewrite C2|by rewrite T2]. Qed.

(** What does not read the random source or the peers is the same. *)
Lemma alike_view {A} (f : W -> A) t0 t :
  alike t0 t -> (forall e m, f (set_t_env e (set_t_peers m t0)) = f t0) -> f t = f t0.
Proof. intros Ht Hf. rewrite (al_rest _ _ Ht). apply Hf. Qed.

(** Nor does what reads only the rest of a peer. *)
Lemma alike_peer {A} (g : Peer -> A) t0 t q :
  alike t0 t -> (forall x, g (core x) = g x) -> g (peer_at t q) = g (peer_at t0 q).
Proof. intros Ht Hg. by rewrite <- (Hg (peer_at t q)), (al_peer _ _ Ht q), Hg. Qed.

Lemma alike_put_peer t0 t p f : (forall x, core (f x) = core x) -> alike t0 t -> alike t0 (put_peer p f t).
Proof.
  intros Hf Ht. apply (alike_trans t0 t); [done|]. split; [by destruct t| |done|done].
  intros q. rewrite peer_at_put_peer. case_decide; [by subst; rewrite Hf|done].
Qed.

Lemma alike_env t0 t e : clock e = clock (t_env t) -> ticks e = ticks (t_env t) -> alike t0 t -> alike t0 (set_t_env e t).
Proof. intros He Hn Ht. apply (alike_trans t0 t); [done|]. by split; [destruct t|..]. Qed.

(** A step that changes no more than this, and what comes after it. *)
Lemma bind_alike {A D} (m : M W A) (k : A -> M W D) t :
  (forall t0, preserves (alike t0) m) -> exists t1 a, bind m k t = k a t1 /\ alike t t1.
Proof.
  intros Hm. specialize (Hm t t (alike_refl t)). unfold bind. destruct (m t) as [t1 a]. by exists t1, a.
Qed.

Context (t0 : W).

Lemma alike_upd_peer p f : (forall x, core (f x) = core x) -> preserves (alike t0) (upd_peer (B:=B) (S:=S) p f).
Proof. intros Hf t. by apply alike_put_peer. Qed.
Lemma alike_upd_timers p f : preserves (alike t0) (upd_timers (B:=B) (S:=S) p f).
Proof. by apply alike_upd_peer. Qed.
Lemma alike_fastrandn n : preserves (alike t0) (on_env (B:=B) (S:=S) (fastrandn n)).
Proof. intros t. by apply (alike_env t0 t (fst (fastrandn n (t_env t)))). Qed.

End Frame.

#[export] Hint Resolve alike_upd_timers alike_fastrandn : preserves.
#[export] Hint Extern 2 (preserves (alike _) (upd_peer _ _)) => (apply alike_upd_peer; reflexivity) : preserves.
#[export] Hint Extern 1 (preserves (alike _) (get_peer _)) => apply preserves_gets : preserves.
#[export] Hint Extern 1 (preserves (alike _) isUp) => apply preserves_gets : preserves.

Section Hooks.
Context {C : Crypto} {B S : Type} `{!Bind B} `{!SourceSink S}.
Abbreviation W := (Transport B S).
Context (t0 : W).

Lemma timersActive_alike p : preserves (alike t0) (timersActive (B:=B) (S:=S) p).
Proof. unfold timersActive. preserves_tac. Qed.
Lemma jitter_alike : preserves (alike t0) (jitter (B:=B) (S:=S)).
Proof. unfold jitter. preserves_tac. Qed.
#[local] Hint Resolve timersActive_alike jitter_alike : preserves.
Lemma timersDataSent_alike p : preserves (alike t0) (timersDataSent (B:=B) (S:=S) p).
Proof. unfold timersDataSent. preserves_tac. Qed.
Lemma timersDataReceived_alike p : preserves (alike t0) (timersDataReceived (B:=B) (S:=S) p).
Proof. unfold timersDataReceived. preserves_tac. Qed.
Lemma timersAuthSent_alike p : preserves (alike t0) (timersAnyAuthenticatedPacketSent (B:=B) (S:=S) p).
Proof. unfold timersAnyAuthenticatedPacketSent. preserves_tac. Qed.
Lemma timersAuthReceived_alike p : preserves (alike t0) (timersAnyAuthenticatedPacketReceived (B:=B) (S:=S) p).
Proof. unfold timersAnyAuthenticatedPacketReceived. preserves_tac. Qed.
Lemma timersTraversal_alike p : preserves (alike t0) (timersAnyAuthenticatedPacketTraversal (B:=B) (S:=S) p).
Proof. unfold timersAnyAuthenticatedPacketTraversal. preserves_tac. Qed.
Lemma rxBytes_alike p n : preserves (alike t0) (rxBytes_Add (B:=B) (S:=S) p n).
Proof. unfold rxBytes_Add. preserves_tac. Qed.

End Hooks.

#[export] Hint Resolve timersActive_alike jitter_alike timersDataSent_alike timersDataReceived_alike
  timersAuthSent_alike timersAuthReceived_alike timersTraversal_alike rxBytes_alike : preserves.

End Frame.
