(* ===== verification/System.v ===== *)
(** The life cycle keeps the invariant, and with it every run of the transport:
    the handlers as the actions of a transition system, reachability, and what
    holds in every reachable state. *)
From S2P Require Import Prelude Replay RateLimiter Env Crypto Wire Cookie State IndexTable Noise Timers Send Receive Lifecycle Invariant Keys Flow.
From stdpp Require Import prelude gmap list.
Open Scope Z_scope.

Module System.
Import Env.Env Crypto.Noise_helpers Wire.Wire Cookie.Cookie State.State IndexTable.IndexTable
  Noise.Noise Timers.Timers Send.Send Receive.Receive Lifecycle.Lifecycle Invariant.Invariant
  Keys.Keys Flow.Flow.

Section Peers.
Context {C : Crypto} {B S : Type} `{!Bind B} `{!SourceSink S}.
Abbreviation W := (Transport B S).
Implicit Types t : W.

(** ** Key material *)

(** A handshake gives up its index. *)
Lemma Inv_drop L p t :
  Inv L t -> L p ->
  Inv L (put_handshake p Clear
           (set_t_indexTable (delete (hs_localIndex (hs_at t p)) (t_indexTable t)) t)).
Proof.
  intros Ht Hp. set (t' := put_handshake _ _ _).
  assert (Hm : moved p t t').
  { unfold t'. rewrite <- moved_put_handshake by (by intros). apply moved_set_table. }
  assert (Ek : kps_at t' p = kps_at t p) by (unfold t'; by rewrite kps_at_put_handshake).
  assert (Eh : hs_at t' p = Clear (hs_at t p)) by (unfold t'; by rewrite hs_at_put_handshake).
  eapply Inv_moved; [done|exact Hm|by apply (inv_live _ _ Ht)| | | |done].
  - rewrite Ek. apply (inv_kps _ _ Ht).
  - intros i e He. unfold t' in He. rewrite t_indexTable_put_handshake in He.
    simpl in He. apply lookup_delete_Some in He as [_ He]. by apply (inv_entries _ _ Ht) in He.
  - intros Hg Hs. rewrite Eh. split; [|done].
    apply (table_ok_drop p t); auto; [by apply (inv_table _ _ Ht Hg Hs)|by rewrite Eh].
Qed.

(** A peer gives up its keypairs. *)
Lemma Inv_release_all L p t :
  Inv L t -> L p ->
  let ks := kps_at t p in
  Inv L (put_peer p (set_p_keypairs zeroKeypairs)
    (set_t_indexTable (release t [next ks; current ks; previous ks] (t_indexTable t)) t)).
Proof.
  intros Ht Hp ks. set (tb := release _ _ _).
  destruct (peer_at_put_keypairs p zeroKeypairs (set_t_indexTable tb t)) as [Ek Eh].
  set (t' := put_peer _ _ _) in *. change (hs_at t' p = hs_at t p) in Eh.
  assert (Hm : moved p t t').
  { unfold t'. rewrite <- moved_put_keypairs. apply moved_set_table. }
  assert (Hno : forall k, ~ owns (kps_at t' p) k) by (rewrite Ek; by intros k [|[|]]).
  eapply Inv_moved; [done|exact Hm|by apply (inv_live _ _ Ht)| | | |done].
  - by intros k ?%Hno.
  - intros i e He. change (t_indexTable t') with tb in He.
    apply lookup_release in He as [He _]. by apply (inv_entries _ _ Ht) in He.
  - intros Hg Hs. destruct (inv_table _ _ Ht Hg Hs) as [Hok Hfl]. rewrite Eh.
    split; [|apply Hfl]. apply (table_ok_release p t); auto.
    + by rewrite Eh.
    + by intros k ?%Hno.
    + rewrite Ek. by intros k.
    + intros j e. change (t_indexTable t') with tb. unfold tb. rewrite lookup_release.
      split; intros [He Ho]; (split; [done|]); intros k Hk; [intros _|]; apply Ho.
      * unfold ks. destruct Hk as [<-|[<-|<-]]; set_solver.
      * fold ks. unfold owns. rewrite !elem_of_cons, elem_of_nil in Hk. naive_solver.
      * apply Hno.
Qed.

Lemma ZeroAndFlushAll_inv L p : L p -> preserves (Inv L) (ZeroAndFlushAll (B:=B) (S:=S) p).
Proof.
  intros Hp. apply preserves_gets_bind. intros t Ht.
  rewrite !bind_DeleteKeypair, bind_upd_peer, bind_get_handshake, bind_table_Delete, bind_upd_handshake.
  apply FlushStagedPackets_inv. apply Inv_drop; [|done].
  exact (Inv_release_all L p t Ht Hp).
Qed.

Lemma ExpireCurrentKeypairs_inv L p :
  L p -> preserves (Inv L) (ExpireCurrentKeypairs (B:=B) (S:=S) p).
Proof.
  intros Hp. apply preserves_gets_bind. intros t Ht.
  rewrite bind_table_Delete, bind_upd_handshake.
  match goal with |- Inv L (fst (?m ?x)) => assert (preserves (Inv L) m) as Hm end.
  - preserves_tac.
  - apply Hm. by apply Inv_drop.
Qed.

End Peers.
#[export] Hint Resolve ZeroAndFlushAll_inv ExpireCurrentKeypairs_inv : preserves.

Section Lifecycle.
Context {C : Crypto} {B S : Type} `{!Bind B} `{!SourceSink S}.
Abbreviation W := (Transport B S).
Implicit Types t : W.

(** ** Timers *)

Lemma expired_inv L n p : L p -> preserves (Inv L) (expired (B:=B) (S:=S) n p).
Proof.
  intros Hp. destruct n; simpl.
  - unfold expiredRetransmitHandshake. preserves_tac.
  - unfold expiredSendKeepalive. preserves_tac.
  - unfold expiredNewHandshake. preserves_tac.
  - unfold expiredZeroKeyMaterial. preserves_tac.
  - unfold expiredPersistentKeepalive. preserves_tac.
Qed.

Lemma timer_fires_inv L n p : L p -> preserves (Inv L) (timer_fires (B:=B) (S:=S) n p).
Proof.
  intros Hp. unfold timer_fires. pbind. destruct (fire _). pbind.
  apply preserves_when. by apply expired_inv.
Qed.

(** ** Starting and stopping *)

Lemma flushInbound_inv L p : preserves (Inv L) (flushInboundQueue (B:=B) (S:=S) p).
Proof. unfold flushInboundQueue. preserves_tac. Qed.
Lemma flushOutbound_inv L p : preserves (Inv L) (flushOutboundQueue (B:=B) (S:=S) p).
Proof. unfold flushOutboundQueue. preserves_tac. Qed.

Lemma Start_inv L p : preserves (Inv L) (Start (B:=B) (S:=S) p).
Proof.
  unfold Start. preserves_tac; [apply flushInbound_inv|apply flushOutbound_inv].
Qed.

Lemma turns_inv L n (m : M W Progress) : preserves (Inv L) m -> preserves (Inv L) (turns n m).
Proof.
  intros Hm. induction n as [|n IH]; simpl; [apply preserves_ret|].
  apply preserves_bind; [done|]. intros []; auto using preserves_ret.
Qed.

Lemma repeatM_inv L n (m : M W unit) : preserves (Inv L) m -> preserves (Inv L) (repeatM n m).
Proof.
  intros Hm. induction n as [|n IH]; simpl; [apply preserves_ret|]. by apply preserves_bind.
Qed.

Lemma stopping_Wait_inv L p : L p -> preserves (Inv L) (stopping_Wait (B:=B) (S:=S) p).
Proof.
  intros Hp. unfold stopping_Wait. pbind.
  apply preserves_bind; [apply repeatM_inv, RoutineDecryption_inv|intros _]. pbind.
  apply preserves_bind; [by apply turns_inv, RoutineSequentialReceiver_inv|intros _]. pbind.
  apply preserves_bind; [apply repeatM_inv, RoutineEncryption_inv|intros _]. pbind.
  by apply turns_inv, RoutineSequentialSender_inv.
Qed.

Lemma Stop_inv L p : L p -> preserves (Inv L) (Stop (B:=B) (S:=S) p).
Proof. intros Hp. unfold Stop. preserves_tac. by apply stopping_Wait_inv. Qed.

(** ** All peers *)

Lemma forM_peers_inv L (l : list PeerId) (f : PeerId -> M W unit) t :
  (forall L' p, L' p -> preserves (Inv L') (f p)) ->
  Inv L t -> Forall (fun p => (p < t_fresh t)%nat) l -> Inv L (fst (forM l f t)).
Proof.
  intros Hf Ht Hl. set (L' := fun q => L q \/ (q < t_fresh t)%nat).
  eapply (Inv_weaken L'); [by left|].
  assert (preserves (Inv L') (forM l f)) as Hm.
  { clear Ht. induction Hl as [|p l Hp _ IH]; simpl; [apply preserves_ret|].
    apply preserves_bind; [apply Hf; by right|done]. }
  apply Hm. destruct Ht. split; try done. intros q [?|?]; auto.
Qed.

Lemma all_peers_live L t :
  Inv L t -> Forall (fun p => (p < t_fresh t)%nat) (map snd (map_to_list (t_keyMap t))).
Proof.
  intros Ht. apply Forall_map, Forall_forall. intros [pk p] Hin%elem_of_map_to_list.
  by apply (inv_keyMap _ _ Ht) in Hin as [? _].
Qed.

Lemma keyMap_sub_inv L m t : m ⊆ t_keyMap t -> Inv L t -> Inv L (set_t_keyMap m t).
Proof.
  intros Hm [Hlive Hfree Hkps Hel Hen Hkm Hid Hst Hq Hn Hr Htab]. split; try done.
  - intros pk p Hp. eapply lookup_weaken in Hp; [|done]. by apply Hkm in Hp.
  - by destruct Hn; split.
  - by destruct Hr; split.
  - intros Hg Hs. destruct (Htab Hg Hs) as [[He Hz Hd] Hfl]. split; [by split|done].
Qed.

Lemma removePeerLocked_inv L p key :
  L p -> preserves (Inv L) (removePeerLocked (B:=B) (S:=S) p key).
Proof.
  intros Hp. apply preserves_bind; [by apply Stop_inv|intros _ t Ht].
  apply keyMap_sub_inv; [apply delete_subseteq|done].
Qed.

Lemma RemovePeer_inv L key : preserves (Inv L) (RemovePeer (B:=B) (S:=S) key).
Proof.
  apply preserves_gets_bind. intros t Ht. destruct (t_keyMap t !! key) as [p|] eqn:Hp; [|done].
  eapply (Inv_weaken (fun q => q = p \/ L q)); [by right|].
  apply removePeerLocked_inv; [by left|]. apply Inv_add; [done|].
  by apply (inv_keyMap _ _ Ht) in Hp as [? _].
Qed.

(** A loop over the entries of the key map. *)
Lemma forM_keyMap_inv L (f : bytes * PeerId -> M W unit) t :
  (forall L' kp, L' kp.2 -> preserves (Inv L') (f kp)) ->
  Inv L t -> Inv L (fst (forM (map_to_list (t_keyMap t)) f t)).
Proof.
  intros Hf Ht. set (L' := fun q => L q \/ (q < t_fresh t)%nat).
  eapply (Inv_weaken L'); [by left|].
  assert (preserves (Inv L') (forM (map_to_list (t_keyMap t)) f)) as Hm.
  { assert (Forall (fun kp => (kp.2 < t_fresh t)%nat) (map_to_list (t_keyMap t))) as Hl.
    { apply Forall_forall. intros [pk p] Hin%elem_of_map_to_list.
      by apply (inv_keyMap _ _ Ht) in Hin as [? _]. }
    clear Ht. induction Hl as [|kp l Hp _ IH]; simpl; [apply preserves_ret|].
    apply preserves_bind; [apply Hf; by right|done]. }
  apply Hm. destruct Ht. split; try done. intros q [?|?]; auto.
Qed.

Lemma RemoveAllPeers_inv L : preserves (Inv L) (RemoveAllPeers (B:=B) (S:=S)).
Proof.
  apply preserves_gets_bind. intros t Ht. unfold bind.
  pose proof (forM_keyMap_inv L (fun kp => removePeerLocked kp.2 kp.1) t) as H.
  destruct (forM _ _ t) as [t1 ?]. simpl in *. apply keyMap_sub_inv; [apply map_empty_subseteq|].
  apply H; [|done]. intros. by apply removePeerLocked_inv.
Qed.

(** ** Bind and state *)

Lemma closeBind_inv L : preserves (Inv L) (closeBindLocked (B:=B) (S:=S)).
Proof. unfold closeBindLocked. preserves_tac. Qed.

Lemma BindUpdate_inv L : preserves (Inv L) (BindUpdate (B:=B) (S:=S)).
Proof.
  unfold BindUpdate. apply preserves_bind; [apply closeBind_inv|]. intros. preserves_tac.
Qed.

Lemma UpdatePort_inv L port : preserves (Inv L) (UpdatePort (B:=B) (S:=S) port).
Proof. unfold UpdatePort. pbind. apply BindUpdate_inv. Qed.

Lemma all_peers_inv {D} L (f : PeerId -> M W unit) (k : unit -> M W D) :
  (forall L' p, L' p -> preserves (Inv L') (f p)) -> preserves (Inv L) (k tt) ->
  preserves (Inv L) (let* peers := all_peers in let* u := forM peers f in k u).
Proof.
  intros Hf Hk. apply preserves_gets_bind. intros t Ht. unfold bind.
  pose proof (forM_peers_inv L _ f t Hf Ht (all_peers_live L t Ht)) as H.
  destruct (forM _ f t) as [t1 []]. by apply Hk.
Qed.

Lemma upLocked_inv L : preserves (Inv L) (upLocked (B:=B) (S:=S)).
Proof.
  unfold upLocked. apply preserves_bind; [apply BindUpdate_inv|]. intros [|]; [preserves_tac|].
  apply all_peers_inv; [|apply preserves_ret]. intros L' p Hp.
  apply preserves_bind; [apply Start_inv|]. intros _. preserves_tac.
Qed.

Lemma downLocked_inv L : preserves (Inv L) (downLocked (B:=B) (S:=S)).
Proof.
  unfold downLocked. apply preserves_bind; [apply closeBind_inv|]. intros err.
  apply all_peers_inv; [|apply preserves_ret]. intros. by apply Stop_inv.
Qed.

Lemma changeState_inv L want : preserves (Inv L) (changeState (B:=B) (S:=S) want).
Proof.
  assert (Hdown : forall err : option Error, preserves (Inv L)
    (modify (set_t_state transportStateDown) ;;; let* errDown := downLocked (B:=B) (S:=S) in
     ret match err with None => errDown | Some _ => err end)).
  { intros err. pbind. apply preserves_bind; [apply downLocked_inv|]. intros. apply preserves_ret. }
  unfold changeState. pbind. destruct (bool_decide _); [preserves_tac|].
  destruct (bool_decide _); [preserves_tac|]. destruct want; [apply (Hdown None)| |preserves_tac].
  pbind. apply preserves_bind; [apply upLocked_inv|].
  intros [err|]; [apply (Hdown (Some err))|preserves_tac].
Qed.

Lemma Close_inv L : preserves (Inv L) (Close (B:=B) (S:=S)).
Proof.
  unfold Close, limiter_Close. pbind. destruct a; [preserves_tac|]. pbind. pbind.
  apply preserves_bind; [apply downLocked_inv|intros _].
  apply preserves_bind; [apply RemoveAllPeers_inv|intros _]. preserves_tac.
Qed.

Lemma SendKeepalives_inv L :
  preserves (Inv L) (SendKeepalivesToPeersWithCurrentKeypair (B:=B) (S:=S)).
Proof.
  unfold SendKeepalivesToPeersWithCurrentKeypair. pbind. case_match; [preserves_tac|].
  apply preserves_gets_bind. intros t Ht.
  apply forM_peers_inv; [|done|by eapply all_peers_live].
  intros L' p Hp. preserves_tac.
Qed.

(** ** New peers *)

Lemma peer_at_new p x m t q :
  peer_at (set_t_keyMap m (set_t_peers (<[p := x]> (t_peers t)) t)) q =
  if decide (p = q) then x else peer_at t q.
Proof. unfold peer_at. simpl. rewrite lookup_insert. by case_decide. Qed.

(** A peer whose address is not in use yet enters the key map. *)
Lemma Inv_new_peer L t p x pk :
  Inv L t -> (p < t_fresh t)%nat -> (forall k, ~ owns (kps_at t p) k) ->
  hs_localIndex (hs_at t p) = 0 -> (forall pk q, t_keyMap t !! pk = Some q -> q <> p) ->
  p_keypairs x = zeroKeypairs -> p_staged x = [] -> hs_localIndex (p_handshake x) = 0 ->
  hs_state (p_handshake x) = handshakeZeroed -> p_pk x = pk -> hs_remoteStatic (p_handshake x) = pk ->
  hs_precomputedStaticStatic (p_handshake x) =
    default (zero_bytes 32) (sharedSecret (t_privateKey t) pk) ->
  Inv L (set_t_keyMap (<[pk := p]> (t_keyMap t)) (set_t_peers (<[p := x]> (t_peers t)) t)).
Proof.
  intros Ht Hp Hno Hz Hkm0 Xk Xs Xi Xst Xp Xr Xc. set (t' := set_t_keyMap _ _).
  assert (Hne : forall q, q <> p -> peer_at t' q = peer_at t q).
  { intros q Hq. unfold t'. rewrite peer_at_new, decide_False; [done|congruence]. }
  assert (Heq : peer_at t' p = x) by (unfold t'; by rewrite peer_at_new, decide_True).
  assert (Hown : forall q k, owns (kps_at t' q) k <-> owns (kps_at t q) k).
  { intros q k. destruct (decide (q = p)) as [->|Hq]; unfold kps_at in *; [|by rewrite Hne].
    rewrite Heq, Xk. split; [by intros [|[|]]|by intros ?%Hno]. }
  assert (Hix : forall q, hs_localIndex (hs_at t' q) = hs_localIndex (hs_at t q)).
  { intros q. destruct (decide (q = p)) as [->|Hq]; unfold hs_at in *; [|by rewrite Hne].
    by rewrite Heq, Hz. }
  destruct Ht as [Hlive Hfree Hkps Hel Hen Hkm Hid Hst Hq Hn Hr Htab]. split; try done.
  - intros q Hq'. assert (q <> p) by (simpl in Hq'; lia). unfold kps_at, hs_at.
    rewrite Hne by done. by apply Hfree.
  - intros q k. rewrite Hown. apply Hkps.
  - intros key q. simpl. intros [[<- <-]|[Hk Hl]]%lookup_insert_Some.
    + split; [done|]. unfold peer_keyed, hs_at. by rewrite Heq.
    + specialize (Hkm key q Hl) as [? Hkd]. split; [done|].
      unfold peer_keyed, hs_at. rewrite Hne by (by eapply Hkm0). apply Hkd.
  - intros q. destruct (decide (q = p)) as [->|Hq']; [|by rewrite Hne].
    rewrite Heq, Xs. simpl. lia.
  - by destruct Hn; split.
  - by destruct Hr; split.
  - intros Hg Hs. destruct (Htab Hg Hs) as [[He Hz' Hd] Hfl]. split; [split; [|done|]|].
    + intros i e. change (t_indexTable t') with (t_indexTable t). rewrite He. unfold claims.
      setoid_rewrite Hix. by setoid_rewrite Hown.
    + intros q. destruct (decide (q = p)) as [->|Hq']; unfold kps_at in *; [|rewrite Hne by done; apply Hd].
      rewrite Heq, Xk. by intros k.
    + intros q. rewrite Hix. destruct (decide (q = p)) as [->|Hq']; unfold hs_at.
      * by rewrite Heq, Xst.
      * rewrite Hne by done. apply Hfl.
Qed.

(** An assignment to a peer just created. *)
Lemma put_peer_new p x f t :
  put_peer p f (set_t_peers (<[p := x]> (t_peers t)) t) =
  set_t_peers (<[p := f x]> (t_peers t)) t.
Proof. unfold put_peer, peer_at. simpl. rewrite lookup_insert_eq. simpl. by rewrite insert_insert_eq. Qed.

Lemma NewPeer_inv L pk : preserves (Inv L) (NewPeer (B:=B) (S:=S) pk).
Proof.
  apply preserves_gets_bind. intros t Ht. case_bool_decide; [done|]. rewrite bind_gets.
  destruct (_ <=? _); [done|]. destruct (t_keyMap t !! pk) as [q|]; [done|].
  unfold bind at 1, fresh. rewrite bind_gets. set (t1 := set_t_fresh _ t).
  assert (Ht1 : Inv L t1) by (apply Inv_fresh; [done|lia]).
  unfold timersInit, upd_timers. unfold bind at 1, modify at 1.
  rewrite !bind_upd_peer, !bind_upd_handshake, !bind_upd_peer.
  unfold put_handshake. rewrite !put_peer_new. unfold bind, modify, ret. cbn [fst].
  destruct (inv_free _ _ Ht (t_fresh t)) as [Hk Hi]; [done|].
  apply (Inv_new_peer L t1); try done.
  - apply Nat.lt_succ_diag_r.
  - change (kps_at t1) with (kps_at t). rewrite Hk. by intros k [|[|]].
  - intros key q Hq. apply (inv_keyMap _ _ Ht) in Hq as [? _]. lia.
Qed.

(** ** The private key *)

(** What the loop of [SetPrivateKey] does to a peer. *)
Definition rekey (sk : NoisePrivateKey) (x : Peer) : Peer :=
  set_p_handshake (set_hs_precomputedStaticStatic
    (default (zero_bytes 32) (sharedSecret sk (hs_remoteStatic (p_handshake x)))) (p_handshake x)) x.

Lemma rekey_loop sk ps : forall t,
  exists m,
    fst (forM ps (fun p => upd_handshake p (fun h => set_hs_precomputedStaticStatic
      (default (zero_bytes 32) (sharedSecret sk (hs_remoteStatic h))) h)) t) = set_t_peers m t /\
    forall q, (q ∈ ps -> peer_at (set_t_peers m t) q = rekey sk (peer_at t q)) /\
              (q ∉ ps -> peer_at (set_t_peers m t) q = peer_at t q).
Proof.
  induction ps as [|p ps IH]; intros t.
  - exists (t_peers t). split; [by destruct t|]. intros q. split; [by intros ?%elem_of_nil|done].
  - cbn [forM]. rewrite bind_upd_handshake.
    destruct (IH (put_handshake p (fun h => set_hs_precomputedStaticStatic
      (default (zero_bytes 32) (sharedSecret sk (hs_remoteStatic h))) h) t)) as (m & -> & Hm).
    exists m. split; [done|]. intros q. destruct (Hm q) as [H1 H2].
    change (peer_at (set_t_peers m (put_handshake p ?f t)) q) with (peer_at (set_t_peers m t) q) in H1, H2.
    unfold put_handshake in H1, H2. rewrite peer_at_put_peer in H1, H2. split.
    + intros [->|Hq]%elem_of_cons.
      * destruct (decide (p ∈ ps)) as [Hin|Hin]; [rewrite H1 by done|rewrite H2 by done];
          by rewrite decide_True.
      * rewrite H1 by done. case_decide; by subst.
    + intros [Hne Hin]%not_elem_of_cons. rewrite H2 by done. by rewrite decide_False.
Qed.

(** A new private key with the secrets of all peers recomputed. *)
Lemma Inv_rekey L sk m t t' :
  Inv L t -> t' = set_t_peers m (set_t_cookieChecker (checker_Init (t_cookieChecker t) (PublicKey sk))
    (set_t_publicKey (PublicKey sk) (set_t_privateKey sk t))) ->
  (forall q, (q ∈ map snd (map_to_list (t_keyMap t)) -> peer_at t' q = rekey sk (peer_at t q)) /\
             (q ∉ map snd (map_to_list (t_keyMap t)) -> peer_at t' q = peer_at t q)) ->
  Inv L t'.
Proof.
  intros [Hlive Hfree Hkps Hel Hen Hkm Hid Hst Hq Hn Hr Htab] E Hm.
  assert (Hk : forall q, kps_at t' q = kps_at t q).
  { intros q. unfold kps_at. destruct (Hm q) as [H1 H2].
    destruct (decide (q ∈ map snd (map_to_list (t_keyMap t)))); [by rewrite H1|by rewrite H2]. }
  assert (Hh : forall q, hs_localIndex (hs_at t' q) = hs_localIndex (hs_at t q) /\
                 hs_state (hs_at t' q) = hs_state (hs_at t q) /\
                 p_staged (peer_at t' q) = p_staged (peer_at t q)).
  { intros q. unfold hs_at. destruct (Hm q) as [H1 H2].
    destruct (decide (q ∈ map snd (map_to_list (t_keyMap t)))); [by rewrite H1|by rewrite H2]. }
  assert (Hi : forall q, hs_localIndex (hs_at t' q) = hs_localIndex (hs_at t q)) by apply Hh.
  rewrite E. rewrite E in Hk, Hh, Hi, Hm. split; try done.
  - intros q Hfr. rewrite Hk, Hi. by apply Hfree.
  - intros q k. rewrite Hk. apply Hkps.
  - intros pk q Hl. specialize (Hkm pk q Hl) as (Hlt & H1 & H2 & H3). split; [done|].
    destruct (Hm q) as [Hx _]. unfold peer_keyed, hs_at. rewrite Hx.
    + unfold hs_at in *. simpl. by rewrite H1, H2.
    + apply list_elem_of_fmap. exists (pk, q). split; [done|]. by apply elem_of_map_to_list.
  - by left.
  - intros q. destruct (Hh q) as (_ & _ & ->). apply Hst.
  - by destruct Hn; split.
  - by destruct Hr; split.
  - intros Hg Hs. destruct (Htab Hg Hs) as [[He Hz Hd] Hfl]. split; [split; [|done|]|].
    + intros i e. etrans; [apply He|]. unfold claims. setoid_rewrite Hi. by setoid_rewrite Hk.
    + intros q. rewrite Hk. apply Hd.
    + intros q. destruct (Hh q) as (-> & -> & _). apply Hfl.
Qed.

Lemma SetPrivateKey_inv L sk : preserves (Inv L) (SetPrivateKey (B:=B) (S:=S) sk).
Proof.
  apply preserves_gets_bind. intros t Ht. destruct (key_Equals _ _); [done|]. cbv zeta.
  rewrite bind_gets. unfold bind at 1.
  match goal with |- context [forM (map_to_list (t_keyMap t)) ?f t] =>
    pose proof (forM_keyMap_inv L f t) as H1; destruct (forM (map_to_list (t_keyMap t)) f t) as [t1 u] end.
  assert (Ht1 : Inv L t1).
  { apply H1; [|done]. intros L' kp Hl. pbind. apply preserves_when. by apply removePeerLocked_inv. }
  unfold bind at 1 2 3, modify. unfold all_peers. rewrite bind_gets.
  set (ps := map snd _). set (t2 := set_t_cookieChecker _ _).
  destruct (rekey_loop sk ps t2) as (m & Hm & Hq). unfold bind at 1.
  destruct (forM ps _ t2) as [t3 u'] eqn:E3. cbn [fst] in Hm. subst t3.
  assert (Ht3 : Inv L (set_t_peers m t2)).
  { by eapply (Inv_rekey L sk m t1). }
  apply forM_peers_inv; [|done|].
  - intros L' p Hp. by apply ExpireCurrentKeypairs_inv.
  - exact (all_peers_live L _ Ht1).
Qed.

End Lifecycle.

(** ** The transition system

    The state of the routines of the transport is the transport and the map
    [elemsByPeer] of [RoutineReadFromSourceSink].  An action is one turn of a
    routine, one expiration of a timer, or one call from outside.  It runs to its
    end before the next one begins; the order of actions is arbitrary. *)

Section System.
Context {C : Crypto} {B S : Type} `{!Bind B} `{!SourceSink S}.
Abbreviation W := (Transport B S).

Record Sys := mkSys { sys_t : W; sys_groups : gmap PeerId ContainerId }.

Inductive Action :=
| ActRead (pkts : list (bytes * bytes))             (* a read of RoutineReadFromSourceSink *)
| ActReceive (recvs : list (Error + list (bytes * Endpoint)))  (* RoutineReceiveIncoming *)
| ActEncrypt                                        (* a turn of RoutineEncryption *)
| ActDecrypt                                        (* a turn of RoutineDecryption *)
| ActHandshake                                      (* a turn of RoutineHandshake *)
| ActSender (p : PeerId)                            (* a turn of RoutineSequentialSender *)
| ActReceiver (p : PeerId)                          (* a turn of RoutineSequentialReceiver *)
| ActTimer (n : TimerName) (p : PeerId)             (* a runtime timer fires *)
| ActCollect (now : Addr -> Time)                   (* a tick of the rate limiter's collector *)
| ActNewPeer (pk : bytes)
| ActRemovePeer (pk : bytes)
| ActStart (p : PeerId)
| ActSetPresharedKey (p : PeerId) (psk : bytes)
| ActSetEndpoint (p : PeerId) (ep : Endpoint)
| ActSetPrivateKey (sk : bytes)
| ActUp | ActDown | ActClose
| ActUpdatePort (port : Z)
| ActSendKeepalives.

(** The address an action is about is that of a peer. *)
Definition enabled (a : Action) (s : Sys) : Prop :=
  match a with
  | ActSender p | ActReceiver p | ActTimer _ p | ActStart p | ActSetPresharedKey p _
  | ActSetEndpoint p _ => (p < t_fresh (sys_t s))%nat
  | _ => True
  end.

Definition on_t {A} (m : M W A) (s : Sys) : Sys := mkSys (fst (m (sys_t s))) (sys_groups s).

Definition exec (a : Action) (s : Sys) : Sys :=
  match a with
  | ActRead pkts =>
      let '(t, m) := read_from_source pkts (sys_groups s) (sys_t s) in mkSys t m
  | ActReceive recvs => on_t (RoutineReceiveIncoming recvs 0) s
  | ActEncrypt => on_t RoutineEncryption s
  | ActDecrypt => on_t RoutineDecryption s
  | ActHandshake => on_t RoutineHandshake s
  | ActSender p => on_t (RoutineSequentialSender p) s
  | ActReceiver p => on_t (RoutineSequentialReceiver p) s
  | ActTimer n p => on_t (timer_fires n p) s
  | ActCollect now => on_t (modify (fun t => set_t_limiter (RateLimiter.gc_tick (t_limiter t) now) t)) s
  | ActNewPeer pk => on_t (NewPeer pk) s
  | ActRemovePeer pk => on_t (RemovePeer pk) s
  | ActStart p => on_t (Start p) s
  | ActSetPresharedKey p psk => on_t (SetPresharedKey p psk) s
  | ActSetEndpoint p ep => on_t (SetEndpointFromPacket p ep) s
  | ActSetPrivateKey sk => on_t (SetPrivateKey sk) s
  | ActUp => on_t Up s
  | ActDown => on_t Down s
  | ActClose => on_t Close s
  | ActUpdatePort port => on_t (UpdatePort port) s
  | ActSendKeepalives => on_t SendKeepalivesToPeersWithCurrentKeypair s
  end.

Inductive step : Sys -> Sys -> Prop :=
| step_action a s : enabled a s -> step s (exec a s).

Definition initial (sink : S) (bind : B) (env : Env) : Sys :=
  mkSys (NewTransport sink bind env) ∅.

Definition reachable (s : Sys) : Prop :=
  exists sink bind env, rtc step (initial sink bind env) s.

(** ** The invariant of every run *)

Definition sys_ok (s : Sys) : Prop :=
  Inv (fun _ => False) (sys_t s) /\ groups_ok (sys_groups s) (sys_t s).

Lemma peer_at_initial sink bind env p : peer_at (NewTransport (B:=B) (S:=S) sink bind env) p = zeroPeer.
Proof. done. Qed.

Lemma initial_ok sink bind env : sys_ok (initial sink bind env).
Proof.
  split; [|by intros p c]. split; try done.
  - intros p k [H|[H|H]]; done.
  - by right.
  - intros p. apply Nat.le_0_l.
  - split; [by intros k| |by apply NoDup_nil]. intros k n Hin. by apply elem_of_nil in Hin.
  - split; [|by apply NoDup_nil|].
    + intros k. exists Replay.empty_window. split; [done|].
      change (kp_replayFilter (keypair_at _ k)) with (Replay.Reset Replay.zeroFilter).
      by apply Replay.simulates_Reset.
    + intros k n Hin. by apply elem_of_nil in Hin.
  - intros _ _. split; [split|].
    + intros i e. split; [done|]. intros (p & [(H0 & H1 & _)|(k & [H|[H|H]] & _)]); try done.
    + done.
    + intros p k. done.
    + intros p. done.
Qed.

Lemma on_t_ok {A} (m : M W A) s (L := fun q => (q < t_fresh (sys_t s))%nat) :
  preserves (Inv L) m -> sys_ok s -> sys_ok (on_t m s).
Proof.
  intros Hm [Ht Hg].
  assert (Ht' : Inv L (fst (m (sys_t s)))) by (apply Hm; destruct Ht; by split).
  split; [by eapply Inv_weaken; [|exact Ht']|].
  intros p c Hp. apply (inv_live _ _ Ht'). by eapply Hg.
Qed.

Lemma exec_ok a s : enabled a s -> sys_ok s -> sys_ok (exec a s).
Proof.
  intros He Hs. destruct a; simpl in He |- *.
  { destruct Hs as [Ht Hg].
    pose proof (read_from_source_inv _ pkts (sys_groups s) (sys_t s) Ht Hg) as H.
    by destruct (read_from_source pkts (sys_groups s) (sys_t s)) as [t m]. }
  all: apply on_t_ok; [|done]; eauto with preserves.
  - by apply timer_fires_inv.
  - apply NewPeer_inv.
  - apply RemovePeer_inv.
  - apply Start_inv.
  - apply SetPrivateKey_inv.
  - apply changeState_inv.
  - apply changeState_inv.
  - apply Close_inv.
  - apply UpdatePort_inv.
  - apply SendKeepalives_inv.
Qed.

Lemma run_ok s s' : rtc step s s' -> sys_ok s -> sys_ok s'.
Proof. induction 1 as [|s s1 s2 [a s0 He] _ IH]; [done|]. intros Hs. by apply IH, exec_ok. Qed.

Lemma reachable_ok s : reachable s -> sys_ok s.
Proof. intros (sink & bind & env & H). eapply run_ok; [done|apply initial_ok]. Qed.

(** Runs of a list of actions, for evaluating the system. *)
Fixpoint exec_all (l : list Action) (s : Sys) : Sys :=
  match l with
  | [] => s
  | a :: l => exec_all l (exec a s)
  end.

Fixpoint all_enabled (l : list Action) (s : Sys) : Prop :=
  match l with
  | [] => True
  | a :: l => enabled a s /\ all_enabled l (exec a s)
  end.

Lemma exec_all_rtc l : forall s, all_enabled l s -> rtc step s (exec_all l s).
Proof.
  induction l as [|a l IH]; intros s H; [apply rtc_refl|]. destruct H as [Ha Hl].
  eapply rtc_l; [by apply step_action|by apply IH].
Qed.

(** The same as a test, for concrete runs. *)
Definition enabledb (a : Action) (s : Sys) : bool :=
  match a with
  | ActSender p | ActReceiver p | ActTimer _ p | ActStart p | ActSetPresharedKey p _
  | ActSetEndpoint p _ => (p <? t_fresh (sys_t s))%nat
  | _ => true
  end.

Fixpoint all_enabledb (l : list Action) (s : Sys) : bool :=
  match l with
  | [] => true
  | a :: l => enabledb a s && all_enabledb l (exec a s)
  end.

Lemma enabledb_spec a s : enabledb a s = true -> enabled a s.
Proof. destruct a; simpl; try done; apply Nat.ltb_lt. Qed.

Lemma all_enabledb_spec l : forall s, all_enabledb l s = true -> all_enabled l s.
Proof.
  induction l as [|a l IH]; intros s; [done|]. simpl. intros [Ha Hl]%andb_true_iff.
  split; [by apply enabledb_spec|by apply IH].
Qed.

Lemma exec_all_reachable sink bind env l :
  all_enabledb l (initial sink bind env) = true -> reachable (exec_all l (initial sink bind env)).
Proof. intros Hl. exists sink, bind, env. by apply exec_all_rtc, all_enabledb_spec. Qed.

End System.
End System.
