(* ===== verification/Pipeline.v ===== *)
(** The way of a packet through the queues of the transport (send.go): staged,
    numbered, sealed by the encryption workers, sent in sequence.

    A container of packets has one owner at a time; what is in the queue of the
    encryption workers is locked, numbered and not sealed, what a sequential
    sender may take is sealed.  [Pipe] says so, and every handler keeps it, as
    long as [RoutineReadFromSourceSink] is not left with a container it could not
    hand over. *)
From S2P Require Import Prelude Replay RateLimiter Env Crypto Wire Cookie State IndexTable Noise Timers Send Receive Lifecycle Invariant Keys Flow System.
From stdpp Require Import prelude gmap list.
Open Scope Z_scope.

Module Pipeline.
Import Env.Env Crypto.Noise_helpers Wire.Wire Cookie.Cookie State.State IndexTable.IndexTable
  Noise.Noise Timers.Timers Send.Send Receive.Receive Lifecycle.Lifecycle Invariant.Invariant
  Keys.Keys Flow.Flow System.System.

(** Who has a container: a routine that works on it, before or after it locked
    it, or a queue of a peer. *)
Inductive owner := Hand | Busy | Staged (p : PeerId) | Out (p : PeerId).

#[global] Instance owner_eq_dec : EqDecision owner.
Proof. solve_decision. Defined.

(** A bind that can tell what it was given to send. *)
Class BindLog (B : Type) `{!Bind B} := {
  sent : B -> list bytes;
  sent_Open port b d : d ∈ sent (fst (bind_Open port b)) -> d ∈ sent b;
  sent_Close b d : d ∈ sent (fst (bind_Close b)) -> d ∈ sent b;
  sent_Send bufs ep b d : d ∈ sent (fst (bind_Send bufs ep b)) -> d ∈ bufs \/ d ∈ sent b;
}.

(** Any bind with a record of the datagrams beside it is one. *)
#[global] Instance recording (B : Type) `{!Bind B} : Bind (B * list bytes) := {|
  bind_Open port b := let '(b', r) := bind_Open port b.1 in ((b', b.2), r);
  bind_Close b := let '(b', r) := bind_Close b.1 in ((b', b.2), r);
  bind_Send bufs ep b := let '(b', r) := bind_Send bufs ep b.1 in ((b', bufs ++ b.2), r);
  bind_BatchSize b := bind_BatchSize b.1;
|}.
#[global, refine] Instance recording_log (B : Type) `{!Bind B} : BindLog (B * list bytes) := {| sent := snd |}.
Proof.
  - intros port [b l] d. simpl. by destruct (bind_Open port b).
  - intros [b l] d. simpl. by destruct (bind_Close b).
  - intros bufs ep [b l] d. simpl. destruct (bind_Send bufs ep b). simpl. by rewrite elem_of_app.
Defined.

Section Pipe.
Context {C : Crypto} {B S : Type} `{!Bind B} `{!BindLog B}.
Abbreviation W := (Transport B S).
Implicit Types t : W.

(** The messages of the handshake, as the transport makes them. *)
Inductive handshake_message : bytes -> Prop :=
| is_initiation p t0 t1 msg : snd (CreateMessageInitiation p t0) = inr msg ->
    handshake_message (snd (peer_AddMacs (B:=B) (S:=S) p (write_initiation msg) t1))
| is_response p t0 t1 msg : snd (CreateMessageResponse p t0) = inr msg ->
    handshake_message (snd (peer_AddMacs (B:=B) (S:=S) p (write_response msg) t1))
| is_cookie_reply checker packet sender src env reply :
    snd (snd (CreateReply checker packet sender src env)) = Some reply ->
    handshake_message (write_cookie_reply reply).

(** An element that has its nonce and is to be sealed, and one that is sealed. *)
Definition waiting t (e : QueueOutboundElement) : Prop :=
  exists k, oe_keypair e = Some k /\ (k, oe_nonce e) ∈ t_assigned t /\ (k, oe_nonce e) ∉ t_sealed t.

(** A transport message: a datagram sealed under a keypair, with a nonce that is
    recorded. *)
Definition sealed_as t (k : KeypairId) (n : Z) (d : bytes) : Prop :=
  (k, n) ∈ t_sealed t /\
  exists plain, d = transport_header (kp_remoteIndex (keypair_at t k)) n ++
                    aead_Seal (kp_send (keypair_at t k)) (aead_nonce n) plain [].

Definition sealed t (e : QueueOutboundElement) : Prop :=
  exists k, oe_keypair e = Some k /\ sealed_as t k (oe_nonce e) (oe_packet e).

Definition has (H K : list ContainerId) t (o : owner) : list ContainerId :=
  match o with
  | Hand => H
  | Busy => K
  | Staged p => p_staged (peer_at t p)
  | Out p => omap id (p_outbound (peer_at t p))
  end.

(** The nonces of some containers. *)
Definition nonces t (q : list ContainerId) : list (KeypairId * Z) :=
  concat (map (fun c => omap nonce_of (oc_elems (out_at t c))) q).

(** Every container has one owner and is allocated below [n]. *)
Record owned (n : nat) (h : owner -> list ContainerId) : Prop := {
  ow_bound o c : c ∈ h o -> (c < n)%nat;
  ow_nodup o : NoDup (h o);
  ow_unique o o' c : c ∈ h o -> c ∈ h o' -> o = o';
}.

Record Pipe (H K : list ContainerId) t : Prop := {
  pi_slots p k : owns (kps_at t p) k -> (k < t_fresh t)%nat;
  pi_limit k : 0 <= kp_sendNonce (keypair_at t k) <= RejectAfterMessages;
  pi_below k n : (k, n) ∈ t_assigned t -> n < kp_sendNonce (keypair_at t k) /\ (k < t_fresh t)%nat;
  pi_owned : owned (t_fresh t) (has H K t);
  pi_queue_bound c : c ∈ t_encryptionQ t -> (c < t_fresh t)%nat;
  pi_queue o c : c ∈ t_encryptionQ t -> c ∈ has H K t o -> exists p, o = Out p;
  pi_queue_nodup : NoDup (t_encryptionQ t);
  pi_open o c : c ∈ has H K t o -> o = Hand \/ (exists p, o = Staged p) -> oc_locked (out_at t c) = false;
  pi_locked c : c ∈ K ++ t_encryptionQ t -> oc_locked (out_at t c) = true;
  pi_out p c : c ∈ has H K t (Out p) -> c ∉ t_encryptionQ t ->
    oc_locked (out_at t c) = false /\ Forall (sealed t) (oc_elems (out_at t c));
  pi_waiting c : c ∈ K ++ t_encryptionQ t -> Forall (waiting t) (oc_elems (out_at t c));
  pi_nonces : NoDup (nonces t (K ++ t_encryptionQ t));
  pi_sealed : NoDup (t_sealed t);
  pi_sealed_assigned kn : kn ∈ t_sealed t -> kn ∈ t_assigned t;
  pi_wire d : d ∈ sent (t_bind t) -> handshake_message d \/ exists k n, sealed_as t k n d;
}.

(** ** Steps the pipeline does not see *)

Definition oview (x : Peer) := (p_staged x, omap id (p_outbound x), p_keypairs x).
Definition sview (k : Keypair) := (kp_sendNonce k, kp_send k, kp_remoteIndex k).

Record psame t t' : Prop := {
  ps_peer p : oview (peer_at t' p) = oview (peer_at t p);
  ps_keypair k : (k < t_fresh t)%nat -> sview (keypair_at t' k) = sview (keypair_at t k);
  ps_new k : kp_sendNonce (keypair_at t' k) = kp_sendNonce (keypair_at t k) \/ kp_sendNonce (keypair_at t' k) = 0;
  ps_out c : out_at t' c = out_at t c;
  ps_queue : t_encryptionQ t' = t_encryptionQ t;
  ps_fresh : (t_fresh t <= t_fresh t')%nat;
  ps_assigned : t_assigned t' = t_assigned t;
  ps_sealed : t_sealed t' = t_sealed t;
  ps_wire d : d ∈ sent (t_bind t') -> d ∈ sent (t_bind t) \/ handshake_message d;
}.

Lemma oview_has H K t t' o : (forall p, oview (peer_at t' p) = oview (peer_at t p)) -> has H K t' o = has H K t o.
Proof. intros E. destruct o as [| |p|p]; simpl; try done; specialize (E p); unfold oview in E; congruence. Qed.

(** What is sealed stays sealed. *)
Definition seals_kept t t' : Prop := forall k n, (k, n) ∈ t_sealed t -> (k, n) ∈ t_sealed t' /\
  kp_send (keypair_at t' k) = kp_send (keypair_at t k) /\
  kp_remoteIndex (keypair_at t' k) = kp_remoteIndex (keypair_at t k).

Lemma sealed_as_mono t t' k n d : seals_kept t t' -> sealed_as t k n d -> sealed_as t' k n d.
Proof. intros Hk [Hs [plain Hd]]. destruct (Hk _ _ Hs) as (? & Es & Er). split; [done|]. exists plain. by rewrite Es, Er. Qed.

Lemma sealed_mono t t' e : seals_kept t t' -> sealed t e -> sealed t' e.
Proof. intros Hk (k & H1 & H2). exists k. split; [done|]. by eapply sealed_as_mono. Qed.

(** The wire: what was sent before, and messages of the handshake. *)
Lemma wire_mono H K t t' : Pipe H K t -> seals_kept t t' ->
  (forall d, d ∈ sent (t_bind t') -> d ∈ sent (t_bind t) \/ handshake_message d) ->
  forall d, d ∈ sent (t_bind t') -> handshake_message d \/ exists k n, sealed_as t' k n d.
Proof.
  intros HP Hk Hw d [Hd|Hd]%Hw; [|by left]. apply (pi_wire _ _ _ HP) in Hd as [Hd|(k & n & Hd)]; [by left|right].
  exists k, n. by eapply sealed_as_mono.
Qed.

Lemma nonces_eq t t' q : (forall c, c ∈ q -> out_at t' c = out_at t c) -> nonces t' q = nonces t q.
Proof.
  intros Hq. unfold nonces. f_equal. apply map_ext_in. intros c Hc%list_elem_of_In. by rewrite Hq.
Qed.

Lemma Pipe_psame H K t t' : psame t t' -> Pipe H K t -> Pipe H K t'.
Proof.
  intros [Ep Ek En Ec Eq Ef Ea Es Ew] HP. pose proof (fun o => oview_has H K t t' o Ep) as Eo.
  assert (Ekps : forall p, kps_at t' p = kps_at t p) by (intros p; specialize (Ep p); unfold oview in Ep; unfold kps_at; congruence).
  assert (Hn : forall k n, (k, n) ∈ t_assigned t -> sview (keypair_at t' k) = sview (keypair_at t k)).
  { intros k n Hin. apply Ek. by apply (pi_below _ _ _ HP) in Hin as [_ ?]. }
  assert (Hkept : seals_kept t t').
  { intros k n Hin. rewrite Es. split; [done|].
    specialize (Hn k n (pi_sealed_assigned _ _ _ HP _ Hin)). unfold sview in Hn. split; congruence. }
  assert (Hse : forall e, sealed t e -> sealed t' e) by (intros e; by apply sealed_mono).
  split.
  - intros p k. rewrite Ekps. intros Hk%(pi_slots _ _ _ HP). lia.
  - intros k. destruct (En k) as [->| ->]; [apply HP|done].
  - intros k n. rewrite Ea. intros Hin. pose proof (Hn _ _ Hin) as E. unfold sview in E.
    apply (pi_below _ _ _ HP) in Hin as [? ?]. split; [congruence|lia].
  - destruct (pi_owned _ _ _ HP) as [Hb Hd Hu]. split.
    + intros o c. rewrite Eo. intros Hc%Hb. lia.
    + intros o. by rewrite Eo.
    + intros o o' c. rewrite !Eo. apply Hu.
  - intros c. rewrite Eq. intros Hc%(pi_queue_bound _ _ _ HP). lia.
  - intros o c. rewrite Eq, Eo. apply HP.
  - rewrite Eq. apply HP.
  - intros o c. rewrite Eo, Ec. apply HP.
  - intros c. rewrite Eq, Ec. apply HP.
  - intros p c. rewrite Eo, Eq, Ec. intros Ho Hc. destruct (pi_out _ _ _ HP p c Ho Hc) as [H1 H2].
    split; [done|]. by eapply Forall_impl; [exact H2|].
  - intros c. rewrite Eq, Ec. unfold waiting. rewrite Ea, Es. apply HP.
  - rewrite Eq, (nonces_eq t) by done. apply HP.
  - rewrite Es. apply HP.
  - intros kn. rewrite Es, Ea. apply HP.
  - by apply (wire_mono H K t).
Qed.

Lemma psame_refl t : psame t t.
Proof. split; auto. Qed.

Lemma psame_put_peer p f t : (forall x, oview (f x) = oview x) -> psame t (put_peer p f t).
Proof.
  intros Hf. split; auto. intros q. rewrite peer_at_put_peer. case_decide; [subst; apply Hf|done].
Qed.

Lemma psame_put_keypair k f t : (forall x, sview (f x) = sview x) -> psame t (put_keypair k f t).
Proof.
  intros Hf. split; auto; intros j.
  - intros _. rewrite keypair_at_put_keypair. case_decide; [subst; apply Hf|done].
  - left. rewrite keypair_at_put_keypair. case_decide; [subst|done]. specialize (Hf (keypair_at t j)). unfold sview in Hf. congruence.
Qed.

(** ** Changes of owner *)

Lemma owned_move n (h h' : owner -> list ContainerId) o1 o2 c :
  owned n h -> c ∈ h o1 -> (forall o, NoDup (h' o)) ->
  (forall o x, x ∈ h' o -> (x ∈ h o /\ (x = c -> o <> o1)) \/ (o = o2 /\ x = c)) -> owned n h'.
Proof.
  intros [Hb Hd Hu] Hc Hn Hm. split; [|done|].
  - intros o x [[Hx _]|[_ ->]]%Hm; eauto.
  - intros o o' x H1%Hm H2%Hm. destruct H1 as [[Hx Hx']|[E1 E1']], H2 as [[Hy Hy']|[E2 E2']]; subst; eauto.
    + exfalso. eapply Hx'; [done|by eapply Hu].
    + exfalso. eapply Hy'; [done|by eapply Hu].
Qed.

Lemma owned_less n (h h' : owner -> list ContainerId) :
  owned n h -> (forall o, NoDup (h' o)) -> (forall o x, x ∈ h' o -> x ∈ h o) -> owned n h'.
Proof. intros [Hb Hd Hu] Hn Hm. split; eauto. Qed.

(** A new list of owners, over the same containers: what is in hand or staged is
    open and not in the queue of the workers, nothing else changes hands. *)
Record handed t t' : Prop := {
  hd_slots p : kps_at t' p = kps_at t p;
  hd_keypairs : t_keypairs t' = t_keypairs t;
  hd_out : t_outContainers t' = t_outContainers t;
  hd_queue : t_encryptionQ t' = t_encryptionQ t;
  hd_fresh : t_fresh t' = t_fresh t;
  hd_assigned : t_assigned t' = t_assigned t;
  hd_sealed : t_sealed t' = t_sealed t;
  hd_bind : t_bind t' = t_bind t;
}.

Lemma handed_put_peer p f t : (forall x, p_keypairs (f x) = p_keypairs x) -> handed t (put_peer p f t).
Proof.
  intros Hf. split; try done. intros q. unfold kps_at. rewrite peer_at_put_peer. case_decide; [by subst|done].
Qed.

Lemma Pipe_handed H H' K t t' : handed t t' -> Pipe H K t -> owned (t_fresh t) (has H' K t') ->
  (forall o c, c ∈ has H' K t' o -> c ∈ has H K t o \/
     (o = Hand \/ exists p, o = Staged p) /\ oc_locked (out_at t c) = false /\ c ∉ t_encryptionQ t) ->
  Pipe H' K t'.
Proof.
  intros [Ek Ekp Eo Eq Ef Ea Es Eb] HP Hown Hm.
  assert (Ekp' : forall k, keypair_at t' k = keypair_at t k) by (intros k; unfold keypair_at; by rewrite Ekp).
  assert (Ec : forall c, out_at t' c = out_at t c) by (intros c; unfold out_at; by rewrite Eo).
  assert (Hkept : seals_kept t t') by (intros k n; by rewrite Es, Ekp').
  assert (Hse : forall e, sealed t e -> sealed t' e) by (intros e; by apply sealed_mono).
  split.
  - intros p k. rewrite Ek, Ef. apply HP.
  - intros k. rewrite Ekp'. apply HP.
  - intros k n. rewrite Ea, Ekp', Ef. apply HP.
  - by rewrite Ef.
  - rewrite Eq, Ef. apply HP.
  - intros o c. rewrite Eq. intros Hc [Ho|(_ & _ & Hq)]%Hm; [by eapply pi_queue|done].
  - rewrite Eq. apply HP.
  - intros o c. rewrite Ec. intros [Ho|(_ & Hl & _)]%Hm; [by apply (pi_open _ _ _ HP)|done].
  - intros c. rewrite Eq, Ec. apply HP.
  - intros p c. rewrite Eq, Ec. intros [Ho|([Ho|[q Ho]] & _)]%Hm Hc; try done.
    destruct (pi_out _ _ _ HP p c Ho Hc) as [H1 H2]. split; [done|]. by eapply Forall_impl.
  - intros c. rewrite Eq, Ec. unfold waiting. rewrite Ea, Es. apply HP.
  - rewrite Eq, (nonces_eq t) by done. apply HP.
  - rewrite Es. apply HP.
  - intros kn. rewrite Es, Ea. apply HP.
  - apply (wire_mono H K t); [done|done|]. rewrite Eb. by left.
Qed.

(** What is in hand or staged is not with the workers. *)
Lemma Pipe_not_queued H K t o c : Pipe H K t -> c ∈ has H K t o -> o = Hand \/ (exists p, o = Staged p) ->
  c ∉ t_encryptionQ t.
Proof.
  intros HP Hc Ho Hq. destruct (pi_queue _ _ _ HP o c Hq Hc) as [p ->]. by destruct Ho as [|[q ?]].
Qed.

Lemma has_put_staged H K p q t o :
  has H K (put_peer p (set_p_staged q) t) o = if decide (o = Staged p) then q else has H K t o.
Proof.
  destruct o as [| |r|r]; simpl; try done.
  - rewrite peer_at_put_peer. do 2 case_decide; simplify_eq; done.
  - rewrite peer_at_put_peer. case_decide; [by subst|done].
Qed.

Lemma has_hand H H' K t o : has H' K t o = if decide (o = Hand) then H' else has H K t o.
Proof. by destruct o. Qed.

(** Taking the first staged container. *)
Lemma Pipe_unstage H K t p c q : Pipe H K t -> p_staged (peer_at t p) = c :: q ->
  Pipe (c :: H) K (put_peer p (set_p_staged q) t).
Proof.
  intros HP Hq. assert (Hc : c ∈ has H K t (Staged p)) by (simpl; rewrite Hq; by left).
  pose proof (pi_owned _ _ _ HP) as Hown. pose proof (ow_nodup _ _ Hown (Staged p)) as Hnd.
  simpl in Hnd. rewrite Hq in Hnd. apply NoDup_cons in Hnd as [Hcq Hnd].
  eapply Pipe_handed; [by apply handed_put_peer|exact HP| |].
  - eapply (owned_move _ (has H K t) _ (Staged p) Hand c); [done|done| |].
    + intros o. rewrite has_put_staged. case_decide; [done|]. rewrite (has_hand H).
      case_decide; [|apply Hown]. apply NoDup_cons. split; [|apply (ow_nodup _ _ Hown Hand)].
      intros Hh. by pose proof (ow_unique _ _ Hown Hand (Staged p) c Hh Hc).
    + intros o x. rewrite has_put_staged. case_decide as E.
      * subst o. intros Hx. left. simpl. rewrite Hq. split; [by right|]. by intros ->.
      * destruct o; simpl; [intros [->|Hx]%elem_of_cons; [by right|]|..]; left; split; try done.
  - intros o x. rewrite has_put_staged. case_decide as E.
    + subst o. intros Hx. left. simpl. rewrite Hq. by right.
    + destruct o; simpl; auto. intros [->|Hx]%elem_of_cons; [right|by left]. split; [by left|].
      split; [eapply pi_open; [exact HP|exact Hc|eauto]|eapply Pipe_not_queued; [exact HP|exact Hc|eauto]].
Qed.

(** Staging a container in hand, perhaps behind what is left of the queue. *)
Lemma Pipe_stage H K t p c q : Pipe (c :: H) K t -> sublist q (p_staged (peer_at t p)) ->
  Pipe H K (put_peer p (set_p_staged (q ++ [c])) t).
Proof.
  intros HP Hq. assert (Hc : c ∈ has (c :: H) K t Hand) by by left.
  pose proof (pi_owned _ _ _ HP) as Hown.
  assert (Hsub : forall x, x ∈ q -> x ∈ has (c :: H) K t (Staged p)) by (intros x Hx; by eapply elem_of_sublist).
  pose proof (ow_nodup _ _ Hown Hand) as Hnd. simpl in Hnd. apply NoDup_cons in Hnd as [HcH HndH].
  eapply Pipe_handed; [by apply handed_put_peer|exact HP| |].
  - eapply (owned_move _ (has (c :: H) K t) _ Hand (Staged p) c); [done|done| |].
    + intros o. rewrite has_put_staged. case_decide.
      * apply NoDup_app. split; [eapply sublist_NoDup; [apply (ow_nodup _ _ Hown (Staged p))|exact Hq]|].
        split; [|apply NoDup_singleton]. intros x Hx ->%list_elem_of_singleton. apply Hsub in Hx.
        by pose proof (ow_unique _ _ Hown _ _ c Hx Hc).
      * rewrite (has_hand (c :: H)). case_decide; [done|apply Hown].
    + intros o x. rewrite has_put_staged. case_decide as E.
      * subst o. intros [Hx| ->%list_elem_of_singleton]%elem_of_app; [left; split; [by apply Hsub|done]|by right].
      * destruct o; simpl; intros Hx; left; split; try done; [by right|]. by intros ->.
  - intros o x. rewrite has_put_staged. case_decide as E.
    + subst o. intros [Hx| ->%list_elem_of_singleton]%elem_of_app; [left; by apply Hsub|right].
      split; [eauto|]. split; [eapply pi_open; [exact HP|exact Hc|by left]|].
      eapply Pipe_not_queued; [exact HP|exact Hc|by left].
    + destruct o; simpl; auto. intros Hx. left. by right.
Qed.

(** Letting go of containers. *)
Lemma Pipe_drop H H' K t t' : handed t t' -> Pipe H K t ->
  (forall o, sublist (has H' K t' o) (has H K t o)) -> Pipe H' K t'.
Proof.
  intros Hh HP Hs. pose proof (pi_owned _ _ _ HP) as Hown.
  eapply Pipe_handed; [done|exact HP| |].
  - eapply owned_less; [done| |].
    + intros o. eapply sublist_NoDup; [apply Hown|apply Hs].
    + intros o x Hx. by eapply elem_of_sublist; [|apply Hs].
  - intros o x Hx. left. by eapply elem_of_sublist; [|apply Hs].
Qed.

(** ** Changes of containers *)

Lemma out_at_put_out c f t j : out_at (put_out c f t) j = if decide (c = j) then f (out_at t c) else out_at t j.
Proof. unfold out_at, put_out. simpl. rewrite lookup_insert. by case_decide. Qed.

Lemma nonces_sublist t t' q :
  (forall c, c ∈ q -> sublist (omap nonce_of (oc_elems (out_at t' c))) (omap nonce_of (oc_elems (out_at t c)))) ->
  sublist (nonces t' q) (nonces t q).
Proof.
  unfold nonces. induction q as [|c q IH]; intros Hq; simpl; [done|].
  apply sublist_app; [apply Hq; by left|]. apply IH. intros. apply Hq. by right.
Qed.

(** A new content for one container, as its owner may give it. *)
Lemma Pipe_put_out H K t c f (x := f (out_at t c)) : Pipe H K t ->
  (forall o, c ∈ has H K t o -> o = Hand \/ (exists p, o = Staged p) -> oc_locked x = false) ->
  (c ∈ K ++ t_encryptionQ t -> oc_locked x = true /\ Forall (waiting t) (oc_elems x) /\
     sublist (omap nonce_of (oc_elems x)) (omap nonce_of (oc_elems (out_at t c)))) ->
  (forall p, c ∈ has H K t (Out p) -> c ∉ t_encryptionQ t -> oc_locked x = false /\ Forall (sealed t) (oc_elems x)) ->
  Pipe H K (put_out c f t).
Proof.
  intros HP Hopen Hlock Hout. set (t' := put_out c f t).
  assert (Ec : forall j, out_at t' j = if decide (c = j) then x else out_at t j) by (intros; apply out_at_put_out).
  split; try apply HP.
  - intros o j Ho Ht. rewrite Ec. case_decide; [subst; by eapply Hopen|by apply (pi_open _ _ _ HP o)].
  - intros j Hj. rewrite Ec. case_decide; [subst; by apply Hlock|by apply (pi_locked _ _ _ HP)].
  - intros p j Ho Hj. rewrite Ec. case_decide; [subst; by apply (Hout p)|by apply (pi_out _ _ _ HP p)].
  - intros j Hj. rewrite Ec. case_decide; [subst; by apply Hlock|by apply (pi_waiting _ _ _ HP)].
  - eapply sublist_NoDup; [apply (pi_nonces _ _ _ HP)|]. apply nonces_sublist. intros j Hj. rewrite Ec.
    case_decide; [subst; by apply Hlock|done].
Qed.

(** Emptying a container. *)
Lemma Pipe_empty H K t c : Pipe H K t -> Pipe H K (put_out c (fun x => mkOutContainer (oc_locked x) []) t).
Proof.
  intros HP. apply Pipe_put_out; [done|..]; simpl.
  - intros o. apply HP.
  - intros Hc. split; [by apply HP|]. split; [constructor|apply sublist_nil_l].
  - intros p Ho Hc. split; [by apply (pi_out _ _ _ HP p)|constructor].
Qed.

(** Writing to a container nobody has. *)
Lemma Pipe_free H K t c f : Pipe H K t -> (forall o, c ∉ has H K t o) -> c ∉ t_encryptionQ t -> Pipe H K (put_out c f t).
Proof.
  intros HP Hno Hq. apply Pipe_put_out; [done|..].
  - intros o Ho. by apply Hno in Ho.
  - intros [Hk|Hk]%elem_of_app; [by apply (Hno Busy) in Hk|done].
  - intros p Ho. by apply Hno in Ho.
Qed.

Lemma Pipe_hand_free H K t c : Pipe (c :: H) K t -> Pipe H K t /\ (forall o, c ∉ has H K t o) /\ c ∉ t_encryptionQ t.
Proof.
  intros HP. pose proof (pi_owned _ _ _ HP) as Hown.
  pose proof (ow_nodup _ _ Hown Hand) as Hnd. simpl in Hnd. apply NoDup_cons in Hnd as [Hc Hnd].
  split; [|split].
  - eapply Pipe_drop; [|exact HP|]; [by split|]. intros o. rewrite (has_hand (c :: H)). case_decide; [subst; by apply sublist_cons|done].
  - intros o Ho. rewrite (has_hand (c :: H)) in Ho. case_decide as E; [done|].
    apply E, (ow_unique _ _ Hown _ _ c Ho). by left.
  - eapply (Pipe_not_queued _ _ _ Hand); [exact HP|by left|by left].
Qed.

(** Adding to a container in hand. *)
Lemma Pipe_hand H K t c f : Pipe H K t -> c ∈ H -> oc_locked (f (out_at t c)) = oc_locked (out_at t c) ->
  Pipe H K (put_out c f t).
Proof.
  intros HP Hc Hf. pose proof (pi_owned _ _ _ HP) as Hown.
  assert (Hu : forall o, c ∈ has H K t o -> o = Hand) by (intros o Ho; by apply (ow_unique _ _ Hown _ _ c)).
  apply Pipe_put_out; [done|..].
  - intros o Ho Ht. rewrite Hf. by apply (pi_open _ _ _ HP o).
  - intros [Hk|Hk]%elem_of_app; [by pose proof (Hu Busy Hk)|].
    exfalso. revert Hk. eapply (Pipe_not_queued _ _ _ Hand); [exact HP|exact Hc|by left].
  - intros p Ho. by pose proof (Hu _ Ho).
Qed.

(** A new container. *)
Lemma Pipe_new H K t elems : Pipe H K t ->
  Pipe (t_fresh t :: H) K (set_t_outContainers (<[t_fresh t := mkOutContainer false elems]> (t_outContainers t))
    (set_t_fresh (Datatypes.S (t_fresh t)) t)).
Proof.
  intros HP. set (t1 := set_t_fresh (Datatypes.S (t_fresh t)) t). set (c := t_fresh t).
  assert (HP1 : Pipe H K t1) by (eapply Pipe_psame; [|exact HP]; split; auto; simpl; lia).
  pose proof (pi_owned _ _ _ HP) as Hown. pose proof (pi_owned _ _ _ HP1) as Hown1.
  assert (Hno : forall o, c ∉ has H K t1 o) by (intros o Ho; apply (ow_bound _ _ Hown o) in Ho; unfold c in Ho; lia).
  assert (Hq : c ∉ t_encryptionQ t1) by (intros Hc; apply (pi_queue_bound _ _ _ HP) in Hc; unfold c in Hc; lia).
  assert (HP2 := Pipe_free H K t1 c (fun _ => mkOutContainer false elems) HP1 Hno Hq).
  change (put_out c _ t1) with (set_t_outContainers (<[c := mkOutContainer false elems]> (t_outContainers t)) t1) in HP2.
  set (t2 := set_t_outContainers _ t1) in *. change (forall o, c ∉ has H K t2 o) in Hno.
  pose proof (pi_owned _ _ _ HP2) as Hown2.
  eapply (Pipe_handed H); [by split|exact HP2| |].
  - destruct Hown2 as [Hb Hd Hu]. split.
    + intros o x. rewrite (has_hand H). case_decide; [|apply Hb].
      intros [->|Hx]%elem_of_cons; [unfold t2, t1, c; simpl; lia|by apply (Hb Hand)].
    + intros o. rewrite (has_hand H). case_decide; [|apply Hd]. apply NoDup_cons. split; [apply (Hno Hand)|apply (Hd Hand)].
    + intros o o' x. rewrite (has_hand H _ _ _ o), (has_hand H _ _ _ o').
      repeat case_decide; subst; try done.
      * intros [->|Hx]%elem_of_cons Hy; [by apply Hno in Hy|by apply (Hu Hand _ x)].
      * intros Hy [->|Hx]%elem_of_cons; [by apply Hno in Hy|by apply (Hu _ Hand x)].
      * apply Hu.
  - intros o x. rewrite (has_hand H). case_decide; [subst|by left].
    intros [->|Hx]%elem_of_cons; [right|by left]. split; [by left|]. split; [|done].
    unfold out_at, t2. simpl. by rewrite lookup_insert_eq.
Qed.

(** Locking a container in hand, its elements numbered. *)
Lemma Pipe_lock H K t c elems : Pipe (c :: H) K t -> Forall (waiting t) elems ->
  NoDup (omap nonce_of elems ++ nonces t (K ++ t_encryptionQ t)) ->
  Pipe H (c :: K) (put_out c (fun _ => mkOutContainer true elems) t).
Proof.
  intros HP Hw Hn. destruct (Pipe_hand_free _ _ _ _ HP) as (HP0 & Hno & Hq).
  pose proof (pi_owned _ _ _ HP0) as Hown.
  assert (HP1 := Pipe_free H K t c (fun _ => mkOutContainer true elems) HP0 Hno Hq).
  set (t' := put_out c _ t) in *.
  assert (Hc : out_at t' c = mkOutContainer true elems) by (unfold t'; by rewrite out_at_put_out, decide_True).
  assert (Hb : forall o, has H (c :: K) t' o = if decide (o = Busy) then c :: K else has H K t' o) by (by intros []).
  change (forall o, c ∉ has H K t' o) in Hno. pose proof (pi_owned _ _ _ HP1) as Hown1.
  split; try apply HP1.
  - destruct (pi_owned _ _ _ HP) as [Hbd _ _]. destruct Hown1 as [Hb1 Hd1 Hu1]. split.
    + intros o x. rewrite Hb. case_decide; [|apply Hb1].
      intros [->|Hx]%elem_of_cons; [apply (Hbd Hand); by left|by apply (Hb1 Busy)].
    + intros o. rewrite Hb. case_decide; [|apply Hd1]. apply NoDup_cons. split; [apply (Hno Busy)|apply (Hd1 Busy)].
    + intros o o' x. rewrite !Hb. repeat case_decide; subst; try done.
      * intros [->|Hx]%elem_of_cons Hy; [by apply Hno in Hy|by apply (Hu1 Busy _ x)].
      * intros Hy [->|Hx]%elem_of_cons; [by apply Hno in Hy|by apply (Hu1 _ Busy x)].
      * apply Hu1.
  - intros o x Hx. rewrite Hb. case_decide; [subst|by apply (pi_queue _ _ _ HP1)].
    intros [->|Hy]%elem_of_cons; [done|by apply (pi_queue _ _ _ HP1 Busy x)].
  - intros o x. rewrite Hb. case_decide; [subst; by intros _ [?|[? ?]]|apply HP1].
  - intros x [->|Hx]%elem_of_cons; [by rewrite Hc|by apply (pi_locked _ _ _ HP1)].
  - intros x [->|Hx]%elem_of_cons; [by rewrite Hc|by apply (pi_waiting _ _ _ HP1)].
  - change (NoDup (omap nonce_of (oc_elems (out_at t' c)) ++ nonces t' (K ++ t_encryptionQ t))).
    rewrite Hc. cbn [oc_elems].
    rewrite (nonces_eq t t' (K ++ t_encryptionQ t)); [exact Hn|].
    intros x Hx. unfold t'. rewrite out_at_put_out. case_decide; [subst x|done].
    apply elem_of_app in Hx as [Hx|Hx]; [by apply (Hno Busy) in Hx|done].
Qed.

(** Letting go of a locked one. *)
Lemma Pipe_unlock H K t c : Pipe H (c :: K) t -> Pipe H K t.
Proof.
  intros HP. pose proof (pi_owned _ _ _ HP) as [Hb Hd Hu].
  assert (Hs : forall o, sublist (has H K t o) (has H (c :: K) t o)) by (intros []; simpl; try done; by apply sublist_cons).
  assert (Hs' : forall o x, x ∈ has H K t o -> x ∈ has H (c :: K) t o) by (intros o x Hx; by eapply elem_of_sublist).
  assert (Hk : forall x, x ∈ K ++ t_encryptionQ t -> x ∈ (c :: K) ++ t_encryptionQ t) by (intros; by right).
  split; try apply HP; eauto using pi_queue, pi_open, pi_locked, pi_out, pi_waiting.
  - split; eauto. intros o. by eapply sublist_NoDup.
  - eapply sublist_NoDup; [apply (pi_nonces _ _ _ HP)|]. apply sublist_inserts_l. done.
Qed.

(** Handing a locked container to the workers and to the sender. *)
Lemma Pipe_dispatch H K t p c : Pipe H (c :: K) t ->
  Pipe H K (set_t_encryptionQ (t_encryptionQ t ++ [c])
    (put_peer p (fun x => set_p_outbound (p_outbound x ++ [Some c]) x) t)).
Proof.
  intros HP. set (t' := set_t_encryptionQ _ _). pose proof (pi_owned _ _ _ HP) as Hown.
  pose proof (ow_nodup _ _ Hown Busy) as Hnd. simpl in Hnd. apply NoDup_cons in Hnd as [HcK HndK].
  assert (Hc : c ∈ has H (c :: K) t Busy) by by left.
  assert (Hq : c ∉ t_encryptionQ t) by (intros Hq; by destruct (pi_queue _ _ _ HP Busy c Hq Hc)).
  assert (Ep : forall q, peer_at t' q = if decide (p = q) then set_p_outbound (p_outbound (peer_at t p) ++ [Some c]) (peer_at t p) else peer_at t q)
    by (intros q; exact (peer_at_put_peer p (fun x => set_p_outbound (p_outbound x ++ [Some c]) x) t q)).
  assert (Hh : forall o, has H K t' o = if decide (o = Busy) then K else if decide (o = Out p) then has H (c :: K) t o ++ [c] else has H (c :: K) t o).
  { intros [| |q|q]; simpl; try done; rewrite Ep; repeat case_decide; simplify_eq; try done.
    cbn [p_outbound set_p_outbound]. by rewrite omap_app. }
  assert (Hperm : nonces t' (K ++ t_encryptionQ t') ≡ₚ nonces t ((c :: K) ++ t_encryptionQ t)).
  { unfold nonces, t'. cbn [t_encryptionQ set_t_encryptionQ]. rewrite <- !flat_map_concat_map.
    apply Permutation_flat_map. rewrite app_assoc. symmetry. apply (Permutation_cons_append (K ++ t_encryptionQ t) c). }
  split.
  - intros q k. unfold kps_at. rewrite Ep. case_decide; [subst|]; apply HP.
  - apply HP.
  - apply HP.
  - eapply (owned_move _ (has H (c :: K) t) _ Busy (Out p) c); [exact Hown|done| |].
    + intros o. rewrite Hh. repeat case_decide; [done| |apply Hown]. apply NoDup_app. split; [apply Hown|].
      split; [|apply NoDup_singleton]. intros x Hx ->%list_elem_of_singleton. subst o.
      by pose proof (ow_unique _ _ Hown _ _ c Hx Hc).
    + intros o x. rewrite Hh. repeat case_decide; subst.
      * intros Hx. left. split; [by right|]. by intros ->.
      * intros [Hx| ->%list_elem_of_singleton]%elem_of_app; [by left|by right].
      * intros Hx. left. split; [done|]. by intros.
  - intros x. unfold t'. simpl. intros [Hx| ->%list_elem_of_singleton]%elem_of_app; [by apply HP|by apply (ow_bound _ _ Hown Busy)].
  - intros o x. rewrite Hh. unfold t'. simpl. intros [Hx| ->%list_elem_of_singleton]%elem_of_app.
    + repeat case_decide; subst; [|eauto|].
      * intros Hy. by apply (pi_queue _ _ _ HP Busy x Hx); right.
      * by apply (pi_queue _ _ _ HP).
    + repeat case_decide; subst; [done|eauto|]. intros Hy. by pose proof (ow_unique _ _ Hown _ _ c Hy Hc).
  - unfold t'. simpl. apply NoDup_app. split; [apply HP|]. split; [|apply NoDup_singleton].
    by intros x Hx ->%list_elem_of_singleton.
  - intros o x. rewrite Hh. repeat case_decide; subst; [by intros _ [?|[? ?]]|by intros _ [?|[? ?]]|]. apply HP.
  - intros x. unfold t'. simpl. rewrite app_assoc. intros [Hx| ->%list_elem_of_singleton]%elem_of_app.
    + apply (pi_locked _ _ _ HP). by right.
    + apply (pi_locked _ _ _ HP). by left.
  - intros q x. rewrite Hh, decide_False by done. change (t_encryptionQ t') with (t_encryptionQ t ++ [c]).
    rewrite not_elem_of_app, list_elem_of_singleton. case_decide as E.
    + intros [Hx| ->%list_elem_of_singleton]%elem_of_app [Hq1 Hq2]; [by apply (pi_out _ _ _ HP q)|done].
    + intros Hx [Hq1 _]. by apply (pi_out _ _ _ HP q).
  - intros x. unfold t'. simpl. rewrite app_assoc. intros [Hx| ->%list_elem_of_singleton]%elem_of_app.
    + apply (pi_waiting _ _ _ HP). by right.
    + apply (pi_waiting _ _ _ HP). by left.
  - rewrite Hperm. apply HP.
  - apply HP.
  - apply HP.
  - apply HP.
Qed.


Lemma has_put_outbound H K p q t o :
  has H K (put_peer p (set_p_outbound q) t) o = if decide (o = Out p) then omap id q else has H K t o.
Proof.
  destruct o as [| |r|r]; simpl; try done.
  - rewrite peer_at_put_peer. case_decide; [by subst|done].
  - rewrite peer_at_put_peer. do 2 case_decide; simplify_eq; done.
Qed.

(** Taking a container that is not locked from the queue of a sender. *)
Lemma Pipe_pop H K t p c q : Pipe H K t -> p_outbound (peer_at t p) = Some c :: q ->
  oc_locked (out_at t c) = false ->
  Pipe (c :: H) K (put_peer p (set_p_outbound q) t) /\ Forall (sealed t) (oc_elems (out_at t c)).
Proof.
  intros HP Hq Hl. assert (Hho : has H K t (Out p) = c :: omap id q) by (simpl; by rewrite Hq).
  assert (Hc : c ∈ has H K t (Out p)) by (rewrite Hho; by left).
  pose proof (pi_owned _ _ _ HP) as Hown. pose proof (ow_nodup _ _ Hown (Out p)) as Hnd.
  rewrite Hho in Hnd. apply NoDup_cons in Hnd as [Hcq Hnd].
  assert (Hcq' : c ∉ t_encryptionQ t).
  { intros Hin. rewrite (pi_locked _ _ _ HP) in Hl; [done|]. apply elem_of_app. by right. }
  split; [|by apply (pi_out _ _ _ HP p c)].
  eapply Pipe_handed; [by apply handed_put_peer|exact HP| |].
  - eapply (owned_move _ (has H K t) _ (Out p) Hand c); [done|done| |].
    + intros o. rewrite has_put_outbound. case_decide; [done|]. rewrite (has_hand H).
      case_decide; [|apply Hown]. apply NoDup_cons. split; [|apply (ow_nodup _ _ Hown Hand)].
      intros Hh. by pose proof (ow_unique _ _ Hown Hand (Out p) c Hh Hc).
    + intros o x. rewrite has_put_outbound. case_decide as E.
      * subst o. intros Hx. left. rewrite Hho. split; [by right|]. by intros ->.
      * rewrite (has_hand H). case_decide; [subst; intros [->|Hx]%elem_of_cons; [by right|]|intros Hx]; left; split; try done; by intros.
  - intros o x. rewrite has_put_outbound. case_decide as E.
    + subst o. intros Hx. left. rewrite Hho. by right.
    + rewrite (has_hand H). case_decide; [subst|by left]. intros [->|Hx]%elem_of_cons; [right|by left].
      split; [by left|done].
Qed.

(** A worker seals the first container of its queue. *)
Lemma waiting_nonces t l : Forall (waiting t) l -> forall kn, kn ∈ omap nonce_of l -> kn ∈ t_assigned t /\ kn ∉ t_sealed t.
Proof.
  intros Hl kn (e & He & Hn)%list_elem_of_omap. rewrite Forall_forall in Hl.
  destruct (Hl e He) as (k & Hk & H1 & H2). unfold nonce_of in Hn. rewrite Hk in Hn. by simplify_eq/=.
Qed.

Lemma elem_of_nonces t c q kn : c ∈ q -> kn ∈ omap nonce_of (oc_elems (out_at t c)) -> kn ∈ nonces t q.
Proof.
  intros Hc Hk. unfold nonces. apply list_elem_of_In, in_concat. eexists. split; [|by apply list_elem_of_In].
  apply in_map_iff. exists c. split; [done|by apply list_elem_of_In].
Qed.

Lemma Pipe_seal H K t c q (l := oc_elems (out_at t c)) : Pipe H K t -> t_encryptionQ t = c :: q ->
  Pipe H K (put_out c (fun x => mkOutContainer false (map (encrypt_at t) (oc_elems x)))
    (set_t_sealed (omap nonce_of l ++ t_sealed t) (set_t_encryptionQ q t))).
Proof.
  intros HP Hq. pose proof (pi_queue_nodup _ _ _ HP) as Hnd. rewrite Hq in Hnd. apply NoDup_cons in Hnd as [Hcq Hnd].
  assert (Hc : c ∈ t_encryptionQ t) by (rewrite Hq; by left).
  assert (Hwait : Forall (waiting t) l) by (apply (pi_waiting _ _ _ HP); set_solver).
  set (t' := put_out c _ _).
  assert (Ec : forall j, out_at t' j = if decide (c = j) then mkOutContainer false (map (encrypt_at t) l) else out_at t j)
    by (intros j; exact (out_at_put_out c (fun x => mkOutContainer false (map (encrypt_at t) (oc_elems x))) (set_t_sealed (omap nonce_of l ++ t_sealed t) (set_t_encryptionQ q t)) j)).
  assert (Hperm : nonces t (K ++ t_encryptionQ t) ≡ₚ omap nonce_of l ++ nonces t (K ++ q)).
  { unfold nonces. rewrite Hq, <- !flat_map_concat_map. rewrite <- Permutation_middle. done. }
  pose proof (pi_nonces _ _ _ HP) as Hnn. rewrite Hperm in Hnn. apply NoDup_app in Hnn as (Hn1 & Hn2 & Hn3).
  assert (HcK : c ∉ K) by (intros Hk; by destruct (pi_queue _ _ _ HP Busy c Hc Hk)).
  assert (Hkept : seals_kept t t') by (intros k n Hin; split; [|done]; apply elem_of_app; by right).
  assert (Hse : forall e, sealed t e -> sealed t' e) by (intros e; by apply sealed_mono).
  assert (Hnew : Forall (sealed t') (map (encrypt_at t) l)).
  { apply Forall_map. apply Forall_forall. intros e He. rewrite Forall_forall in Hwait.
    destruct (Hwait e He) as (k & Hk & _). unfold encrypt_at. rewrite Hk.
    exists k. split; [done|]. split; [|by eexists]. apply elem_of_app. left. apply list_elem_of_omap. exists e. split; [done|].
    unfold nonce_of. by rewrite Hk. }
  assert (Hq' : forall x, x ∈ K ++ q -> x ∈ K ++ t_encryptionQ t /\ x <> c).
  { intros x Hx. rewrite Hq. split; [set_solver|]. intros ->. set_solver. }
  split.
  - apply HP.
  - apply HP.
  - apply HP.
  - apply HP.
  - intros x Hx. apply HP. rewrite Hq. by right.
  - intros o x Hx. apply HP. rewrite Hq. by right.
  - done.
  - intros o x Ho Ht. rewrite Ec. case_decide; [done|]. by apply (pi_open _ _ _ HP o).
  - intros x [Hx Hne]%Hq'. rewrite Ec, decide_False by done. by apply (pi_locked _ _ _ HP).
  - intros p x Ho Hx. rewrite Ec. case_decide; [by subst|].
    destruct (pi_out _ _ _ HP p x Ho) as [H1 H2]; [rewrite Hq; set_solver|]. split; [done|]. by eapply Forall_impl.
  - intros x Hx. pose proof (Hq' x Hx) as [Hx' Hne]. rewrite Ec, decide_False by done.
    pose proof (pi_waiting _ _ _ HP x Hx') as Hw. rewrite Forall_forall in Hw |- *. intros e He.
    destruct (Hw e He) as (k & Hk & Ha & Hs). exists k. split; [done|]. split; [done|].
    intros [Hin|Hin]%elem_of_app; [|done]. apply (Hn2 _ Hin). eapply elem_of_nonces; [exact Hx|].
    apply list_elem_of_omap. exists e. split; [done|]. unfold nonce_of. by rewrite Hk.
  - change (t_encryptionQ t') with q. rewrite (nonces_eq t t'); [done|].
    intros x [_ Hne]%Hq'. by rewrite Ec, decide_False.
  - apply NoDup_app. split; [done|]. split; [|apply HP]. intros kn Hkn. by apply (waiting_nonces t l).
  - intros kn [Hkn|Hkn]%elem_of_app; [by apply (waiting_nonces t l)|by apply HP].
  - apply (wire_mono H K t); [done|done|]. by left.
Qed.

End Pipe.

(** ** The handlers *)

Section Primitives.
Context {C : Crypto} {B S : Type} `{!Bind B} `{!BindLog B} `{!SourceSink S}.
Abbreviation W := (Transport B S).
Implicit Types t : W.
Context (H K : list ContainerId).

Lemma preserves_psame {A} (m : M W A) : (forall t, psame t (fst (m t))) -> preserves (Pipe H K) m.
Proof. intros Hm t Ht. eapply Pipe_psame; [apply Hm|done]. Qed.

Lemma pipe_upd_peer p f : (forall x, oview (f x) = oview x) -> preserves (Pipe H K) (upd_peer (B:=B) (S:=S) p f).
Proof. intros Hf. apply preserves_psame. intros t. by apply psame_put_peer. Qed.
Lemma pipe_upd_handshake p f : preserves (Pipe H K) (upd_handshake (B:=B) (S:=S) p f).
Proof. by apply pipe_upd_peer. Qed.
Lemma pipe_upd_timers p f : preserves (Pipe H K) (upd_timers (B:=B) (S:=S) p f).
Proof. by apply pipe_upd_peer. Qed.
Lemma pipe_upd_keypair k f : (forall x, sview (f x) = sview x) -> preserves (Pipe H K) (upd_keypair (B:=B) (S:=S) k f).
Proof. intros Hf. apply preserves_psame. intros t. by apply psame_put_keypair. Qed.
Lemma pipe_modify f : (forall t, psame t (f t)) -> preserves (Pipe H K) (modify f).
Proof. intros Hf. by apply preserves_psame. Qed.
Lemma pipe_on_env {A} (m : M Env A) : preserves (Pipe H K) (on_env (B:=B) (S:=S) m).
Proof. apply preserves_psame. intros t. unfold on_env. destruct (m (t_env t)). by split; auto. Qed.
Lemma pipe_on_bind {A} (m : M B A) :
  (forall b d, d ∈ sent (fst (m b)) -> d ∈ sent b \/ handshake_message (B:=B) (S:=S) d) ->
  preserves (Pipe H K) (on_bind (B:=B) (S:=S) m).
Proof.
  intros Hm. apply preserves_psame. intros t. unfold on_bind. specialize (Hm (t_bind t)).
  destruct (m (t_bind t)). by split; auto.
Qed.
Lemma pipe_bind_Open port : preserves (Pipe H K) (on_bind (B:=B) (S:=S) (bind_Open port)).
Proof. apply pipe_on_bind. intros b d Hd. left. by eapply sent_Open. Qed.
Lemma pipe_bind_Close : preserves (Pipe H K) (on_bind (B:=B) (S:=S) bind_Close).
Proof. apply pipe_on_bind. intros b d Hd. left. by eapply sent_Close. Qed.
Lemma pipe_on_sink {A} (m : M S A) : preserves (Pipe H K) (on_sink (B:=B) (S:=S) m).
Proof. apply preserves_psame. intros t. unfold on_sink. destruct (m (t_sink t)). by split; auto. Qed.
Lemma pipe_now : preserves (Pipe H K) (now (B:=B) (S:=S)).
Proof. apply pipe_on_env. Qed.
Lemma pipe_since u : preserves (Pipe H K) (since (B:=B) (S:=S) u).
Proof. apply pipe_on_env. Qed.
Lemma pipe_upd_table f : preserves (Pipe H K) (upd_table (B:=B) (S:=S) f).
Proof. apply preserves_psame. intros t. by split; auto. Qed.
Lemma pipe_upd_in c f : preserves (Pipe H K) (upd_in (B:=B) (S:=S) c f).
Proof. apply preserves_psame. intros t. by split; auto. Qed.
Lemma pipe_fresh : preserves (Pipe H K) (fresh (B:=B) (S:=S)).
Proof. apply preserves_psame. intros t. split; auto. simpl. lia. Qed.
Lemma pipe_Put c : preserves (Pipe H K) (PutOutboundElementsContainer (B:=B) (S:=S) c).
Proof. intros t. apply Pipe_empty. Qed.

(** The keypair is exhausted. *)
Lemma pipe_exhaust k : preserves (Pipe H K) (upd_keypair (B:=B) (S:=S) k (set_kp_sendNonce RejectAfterMessages)).
Proof.
  intros t HP. assert (Hk : forall j, kp_send (keypair_at (put_keypair k (set_kp_sendNonce RejectAfterMessages) t) j) = kp_send (keypair_at t j) /\
    kp_remoteIndex (keypair_at (put_keypair k (set_kp_sendNonce RejectAfterMessages) t) j) = kp_remoteIndex (keypair_at t j) /\
    kp_sendNonce (keypair_at t j) <= kp_sendNonce (keypair_at (put_keypair k (set_kp_sendNonce RejectAfterMessages) t) j) <= RejectAfterMessages).
  { intros j. pose proof (pi_limit _ _ _ HP j). rewrite keypair_at_put_keypair. case_decide; [subst|]; split_and!; simpl; done || lia. }
  assert (Hkept : seals_kept t (put_keypair k (set_kp_sendNonce RejectAfterMessages) t)).
  { intros j n Hin. destruct (Hk j) as (E1 & E2 & _). done. }
  split; try apply HP.
  - intros j. pose proof (Hk j) as (_ & _ & ?). pose proof (pi_limit _ _ _ HP j). simpl in *. lia.
  - intros j n Hin%(pi_below _ _ _ HP). pose proof (Hk j) as (_ & _ & ?). simpl in *. lia.
  - intros p c Ho Hq. destruct (pi_out _ _ _ HP p c Ho Hq) as [H1 H2]. split; [done|].
    eapply Forall_impl; [exact H2|]. intros e. by apply sealed_mono.
  - apply (wire_mono H K t); [done|done|]. by left.
Qed.

(** The slots of a peer hold keypairs that exist. *)
Lemma Pipe_slots p ks t : Pipe H K t -> (forall k, owns ks k -> (k < t_fresh t)%nat) ->
  Pipe H K (put_peer p (set_p_keypairs ks) t).
Proof.
  intros HP Hk. set (t' := put_peer p _ t).
  assert (Eo : forall o, has H K t' o = has H K t o).
  { intros [| |q|q]; simpl; try done; unfold t'; rewrite peer_at_put_peer; case_decide; by subst. }
  split; try apply HP.
  - intros q k. unfold kps_at, t'. rewrite peer_at_put_peer. case_decide; [apply Hk|apply HP].
  - destruct (pi_owned _ _ _ HP) as [Hb Hd Hu]. split; intros *; rewrite !Eo; eauto.
  - intros o c. rewrite Eo. apply HP.
  - intros o c. rewrite Eo. apply HP.
  - intros q c. rewrite Eo. apply HP.
Qed.

End Primitives.

#[export] Hint Resolve pipe_upd_handshake pipe_upd_timers pipe_on_env pipe_bind_Open pipe_bind_Close pipe_on_sink pipe_now pipe_since
  pipe_upd_table pipe_upd_in pipe_fresh pipe_Put pipe_exhaust : preserves.
#[export] Hint Extern 2 (preserves (Pipe _ _) (upd_peer _ _)) => (apply pipe_upd_peer; reflexivity) : preserves.
#[export] Hint Extern 3 (preserves (Pipe _ _) (upd_keypair _ _)) => (apply pipe_upd_keypair; reflexivity) : preserves.
#[export] Hint Extern 2 (preserves (Pipe _ _) (modify _)) => (apply pipe_modify; intros ?; solve [split; auto]) : preserves.
#[export] Hint Extern 1 (preserves (Pipe _ _) (get_peer _)) => apply preserves_gets : preserves.
#[export] Hint Extern 1 (preserves (Pipe _ _) (get_keypair _)) => apply preserves_gets : preserves.
#[export] Hint Extern 1 (preserves (Pipe _ _) (get_handshake _)) => apply preserves_gets : preserves.
#[export] Hint Extern 1 (preserves (Pipe _ _) isClosed) => apply preserves_gets : preserves.
#[export] Hint Extern 1 (preserves (Pipe _ _) isUp) => apply preserves_gets : preserves.
#[export] Hint Extern 1 (preserves (Pipe _ _) (table_Delete _)) => apply pipe_upd_table : preserves.
#[export] Hint Extern 1 (preserves (Pipe _ _) (table_Lookup _)) => apply preserves_gets : preserves.

Section Handlers.
Context {C : Crypto} {B S : Type} `{!Bind B} `{!BindLog B} `{!SourceSink S}.
Abbreviation W := (Transport B S).
Implicit Types t : W.
Context (H K : list ContainerId).
Abbreviation keeps m := (preserves (Pipe H K) m) (only parsing).

(** *** Handshakes and timers *)

Lemma new_index_pipe p : keeps (NewIndexForHandshake (B:=B) (S:=S) p).
Proof. unfold NewIndexForHandshake. induction index_fuel as [|n IH]; cbn [new_index_loop]; preserves_tac. Qed.
Lemma DeleteKeypair_pipe k : keeps (DeleteKeypair (B:=B) (S:=S) k).
Proof. unfold DeleteKeypair. preserves_tac. Qed.
Lemma CreateMessageInitiation_pipe p : keeps (CreateMessageInitiation (B:=B) (S:=S) p).
Proof. unfold CreateMessageInitiation. preserves_tac. apply new_index_pipe. Qed.
Lemma ConsumeMessageInitiation_pipe m : keeps (ConsumeMessageInitiation (B:=B) (S:=S) m).
Proof. unfold ConsumeMessageInitiation. preserves_tac. Qed.
Lemma CreateMessageResponse_pipe p : keeps (CreateMessageResponse (B:=B) (S:=S) p).
Proof. unfold CreateMessageResponse. preserves_tac. apply new_index_pipe. Qed.
Lemma ConsumeMessageResponse_pipe m : keeps (ConsumeMessageResponse (B:=B) (S:=S) m).
Proof. unfold ConsumeMessageResponse. preserves_tac. Qed.

Lemma rotate_pipe p b k t : Pipe H K t -> (k < t_fresh t)%nat -> Pipe H K (fst (rotate_keypairs (B:=B) (S:=S) p b k t)).
Proof.
  intros HP Hk. rewrite rotate_keypairs_slots. eapply Pipe_psame; [|apply Pipe_slots; [exact HP|]]; [by split; auto|].
  pose proof (pi_slots _ _ _ HP p) as Hs. intros j. unfold rotated. destruct b; intros [E|[E|E]]; simplify_eq/=; try done.
  - destruct (next (kps_at t p)) eqn:En; simplify_eq; apply Hs; unfold owns; auto.
  - apply Hs. by left.
Qed.

Lemma new_keypair_psame kp t : kp_sendNonce kp = 0 -> psame t (fst (new_keypair (B:=B) (S:=S) kp t)).
Proof.
  intros H0. assert (E : forall j, keypair_at (fst (new_keypair kp t)) j = if decide (t_fresh t = j) then kp else keypair_at t j)
    by (intros j; exact (keypair_at_new (t_fresh t) kp (Datatypes.S (t_fresh t)) t j)).
  split; auto.
  - intros j Hj. rewrite E. by rewrite decide_False by lia.
  - intros j. rewrite E. case_decide; auto.
  - simpl. lia.
Qed.

Lemma BeginSymmetricSession_pipe p : keeps (BeginSymmetricSession (B:=B) (S:=S) p).
Proof.
  unfold BeginSymmetricSession. apply preserves_bind; [apply preserves_gets|]. intros h.
  destruct (session_keys h) as [[[b sk] rk]|]; [|apply preserves_ret].
  do 4 (apply preserves_bind; [preserves_tac|intros _]).
  apply preserves_bind; [preserves_tac|]. intros created t HP. set (kp := mkKeypair _ _ _ _ _ _ _ _).
  pose proof (Pipe_psame H K _ _ (new_keypair_psame kp t eq_refl) HP) as HP1.
  rewrite bind_new_keypair, bind_Swap, bind_upd_handshake, fst_bind_ret. apply rotate_pipe.
  - eapply Pipe_psame; [apply psame_put_peer; reflexivity|]. eapply Pipe_psame; [|exact HP1]. by split; auto.
  - simpl. lia.
Qed.

Lemma ReceivedWithKeypair_pipe p k : keeps (ReceivedWithKeypair (B:=B) (S:=S) p k).
Proof.
  unfold ReceivedWithKeypair. apply preserves_gets_bind. intros t HP. destruct (negb _); [done|].
  pose proof (pi_slots _ _ _ HP p) as Hs. fold (kps_at t p). set (ks := kps_at t p) in *.
  rewrite bind_upd_peer. set (t1 := put_peer p _ t).
  assert (HP1 : Pipe H K t1).
  { apply Pipe_slots; [done|]. intros j [E|[E|E]]; simpl in E; apply Hs; unfold owns; auto. }
  unfold bind at 1. pose proof (DeleteKeypair_pipe (previous ks) t1 HP1) as HP2.
  assert (Ef : t_fresh (fst (DeleteKeypair (previous ks) t1)) = t_fresh t) by (by destruct (previous ks)).
  destruct (DeleteKeypair (previous ks) t1) as [t2 u]. simpl in *.
  apply Pipe_slots; [done|]. intros j [E|[E|E]]; simpl in E; try done; rewrite Ef; apply Hs; unfold owns; auto.
Qed.

Lemma timersActive_pipe p : keeps (timersActive (B:=B) (S:=S) p).
Proof. unfold timersActive. preserves_tac. Qed.
Lemma jitter_pipe : keeps (jitter (B:=B) (S:=S)).
Proof. unfold jitter. preserves_tac. Qed.
#[local] Hint Resolve timersActive_pipe jitter_pipe : preserves.
Lemma timersDataSent_pipe p : keeps (timersDataSent (B:=B) (S:=S) p).
Proof. unfold timersDataSent. preserves_tac. Qed.
Lemma timersDataReceived_pipe p : keeps (timersDataReceived (B:=B) (S:=S) p).
Proof. unfold timersDataReceived. preserves_tac. Qed.
Lemma timersAuthSent_pipe p : keeps (timersAnyAuthenticatedPacketSent (B:=B) (S:=S) p).
Proof. unfold timersAnyAuthenticatedPacketSent. preserves_tac. Qed.
Lemma timersAuthReceived_pipe p : keeps (timersAnyAuthenticatedPacketReceived (B:=B) (S:=S) p).
Proof. unfold timersAnyAuthenticatedPacketReceived. preserves_tac. Qed.
Lemma timersInitiated_pipe p : keeps (timersHandshakeInitiated (B:=B) (S:=S) p).
Proof. unfold timersHandshakeInitiated. preserves_tac. Qed.
Lemma timersComplete_pipe p : keeps (timersHandshakeComplete (B:=B) (S:=S) p).
Proof. unfold timersHandshakeComplete. preserves_tac. Qed.
Lemma timersDerived_pipe p : keeps (timersSessionDerived (B:=B) (S:=S) p).
Proof. unfold timersSessionDerived. preserves_tac. Qed.
Lemma timersTraversal_pipe p : keeps (timersAnyAuthenticatedPacketTraversal (B:=B) (S:=S) p).
Proof. unfold timersAnyAuthenticatedPacketTraversal. preserves_tac. Qed.
(** A handler whose next step depends on an answer. *)
Lemma preserves_bind_answer {A D} (m : M W A) (k : A -> M W D) :
  keeps m -> (forall t a, snd (m t) = a -> keeps (k a)) -> keeps (bind m k).
Proof.
  intros Hm Hk t Ht. unfold bind. specialize (Hm t Ht). specialize (Hk t _ eq_refl).
  destruct (m t) as [t' a]. by apply Hk.
Qed.

Lemma SendBuffers_pipe p bufs : Forall (handshake_message (B:=B) (S:=S)) bufs -> keeps (SendBuffers (B:=B) (S:=S) p bufs).
Proof.
  intros Hb. unfold SendBuffers. preserves_tac. apply pipe_on_bind. intros b' d [Hd|Hd]%sent_Send; [right|by left].
  rewrite Forall_forall in Hb. by apply Hb.
Qed.
Lemma peer_AddMacs_pipe p m : keeps (peer_AddMacs (B:=B) (S:=S) p m).
Proof. unfold peer_AddMacs. preserves_tac. Qed.
Lemma SetEndpoint_pipe p ep : keeps (SetEndpointFromPacket (B:=B) (S:=S) p ep).
Proof. unfold SetEndpointFromPacket. preserves_tac. Qed.
Lemma SendHandshakeCookie_pipe e : keeps (SendHandshakeCookie (B:=B) (S:=S) e).
Proof.
  unfold SendHandshakeCookie. apply preserves_bind; [preserves_tac|intros checker].
  apply preserves_bind_answer; [preserves_tac|]. intros t [checker' reply] E.
  apply preserves_bind; [preserves_tac|intros _]. destruct reply as [reply|]; [|preserves_tac].
  apply pipe_on_bind. intros b d [Hd|Hd]%sent_Send; [right|by left]. apply list_elem_of_singleton in Hd as ->.
  eapply (is_cookie_reply checker (he_packet e) (le_get (slice 4 8 (he_packet e))) (DstToBytes (he_endpoint e)) (t_env t)).
  unfold on_env in E. by destruct (CreateReply _ _ _ _ (t_env t)) as [env [? ?]]; simplify_eq/=.
Qed.

End Handlers.

#[export] Hint Resolve DeleteKeypair_pipe CreateMessageInitiation_pipe ConsumeMessageInitiation_pipe
  CreateMessageResponse_pipe ConsumeMessageResponse_pipe BeginSymmetricSession_pipe ReceivedWithKeypair_pipe
  timersActive_pipe jitter_pipe timersDataSent_pipe timersDataReceived_pipe timersAuthSent_pipe
  timersAuthReceived_pipe timersInitiated_pipe timersComplete_pipe timersDerived_pipe timersTraversal_pipe
  peer_AddMacs_pipe SetEndpoint_pipe SendHandshakeCookie_pipe : preserves.


(** *** Staging and numbering *)

(** Walks a handler up to a call whose answer matters. *)
Ltac preserves_upto f :=
  repeat lazymatch goal with
  | |- preserves _ (bind ?m _) => lazymatch m with context [f] => fail | _ => preserves_step end
  | |- _ => preserves_step
  end.

Section Outbound.
Context {C : Crypto} {B S : Type} `{!Bind B} `{!BindLog B} `{!SourceSink S}.
Abbreviation W := (Transport B S).
Implicit Types t : W.

Lemma SendHandshakeInitiation_pipe H K p r : preserves (Pipe H K) (SendHandshakeInitiation (B:=B) (S:=S) p r).
Proof.
  unfold SendHandshakeInitiation. preserves_upto (CreateMessageInitiation (B:=B) (S:=S) p).
  apply preserves_bind_answer; [preserves_tac|]. intros t [err|msg] E; [preserves_tac|].
  apply preserves_bind_answer; [preserves_tac|]. intros t' packet <-. preserves_tac.
  apply SendBuffers_pipe. constructor; [by eapply is_initiation|constructor].
Qed.
Lemma SendHandshakeResponse_pipe H K p : preserves (Pipe H K) (SendHandshakeResponse (B:=B) (S:=S) p).
Proof.
  unfold SendHandshakeResponse. preserves_upto (CreateMessageResponse (B:=B) (S:=S) p).
  apply preserves_bind_answer; [preserves_tac|]. intros t [err|msg] E; [preserves_tac|].
  apply preserves_bind_answer; [preserves_tac|]. intros t' packet <-. preserves_tac.
  apply SendBuffers_pipe. constructor; [by eapply is_response|constructor].
Qed.
#[local] Hint Resolve SendHandshakeInitiation_pipe SendHandshakeResponse_pipe : preserves.
Lemma keepKeyFreshSending_pipe H K p : preserves (Pipe H K) (keepKeyFreshSending (B:=B) (S:=S) p).
Proof. unfold keepKeyFreshSending. preserves_tac. Qed.

Lemma StagePackets_pipe H K p c t : Pipe (c :: H) K t -> Pipe H K (fst (StagePackets (B:=B) (S:=S) p c t)).
Proof.
  intros HP. unfold StagePackets. rewrite bind_get_peer. destruct (_ <? _)%nat.
  - by apply (Pipe_stage H K t p c).
  - destruct (p_staged (peer_at t p)) as [|tooOld q] eqn:E; [by apply Pipe_hand_free in HP as [? _]|].
    assert (HP1 := pipe_Put (c :: H) K tooOld t HP).
    change (fst (bind (PutOutboundElementsContainer tooOld) ?f t)) with (fst (f tt (fst (PutOutboundElementsContainer tooOld t)))).
    apply (Pipe_stage H K _ p c); [done|]. change (p_staged (peer_at (fst (PutOutboundElementsContainer tooOld t)) p)) with (p_staged (peer_at t p)).
    rewrite E. by apply sublist_cons.
Qed.

Lemma new_out_pipe H K elems t : Pipe H K t ->
  let '(t', c) := new_out_container (B:=B) (S:=S) elems t in Pipe (c :: H) K t'.
Proof. exact (Pipe_new H K t elems). Qed.

Lemma set_staged_nil_pipe H K p : preserves (Pipe H K) (set_staged (B:=B) (S:=S) p []).
Proof.
  intros t HP. change (Pipe H K (put_peer p (set_p_staged []) t)).
  eapply Pipe_drop; [by apply handed_put_peer|exact HP|]. intros o. rewrite has_put_staged.
  case_decide; [apply sublist_nil_l|done].
Qed.
Lemma FlushStagedPackets_pipe H K p : preserves (Pipe H K) (FlushStagedPackets (B:=B) (S:=S) p).
Proof. unfold FlushStagedPackets. preserves_tac. apply set_staged_nil_pipe. Qed.

(** One nonce more. *)
Lemma Pipe_assign H K t k (n := kp_sendNonce (keypair_at t k)) :
  Pipe H K t -> (k < t_fresh t)%nat -> n < RejectAfterMessages ->
  Pipe H K (set_t_assigned ((k, n) :: t_assigned t) (put_keypair k (set_kp_sendNonce (n + 1)) t)).
Proof.
  intros HP Hk Hn. set (t' := set_t_assigned _ _).
  assert (E : forall j, keypair_at t' j = if decide (k = j) then set_kp_sendNonce (n + 1) (keypair_at t k) else keypair_at t j)
    by (intros j; exact (keypair_at_put_keypair k (set_kp_sendNonce (n + 1)) t j)).
  assert (Hkept : seals_kept t t') by (intros j m Hin; split; [done|]; rewrite E; case_decide; by subst).
  split; try apply HP.
  - intros j. rewrite E. pose proof (pi_limit _ _ _ HP k) as Hl. fold n in Hl. case_decide; [simpl; lia|apply HP].
  - intros j m. rewrite E. intros [[= -> ->]|Hin]%elem_of_cons; [rewrite decide_True by done; simpl; lia|].
    apply (pi_below _ _ _ HP) in Hin. case_decide as Ej; [|done]. rewrite <- Ej in Hin. fold n in Hin. simpl. lia.
  - intros p c Ho Hq. destruct (pi_out _ _ _ HP p c Ho Hq) as [H1 H2]. split; [done|].
    eapply Forall_impl; [exact H2|]. intros e. by apply sealed_mono.
  - intros c Hc. eapply Forall_impl; [by apply (pi_waiting _ _ _ HP)|]. intros e (j & Hj & Ha & Hs).
    exists j. split; [done|]. split; [by right|done].
  - intros kn Hkn. right. by apply HP.
  - apply (wire_mono H K t); [done|done|]. by left.
Qed.

(** What numbering leaves alone. *)
Record counts t t' : Prop := {
  co_peers : t_peers t' = t_peers t;
  co_out : t_outContainers t' = t_outContainers t;
  co_queue : t_encryptionQ t' = t_encryptionQ t;
  co_fresh : t_fresh t' = t_fresh t;
  co_sealed : t_sealed t' = t_sealed t;
  co_assigned kn : kn ∈ t_assigned t -> kn ∈ t_assigned t';
}.

Lemma assign_pipe H K p k l : forall t, Pipe H K t -> (k < t_fresh t)%nat ->
  let '(t', (kept, ooo)) := assign_nonces (B:=B) (S:=S) p k l t in
  Pipe H K t' /\ counts t t' /\ Forall (waiting t') kept /\ NoDup (omap nonce_of kept) /\
  forall kn, kn ∈ omap nonce_of kept -> kn ∉ t_assigned t.
Proof.
  induction l as [|e l IH]; intros t HP Hk.
  { simpl. split; [done|]. split; [by split|]. split; [constructor|]. split; [constructor|]. by intros kn ?%elem_of_nil. }
  cbn [assign_nonces]. unfold sendNonce_Add.
  rewrite bind_assoc, bind_get_keypair, bind_assoc, bind_upd_keypair, bind_ret.
  pose proof (pi_limit _ _ _ HP k) as Hl. set (n := kp_sendNonce (keypair_at t k)) in *.
  destruct (sendNonce_small n Hl) as [-> ->]. destruct (Z.leb_spec RejectAfterMessages n) as [Hr|Hr].
  - rewrite bind_upd_keypair, put_keypair_fuse. set (t1 := put_keypair k _ t).
    assert (HP1 : Pipe H K t1) by (by apply (pipe_exhaust H K k)).
    unfold bind. specialize (IH t1 HP1 Hk). destruct (assign_nonces p k l t1) as [t' [kept ooo]].
    destruct IH as (HP' & [C1 C2 C3 C4 C5 C6] & Hw & Hnd & Hf). simpl. split; [done|]. split; [by split|]. done.
  - unfold bind at 1, modify. set (t1 := set_t_assigned _ _).
    assert (HP1 : Pipe H K t1) by (exact (Pipe_assign H K t k HP Hk Hr)).
    unfold bind. specialize (IH t1 HP1 Hk). destruct (assign_nonces p k l t1) as [t' [kept ooo]].
    destruct IH as (HP' & [C1 C2 C3 C4 C5 C6] & Hw & Hnd & Hf).
    assert (Hin : (k, n) ∈ t_assigned t') by (apply C6; by left).
    assert (Hnew : (k, n) ∉ t_assigned t).
    { intros Ha. apply (pi_below _ _ _ HP) in Ha as [Ha _]. unfold n in Ha. lia. }
    simpl. split; [done|]. split; [split; try done; intros; apply C6; by right|]. split; [|split].
    + constructor; [|done]. exists k. split; [done|]. split; [done|]. simpl. rewrite C5.
      intros Hs. by apply Hnew, (pi_sealed_assigned _ _ _ HP).
    + apply NoDup_cons. split; [|done]. intros Hk'. apply Hf in Hk'. apply Hk'. by left.
    + intros kn [->|Hkn]%elem_of_cons; [done|]. apply Hf in Hkn. intros Ha. apply Hkn. by right.
Qed.

Lemma queued_assigned H K t kn : Pipe H K t -> kn ∈ nonces t (K ++ t_encryptionQ t) -> kn ∈ t_assigned t.
Proof.
  intros HP Hkn. unfold nonces in Hkn. apply list_elem_of_In, in_concat in Hkn as (l & Hl & Hkn).
  apply in_map_iff in Hl as (c & <- & Hc%list_elem_of_In). apply list_elem_of_In in Hkn.
  by eapply waiting_nonces; [by apply (pi_waiting _ _ _ HP)|].
Qed.

Lemma dispatch_pipe H K p c t : Pipe H (c :: K) t -> Pipe H K (fst (dispatch (B:=B) (S:=S) p c t)).
Proof.
  intros HP. unfold dispatch. rewrite bind_get_peer. destruct (p_isRunning _).
  - exact (Pipe_dispatch H K t p c HP).
  - apply (pipe_Put H K c). by eapply Pipe_unlock.
Qed.

Lemma send_staged_pipe fuel : forall H K p at_ t, Pipe H K t -> (forall k, at_ = Some k -> (k < t_fresh t)%nat) ->
  Pipe H K (fst (send_staged_loop (B:=B) (S:=S) fuel p at_ t)).
Proof.
  induction fuel as [|fuel IH]; intros H K p at_ t HP Hat; [done|].
  cbn [send_staged_loop]. rewrite bind_get_peer.
  assert (Hinit : preserves (Pipe H K) (let* err := SendHandshakeInitiation (B:=B) (S:=S) p false in ret (Some err))) by preserves_tac.
  destruct at_ as [k|].
  - specialize (Hat k eq_refl). destruct (p_staged (peer_at t p)) as [|c q] eqn:Hq; [done|].
    unfold set_staged. rewrite bind_upd_peer, bind_gets. set (t1 := put_peer p _ t).
    assert (HP1 : Pipe (c :: H) K t1) by (by apply Pipe_unstage).
    pose proof (assign_pipe (c :: H) K p k (oc_elems (out_at t1 c)) t1 HP1 Hat) as Ha.
    unfold bind at 1. destruct (assign_nonces p k _ t1) as [t2 [kept ooo]].
    destruct Ha as (HP2 & Hco & Hw & Hnd & Hf).
    assert (HP3 : Pipe H (c :: K) (put_out c (fun _ => mkOutContainer true kept) t2)).
    { apply Pipe_lock; [done|done|]. apply NoDup_app. split; [done|]. split; [|apply HP2].
      intros kn Hkn Hin. apply (Hf kn Hkn).
      rewrite (co_queue _ _ Hco), (nonces_eq t1 t2) in Hin by (intros x _; unfold out_at; by rewrite (co_out _ _ Hco)).
      by eapply queued_assigned. }
    change (bind (upd_out c (fun _ => mkOutContainer true kept)) ?f t2) with (f tt (put_out c (fun _ => mkOutContainer true kept) t2)).
    assert (Hf3 : t_fresh (put_out c (fun _ => mkOutContainer true kept) t2) = t_fresh t) by (simpl; by rewrite (co_fresh _ _ Hco)).
    cbv beta. set (t3 := put_out c _ t2) in *. clearbody t3.
    assert (Hooo : exists t4, (match ooo with [] => ret tt | _ => let* c' := new_out_container ooo in StagePackets p c' end) t3 = (t4, tt) /\
      Pipe H (c :: K) t4 /\ (t_fresh t <= t_fresh t4)%nat).
    { destruct ooo as [|e ooo]; [exists t3; split; [done|]; split; [done|lia]|].
      pose proof (new_out_pipe H (c :: K) (e :: ooo) t3 HP3) as Hn. unfold bind.
      destruct (new_out_container (e :: ooo) t3) as [t4 c'] eqn:E4. pose proof (StagePackets_pipe H (c :: K) p c' t4 Hn) as Hs.
      assert (Ef : t_fresh (fst (StagePackets (B:=B) (S:=S) p c' t4)) = t_fresh t4).
      { unfold StagePackets. rewrite bind_get_peer. repeat case_match; done. }
      assert (t_fresh t4 = Datatypes.S (t_fresh t3)) by (by injection E4 as <- _).
      destruct (StagePackets p c' t4) as [t5 []]. exists t5. split; [done|]. split; [done|]. simpl in Ef. lia. }
    destruct Hooo as (t4 & E4 & HP4 & Hf4). unfold bind at 1. rewrite E4.
    destruct kept as [|e kept].
    + unfold bind. change (PutOutboundElementsContainer c t4) with (fst (PutOutboundElementsContainer (B:=B) (S:=S) c t4), tt).
      cbv iota beta. apply IH; [|done]. apply (pipe_Put H K c). by eapply Pipe_unlock.
    + pose proof (dispatch_pipe H K p c t4 HP4) as HP5. unfold bind.
      assert (Ef : t_fresh (fst (dispatch (B:=B) (S:=S) p c t4)) = t_fresh t4).
      { unfold dispatch. rewrite bind_get_peer. by destruct (p_isRunning _). }
      destruct (dispatch p c t4) as [t5 []]. simpl in HP5, Ef. destruct ooo; apply IH; try done.
      intros j [= <-]. lia.
  - unfold isUp. rewrite bind_gets. destruct (_ || _); [done|].
    destruct (current (p_keypairs (peer_at t p))) as [k|] eqn:Hk; [|by apply Hinit].
    rewrite bind_get_keypair. destruct (_ <=? _); [by apply Hinit|]. rewrite bind_since.
    assert (HP1 : Pipe H K (set_t_env (fst (time_Now (t_env t))) t)) by (eapply Pipe_psame; [|exact HP]; by split; auto).
    destruct (_ <=? _); [by apply Hinit|]. apply IH; [done|]. intros j [= <-]. simpl.
    apply (pi_slots _ _ _ HP p). by left.
Qed.

Lemma SendStagedPackets_pipe H K p : preserves (Pipe H K) (SendStagedPackets (B:=B) (S:=S) p).
Proof.
  unfold SendStagedPackets. preserves_tac. intros t HP. by apply send_staged_pipe.
Qed.

End Outbound.

End Pipeline.
