(* ===== verification/Scenario.v ===== *)
(** A concrete run of two transports with toy cryptography: a handshake started
    by a packet for the peer, the session it gives, and data both ways. *)
From S2P Require Import Prelude Replay RateLimiter Env Crypto Wire Cookie State Demo IndexTable Noise Timers Send Receive Lifecycle System.
From stdpp Require Import prelude gmap list strings.
Open Scope Z_scope.

Module Scenario.
Import Env.Env Crypto.Noise_helpers State.State Demo.Demo System.System.

#[local] Instance toy : Crypto := Toy.toy_crypto.

Abbreviation DSys := (Sys (B:=list (Endpoint * list bytes)) (S:=list bytes)).

(** The peer of each transport is at address 0. *)
Definition boot (me other : Z) : list Action :=
  [ActSetPrivateKey (demo_sk me); ActNewPeer (PublicKey (demo_sk other));
   ActSetEndpoint 0 (demo_endpoint other); ActUp].

Definition alice0 : DSys := initial [] [] (demo_env_at 1000).
Definition bob0 : DSys := initial [] [] (demo_env_at 2000).

(** The last datagram a transport sent. *)
Definition last_sent (s : DSys) : bytes :=
  match t_bind (sys_t s) with
  | (_, [b]) :: _ => b
  | _ => []
  end.

Definition packet1 : bytes := string_bytes "hello".
Definition packet2 : bytes := string_bytes "world!".

(** Alice reads a packet for Bob and sends an initiation. *)
Definition alice_acts1 : list Action := boot 1 2 ++ [ActRead [(packet1, PublicKey (demo_sk 2))]].
Definition alice1 : DSys := exec_all alice_acts1 alice0.

(** Bob consumes it and answers. *)
Definition bob_acts1 : list Action :=
  boot 2 1 ++ [ActReceive [inr [(last_sent alice1, demo_endpoint 1)]]; ActHandshake].
Definition bob1 : DSys := exec_all bob_acts1 bob0.

(** Alice completes the handshake; her packet leaves encrypted. *)
Definition alice_acts2 : list Action :=
  alice_acts1 ++ [ActReceive [inr [(last_sent bob1, demo_endpoint 2)]]; ActHandshake;
                  ActRead [(packet2, PublicKey (demo_sk 2))];
                  ActEncrypt; ActSender 0; ActEncrypt; ActSender 0].
Definition alice2 : DSys := exec_all alice_acts2 alice0.

(** Bob receives the two datagrams, one of them twice. *)
Definition datagrams (s : DSys) (n : nat) : list (bytes * Endpoint) :=
  map (fun b => (b, demo_endpoint 1)) (concat (map snd (rev (take n (t_bind (sys_t s)))))).
Definition bob_acts2 : list Action :=
  bob_acts1 ++ [ActReceive [inr (datagrams alice2 2)]; ActDecrypt; ActReceiver 0;
                ActReceive [inr (datagrams alice2 2)]; ActDecrypt; ActReceiver 0].
Definition bob2 : DSys := exec_all bob_acts2 bob0.

End Scenario.
