(* ===== verification/Sealed.v ===== *)
(** The runs of the transport keep the pipeline in order ([Pipeline.Pipe]): the
    rest of the handlers, the actions of the transition system, and what follows
    for what leaves the transport. *)
From S2P Require Import Prelude Replay RateLimiter Env Crypto Wire Cookie State Demo IndexTable Noise Timers Send Receive Lifecycle Invariant Keys Flow Frame System Pipeline Scenario.
From stdpp Require Import prelude gmap list.
Open Scope Z_scope.

Module Sealed.
Import Env.Env Crypto.Noise_helpers Wire.Wire Cookie.Cookie State.State Demo.Demo IndexTable.IndexTable
  Noise.Noise Timers.Timers Send.Send Receive.Receive Lifecycle.Lifecycle Invariant.Invariant
  Keys.Keys Flow.Flow Frame.Frame System.System Pipeline.Pipeline Scenario.Scenario.

#[export] Hint Resolve SendHandshakeInitiation_pipe SendHandshakeResponse_pipe keepKeyFreshSending_pipe
  FlushStagedPackets_pipe SendStagedPackets_pipe : preserves.

Section Sending.
Context {C : Crypto} {B S : Type} `{!Bind B} `{!BindLog B} `{!SourceSink S}.
Abbreviation W := (Transport B S).
Implicit Types t : W.

(** ** Sending *)

Lemma stage_keepalive_pipe H K p t : Pipe H K t ->
  Pipe H K (fst ((let* c := new_out_container (B:=B) (S:=S) [NewOutboundElement] in
                  set_staged p (p_staged (peer_at t p) ++ [c])) t)).
Proof.
  intros HP. pose proof (new_out_pipe H K [NewOutboundElement] t HP) as Hn. unfold bind.
  destruct (new_out_container _ t) as [t1 c] eqn:E. injection E as <- <-. by apply (Pipe_stage H K).
Qed.

Lemma SendKeepalive_pipe H K p : preserves (Pipe H K) (SendKeepalive (B:=B) (S:=S) p).
Proof.
  intros t HP. unfold SendKeepalive. rewrite bind_get_peer. unfold bind at 1.
  assert (HP1 : Pipe H K (fst (whenM (bool_decide (p_staged (peer_at t p) = []) && p_isRunning (peer_at t p))
     (let* c := new_out_container (B:=B) (S:=S) [NewOutboundElement] in
                  set_staged p (p_staged (peer_at t p) ++ [c])) t))).
  { destruct (_ && _); [by apply stage_keepalive_pipe|done]. }
  destruct (whenM _ _ t) as [t1 []]. by apply SendStagedPackets_pipe.
Qed.

Lemma RoutineEncryption_pipe H K : preserves (Pipe H K) (RoutineEncryption (B:=B) (S:=S)).
Proof.
  intros t HP. unfold RoutineEncryption. rewrite bind_gets. destruct (t_encryptionQ t) as [|c q] eqn:Hq; [done|].
  exact (Pipe_seal H K t c q HP Hq).
Qed.

(** The sentinel leaves the queue of a sender. *)
Lemma pop_none_pipe H K t p q : Pipe H K t -> p_outbound (peer_at t p) = None :: q ->
  Pipe H K (put_peer p (set_p_outbound q) t).
Proof.
  intros HP Hq. eapply Pipe_drop; [by apply handed_put_peer|exact HP|]. intros o. rewrite has_put_outbound.
  case_decide; [subst; simpl; by rewrite Hq|done].
Qed.

(** A batch of transport messages goes to the bind. *)
Lemma SendBuffers_sealed H K p bufs t : Pipe H K t ->
  Forall (fun d => exists k n, sealed_as t k n d) bufs -> Pipe H K (fst (SendBuffers (B:=B) (S:=S) p bufs t)).
Proof.
  intros HP Hb. unfold SendBuffers, isClosed. rewrite bind_gets. case_bool_decide; [done|].
  rewrite bind_get_peer. destruct (p_endpoint _) as [ep|]; [|done]. unfold bind at 1, on_bind.
  pose proof (sent_Send bufs ep (t_bind t)) as Hw. destruct (bind_Send bufs ep (t_bind t)) as [b r].
  assert (HP1 : Pipe H K (set_t_bind b t)).
  { split; try apply HP. intros d [Hd|Hd]%Hw; [right|by apply (pi_wire _ _ _ HP)].
    rewrite Forall_forall in Hb. exact (Hb d Hd). }
  destruct r; [done|]. apply (pipe_upd_peer H K p (fun x => set_p_txBytes (u64 (p_txBytes x + total_length bufs)) x)); done.
Qed.

Lemma sealed_alike t t' e : alike t t' -> sealed t e -> sealed t' e.
Proof.
  intros Ha. apply sealed_mono. intros k n.
  assert (E : forall j, keypair_at t' j = keypair_at t j) by (intros j; by apply (alike_view (fun t => keypair_at t j))).
  by rewrite (alike_view t_sealed _ _ Ha), E.
Qed.

(** What follows the hooks of the timers may rely on what the elements are. *)
Lemma after_hooks {A} H K (m : M W unit) (k : M W A) elems t :
  preserves (Pipe H K) m -> (forall t0, preserves (alike t0) m) ->
  (forall t', Pipe H K t' -> Forall (sealed t') elems -> Pipe H K (fst (k t'))) ->
  Pipe H K t -> Forall (sealed t) elems -> Pipe H K (fst ((m ;;; k) t)).
Proof.
  intros Hm Ha Hk HP Hs. unfold bind. specialize (Hm t HP). specialize (Ha t t (alike_refl t)).
  destruct (m t) as [t' []]. apply Hk; [done|]. eapply Forall_impl; [exact Hs|]. intros e. by apply sealed_alike.
Qed.

Lemma RoutineSequentialSender_pipe H K p : preserves (Pipe H K) (RoutineSequentialSender (B:=B) (S:=S) p).
Proof.
  intros t HP. unfold RoutineSequentialSender. rewrite bind_get_peer.
  destruct (p_outbound (peer_at t p)) as [|[c|] q] eqn:Hq; [done| |by eapply pop_none_pipe].
  rewrite bind_gets. destruct (oc_locked (out_at t c)) eqn:Hl; [done|].
  destruct (Pipe_pop H K t p c q HP Hq Hl) as [HP1 Hs].
  destruct (Pipe_hand_free _ _ _ _ HP1) as (HP2 & Hno & Hnq).
  rewrite bind_upd_peer. pose proof (Pipe_free H K _ c (fun x => mkOutContainer true (oc_elems x)) HP2 Hno Hnq) as HP3.
  change (bind (upd_out c (fun x => mkOutContainer true (oc_elems x))) ?f ?t) with
    (f tt (put_out c (fun x => mkOutContainer true (oc_elems x)) t)). cbv beta.
  destruct (negb _); [done|]. set (l := oc_elems (out_at t c)) in *. set (t1 := put_out c _ _) in *.
  change (Forall (sealed t1) l) in Hs. clearbody t1. clear HP HP1 HP2 Hno Hnq Hl.
  revert HP3 Hs. apply after_hooks; [apply timersTraversal_pipe|intros; apply timersTraversal_alike|].
  clear t1. intros t1 HP3 Hs. revert HP3 Hs. apply after_hooks; [apply timersAuthSent_pipe|intros; apply timersAuthSent_alike|].
  clear t1. intros t1 HP3 Hs. unfold bind at 1. pose proof (SendBuffers_sealed H K p (map oe_packet l) t1 HP3) as HP4.
  destruct (SendBuffers p (map oe_packet l) t1) as [t2 err]. match goal with |- Pipe _ _ (fst (?m _)) => assert (preserves (Pipe H K) m) as Hm end.
  { preserves_tac. }
  apply Hm, HP4. apply Forall_map. eapply Forall_impl; [exact Hs|]. intros e (k & _ & He). by exists k, (oe_nonce e).
Qed.

(** ** Reading *)

Lemma Pipe_perm H H' K t : H ≡ₚ H' -> Pipe H K t -> Pipe H' K t.
Proof.
  intros HH HP. pose proof (pi_owned _ _ _ HP) as Hown.
  assert (Hin : forall o x, x ∈ has H' K t o -> x ∈ has H K t o).
  { intros o x. rewrite (has_hand H). case_decide; [subst; by rewrite <- HH|done]. }
  eapply (Pipe_handed H); [by split|done| |by left; apply Hin].
  eapply owned_less; [done| |done]. intros o. rewrite (has_hand H). case_decide; [|apply Hown].
  rewrite <- HH. apply (ow_nodup _ _ Hown Hand).
Qed.

Definition conts (m : gmap PeerId ContainerId) : list ContainerId := map snd (map_to_list m).

Lemma group_packet_pipe K pkt m t : Pipe (conts m) K t ->
  let '(t', m') := group_packet (B:=B) (S:=S) pkt m t in Pipe (conts m') K t'.
Proof.
  intros HP. destruct pkt as [packet dst]. unfold group_packet. destruct (_ <? _)%nat; [done|].
  rewrite bind_gets. destruct (t_keyMap t !! dst) as [p|]; [|done]. destruct (m !! p) as [c|] eqn:Hm.
  - apply (Pipe_hand (conts m) K t c (fun x => mkOutContainer (oc_locked x) (oc_elems x ++ [mkOutElem packet 0 None None]))); [done| |done].
    apply list_elem_of_fmap. exists (p, c). split; [done|]. by apply elem_of_map_to_list.
  - pose proof (new_out_pipe (conts m) K [mkOutElem packet 0 None None] t HP) as Hn. unfold bind.
    destruct (new_out_container _ t) as [t1 c]. simpl. eapply Pipe_perm; [|exact Hn].
    unfold conts. by rewrite map_to_list_insert.
Qed.

Lemma group_packets_pipe K pkts : forall m t, Pipe (conts m) K t ->
  let '(t', m') := group_packets (B:=B) (S:=S) pkts m t in Pipe (conts m') K t'.
Proof.
  induction pkts as [|pkt pkts IH]; intros m t HP; [done|]. cbn [group_packets]. unfold bind.
  pose proof (group_packet_pipe K pkt m t HP) as H1. destruct (group_packet pkt m t) as [t1 m1]. by apply IH.
Qed.

Lemma stage_groups_pipe H K groups : forall m t, Pipe (map snd groups ++ H) K t ->
  Pipe H K (fst (stage_groups (B:=B) (S:=S) groups m t)).
Proof.
  induction groups as [|[p c] groups IH]; intros m t HP; [done|]. cbn [stage_groups]. rewrite bind_get_peer.
  destruct (p_isRunning _).
  - unfold bind. pose proof (StagePackets_pipe _ K p c t HP) as H1. destruct (StagePackets p c t) as [t1 []].
    pose proof (SendStagedPackets_pipe _ K p t1 H1) as H2. destruct (SendStagedPackets p t1) as [t2 [err|]]; by apply IH.
  - destruct (Pipe_hand_free _ _ _ _ HP) as (H1 & _). pose proof (pipe_Put _ K c t H1) as H2. unfold bind.
    destruct (PutOutboundElementsContainer c t) as [t1 u]. by apply IH.
Qed.

Lemma read_from_source_pipe K pkts t : Pipe [] K t ->
  Pipe [] K (fst (read_from_source (B:=B) (S:=S) pkts ∅ t)).
Proof.
  intros HP. unfold read_from_source, bind. pose proof (group_packets_pipe K pkts ∅ t) as Hg.
  destruct (group_packets pkts ∅ t) as [t1 m]. apply stage_groups_pipe. rewrite app_nil_r. apply Hg.
  unfold conts. by rewrite map_to_list_empty.
Qed.

End Sending.
#[export] Hint Resolve SendKeepalive_pipe RoutineEncryption_pipe RoutineSequentialSender_pipe : preserves.

(** ** Receiving *)

Section Receiving.
Context {C : Crypto} {B S : Type} `{!Bind B} `{!BindLog B} `{!SourceSink S}.
Abbreviation W := (Transport B S).
Implicit Types t : W.
Context (H K : list ContainerId).
Abbreviation keeps m := (preserves (Pipe H K) m) (only parsing).

Lemma keepKeyFreshReceiving_pipe p : keeps (keepKeyFreshReceiving (B:=B) (S:=S) p).
Proof. unfold keepKeyFreshReceiving. preserves_tac. Qed.
Lemma PutInbound_pipe c : keeps (PutInboundElementsContainer (B:=B) (S:=S) c).
Proof. unfold PutInboundElementsContainer. preserves_tac. Qed.
Lemma new_in_pipe elems : keeps (new_in_container (B:=B) (S:=S) elems).
Proof. unfold new_in_container. preserves_tac. Qed.
Lemma offer_handshake_pipe e : keeps (offer_handshake (B:=B) (S:=S) e).
Proof. unfold offer_handshake. apply pipe_modify. intros t. case_match; by split; auto. Qed.
#[local] Hint Resolve keepKeyFreshReceiving_pipe PutInbound_pipe new_in_pipe offer_handshake_pipe : preserves.
Lemma receive_packet_pipe pkt m : keeps (receive_packet (B:=B) (S:=S) pkt m).
Proof. destruct pkt. unfold receive_packet, receive_transport. preserves_tac. Qed.
#[local] Hint Resolve receive_packet_pipe : preserves.
Lemma receive_packets_pipe pkts : forall m, keeps (receive_packets (B:=B) (S:=S) pkts m).
Proof. induction pkts; intros m; cbn [receive_packets]; preserves_tac. Qed.
Lemma deliver_group_pipe g : keeps (deliver_group (B:=B) (S:=S) g).
Proof. destruct g. unfold deliver_group. preserves_tac. Qed.
#[local] Hint Resolve receive_packets_pipe deliver_group_pipe : preserves.
Lemma receive_batch_pipe pkts : keeps (receive_batch (B:=B) (S:=S) pkts).
Proof. unfold receive_batch. preserves_tac. Qed.
#[local] Hint Resolve receive_batch_pipe : preserves.
Lemma RoutineReceiveIncoming_pipe recvs : forall n, keeps (RoutineReceiveIncoming (B:=B) (S:=S) recvs n).
Proof. induction recvs as [|[[]|] recvs IH]; intros d; cbn [RoutineReceiveIncoming]; preserves_tac; auto. Qed.

Lemma RoutineDecryption_pipe : keeps (RoutineDecryption (B:=B) (S:=S)).
Proof. unfold RoutineDecryption. preserves_tac. Qed.

Lemma IsUnderLoad_pipe : keeps (IsUnderLoad (B:=B) (S:=S)).
Proof. unfold IsUnderLoad. preserves_tac. Qed.
Lemma limiter_Allow_pipe ip : keeps (limiter_Allow (B:=B) (S:=S) ip).
Proof. unfold limiter_Allow. preserves_tac. Qed.
#[local] Hint Resolve IsUnderLoad_pipe limiter_Allow_pipe : preserves.
Lemma check_macs_pipe e : keeps (check_macs (B:=B) (S:=S) e).
Proof. unfold check_macs. preserves_tac. Qed.
Lemma rxBytes_pipe p n : keeps (rxBytes_Add (B:=B) (S:=S) p n).
Proof. unfold rxBytes_Add. preserves_tac. Qed.
#[local] Hint Resolve check_macs_pipe rxBytes_pipe : preserves.
Lemma handle_cookie_reply_pipe e : keeps (handle_cookie_reply (B:=B) (S:=S) e).
Proof. unfold handle_cookie_reply. preserves_tac. Qed.
Lemma handle_initiation_pipe e : keeps (handle_initiation (B:=B) (S:=S) e).
Proof. unfold handle_initiation. preserves_tac. Qed.
Lemma handle_response_pipe e : keeps (handle_response (B:=B) (S:=S) e).
Proof. unfold handle_response. preserves_tac. Qed.
#[local] Hint Resolve handle_cookie_reply_pipe handle_initiation_pipe handle_response_pipe : preserves.
Lemma RoutineHandshake_pipe : keeps (RoutineHandshake (B:=B) (S:=S)).
Proof. unfold RoutineHandshake, handle_handshake. preserves_tac. Qed.

Lemma validate_counter_pipe k n : keeps (validate_counter (B:=B) (S:=S) k n).
Proof. unfold validate_counter. preserves_tac. Qed.
#[local] Hint Resolve validate_counter_pipe : preserves.
Lemma receive_elem_pipe p e l : keeps (receive_elem (B:=B) (S:=S) p e l).
Proof. unfold receive_elem. preserves_tac. Qed.
#[local] Hint Resolve receive_elem_pipe : preserves.
Lemma receive_elems_pipe p es : forall l, keeps (receive_elems (B:=B) (S:=S) p es l).
Proof. induction es; intros l; cbn [receive_elems]; preserves_tac. Qed.
Lemma flush_received_pipe p l c : keeps (flush_received (B:=B) (S:=S) p l c).
Proof. unfold flush_received. preserves_tac. Qed.
#[local] Hint Resolve receive_elems_pipe flush_received_pipe : preserves.
Lemma RoutineSequentialReceiver_pipe p : keeps (RoutineSequentialReceiver (B:=B) (S:=S) p).
Proof. unfold RoutineSequentialReceiver. preserves_tac. Qed.

End Receiving.
#[export] Hint Resolve PutInbound_pipe RoutineReceiveIncoming_pipe RoutineDecryption_pipe RoutineHandshake_pipe
  RoutineSequentialReceiver_pipe : preserves.

(** ** The life cycle *)

Section Life.
Context {C : Crypto} {B S : Type} `{!Bind B} `{!BindLog B} `{!SourceSink S}.
Abbreviation W := (Transport B S).
Implicit Types t : W.
Context (H K : list ContainerId).
Abbreviation keeps m := (preserves (Pipe H K) m) (only parsing).

Lemma zero_slots_pipe p : keeps (upd_peer (B:=B) (S:=S) p (set_p_keypairs (mkKeypairs None None None))).
Proof. intros t HP. apply (Pipe_slots H K p); [done|]. by intros k [|[|]]. Qed.
Lemma ZeroAndFlushAll_pipe p : keeps (ZeroAndFlushAll (B:=B) (S:=S) p).
Proof. unfold ZeroAndFlushAll. preserves_tac. apply zero_slots_pipe. Qed.
Lemma ExpireCurrentKeypairs_pipe p : keeps (ExpireCurrentKeypairs (B:=B) (S:=S) p).
Proof. unfold ExpireCurrentKeypairs. preserves_tac. Qed.
#[local] Hint Resolve ZeroAndFlushAll_pipe : preserves.
Lemma expired_pipe n p : keeps (expired (B:=B) (S:=S) n p).
Proof.
  destruct n; simpl; unfold expiredRetransmitHandshake, expiredSendKeepalive, expiredNewHandshake,
    expiredZeroKeyMaterial, expiredPersistentKeepalive; preserves_tac.
Qed.
#[local] Hint Resolve expired_pipe : preserves.
Lemma timer_fires_pipe n p : keeps (timer_fires (B:=B) (S:=S) n p).
Proof. unfold timer_fires. preserves_tac. Qed.

Lemma flushInbound_pipe p : keeps (flushInboundQueue (B:=B) (S:=S) p).
Proof. unfold flushInboundQueue. preserves_tac. Qed.
Lemma clear_outbound_pipe p : keeps (upd_peer (B:=B) (S:=S) p (set_p_outbound [])).
Proof.
  intros t HP. eapply (Pipe_drop H H K t (put_peer p (set_p_outbound []) t)); [by apply handed_put_peer|done|]. intros o.
  rewrite has_put_outbound. case_decide; [apply sublist_nil_l|done].
Qed.
Lemma flushOutbound_pipe p : keeps (flushOutboundQueue (B:=B) (S:=S) p).
Proof. unfold flushOutboundQueue. preserves_tac. apply clear_outbound_pipe. Qed.
Lemma timersStart_pipe p : keeps (timersStart (B:=B) (S:=S) p).
Proof. unfold timersStart. preserves_tac. Qed.
Lemma timersStop_pipe p : keeps (timersStop (B:=B) (S:=S) p).
Proof. unfold timersStop. preserves_tac. Qed.
Lemma SetPresharedKey_pipe p psk : keeps (SetPresharedKey (B:=B) (S:=S) p psk).
Proof. unfold SetPresharedKey. preserves_tac. Qed.
#[local] Hint Resolve flushInbound_pipe flushOutbound_pipe timersStart_pipe timersStop_pipe : preserves.
Lemma Start_pipe p : keeps (Start (B:=B) (S:=S) p).
Proof. unfold Start. preserves_tac. Qed.

Lemma turns_pipe n (m : M W Progress) : keeps m -> keeps (turns n m).
Proof. intros Hm. induction n; simpl; preserves_tac. Qed.
Lemma repeatM_pipe n (m : M W unit) : keeps m -> keeps (repeatM n m).
Proof. intros Hm. induction n; simpl; preserves_tac. Qed.
#[local] Hint Resolve turns_pipe repeatM_pipe : preserves.
Lemma stopping_Wait_pipe p : keeps (stopping_Wait (B:=B) (S:=S) p).
Proof. unfold stopping_Wait. preserves_tac. Qed.

Lemma push_none_pipe p : keeps (upd_peer (B:=B) (S:=S) p (fun x => set_p_outbound (p_outbound x ++ [None]) x)).
Proof. apply pipe_upd_peer. intros x. unfold oview. simpl. by rewrite omap_app, app_nil_r. Qed.
#[local] Hint Resolve stopping_Wait_pipe push_none_pipe : preserves.
Lemma Stop_pipe p : keeps (Stop (B:=B) (S:=S) p).
Proof. unfold Stop. preserves_tac. Qed.
#[local] Hint Resolve Stop_pipe Start_pipe ExpireCurrentKeypairs_pipe : preserves.
Lemma RemovePeer_pipe key : keeps (RemovePeer (B:=B) (S:=S) key).
Proof. unfold RemovePeer, removePeerLocked. preserves_tac. Qed.
Lemma RemoveAllPeers_pipe : keeps (RemoveAllPeers (B:=B) (S:=S)).
Proof. unfold RemoveAllPeers, removePeerLocked. preserves_tac. Qed.

Lemma BindUpdate_pipe : keeps (BindUpdate (B:=B) (S:=S)).
Proof. unfold BindUpdate, closeBindLocked. preserves_tac. Qed.
#[local] Hint Resolve BindUpdate_pipe RemoveAllPeers_pipe : preserves.
Lemma UpdatePort_pipe port : keeps (UpdatePort (B:=B) (S:=S) port).
Proof. unfold UpdatePort. preserves_tac. Qed.
Lemma upLocked_pipe : keeps (upLocked (B:=B) (S:=S)).
Proof. unfold upLocked, all_peers. preserves_tac. Qed.
Lemma downLocked_pipe : keeps (downLocked (B:=B) (S:=S)).
Proof. unfold downLocked, BindClose, closeBindLocked, all_peers. preserves_tac. Qed.
#[local] Hint Resolve upLocked_pipe downLocked_pipe : preserves.
Lemma changeState_pipe want : keeps (changeState (B:=B) (S:=S) want).
Proof. unfold changeState. preserves_tac. Qed.
Lemma Close_pipe : keeps (Close (B:=B) (S:=S)).
Proof. unfold Close, limiter_Close. preserves_tac. Qed.
Lemma SendKeepalives_pipe : keeps (SendKeepalivesToPeersWithCurrentKeypair (B:=B) (S:=S)).
Proof. unfold SendKeepalivesToPeersWithCurrentKeypair, all_peers. preserves_tac. Qed.
Lemma SetPrivateKey_pipe sk : keeps (SetPrivateKey (B:=B) (S:=S) sk).
Proof. unfold SetPrivateKey, removePeerLocked, all_peers. preserves_tac. Qed.

Lemma put_peer_twice p f g t : put_peer p g (put_peer p f t) = put_peer p (fun x => g (f x)) t.
Proof. unfold put_peer, peer_at. simpl. by rewrite lookup_insert_eq, insert_insert_eq. Qed.

Lemma zero_peer_pipe p : keeps (modify (fun t : W => set_t_peers (<[p := zeroPeer]> (t_peers t)) t)).
Proof.
  intros t HP. change (Pipe H K (put_peer p (fun _ => zeroPeer) t)).
  rewrite <- (put_peer_twice p (set_p_keypairs zeroKeypairs) (fun _ => zeroPeer)).
  assert (HP1 : Pipe H K (put_peer p (set_p_keypairs zeroKeypairs) t)).
  { apply Pipe_slots; [done|]. by intros k [|[|]]. }
  eapply Pipe_drop; [|exact HP1|].
  - split; try done. intros q. unfold kps_at. rewrite !peer_at_put_peer. by case_decide.
  - intros [| |q|q]; simpl; try done; rewrite !peer_at_put_peer; case_decide; simpl; try done; apply sublist_nil_l.
Qed.

Lemma NewPeer_pipe pk : keeps (NewPeer (B:=B) (S:=S) pk).
Proof. unfold NewPeer, timersInit. preserves_tac. apply zero_peer_pipe. Qed.

End Life.

(** ** Every run *)

Section Runs.
Context {C : Crypto} {B S : Type} `{!Bind B} `{!BindLog B} `{!SourceSink S}.
Abbreviation W := (Transport B S).
Abbreviation SysT := (Sys (B:=B) (S:=S)).

(** [RoutineReadFromSourceSink] starts a read with [elemsByPeer] empty. *)
Definition settled (a : Action) (s : SysT) : Prop :=
  match a with
  | ActRead _ => sys_groups s = ∅
  | _ => True
  end.

Inductive settled_step : SysT -> SysT -> Prop :=
| settled_action a s : enabled a s -> settled a s -> settled_step s (exec a s).

Definition settled_run (s : SysT) : Prop :=
  exists sink bind env, sent bind = [] /\ rtc settled_step (initial sink bind env) s.

Lemma initial_pipe sink bind env : sent bind = [] -> Pipe [] [] (NewTransport (B:=B) (S:=S) sink bind env).
Proof.
  intros Hb. assert (Hh : forall o, has [] [] (NewTransport (B:=B) (S:=S) sink bind env) o = []) by (by intros []).
  split; try done; try (by apply NoDup_nil_2); try (intros *; simpl; rewrite ?elem_of_nil; done).
  - intros p k [|[|]]; done.
  - split; intros *; rewrite ?Hh; rewrite ?elem_of_nil; try done. apply NoDup_nil_2.
  - intros d. simpl. by rewrite Hb, elem_of_nil.
Qed.

Lemma on_t_pipe {A} (m : M W A) s : preserves (Pipe [] []) m -> Pipe [] [] (sys_t s) -> Pipe [] [] (sys_t (on_t m s)).
Proof. intros Hm. apply Hm. Qed.

Lemma exec_pipe a s : settled a s -> Pipe [] [] (sys_t s) -> Pipe [] [] (sys_t (exec a s)).
Proof.
  intros Ha HP. destruct a; cbn [exec].
  { simpl in Ha. rewrite Ha. pose proof (read_from_source_pipe [] pkts (sys_t s) HP) as Hr. by destruct (read_from_source _ _ _). }
  all: apply on_t_pipe; [|done].
  all: auto using timer_fires_pipe, NewPeer_pipe, RemovePeer_pipe, Start_pipe, SetPresharedKey_pipe, SetPrivateKey_pipe,
    changeState_pipe, Close_pipe, UpdatePort_pipe, SendKeepalives_pipe with preserves.
  - apply changeState_pipe.
  - apply changeState_pipe.
Qed.

Lemma settled_run_pipe s : settled_run s -> Pipe [] [] (sys_t s).
Proof.
  intros (sink & bind & env & Hb & Hs). pose proof (initial_pipe sink bind env Hb) as HP. revert HP.
  change (NewTransport sink bind env) with (sys_t (initial sink bind env)).
  induction Hs as [|s s1 s2 [a s0 _ Ha] _ IH]; [done|]. intros HP. by apply IH, exec_pipe.
Qed.

(** ** The sender is never stuck *)

Lemma settled_exec a s : settled_run s -> enabled a s -> settled a s -> settled_run (exec a s).
Proof.
  intros (sink & bind & env & Hb & Hs) He Ha. exists sink, bind, env. split; [done|].
  eapply rtc_r; [exact Hs|by apply settled_action].
Qed.

Lemma encryptionQ_tail (t : W) : t_encryptionQ (fst (RoutineEncryption t)) = tail (t_encryptionQ t).
Proof. unfold RoutineEncryption. rewrite bind_gets. destruct (t_encryptionQ t) eqn:E; [exact E|done]. Qed.

Lemma encrypt_all n : forall s, settled_run s -> (length (t_encryptionQ (sys_t s)) <= n)%nat ->
  let s' := exec_all (replicate n ActEncrypt) s in
  settled_run s' /\ t_encryptionQ (sys_t s') = [] /\ t_peers (sys_t s') = t_peers (sys_t s).
Proof.
  induction n as [|n IH]; intros s Hs Hn; cbn [replicate exec_all].
  { split; [done|]. destruct (t_encryptionQ (sys_t s)); [done|simpl in Hn; lia]. }
  assert (Hp : t_peers (sys_t (exec ActEncrypt s)) = t_peers (sys_t s)).
  { change (sys_t (exec ActEncrypt s)) with (fst (RoutineEncryption (sys_t s))).
    unfold RoutineEncryption. rewrite bind_gets. by destruct (t_encryptionQ (sys_t s)). }
  destruct (IH (exec ActEncrypt s)) as (H1 & H2 & H3); [by apply settled_exec| |].
  - change (sys_t (exec ActEncrypt s)) with (fst (RoutineEncryption (sys_t s))). rewrite encryptionQ_tail.
    destruct (t_encryptionQ (sys_t s)); simpl in *; lia.
  - split; [done|]. split; [done|]. by rewrite H3.
Qed.

(** What a handler answers, whatever the state. *)
Lemma answers_bind {A D} (P : D -> Prop) (m : M W A) (k : A -> M W D) :
  (forall a t, P (snd (k a t))) -> forall t, P (snd (bind m k t)).
Proof. intros Hk t. unfold bind. destruct (m t). apply Hk. Qed.

Lemma sender_goes_on p (t : W) : 
  (forall c q, p_outbound (peer_at t p) = Some c :: q -> oc_locked (out_at t c) = false) ->
  p_outbound (peer_at t p) <> [] -> snd (RoutineSequentialSender (B:=B) (S:=S) p t) <> Blocked.
Proof.
  intros Hl Hne. unfold RoutineSequentialSender. rewrite bind_get_peer.
  destruct (p_outbound (peer_at t p)) as [|[c|] q]; [done| |done].
  rewrite bind_gets, (Hl c q) by done. do 2 (apply answers_bind; intros _ ?). destruct (negb _); [done|].
  do 2 (apply answers_bind; intros _ ?). apply answers_bind. intros err ?.
  do 2 (apply answers_bind; intros _ ?). case_match; [done|]. by apply answers_bind.
Qed.

(** C2. In every run whose reads start with nothing left over from
    the one before, all the transport ever hands to its bind are messages of the
    handshake, as [CreateMessageInitiation], [CreateMessageResponse] and
    [CreateReply] make them, and transport messages sealed under a keypair with a
    recorded nonce; no two sealings of a keypair use the same nonce, and each of
    these nonces was assigned to a packet.  No packet leaves in the clear. *)
Theorem only_sealed_sent s (t := sys_t s) : settled_run s ->
  (forall d, d ∈ sent (t_bind t) ->
     handshake_message (B:=B) (S:=S) d \/ exists k n, sealed_as t k n d) /\
  NoDup (t_sealed t) /\ (forall kn, kn ∈ t_sealed t -> kn ∈ t_assigned t).
Proof. intros HP%settled_run_pipe. split; [apply HP|]. split; apply HP. Qed.

(** C16. In every such run a container of outbound packets is in one
    place only: staged at one peer or in the queue of one sender, and there once.
    It is unlocked while it is staged, so that [SendStagedPackets] never waits for
    its lock; in the queue of a sender it is either locked and still in the queue
    of the encryption workers, or unlocked and all its packets are sealed. *)
Theorem containers_owned s (t := sys_t s) : settled_run s ->
  (forall p c, c ∈ p_staged (peer_at t p) ->
     oc_locked (out_at t c) = false /\ c ∉ t_encryptionQ t /\
     (forall q, Some c ∉ p_outbound (peer_at t q)) /\ (forall q, c ∈ p_staged (peer_at t q) -> q = p)) /\
  (forall p c, Some c ∈ p_outbound (peer_at t p) ->
     (forall q, Some c ∈ p_outbound (peer_at t q) -> q = p) /\
     (c ∈ t_encryptionQ t /\ oc_locked (out_at t c) = true \/
      c ∉ t_encryptionQ t /\ oc_locked (out_at t c) = false /\ Forall (sealed t) (oc_elems (out_at t c)))) /\
  (forall p, NoDup (p_staged (peer_at t p)) /\ NoDup (omap id (p_outbound (peer_at t p)))).
Proof.
  intros HP%settled_run_pipe. fold t in HP. pose proof (pi_owned _ _ _ HP) as Hown.
  assert (Ho : forall p c, Some c ∈ p_outbound (peer_at t p) -> c ∈ has [] [] t (Out p)).
  { intros p c Hc. apply list_elem_of_omap. by exists (Some c). }
  split; [|split].
  - intros p c Hc. change (c ∈ has [] [] t (Staged p)) in Hc. split; [|split; [|split]].
    + apply (pi_open _ _ _ HP (Staged p) c Hc). right. by exists p.
    + apply (Pipe_not_queued [] [] t (Staged p) c HP Hc). right. by exists p.
    + intros q Hq%Ho. by pose proof (ow_unique _ _ Hown _ _ c Hc Hq).
    + intros q Hq. pose proof (ow_unique _ _ Hown (Staged p) (Staged q) c Hc Hq). congruence.
  - intros p c Hc%Ho. split.
    + intros q Hq%Ho. pose proof (ow_unique _ _ Hown _ _ c Hc Hq). congruence.
    + destruct (decide (c ∈ t_encryptionQ t)) as [Hin|Hin]; [left|right].
      * split; [done|by apply (pi_locked _ _ _ HP)].
      * split; [done|by apply (pi_out _ _ _ HP p c)].
  - intros p. split; [apply (ow_nodup _ _ Hown (Staged p))|apply (ow_nodup _ _ Hown (Out p))].
Qed.


End Runs.

(** *** Witnesses *)

(** The bind of the demonstrations keeps what it is given. *)
#[global, refine] Instance log_bind_log : BindLog (list (Endpoint * list bytes)) := {| sent b := concat (map snd b) |}.
Proof.
  - done.
  - done.
  - intros bufs ep b d. simpl. by rewrite elem_of_app.
Defined.

Definition settledb {C : Crypto} {B S} (a : Action) (s : Sys (B:=B) (S:=S)) : bool :=
  match a with
  | ActRead _ => bool_decide (map_to_list (sys_groups s) = [])
  | _ => true
  end.

Fixpoint all_settledb {C : Crypto} {B S} `{!Bind B, !SourceSink S} (l : list Action) (s : Sys (B:=B) (S:=S)) : bool :=
  match l with
  | [] => true
  | a :: l => enabledb a s && settledb a s && all_settledb l (exec a s)
  end.

Lemma exec_all_settled {C : Crypto} {B S} `{!Bind B, !BindLog B, !SourceSink S} l : forall s : Sys (B:=B) (S:=S),
  settled_run s -> all_settledb l s = true -> settled_run (exec_all l s).
Proof.
  induction l as [|a l IH]; intros s Hs H; [done|]. cbn [all_settledb] in H.
  apply andb_true_iff in H as [[He Ha]%andb_true_iff Hl]. apply IH; [|done].
  apply settled_exec; [done|by apply enabledb_spec|]. destruct a; try done.
  by apply bool_decide_eq_true, map_to_list_empty_iff in Ha.
Qed.

Lemma initial_settled {C : Crypto} {B S} `{!Bind B, !BindLog B, !SourceSink S} sink (bind : B) env :
  sent bind = [] -> settled_run (initial (S:=S) sink bind env).
Proof. intros Hb. exists sink, bind, env. split; [done|apply rtc_refl]. Qed.

Lemma alice2_settled : settled_run (C:=Toy.toy_crypto) alice2.
Proof.
  apply (exec_all_settled (C:=Toy.toy_crypto)); [by apply initial_settled|]. vm_compute. reflexivity.
Qed.

Lemma only_sealed_sent_witness :
  length (sent (t_bind (sys_t alice2))) = 3%nat /\ t_sealed (sys_t alice2) = [(2%nat, 1); (2%nat, 0)] /\
  NoDup (t_sealed (sys_t alice2)).
Proof.
  split; [vm_compute; reflexivity|]. split; [vm_compute; reflexivity|].
  apply (only_sealed_sent (C:=Toy.toy_crypto) alice2). exact alice2_settled.
Defined.


#[local] Instance toy : Crypto := Toy.toy_crypto.

(** Alice when her two packets are numbered and wait for the workers. *)
Definition alice_waiting : DSys := exec_all (take 8 alice_acts2) alice0.

Lemma alice_waiting_settled : settled_run (C:=Toy.toy_crypto) alice_waiting.
Proof.
  apply (exec_all_settled (C:=Toy.toy_crypto)); [by apply initial_settled|]. vm_compute. reflexivity.
Qed.

Lemma containers_owned_witness :
  p_outbound (peer_at (sys_t alice_waiting) 0) = [Some 1%nat; Some 3%nat] /\
  oc_locked (out_at (sys_t alice_waiting) 1) = true.
Proof.
  assert (E : p_outbound (peer_at (sys_t alice_waiting) 0) = [Some 1%nat; Some 3%nat]) by (vm_compute; reflexivity).
  split; [exact E|].
  assert (Hq : t_encryptionQ (sys_t alice_waiting) = [1%nat; 3%nat]) by (vm_compute; reflexivity).
  destruct (containers_owned (C:=Toy.toy_crypto) alice_waiting alice_waiting_settled) as (_ & H & _).
  destruct (H 0%nat 1%nat) as [_ [[_ Hl]|[Hn _]]]; [rewrite E; by left|exact Hl|].
  exfalso. apply Hn. rewrite Hq. by left.
Defined.


End Sealed.
