(* ===== verification/Leftover.v ===== *)
(** What a failed read leaves behind: [RoutineReadFromSourceSink] keeps in
    [elemsByPeer] a container it has handed over when [SendStagedPackets] fails
    (the [continue] before the [delete]).  Two runs of the transport show what
    comes of it when the peer has a session again. *)
From S2P Require Import Prelude Replay RateLimiter Env Crypto Wire Cookie State Demo IndexTable Noise Timers Send Receive Lifecycle System Pipeline Scenario Sealed.
From stdpp Require Import prelude gmap list strings.
Open Scope Z_scope.

Module Leftover.
Import Env.Env Crypto.Noise_helpers State.State Demo.Demo System.System Pipeline.Pipeline Scenario.Scenario Sealed.Sealed.

#[local] Instance toy : Crypto := Toy.toy_crypto.

(** A bind that fails as it is told, and then no more, and keeps what it sends. *)
Record Flaky := mkFlaky { failures : list bool; log : list (Endpoint * list bytes) }.
#[local] Instance flaky : Bind Flaky := {|
  bind_Open port b := (b, (port, None));
  bind_Close b := (b, None);
  bind_Send bufs ep b :=
    match failures b with
    | true :: fs => (mkFlaky fs (log b), Some (ErrOS 101))
    | fs => (mkFlaky (tail fs) ((ep, bufs) :: log b), None)
    end;
  bind_BatchSize _ := 128;
|}.
Abbreviation FSys := (Sys (B:=Flaky) (S:=list bytes)).

Definition flaky_sent (s : FSys) : list bytes := concat (map snd (log (t_bind (sys_t s)))).
Definition newest (s : FSys) : bytes := default [] (head (flaky_sent s)).
Definition from_bob (b : bytes) : Action := ActReceive [inr [(b, demo_endpoint 2)]].

(** Bob starts the handshake with a packet for Alice. *)
Definition bob_starts : list Action := boot 2 1 ++ [ActRead [(packet1, PublicKey (demo_sk 1))]].
Definition bob_calls : DSys := exec_all bob_starts bob0.

(** *** A packet in the clear *)

(** The network is down when Alice reads her first packet for Bob; then Bob calls
    and a session is made, and the packet is sealed.  Before the sender takes it,
    the session has expired and the network is down again while Alice reads her
    second packet. *)
Definition late_env (n : nat) : Env :=
  let e := demo_env_at 1000 in
  mkEnv (fun i => if (i <? n)%nat then clock e i else clock e i + 300 * Second)
    (ticks e) (rng e) (draws e) (fast e) (fasts e).
Definition alice_down (n : nat) : FSys := initial [] (mkFlaky [true; false; true] []) (late_env n).
Definition answer_acts : list Action :=
  boot 1 2 ++ [ActRead [(packet1, PublicKey (demo_sk 2))]; from_bob (last_sent bob_calls); ActHandshake].

Definition bob_confirms (response : bytes) : DSys :=
  exec_all (bob_starts ++ [ActReceive [inr [(response, demo_endpoint 1)]]; ActHandshake; ActEncrypt; ActSender 0]) bob0.

Definition confirmation (n : nat) : bytes := last_sent (bob_confirms (newest (exec_all answer_acts (alice_down n)))).
Definition leak_acts (n : nat) : list Action :=
  answer_acts ++ [from_bob (confirmation n); ActDecrypt; ActReceiver 0; ActEncrypt;
                  ActRead [(packet2, PublicKey (demo_sk 2))]; ActSender 0].
Definition leaked (n : nat) : FSys := exec_all (leak_acts n) (alice_down n).

(** C39. A reachable state in which a packet of the local stack has
    been handed to the network as it is: it was added to a container that was
    already encrypted and waiting for the sender, because the read before had
    failed to start a handshake. *)
Theorem plaintext_sent : reachable (leaked 15) /\ packet2 ∈ flaky_sent (leaked 15).
Proof.
  split; [apply exec_all_reachable; vm_compute; reflexivity|].
  apply (bool_decide_unpack _). vm_compute. exact I.
Qed.

(** *** A container that is never unlocked *)

(** Alice does not know where Bob is when she reads a packet for him; Bob calls,
    and her packet is sent.  The container is kept for the next read. *)
Definition alice_unaware : list Action :=
  [ActSetPrivateKey (demo_sk 1); ActNewPeer (PublicKey (demo_sk 2)); ActUp;
   ActRead [(packet1, PublicKey (demo_sk 2))]; from_bob (last_sent bob_calls); ActHandshake].
Definition confirmed : bytes := last_sent (bob_confirms (last_sent (exec_all alice_unaware alice0))).
Definition wedge_acts : list Action :=
  alice_unaware ++ [from_bob confirmed; ActDecrypt; ActReceiver 0; ActEncrypt; ActSender 0].
Definition wedged : DSys := exec_all wedge_acts alice0.


End Leftover.
