(* ===== verification/Safety.v ===== *)
(** What holds in every state the transport can reach. *)
From S2P Require Import Prelude Replay RateLimiter Env Crypto Wire Cookie State Demo IndexTable Noise Timers Send Receive Lifecycle Invariant Keys Flow System Scenario.
From stdpp Require Import prelude gmap list.
Open Scope Z_scope.

Module Safety.
Import Env.Env Crypto.Noise_helpers Cookie.Cookie State.State Demo.Demo Invariant.Invariant
  System.System Scenario.Scenario.

(** The runs of the scenario are runs of the system. *)
Lemma alice2_reachable : reachable (C:=Toy.toy_crypto) alice2.
Proof. apply exec_all_reachable. vm_compute. reflexivity. Qed.

Lemma bob2_reachable : reachable (C:=Toy.toy_crypto) bob2.
Proof. apply exec_all_reachable. vm_compute. reflexivity. Qed.

Section Safety.
Context {C : Crypto} {B S : Type} `{!Bind B} `{!SourceSink S}.
Implicit Types s : Sys (B:=B) (S:=S).

(** C5. In every reachable state, no keypair has assigned the
    same nonce to two outbound elements, and every assigned nonce is below the
    keypair's counter and below [RejectAfterMessages]. *)
Theorem nonces_never_reused s :
  reachable s ->
  NoDup (t_assigned (sys_t s)) /\
  forall k n, (k, n) ∈ t_assigned (sys_t s) ->
    0 <= n < kp_sendNonce (keypair_at (sys_t s) k) /\ n < RejectAfterMessages.
Proof.
  intros [Ht _]%reachable_ok. destruct (inv_nonce _ _ Ht) as [Hl Hb Ho]. split; [done|].
  intros k n [Hn _]%Hb. specialize (Hl k). lia.
Qed.

(** C6. In every reachable state, no keypair has accepted the same
    counter twice. *)
Theorem accepted_once s : reachable s -> NoDup (t_accepted (sys_t s)).
Proof. intros [Ht _]%reachable_ok. apply (inv_replay _ _ Ht). Qed.


(** The staged queue of every peer holds at most 128 containers
    and the handshake queue at most 1024 messages. *)
Theorem queues_bounded s :
  reachable s ->
  (forall p, (length (p_staged (peer_at (sys_t s) p)) <= QueueStagedSize)%nat) /\
  Z.of_nat (length (t_handshakeQ (sys_t s))) <= QueueHandshakeSize.
Proof.
  intros [Ht _]%reachable_ok. split; [apply (inv_staged _ _ Ht)|apply (inv_queue _ _ Ht)].
Qed.

(** C25. The peer the key map has for a public key carries that key in
    its identity and in its handshake, together with the Diffie-Hellman secret of
    the transport's current private key and that public key (zero when there is
    none), and two public keys never share a peer. *)
Theorem peers_keyed s (t := sys_t s) :
  reachable s ->
  (forall pk p, t_keyMap t !! pk = Some p ->
     p_pk (peer_at t p) = pk /\ hs_remoteStatic (hs_at t p) = pk /\
     hs_precomputedStaticStatic (hs_at t p) =
       default (zero_bytes 32) (sharedSecret (t_privateKey t) pk)) /\
  (forall pk pk' p, t_keyMap t !! pk = Some p -> t_keyMap t !! pk' = Some p -> pk = pk').
Proof.
  intros [Ht _]%reachable_ok. split.
  - intros pk p Hp. apply (inv_keyMap _ _ Ht pk p Hp).
  - intros pk pk' p H1 H2. destruct (inv_keyMap _ _ Ht _ _ H1) as (_ & <- & _).
    by destruct (inv_keyMap _ _ Ht _ _ H2) as (_ & <- & _).
Qed.

End Safety.

(** *** Witnesses *)

Lemma nonces_never_reused_witness :
  t_assigned (sys_t alice2) = [(2%nat, 1); (2%nat, 0)] /\ NoDup (t_assigned (sys_t alice2)).
Proof.
  split; [vm_compute; reflexivity|].
  apply (nonces_never_reused (C:=Toy.toy_crypto) alice2). exact alice2_reachable.
Defined.

Lemma accepted_once_witness :
  t_accepted (sys_t bob2) = [(1%nat, 1); (1%nat, 0)] /\ NoDup (t_accepted (sys_t bob2)).
Proof.
  split; [vm_compute; reflexivity|].
  apply (accepted_once (C:=Toy.toy_crypto) bob2). exact bob2_reachable.
Defined.

Lemma queues_bounded_witness :
  (length (p_staged (peer_at (sys_t alice2) 0)) <= 128)%nat /\
  Z.of_nat (length (t_handshakeQ (sys_t alice2))) <= 1024.
Proof.
  destruct (queues_bounded (C:=Toy.toy_crypto) alice2) as [H1 H2]; [exact alice2_reachable|].
  split; [apply (H1 0%nat)|exact H2].
Defined.

(** The random source of the demonstrations never draws an index 0. *)
Lemma demo_rng_good t seed : good_rng (rng (demo_env t seed)).
Proof.
  intros i. split; [done|]. cbn [rng demo_env fst map List.seq].
  rewrite !le_get_cons, !Z_of_byte_of_Z. change (le_get []) with 0.
  set (x := seed + 17 * Z.of_nat i). intros H.
  assert (Hx : forall k, 0 <= (x + 5 * Z.of_nat k) mod 256) by (intros; by apply Z.mod_pos_bound).
  pose proof (Hx 0%nat). pose proof (Hx 1%nat). pose proof (Hx 2%nat). pose proof (Hx 3%nat).
  assert (E0 : (x + 5 * Z.of_nat 0) mod 256 = 0) by lia.
  assert (E5 : (x + 5 * Z.of_nat 1) mod 256 = 0) by lia.
  clear -E0 E5. lia_div.
Qed.


Lemma peers_keyed_witness :
  t_keyMap (sys_t alice2) !! PublicKey (C:=Toy.toy_crypto) (demo_sk 2) = Some 0%nat /\
  p_pk (peer_at (sys_t alice2) 0) = PublicKey (C:=Toy.toy_crypto) (demo_sk 2).
Proof.
  assert (E : t_keyMap (sys_t alice2) !! PublicKey (C:=Toy.toy_crypto) (demo_sk 2) = Some 0%nat)
    by (vm_compute; reflexivity).
  split; [exact E|].
  exact (proj1 (proj1 (peers_keyed (C:=Toy.toy_crypto) alice2 alice2_reachable) _ _ E)).
Defined.

End Safety.
