(* ===== verification/Behaviour.v ===== *)
(** The functional behaviour of the handlers: what a transport message carries,
    how nonces are given out, how the bounded queues behave, what the handshake
    worker refuses, and how the routines end. *)
From S2P Require Import Prelude Replay Tai64n RateLimiter Env Crypto Wire Cookie State Demo IndexTable Noise Timers Send Receive Lifecycle Invariant Keys Flow.
From stdpp Require Import prelude gmap list.
Open Scope Z_scope.

Module Behaviour.
Import Env.Env Crypto.Noise_helpers Wire.Wire Cookie.Cookie State.State Demo.Demo
  IndexTable.IndexTable Noise.Noise Timers.Timers Send.Send Receive.Receive Lifecycle.Lifecycle
  Invariant.Invariant Keys.Keys Flow.Flow.

(** ** Transport messages *)

Section Data.
Context {C : Crypto} {Laws : CryptoLaws}.

Lemma length_transport_header r n : length (transport_header r n) = 16%nat.
Proof. unfold transport_header. by rewrite !length_app, !length_le_put. Qed.

Lemma slice_transport_header r n rest :
  slice 0 4 (transport_header r n ++ rest) = le_put 4 MessageTransportType /\
  slice 4 8 (transport_header r n ++ rest) = le_put 4 r /\
  slice 8 16 (transport_header r n ++ rest) = le_put 8 n.
Proof. unfold transport_header. rewrite <- !app_assoc. split_and!; slice_field. Qed.

Lemma drop_transport_header r n rest : drop 16 (transport_header r n ++ rest) = rest.
Proof. by apply drop_app_length'; rewrite length_transport_header. Qed.

(** The fields of a transport message. *)
Lemma sealed_message key r n plain (d := transport_header r n ++ aead_Seal key (aead_nonce n) plain []) :
  Replay.is_u64 n -> is_u32 r ->
  le_get (slice 0 4 d) = MessageTransportType /\ le_get (slice 4 8 d) = r /\ le_get (slice 8 16 d) = n /\
  length d = (32 + length plain)%nat.
Proof.
  intros Hn Hr. destruct (slice_transport_header r n (aead_Seal key (aead_nonce n) plain [])) as (H1 & H2 & H3).
  fold d in H1, H2, H3. rewrite H1, H2, H3. split; [done|]. split; [by apply le_get_put_u32|].
  split; [rewrite le_get_put; by apply Z.mod_small|].
  unfold d. rewrite length_app, length_transport_header, length_aead_Seal. lia.
Qed.

(** The content written over the sealed one, behind the header. *)
Lemma splice_sealed key r n plain :
  take (16 + length plain) (splice 16 plain (transport_header r n ++ aead_Seal key (aead_nonce n) plain [])) =
  transport_header r n ++ plain.
Proof.
  assert (E : forall l, take 16 (transport_header r n ++ l) = transport_header r n)
    by (intros l; apply take_app_length'; by rewrite length_transport_header).
  unfold splice. rewrite E. rewrite app_assoc, take_app_le by (rewrite length_app, length_transport_header; lia).
  apply take_ge. rewrite length_app, length_transport_header. lia.
Qed.

(** What [RoutineDecryption] makes of it: the content, in place. *)
Lemma decrypt_sealed kp r n plain k ep (d := transport_header r n ++ aead_Seal (kp_receive kp) (aead_nonce n) plain []) :
  Replay.is_u64 n -> is_u32 r ->
  decrypt_elem kp (mkInElem d (Some d) 0 k ep) = mkInElem (splice 16 plain d) (Some plain) n k ep.
Proof.
  intros Hn Hr. destruct (sealed_message (kp_receive kp) r n plain Hn Hr) as (_ & _ & Hc & _). fold d in Hc.
  unfold decrypt_elem, MessageTransportOffsetCounter, MessageTransportOffsetContent.
  cbn [ie_packet ie_buffer ie_keypair ie_endpoint]. rewrite Hc. unfold d at 1.
  by rewrite drop_transport_header, aead_Open_Seal.
Qed.

(** C9. What [RoutineEncryption] makes of a packet is a
    transport message: its type, the receiver index of the keypair, the nonce as
    its counter, 32 bytes more than the padded packet; and [RoutineDecryption]
    with the keypair of the other side gets back the counter and the packet with
    its zero padding, in place behind the header. *)
Theorem transport_roundtrip (kp kp' : Keypair) (e : QueueOutboundElement) k ep :
  kp_send kp = kp_receive kp' -> Replay.is_u64 (oe_nonce e) -> is_u32 (kp_remoteIndex kp) ->
  let d := oe_packet (encrypt_elem kp e) in
  let pad := Z.to_nat (calculatePaddingSize (Z.of_nat (length (oe_packet e))) DefaultMTU) in
  let plain := oe_packet e ++ zero_bytes pad in
  let e' := decrypt_elem kp' (mkInElem d (Some d) 0 k ep) in
  le_get (slice 0 4 d) = MessageTransportType /\
  le_get (slice 4 8 d) = kp_remoteIndex kp /\
  length d = (MessageTransportSize + length plain)%nat /\
  ie_packet e' = Some plain /\ ie_counter e' = oe_nonce e /\
  drop 16 (take (16 + length plain) (ie_buffer e')) = plain.
Proof.
  intros Hk Hn Hi d pad plain e'.
  assert (Hd : d = transport_header (kp_remoteIndex kp) (oe_nonce e) ++ aead_Seal (kp_receive kp') (aead_nonce (oe_nonce e)) plain [])
    by (by rewrite <- Hk).
  destruct (sealed_message (kp_receive kp') (kp_remoteIndex kp) (oe_nonce e) plain Hn Hi) as (H1 & H2 & _ & H4).
  pose proof (decrypt_sealed kp' (kp_remoteIndex kp) (oe_nonce e) plain k ep Hn Hi) as He.
  pose proof (splice_sealed (kp_receive kp') (kp_remoteIndex kp) (oe_nonce e) plain) as Hb.
  rewrite <- Hd in H1, H2, H4, He, Hb. fold e' in He. rewrite He. cbn [ie_packet ie_counter ie_buffer].
  split_and!; try done. rewrite Hb. apply drop_transport_header.
Qed.

End Data.

(** A packet of 5 bytes under nonce 7 with the toy cryptography. *)
Definition demo_kp : Keypair := mkKeypair 8 (zero_bytes 32) (zero_bytes 32) Replay.zeroFilter true 0 3 99.
Definition demo_elem : QueueOutboundElement := mkOutElem (zero_bytes 5) 7 (Some 0%nat) (Some 0%nat).

Lemma transport_roundtrip_witness :
  let d := oe_packet (encrypt_elem (C:=Toy.toy_crypto) demo_kp demo_elem) in
  length d = 48%nat /\
  ie_packet (decrypt_elem (C:=Toy.toy_crypto) demo_kp
               (mkInElem d (Some d) 0 0%nat (demo_endpoint 1))) = Some (zero_bytes 16).
Proof.
  destruct (transport_roundtrip (Laws:=Toy.toy_laws) demo_kp demo_kp demo_elem 0%nat (demo_endpoint 1)
              eq_refl ltac:(by split) ltac:(by split)) as (_ & _ & H1 & H2 & _).
  split; [exact H1|exact H2].
Defined.

(** ** Nonces *)

Section Nonces.
Context {C : Crypto} {B S : Type} `{!Bind B}.
Abbreviation W := (Transport B S).
Implicit Types t : W.

(** The elements that still get a nonce, numbered from [n]. *)
Fixpoint numbered (p : PeerId) (k : KeypairId) (n : Z) (l : list QueueOutboundElement)
  : list QueueOutboundElement :=
  match l with
  | [] => []
  | e :: l => mkOutElem (oe_packet e) n (Some k) (Some p) :: numbered p k (n + 1) l
  end.

(** How many. *)
Definition budget (n : Z) (l : list QueueOutboundElement) : nat :=
  Nat.min (length l) (Z.to_nat (RejectAfterMessages - n)).

Lemma assign_nonces_run p k l : forall t,
  0 <= kp_sendNonce (keypair_at t k) <= RejectAfterMessages ->
  let n := kp_sendNonce (keypair_at t k) in
  let m := budget n l in
  exists t' ooo, assign_nonces p k l t = (t', (numbered p k n (take m l), ooo)) /\
    map oe_packet ooo = map oe_packet (drop m l) /\
    kp_sendNonce (keypair_at t' k) = n + Z.of_nat m /\
    (forall j, j <> k -> keypair_at t' j = keypair_at t j) /\
    t_peers t' = t_peers t /\ t_env t' = t_env t /\ t_state t' = t_state t.
Proof.
  induction l as [|e l IH]; intros t Hn; cbn zeta.
  { exists t, []. unfold budget. simpl. split_and!; try done. lia. }
  cbn [assign_nonces]. unfold sendNonce_Add.
  rewrite bind_assoc, bind_get_keypair, bind_assoc, bind_upd_keypair, bind_ret.
  set (n := kp_sendNonce (keypair_at t k)) in *. destruct (sendNonce_small n Hn) as [-> ->].
  destruct (Z.leb_spec RejectAfterMessages n) as [Hr|Hr].
  - rewrite bind_upd_keypair, put_keypair_fuse.
    set (t1 := put_keypair k _ t).
    assert (E1 : kp_sendNonce (keypair_at t1 k) = RejectAfterMessages).
    { unfold t1. by rewrite keypair_at_put_keypair, decide_True. }
    destruct (IH t1) as (t' & ooo & Ha & Ho & Hk & Hj & Hrest); [rewrite E1; lia|].
    rewrite E1 in *. unfold bind. rewrite Ha.
    assert (Z0 : forall l', budget RejectAfterMessages l' = 0%nat)
      by (intros; unfold budget; rewrite Z.sub_diag; simpl; lia).
    assert (Zn : budget n (e :: l) = 0%nat).
    { unfold budget. replace (Z.to_nat (RejectAfterMessages - n)) with 0%nat by lia. lia. }
    rewrite Z0 in *. rewrite Zn. simpl.
    eexists _, _. split; [done|]. split_and!; try apply Hrest; simpl.
    + by rewrite Ho.
    + rewrite Hk. lia.
    + intros j Hne. rewrite Hj by done. unfold t1.
      by rewrite keypair_at_put_keypair, decide_False.
  - unfold bind at 1, modify. set (t1 := set_t_assigned _ _).
    assert (E1 : kp_sendNonce (keypair_at t1 k) = n + 1).
    { unfold t1. change (keypair_at (set_t_assigned ?x ?y) k) with (keypair_at y k).
      by rewrite keypair_at_put_keypair, decide_True. }
    destruct (IH t1) as (t' & ooo & Ha & Ho & Hk & Hj & Hrest); [rewrite E1; lia|].
    rewrite E1 in *. unfold bind. rewrite Ha.
    assert (Zn : budget n (e :: l) = Datatypes.S (budget (n + 1) l)).
    { unfold budget. cbn [length].
      replace (Z.to_nat (RejectAfterMessages - n))
        with (Datatypes.S (Z.to_nat (RejectAfterMessages - (n + 1)))) by lia. lia. }
    rewrite Zn. eexists _, _. split; [done|]. split_and!; try apply Hrest; simpl.
    + done.
    + rewrite Hk. lia.
    + intros j Hne. rewrite Hj by done. unfold t1.
      change (keypair_at (set_t_assigned ?x ?y) j) with (keypair_at y j).
      by rewrite keypair_at_put_keypair, decide_False.
Qed.

(** [SendStagedPackets] numbers the elements of a
    container consecutively from the keypair's counter, in order, until
    [RejectAfterMessages]; the rest, in order, is put aside for the next keypair;
    the counter ends where the numbers end. *)
Theorem assign_nonces_consecutive p k l t :
  0 <= kp_sendNonce (keypair_at t k) <= RejectAfterMessages ->
  let n := kp_sendNonce (keypair_at t k) in
  let m := Nat.min (length l) (Z.to_nat (RejectAfterMessages - n)) in
  let '(t', (kept, ooo)) := assign_nonces p k l t in
  kept = numbered p k n (take m l) /\ map oe_packet ooo = map oe_packet (drop m l) /\
  kp_sendNonce (keypair_at t' k) = n + Z.of_nat m /\
  (forall j, j <> k -> keypair_at t' j = keypair_at t j).
Proof.
  intros Hn. cbn zeta. destruct (assign_nonces_run p k l t Hn) as (t' & ooo & -> & Ho & Hk & Hj & _).
  done.
Qed.

(** ** The loop over the staged packets ends *)

Definition limits_ok t : Prop :=
  forall k, 0 <= kp_sendNonce (keypair_at t k) <= RejectAfterMessages.

Abbreviation staged_len t p := (length (p_staged (peer_at t p))).

Lemma initiate_some p t :
  is_Some (snd ((let* err := SendHandshakeInitiation (B:=B) (S:=S) p false in ret (Some err)) t)).
Proof. unfold bind. destruct (SendHandshakeInitiation p false t). by eexists. Qed.

(** An exhausted keypair ends the loop at its top. *)
Lemma send_staged_exhausted fuel p k t :
  current (kps_at t p) = Some k -> RejectAfterMessages <= kp_sendNonce (keypair_at t k) ->
  is_Some (snd (send_staged_loop (B:=B) (S:=S) (Datatypes.S fuel) p None t)).
Proof.
  intros Hk Hn. cbn [send_staged_loop]. rewrite bind_get_peer. unfold isUp. rewrite bind_gets.
  destruct (_ || _); [by eexists|]. unfold kps_at in Hk. rewrite Hk, bind_get_keypair.
  rewrite (proj2 (Z.leb_le _ _) Hn). apply initiate_some.
Qed.

Lemma bind_new_out {D} l (k : ContainerId -> M W D) t :
  bind (new_out_container l) k t =
  k (t_fresh t) (set_t_outContainers (<[t_fresh t := mkOutContainer false l]> (t_outContainers t))
                   (set_t_fresh (Datatypes.S (t_fresh t)) t)).
Proof. done. Qed.

(** Putting elements aside touches neither slots nor keypairs. *)
Lemma stage_ooo_run p ooo t :
  let t' := fst ((match ooo with
    | [] => ret tt
    | _ => let* c' := new_out_container ooo in StagePackets (B:=B) (S:=S) p c'
    end) t) in
  kps_at t' p = kps_at t p /\ t_keypairs t' = t_keypairs t /\
  (ooo = [] -> p_staged (peer_at t' p) = p_staged (peer_at t p)).
Proof.
  destruct ooo as [|e ooo]; [done|]. cbn zeta. rewrite bind_new_out.
  unfold StagePackets. rewrite bind_get_peer.
  assert (H : forall q t1, kps_at (put_peer p (set_p_staged q) t1) p = kps_at t1 p).
  { intros. unfold kps_at. by rewrite peer_at_put_peer_eq. }
  destruct (_ <? _)%nat.
  - split; [|done]. etrans; [apply H|done].
  - destruct (p_staged _) as [|c q]; [done|].
    change (fst (bind (PutOutboundElementsContainer c) ?k ?x)) with (fst (k tt (fst (PutOutboundElementsContainer c x)))).
    split; [|done]. etrans; [apply H|done].
Qed.

Lemma dispatch_run p c t :
  let t' := fst (dispatch (B:=B) (S:=S) p c t) in
  kps_at t' p = kps_at t p /\ t_keypairs t' = t_keypairs t /\
  p_staged (peer_at t' p) = p_staged (peer_at t p).
Proof.
  unfold dispatch. rewrite bind_get_peer. destruct (p_isRunning _); [|done]. cbn zeta.
  rewrite bind_upd_peer. unfold modify, kps_at, peer_at. cbn.
  rewrite lookup_insert_eq. done.
Qed.

(** Numbering a container and putting the rest aside: the slots stay, the
    counters stay within the limit, and when something is put aside the keypair
    is exhausted. *)
Lemma assign_stage_run {D} p k c t (K : list QueueOutboundElement -> list QueueOutboundElement -> M W D) :
  limits_ok t ->
  exists t' kept ooo,
    (let* (kept, ooo) := assign_nonces p k (oc_elems (out_at t c)) in
     upd_out c (fun _ => mkOutContainer true kept) ;;;
     match ooo with
     | [] => ret tt
     | _ => let* c' := new_out_container ooo in StagePackets p c'
     end ;;;
     K kept ooo) t = K kept ooo t' /\
    kps_at t' p = kps_at t p /\ limits_ok t' /\
    (ooo = [] -> staged_len t' p = staged_len t p) /\
    (ooo <> [] -> RejectAfterMessages <= kp_sendNonce (keypair_at t' k)).
Proof.
  intros Hl. destruct (assign_nonces_run p k (oc_elems (out_at t c)) t (Hl k))
    as (t1 & ooo & Ha & Ho & Hn & Hj & Hp & _).
  unfold bind at 1. rewrite Ha. set (kept := numbered _ _ _ _). unfold bind at 1.
  set (t2 := fst (upd_out c (fun _ => mkOutContainer true kept) t1)).
  change (upd_out c (fun _ => mkOutContainer true kept) t1) with (t2, tt). cbv iota beta.
  pose proof (stage_ooo_run p ooo t2) as Hst. unfold bind at 1.
  destruct (match ooo with [] => ret tt | _ => _ end t2) as [t' u]. cbn [fst] in Hst.
  destruct Hst as (Ek & Ekp & Es).
  assert (Ep : peer_at t2 p = peer_at t p) by (unfold peer_at; by rewrite <- Hp).
  assert (E : forall j, keypair_at t' j = keypair_at t1 j) by (intros j; unfold keypair_at; by rewrite Ekp).
  exists t', kept, ooo. split; [done|]. split; [rewrite Ek; unfold kps_at; by rewrite Ep|].
  split; [|split; [intros Hno; rewrite (Es Hno); by rewrite Ep|]].
  - intros j. rewrite E. destruct (decide (j = k)) as [->|Hne]; [|rewrite Hj by done; apply Hl].
    rewrite Hn. specialize (Hl k). unfold budget. lia.
  - intros Hno. rewrite E, Hn.
    assert (length ooo = length (drop (budget (kp_sendNonce (keypair_at t k)) (oc_elems (out_at t c)))
              (oc_elems (out_at t c)))) as Hlen.
    { rewrite <- (length_map oe_packet ooo), Ho. by rewrite length_map. }
    rewrite length_drop in Hlen. unfold budget in *. destruct ooo; [done|]. cbn [length] in Hlen. lia.
Qed.

(** The top of the loop, given that its body ends. *)
Lemma send_staged_top fuel p t :
  (forall k e, current (kps_at t p) = Some k ->
     is_Some (snd (send_staged_loop (B:=B) (S:=S) fuel p (Some k) (set_t_env e t)))) ->
  is_Some (snd (send_staged_loop (B:=B) (S:=S) (Datatypes.S fuel) p None t)).
Proof.
  intros IH. cbn [send_staged_loop]. rewrite bind_get_peer. unfold isUp. rewrite bind_gets.
  destruct (_ || _); [by eexists|].
  destruct (current (p_keypairs (peer_at t p))) as [k|] eqn:Hk; [|apply initiate_some].
  rewrite bind_get_keypair. destruct (_ <=? _); [apply initiate_some|]. rewrite bind_since.
  destruct (_ <=? _); [apply initiate_some|]. by apply IH.
Qed.

Lemma send_staged_enough fuel : forall p t,
  limits_ok t ->
  (2 * staged_len t p + 2 <= fuel -> is_Some (snd (send_staged_loop (B:=B) (S:=S) fuel p None t)))%nat /\
  (forall k, current (kps_at t p) = Some k -> 2 * staged_len t p + 1 <= fuel ->
     is_Some (snd (send_staged_loop (B:=B) (S:=S) fuel p (Some k) t)))%nat.
Proof.
  induction fuel as [|fuel IH]; intros p t Hl; [split; intros; lia|]. split.
  { intros Hf. apply send_staged_top. intros k e Hk.
    apply (IH p (set_t_env e t)); [done|done|]. change (staged_len (set_t_env e t) p) with (staged_len t p). lia. }
  intros k Hk Hf. cbn [send_staged_loop]. rewrite bind_get_peer.
  destruct (p_staged (peer_at t p)) as [|c q] eqn:Hq; [by eexists|]. cbn [length] in Hf.
  unfold set_staged. rewrite bind_upd_peer. set (t1 := put_peer p (set_p_staged q) t).
  assert (Hk1 : kps_at t1 p = kps_at t p) by (unfold t1, kps_at; by rewrite peer_at_put_peer_eq).
  assert (Hs1 : staged_len t1 p = length q) by (unfold t1; by rewrite peer_at_put_peer_eq).
  rewrite bind_gets. match goal with |- context [bind (assign_nonces _ _ _) ?f t1] =>
    destruct (assign_stage_run p k c t1 (fun kept ooo =>
      match kept with
      | [] => PutOutboundElementsContainer c ;;; send_staged_loop fuel p None
      | _ => dispatch p c ;;;
          match ooo with
          | [] => send_staged_loop fuel p (Some k)
          | _ => send_staged_loop fuel p None
          end
      end)) as (t2 & kept & ooo & -> & Ek & Hl2 & Hs2 & Hx2) end; [done|].
  assert (Hcur : current (kps_at t2 p) = Some k) by (by rewrite Ek, Hk1).
  destruct kept as [|e kept].
  - unfold bind. set (t3 := fst (PutOutboundElementsContainer c t2)).
    change (PutOutboundElementsContainer c t2) with (t3, tt). cbv iota beta.
    destruct ooo as [|x ooo].
    + apply IH; [done|]. change (staged_len t3 p) with (staged_len t2 p). rewrite Hs2 by done. lia.
    + destruct fuel; [lia|]. by apply (send_staged_exhausted fuel p k), Hx2.
  - pose proof (dispatch_run p c t2) as (Ek3 & Ekp3 & Es3). unfold bind.
    destruct (dispatch p c t2) as [t3 u]. cbn [fst] in *.
    assert (E3 : forall j, keypair_at t3 j = keypair_at t2 j) by (intros j; unfold keypair_at; by rewrite Ekp3).
    destruct ooo as [|x ooo].
    + apply IH; [intros j; rewrite E3; apply Hl2|by rewrite Ek3|]. rewrite Es3, Hs2 by done. lia.
    + destruct fuel; [lia|].
      apply (send_staged_exhausted fuel p k); [by rewrite Ek3|]. rewrite E3. by apply Hx2.
Qed.


End Nonces.
(** A transport with a keypair at its last nonce and two packets staged. *)
Definition demo_last_nonce : Demo.W :=
  let t := demo_transport 1 (demo_env_at 1000) 2 in
  let kp := mkKeypair (RejectAfterMessages - 1) [] [] Replay.zeroFilter true (1000 * Second) 5 6 in
  let t := set_t_keypairs {[ 1%nat := kp ]} t in
  let t := set_t_outContainers {[ 2%nat := mkOutContainer false [demo_elem; demo_elem] ]} t in
  let t := set_t_fresh 3 t in
  put_peer 0 (fun x => set_p_staged [2%nat] (set_p_keypairs (mkKeypairs (Some 1%nat) None None) x)) t.

Lemma demo_limits k : 0 <= kp_sendNonce (keypair_at demo_last_nonce k) <= RejectAfterMessages.
Proof.
  change (keypair_at demo_last_nonce k) with
    (default zeroKeypair (({[ 1%nat := mkKeypair (RejectAfterMessages - 1) [] [] Replay.zeroFilter true
       (1000 * Second) 5 6 ]} : gmap nat Keypair) !! k)).
  destruct (decide (k = 1%nat)) as [->|Hk]; [rewrite lookup_singleton_eq; by split|].
  rewrite lookup_singleton_ne by done. by split.
Qed.

Lemma assign_nonces_consecutive_witness :
  let '(t', (kept, ooo)) := assign_nonces 0 1 [demo_elem; demo_elem] demo_last_nonce in
  length kept = 1%nat /\ length ooo = 1%nat.
Proof.
  pose proof (assign_nonces_consecutive 0 1 [demo_elem; demo_elem] demo_last_nonce (demo_limits 1)) as H.
  destruct (assign_nonces 0 1 [demo_elem; demo_elem] demo_last_nonce) as [t' [kept ooo]].
  destruct H as (H1 & H2 & _). apply (f_equal length) in H1, H2. rewrite !length_map in H2.
  split; [rewrite H1; vm_compute; reflexivity|rewrite H2; vm_compute; reflexivity].
Defined.


(** ** Bounded queues *)

Section Queues.
Context {C : Crypto} {B S : Type} `{!Bind B} `{!SourceSink S}.
Abbreviation W := (Transport B S).
Implicit Types t : W.

(** [StagePackets] is a bounded queue of 128 containers
    that drops its oldest entry: afterwards the peer's queue is the last 128
    containers of the old queue followed by the new one, and the queues of other
    peers are untouched. *)
Theorem staging_drops_oldest p c t :
  (length (p_staged (peer_at t p)) <= QueueStagedSize)%nat ->
  let q := p_staged (peer_at t p) ++ [c] in
  let t' := fst (StagePackets p c t) in
  p_staged (peer_at t' p) = drop (length q - QueueStagedSize) q /\
  (forall r, r <> p -> peer_at t' r = peer_at t r).
Proof.
  intros Hl. cbn zeta. unfold StagePackets. rewrite bind_get_peer, length_app. cbn [length].
  destruct (Nat.ltb_spec (length (p_staged (peer_at t p))) QueueStagedSize) as [H|H].
  - replace (_ + 1 - QueueStagedSize)%nat with 0%nat by lia.
    change (fst (set_staged p ?q t)) with (put_peer p (set_p_staged q) t).
    rewrite peer_at_put_peer_eq. split; [done|]. intros r Hr. by apply peer_at_put_peer_ne.
  - destruct (p_staged (peer_at t p)) as [|c0 q] eqn:E; [unfold QueueStagedSize in H; simpl in H; lia|].
    cbn [length] in *. replace (Datatypes.S (length q) + 1 - QueueStagedSize)%nat with 1%nat by lia.
    change (fst (bind (PutOutboundElementsContainer c0) ?k t))
      with (put_peer p (set_p_staged (q ++ [c])) (fst (PutOutboundElementsContainer c0 t))).
    rewrite peer_at_put_peer_eq. split; [done|]. intros r Hr. by rewrite peer_at_put_peer_ne.
Qed.

(** ** Datagrams *)

(** [RoutineReceiveIncoming] gives up after eleven errors
    in a row, at once when the socket is closed, and a batch that is received
    resets the count. *)
Theorem receive_routine_ends (errs : list Error) batch rest t :
  (forall e, e ∈ errs -> e <> ErrNetClosed) ->
  (length errs <= 10)%nat ->
  snd (RoutineReceiveIncoming (map inl errs ++ inl ErrNetClosed :: rest) 0 t) = Some rest /\
  (forall e, e <> ErrNetClosed -> length errs = 10%nat ->
     snd (RoutineReceiveIncoming (map inl errs ++ inl e :: rest) 0 t) = Some rest) /\
  RoutineReceiveIncoming (map inl errs ++ inr batch :: rest) 0 t =
    RoutineReceiveIncoming rest 0 (fst (receive_batch batch t)).
Proof.
  intros Hne.
  assert (H : forall d tail, 0 <= d -> Z.of_nat (length errs) + d <= 10 ->
    RoutineReceiveIncoming (map inl errs ++ tail) d t =
    RoutineReceiveIncoming tail (d + Z.of_nat (length errs)) t).
  { induction errs as [|e errs IH]; intros d tail Hd Hl; [simpl; f_equal; lia|].
    assert (e <> ErrNetClosed) by (apply Hne; by left). cbn [map app RoutineReceiveIncoming].
    cbn [length] in *. assert (d <? 10 = true) as -> by lia.
    replace (d + Z.of_nat (Datatypes.S (length errs))) with (d + 1 + Z.of_nat (length errs)) by lia.
    rewrite <- IH; [by destruct e|intros; apply Hne; by right|lia|lia]. }
  intros Hl. rewrite !H by lia. split_and!.
  - done.
  - intros e He E. rewrite H, E by lia. by destruct e.
  - cbn [RoutineReceiveIncoming]. unfold bind. by destruct (receive_batch batch t).
Qed.

(** ** Refused handshakes *)

(** A handshake initiation or response whose MAC1 does
    not verify changes nothing but the queue it is taken from. *)
Theorem invalid_mac1_ignored elem q t :
  t_handshakeQ t = elem :: q ->
  he_msgType elem = MessageInitiationType \/ he_msgType elem = MessageResponseType ->
  CheckMAC1 (t_cookieChecker t) (he_packet elem) = false ->
  RoutineHandshake t = (set_t_handshakeQ q t, Skip).
Proof.
  intros Hq Hty Hm. unfold RoutineHandshake. rewrite bind_gets, Hq. unfold bind at 1, modify.
  unfold handle_handshake, check_macs.
  assert (E : (he_msgType elem =? MessageCookieReplyType) = false /\
              ((he_msgType elem =? MessageInitiationType) || (he_msgType elem =? MessageResponseType)) = true)
    by (destruct Hty as [-> | ->]; by split).
  destruct E as [-> ->]. unfold bind, gets. simpl. by rewrite Hm.
Qed.

Lemma IsUnderLoad_full t :
  QueueHandshakeSize / 8 <= Z.of_nat (length (t_handshakeQ t)) ->
  exists u, IsUnderLoad t = (set_t_underLoadUntil u (set_t_env (fst (time_Now (t_env t))) t), true).
Proof.
  intros H. unfold IsUnderLoad. rewrite bind_now, bind_gets.
  change (t_handshakeQ (set_t_env ?e t)) with (t_handshakeQ t).
  rewrite (proj2 (Z.leb_le _ _) H). by eexists.
Qed.

Lemma SendHandshakeCookie_run elem t :
  exists e cc b, fst (SendHandshakeCookie elem t) = set_t_bind b (set_t_cookieChecker cc (set_t_env e t)) /\
    (b = t_bind t \/ exists reply,
       b = fst (bind_Send [write_cookie_reply reply] (he_endpoint elem) (t_bind t))).
Proof.
  unfold SendHandshakeCookie. rewrite bind_gets, bind_on_env.
  destruct (snd (CreateReply _ _ _ _ _)) as [cc [reply|]].
  - unfold bind at 1, modify, on_bind.
    destruct (bind_Send _ _ _) as [b err] eqn:E. exists (fst (CreateReply (t_cookieChecker t)
      (he_packet elem) (le_get (slice 4 8 (he_packet elem))) (DstToBytes (he_endpoint elem)) (t_env t))), cc, b.
    split; [done|]. right. exists reply. change (t_bind t) with (t_bind (set_t_cookieChecker cc (set_t_env
      (fst (CreateReply (t_cookieChecker t) (he_packet elem) (le_get (slice 4 8 (he_packet elem)))
              (DstToBytes (he_endpoint elem)) (t_env t))) t))). by rewrite E.
  - exists (fst (CreateReply (t_cookieChecker t)
      (he_packet elem) (le_get (slice 4 8 (he_packet elem))) (DstToBytes (he_endpoint elem)) (t_env t))), cc, (t_bind t).
    split; [done|]. by left.
Qed.

Lemma check_macs_under_load elem t :
  CheckMAC1 (t_cookieChecker t) (he_packet elem) = true ->
  QueueHandshakeSize / 8 <= Z.of_nat (length (t_handshakeQ t)) ->
  snd (CheckMAC2 (t_cookieChecker t) (he_packet elem) (DstToBytes (he_endpoint elem))
         (fst (time_Now (t_env t)))) = false ->
  exists e cc u b, check_macs elem t =
    (set_t_bind b (set_t_cookieChecker cc (set_t_env e (set_t_underLoadUntil u t))), Some Skip) /\
    (b = t_bind t \/ exists reply,
       b = fst (bind_Send [write_cookie_reply reply] (he_endpoint elem) (t_bind t))).
Proof.
  intros Hm Hload Hm2. unfold check_macs. rewrite bind_gets, Hm. cbn [negb].
  destruct (IsUnderLoad_full t Hload) as (u & Eu). unfold bind at 1. rewrite Eu.
  rewrite bind_on_env. cbn [t_env set_t_underLoadUntil set_t_env]. rewrite Hm2. cbn [negb].
  set (t2 := set_t_env _ _).
  destruct (SendHandshakeCookie_run elem t2) as (e2 & cc & b & Ec & Hb).
  unfold bind. destruct (SendHandshakeCookie elem t2) as [t3 err]. cbn [fst] in Ec. subst t3.
  by exists e2, cc, u, b.
Qed.


(** ** Replayed and flooding initiations *)

(** C10. An initiation is consumed at most once: after it
    was accepted, the same message is refused whatever the clock says, and the
    refusal changes nothing but the position in the environment. *)
Theorem initiation_replay_rejected msg p t t1 :
  ConsumeMessageInitiation msg t = (t1, Some p) ->
  forall e, exists e', ConsumeMessageInitiation msg (set_t_env e t1) = (set_t_env e' t1, None).
Proof.
  unfold ConsumeMessageInitiation. destruct (negb _); [done|]. intros H.
  rewrite !bind_gets in H.
  destruct (sharedSecret _ _) as [ss|] eqn:Hss; [|done].
  destruct (KDF2 _ ss) as [c1 k1] eqn:Hk1.
  destruct (aead_Open k1 _ _ _) as [pk|] eqn:Hpk; [|done]. rewrite bind_gets in H.
  destruct (t_keyMap t !! pk) as [q|] eqn:Hq; [|done]. rewrite bind_get_peer in H.
  destruct (p_isRunning (peer_at t q)) eqn:Hr; [cbn [negb] in H|done].
  destruct (isZero _) eqn:Hz; [done|]. destruct (KDF2 c1 _) as [c2 k2] eqn:Hk2.
  destruct (aead_Open k2 _ _ _) as [ts|] eqn:Hts; [|done]. rewrite bind_since in H.
  destruct (Tai64n.After ts _) eqn:Ha; [cbn [negb] in H|done].
  destruct (_ <=? _); [done|].
  autorewrite with run in H. injection H as Ht1 <-.
  assert (E1 : t_privateKey t1 = t_privateKey t) by (by rewrite <- Ht1).
  assert (E2 : t_publicKey t1 = t_publicKey t) by (by rewrite <- Ht1).
  assert (E3 : t_keyMap t1 = t_keyMap t) by (by rewrite <- Ht1).
  assert (E4 : p_isRunning (peer_at t1 q) = true /\
               hs_precomputedStaticStatic (p_handshake (peer_at t1 q)) =
                 hs_precomputedStaticStatic (p_handshake (peer_at t q)) /\
               hs_lastTimestamp (p_handshake (peer_at t1 q)) = ts).
  { rewrite <- Ht1. autorewrite with heap. hs_simpl. rewrite Ha.
    destruct (_ <? _); hs_simpl; by repeat split. }
  clear Ht1. destruct E4 as (E4 & E5 & E6). intros e. rewrite !bind_gets.
  cbn [t_privateKey t_publicKey t_keyMap set_t_env].
  rewrite E1, E2, Hss, Hk1, Hpk, bind_gets. cbn [t_keyMap set_t_env]. rewrite E3, Hq, bind_get_peer.
  change (peer_at (set_t_env e t1) q) with (peer_at t1 q).
  rewrite E4, E5, Hz, Hk2. cbn [negb]. rewrite Hts. rewrite bind_since, E6, Tai64n.After_irrefl.
  by eexists.
Qed.

(** ** Sessions *)

Lemma install_run p b k li t :
  let t' := fst (rotate_keypairs p b k (put_handshake p (set_hs_localIndex 0)
              (set_t_indexTable (swapped li k (t_indexTable t)) t))) in
  kps_at t' p = rotated b k (kps_at t p) /\ hs_at t' p = set_hs_localIndex 0 (hs_at t p) /\
  forall j, keypair_at t' j = keypair_at t j.
Proof.
  cbn zeta. rewrite rotate_keypairs_slots. set (t1 := put_handshake _ _ _).
  assert (E1 : kps_at t1 p = kps_at t p /\ hs_at t1 p = set_hs_localIndex 0 (hs_at t p)).
  { unfold t1. by rewrite kps_at_put_handshake, hs_at_put_handshake. }
  destruct E1 as [-> <-].
  destruct (peer_at_put_keypairs p (rotated b k (kps_at t p)) t1) as [H1 H2]. done.
Qed.

(** What a new keypair and a read of the clock leave alone. *)
Lemma new_keypair_frame p k kp n e t :
  let t' := set_t_keypairs (<[k := kp]> (t_keypairs t)) (set_t_fresh n (set_t_env e t)) in
  kps_at t' p = kps_at t p /\ hs_at t' p = hs_at t p.
Proof. done. Qed.

(** C22. A derived session gets a fresh keypair with the keys of the
    chain key, counter 0 and an empty window, on the index of the handshake; the
    initiator makes it current (an unconfirmed next keypair, or else the current
    one, becomes the previous one), the responder keeps it next and drops the
    previous one; the handshake is cleared and without index. *)
Theorem session_slots p t isInitiator sendKey recvKey :
  session_keys (hs_at t p) = Some (isInitiator, sendKey, recvKey) ->
  let k := t_fresh t in
  let ks := kps_at t p in
  let '(t', err) := BeginSymmetricSession p t in
  err = None /\
  kps_at t' p =
    (if isInitiator
     then mkKeypairs (Some k) (match next ks with Some n => Some n | None => current ks end) None
     else mkKeypairs (current ks) None (Some k)) /\
  (let kp := keypair_at t' k in
   kp_send kp = sendKey /\ kp_receive kp = recvKey /\ kp_sendNonce kp = 0 /\
   kp_isInitiator kp = isInitiator /\ kp_localIndex kp = hs_localIndex (hs_at t p) /\
   kp_remoteIndex kp = hs_remoteIndex (hs_at t p)) /\
  hs_state (hs_at t' p) = handshakeZeroed /\ hs_localIndex (hs_at t' p) = 0 /\
  hs_chainKey (hs_at t' p) = setZero (hs_chainKey (hs_at t p)).
Proof.
  intros Hk. cbn zeta. unfold BeginSymmetricSession. rewrite bind_get_handshake. fold (hs_at t p).
  rewrite Hk. mrun. rewrite bind_new_keypair, bind_Swap, bind_upd_handshake.
  set (t1 := put_handshake p _ t). set (kp := mkKeypair _ _ _ _ _ _ _ _).
  change (t_fresh (set_t_env _ t1)) with (t_fresh t).
  change (t_keypairs (set_t_env _ t1)) with (t_keypairs t1).
  set (t2 := set_t_keypairs _ _).
  assert (E1 : kps_at t1 p = kps_at t p) by apply kps_at_put_handshake.
  assert (E2 : hs_at t1 p = set_hs_state handshakeZeroed
            (set_hs_localEphemeral (setZero (hs_localEphemeral (hs_at t p)))
              (set_hs_hash (setZero (hs_hash (hs_at t p)))
                (set_hs_chainKey (setZero (hs_chainKey (hs_at t p))) (hs_at t p)))))
    by (unfold t1; by rewrite hs_at_put_handshake).
  assert (E3 : kps_at t2 p = kps_at t1 p /\ hs_at t2 p = hs_at t1 p) by apply new_keypair_frame.
  assert (E4 : keypair_at t2 (t_fresh t) = kp) by (etrans;
    [apply (keypair_at_new _ _ _ (set_t_env (fst (time_Now (t_env t))) t1))|by rewrite decide_True]).
  clearbody t1 t2. destruct (install_run p isInitiator (t_fresh t) (hs_localIndex (hs_at t p)) t2)
    as (H1 & H2 & H3).
  unfold bind at 1. destruct (rotate_keypairs _ _ _ _) as [t' u]. cbn [fst] in *. unfold ret.
  destruct E3 as [E3 E3']. rewrite H1, H2, H3, E3, E3', E1, E2, E4.
  split; [done|]. split; [by destruct isInitiator|]. done.
Qed.

(** ** The end of the transport and of a handshake *)


Lemma FlushStagedPackets_run p t :
  exists m, FlushStagedPackets p t = (put_peer p (set_p_staged []) (set_t_outContainers m t), tt).
Proof.
  unfold FlushStagedPackets. rewrite bind_get_peer. generalize (p_staged (peer_at t p)). intros q.
  assert (H : exists m, forM q PutOutboundElementsContainer t = (set_t_outContainers m t, tt)).
  { revert t. induction q as [|c q IH]; intros t; [exists (t_outContainers t); by destruct t|].
    cbn [forM]. change (bind (PutOutboundElementsContainer c) ?k t)
      with (k tt (fst (PutOutboundElementsContainer c t))).
    destruct (IH (fst (PutOutboundElementsContainer c t))) as [m ->]. by exists m. }
  destruct H as [m H]. exists m. unfold bind. by rewrite H.
Qed.

Lemma bind_eq {A D} (m : M W A) (k : A -> M W D) t t' a :
  m t = (t', a) -> bind m k t = k a t'.
Proof. intros H. unfold bind. by rewrite H. Qed.

Lemma bind_timersActive {D} p (k : bool -> M W D) t :
  bind (timersActive p) k t =
  k (p_isRunning (peer_at t p) && bool_decide (t_state t = transportStateUp)) t.
Proof. done. Qed.

(** The part after the keepalive timer is stopped. *)
Lemma give_up_tail p t :
  let t' := fst ((FlushStagedPackets p ;;;
    let* active := timersActive p in
    let* x := get_peer p in
    whenM (active && negb (IsPending (tm_zeroKeyMaterial (p_timers x))))
      (upd_timers p (fun ts =>
         set_tm_zeroKeyMaterial (Mod (RejectAfterTime * 3) (tm_zeroKeyMaterial ts)) ts))) t) in
  p_staged (peer_at t' p) = [] /\ t_bind t' = t_bind t /\ t_indexTable t' = t_indexTable t /\
  t_keypairs t' = t_keypairs t /\
  (p_isRunning (peer_at t p) = true -> t_state t = transportStateUp ->
   isPending (tm_zeroKeyMaterial (p_timers (peer_at t' p))) = true).
Proof.
  cbn zeta. destruct (FlushStagedPackets_run p t) as [m Hm]. rewrite (bind_eq _ _ _ _ _ Hm).
  set (t1 := put_peer _ _ _). rewrite bind_timersActive, bind_get_peer.
  assert (E1 : peer_at t1 p = set_p_staged [] (peer_at t p)) by (unfold t1; by rewrite peer_at_put_peer_eq).
  rewrite E1. cbn [p_isRunning p_timers set_p_staged]. change (t_state t1) with (t_state t).
  destruct (IsPending _) eqn:Hp; cbn [negb]; rewrite ?andb_false_r, ?andb_true_r; cbn [whenM].
  - unfold ret. cbn [fst]. rewrite E1. split_and!; try done.
  - destruct (p_isRunning (peer_at t p) && _) eqn:Ha; cbn [whenM].
    + change (fst (upd_timers p ?f t1)) with (put_peer p (fun x => set_p_timers (f (p_timers x)) x) t1).
      rewrite peer_at_put_peer_eq, E1. by split_and!.
    + unfold ret. cbn [fst]. rewrite E1. split_and!; try done.
      intros Hr Hs. rewrite Hr, Hs in Ha. by rewrite bool_decide_true in Ha.
Qed.

(** When the retransmission timer of a peer expires after
    more than 18 attempts, no further initiation leaves: the staged packets are
    dropped, the network, the index table and the keypairs are left alone, and on
    an active peer the timer that erases the key material is pending. *)
Theorem retransmit_gives_up p t :
  MaxTimerHandshakes < tm_handshakeAttempts (p_timers (peer_at t p)) ->
  let t' := fst (expiredRetransmitHandshake p t) in
  p_staged (peer_at t' p) = [] /\ t_bind t' = t_bind t /\ t_indexTable t' = t_indexTable t /\
  t_keypairs t' = t_keypairs t /\
  (p_isRunning (peer_at t p) = true -> t_state t = transportStateUp ->
   isPending (tm_zeroKeyMaterial (p_timers (peer_at t' p))) = true).
Proof.
  intros Ha. cbn zeta. unfold expiredRetransmitHandshake. rewrite bind_get_peer.
  rewrite (proj2 (Z.ltb_lt _ _) Ha).
  rewrite bind_timersActive. destruct (_ && _); cbn [whenM].
  - unfold upd_timers at 1. rewrite bind_upd_peer. set (t1 := put_peer p _ t).
    destruct (give_up_tail p t1) as (H1 & H2 & H3 & H4 & H5). split_and!; try done.
    intros Hr Hs. apply H5; [|done]. unfold t1. by rewrite peer_at_put_peer_eq.
  - rewrite bind_ret. apply (give_up_tail p t).
Qed.

End Queues.
(** *** Witnesses *)

#[local] Instance toy : Crypto := Toy.toy_crypto.

(** A transport with a full queue for peer 0. *)
Definition demo_full : Demo.W :=
  put_peer 0 (set_p_staged (List.seq 10 128)) (demo_transport 1 (demo_env_at 1000) 2).

Lemma staging_drops_oldest_witness :
  p_staged (peer_at (fst (StagePackets 0 7%nat demo_full)) 0) = List.seq 11 127 ++ [7%nat].
Proof.
  rewrite (proj1 (staging_drops_oldest 0 7%nat demo_full ltac:(vm_compute; lia))).
  vm_compute. reflexivity.
Defined.

Lemma receive_routine_ends_witness :
  snd (RoutineReceiveIncoming (map inl (replicate 10 (ErrOS 5)) ++ [inl (ErrOS 5)]) 0 demo_full) = Some [].
Proof.
  apply (receive_routine_ends (replicate 10 (ErrOS 5)) [] []).
  - intros e He. apply elem_of_replicate in He as [-> _]. discriminate.
  - vm_compute. lia.
  - discriminate.
  - reflexivity.
Defined.

(** An initiation with zero MACs and one with a valid MAC1, 128 others behind them. *)
Definition bad_elem : QueueHandshakeElement :=
  mkHsElem MessageInitiationType (zero_bytes 148) (demo_endpoint 2).
Definition mac1_elem : QueueHandshakeElement :=
  mkHsElem MessageInitiationType
    (snd (snd (AddMacs (generator_Init zeroGenerator (PublicKey (demo_sk 1))) (zero_bytes 148)
                 (demo_env_at 1000)))) (demo_endpoint 2).
Definition demo_queue (e : QueueHandshakeElement) (n : nat) : Demo.W :=
  set_t_handshakeQ (e :: replicate n bad_elem) (demo_transport 1 (demo_env_at 1000) 2).

Lemma invalid_mac1_ignored_witness :
  RoutineHandshake (demo_queue bad_elem 3) =
  (set_t_handshakeQ (replicate 3 bad_elem) (demo_queue bad_elem 3), Skip).
Proof.
  apply (invalid_mac1_ignored bad_elem); [reflexivity|left; reflexivity|vm_compute; reflexivity].
Defined.


(** The initiation of transport 1 arrives at transport 2 twice. *)
Definition demo_initiation : MessageInitiation :=
  match snd (CreateMessageInitiation 0 (demo_transport 1 (demo_env_at 1000) 2)) with
  | inr m => m
  | inl _ => mkInitiation 0 0 [] [] [] [] []
  end.
Definition demo_consumed := ConsumeMessageInitiation demo_initiation (demo_transport 2 (demo_env_at 2000) 1).

Lemma initiation_replay_rejected_witness :
  snd demo_consumed = Some 0%nat /\
  exists e', ConsumeMessageInitiation demo_initiation (set_t_env (demo_env_at 3000) (fst demo_consumed)) =
    (set_t_env e' (fst demo_consumed), None).
Proof.
  assert (E : snd demo_consumed = Some 0%nat) by (vm_compute; reflexivity).
  split; [exact E|].
  apply (initiation_replay_rejected demo_initiation 0%nat (demo_transport 2 (demo_env_at 2000) 1)).
  rewrite <- E. unfold demo_consumed. apply surjective_pairing.
Defined.

(** A peer whose handshake sent its response. *)
Definition demo_responded : Demo.W :=
  put_handshake 0 (fun h => set_hs_state handshakeResponseCreated (set_hs_localIndex 9 h))
    (demo_transport 1 (demo_env_at 1000) 2).
Definition demo_session_keys := KDF2 (zero_bytes 32) [].

Lemma session_slots_witness :
  let '(t', err) := BeginSymmetricSession 0 demo_responded in
  err = None /\ kps_at t' 0 = mkKeypairs None None (Some 1%nat).
Proof.
  assert (Hk : session_keys (hs_at demo_responded 0) =
    Some (false, snd demo_session_keys, fst demo_session_keys)) by (vm_compute; reflexivity).
  pose proof (session_slots 0 demo_responded _ _ _ Hk) as H.
  destruct (BeginSymmetricSession 0 demo_responded) as [t' err].
  destruct H as (H1 & H2 & _). split; [exact H1|exact H2].
Defined.


Definition demo_tired : Demo.W :=
  put_peer 0 (fun x => set_p_staged [5%nat] (set_p_timers (set_tm_handshakeAttempts 19 (p_timers x)) x))
    (demo_transport 1 (demo_env_at 1000) 2).

Lemma retransmit_gives_up_witness :
  p_staged (peer_at (fst (expiredRetransmitHandshake 0 demo_tired)) 0) = [].
Proof. apply (retransmit_gives_up 0 demo_tired). vm_compute. reflexivity. Defined.

(** ** Findings *)

(** An environment whose random source answers with zero bytes. *)
Definition zero_env : Env := mkEnv (fun i => 1000 * Second + Z.of_nat i) 0 (fun _ => (fun _ => Byte.x00, false)) 0 (fun _ => 0) 0.
Definition zero_index_transport : Demo.W := demo_transport 1 zero_env 2.

(** Index 0 stands for "no index", yet [NewIndexForHandshake]
    hands it out when four zero bytes are drawn; another peer without a handshake
    that clears its own (none) then deletes the entry. *)
Theorem zero_index_lost :
  snd (NewIndexForHandshake 1 zero_index_transport) = (0, None) /\
  (let t := fst (NewIndexForHandshake 1 zero_index_transport) in
   t_indexTable t !! 0 = Some (hs_entry 1) /\ hs_localIndex (hs_at t 0) = 0 /\
   t_indexTable (fst (ExpireCurrentKeypairs 0 t)) !! 0 = None).
Proof. split; [vm_compute; reflexivity|]. cbv zeta. split_and!; vm_compute; reflexivity. Qed.

(** A peer without endpoint: its initiation cannot be sent. *)
Definition no_endpoint : Demo.W :=
  put_peer 0 (set_p_endpoint None) (demo_transport 1 (demo_env_at 1000) 2).
Definition read1 := read_from_source [(zero_bytes 5, PublicKey (demo_sk 2))] ∅ no_endpoint.
Definition read2 := read_from_source [] (snd read1) (fst read1).

(** When the staged packets of a peer cannot be sent,
    [RoutineReadFromSourceSink] keeps the container it has just staged in
    [elemsByPeer], and the next read stages the same container again. *)
Theorem failed_read_restages :
  p_staged (peer_at (fst read1) 0) = [1%nat] /\ snd read1 !! 0%nat = Some 1%nat /\
  p_staged (peer_at (fst read2) 0) = [1%nat; 1%nat].
Proof. split_and!; vm_compute; reflexivity. Qed.

End Behaviour.
