(* ===== verification/Delivery.v ===== *)
(** The way of packets from one transport to another: what the source has read
    for a peer leaves as one batch of transport messages, numbered in order, and
    what the other side receives of it is written to its sink, in order. *)
From S2P Require Import Prelude Replay RateLimiter Env Crypto Wire Cookie State Demo IndexTable Noise Timers Send Receive Lifecycle Invariant Keys Flow Frame System Behaviour Scenario.
From stdpp Require Import prelude gmap list.
Open Scope Z_scope.

Module Delivery.
Import Env.Env Crypto.Noise_helpers Wire.Wire State.State Demo.Demo IndexTable.IndexTable Noise.Noise Timers.Timers
  Send.Send Receive.Receive Lifecycle.Lifecycle Flow.Flow Frame.Frame System.System Behaviour.Behaviour Scenario.Scenario.

(** A packet with its padding, and the datagrams of a batch, numbered from [n]. *)
Definition padded (b : bytes) : bytes :=
  b ++ zero_bytes (Z.to_nat (calculatePaddingSize (Z.of_nat (length b)) DefaultMTU)).

Fixpoint datagrams {C : Crypto} (kp : Keypair) (n : Z) (bs : list bytes) : list bytes :=
  match bs with
  | [] => []
  | b :: bs =>
      (transport_header (kp_remoteIndex kp) n ++ aead_Seal (kp_send kp) (aead_nonce n) (padded b) [])
      :: datagrams kp (n + 1) bs
  end.

(** One step of a handler that the frame covers. *)
Ltac through t t' A :=
  match goal with |- context [bind ?m ?g t] =>
    destruct (bind_alike m g t) as (t' & ? & -> & A); [intros; preserves_tac|]
  end.

Section Sending.
Context {C : Crypto} {B S : Type} `{!Bind B} `{!SourceSink S}.
Abbreviation W := (Transport B S).
Implicit Types t : W.

Definition fresh_elem (b : bytes) : QueueOutboundElement := mkOutElem b 0 None None.

(** The transport has a session with the peer, young enough for [m] packets,
    and nothing under way to it. *)
Record ready t (pk : bytes) (p : PeerId) (k : KeypairId) (m : nat) : Prop := {
  rd_up : t_state t = transportStateUp;
  rd_key : t_keyMap t !! pk = Some p;
  rd_running : p_isRunning (peer_at t p) = true;
  rd_session : current (p_keypairs (peer_at t p)) = Some k;
  rd_nonce : 0 <= kp_sendNonce (keypair_at t k);
  rd_room : kp_sendNonce (keypair_at t k) + Z.of_nat m <= RekeyAfterMessages;
  rd_young i : (ticks (t_env t) <= i <= ticks (t_env t) + 1)%nat ->
    time_Sub (clock (t_env t) i) (kp_created (keypair_at t k)) <= RekeyAfterTime;
  rd_staged : p_staged (peer_at t p) = [];
  rd_outbound : p_outbound (peer_at t p) = [];
  rd_queue : t_encryptionQ t = [];
}.

(** ** Reading and staging *)

Lemma group_known pk p bs : forall t c l, t_keyMap t !! pk = Some p -> out_at t c = mkOutContainer false l ->
  Forall (fun b => (1 <= length b)%nat) bs ->
  exists t', group_packets (map (fun b => (b, pk)) bs) {[p := c]} t = (t', {[p := c]}) /\
    t' = set_t_outContainers (t_outContainers t') t /\ out_at t' c = mkOutContainer false (l ++ map fresh_elem bs).
Proof.
  induction bs as [|b bs IH]; intros t c l Hk Hc Hb.
  { exists t. split; [done|]. split; [by destruct t|]. by rewrite app_nil_r. }
  apply Forall_cons in Hb as [Hb1 Hb]. cbn [map group_packets group_packet].
  rewrite (proj2 (Nat.ltb_ge _ _)) by lia. rewrite bind_assoc, bind_gets, Hk, lookup_singleton_eq.
  set (t1 := put_out c (fun x => mkOutContainer (oc_locked x) (oc_elems x ++ [fresh_elem b])) t).
  destruct (IH t1 c (l ++ [fresh_elem b])) as (t' & E & Hf & Ho); [done| |done|].
  { unfold t1, out_at, put_out. simpl. rewrite lookup_insert_eq. simpl. by rewrite Hc. }
  exists t'. split; [exact E|]. split; [by rewrite Hf|]. by rewrite Ho, <- app_assoc.
Qed.

Lemma group_new pk p b bs t : t_keyMap t !! pk = Some p -> Forall (fun b => (1 <= length b)%nat) (b :: bs) ->
  exists t', group_packets (map (fun b => (b, pk)) (b :: bs)) ∅ t = (t', {[p := t_fresh t]}) /\
    t' = set_t_outContainers (t_outContainers t') (set_t_fresh (Datatypes.S (t_fresh t)) t) /\
    out_at t' (t_fresh t) = mkOutContainer false (map fresh_elem (b :: bs)).
Proof.
  intros Hk [Hb1 Hb]%Forall_cons. cbn [map group_packets group_packet].
  rewrite (proj2 (Nat.ltb_ge _ _)) by lia. rewrite bind_assoc, bind_gets, Hk, lookup_empty.
  rewrite bind_assoc, bind_new_out, bind_ret. set (t1 := set_t_outContainers _ _).
  destruct (group_known pk p bs t1 (t_fresh t) [fresh_elem b]) as (t' & E & Hf & Ho); [done| |done|].
  { unfold t1, out_at. simpl. by rewrite lookup_insert_eq. }
  exists t'. split; [exact E|]. split; [by rewrite Hf|exact Ho].
Qed.

Lemma assign_all p k l : forall t, 0 <= kp_sendNonce (keypair_at t k) ->
  kp_sendNonce (keypair_at t k) + Z.of_nat (length l) <= RejectAfterMessages ->
  let n := kp_sendNonce (keypair_at t k) in
  exists t', assign_nonces p k l t = (t', (numbered p k n l, [])) /\
    t' = set_t_assigned (t_assigned t') (set_t_keypairs (t_keypairs t') t) /\
    keypair_at t' k = set_kp_sendNonce (n + Z.of_nat (length l)) (keypair_at t k).
Proof.
  induction l as [|e l IH]; intros t H0 Hn; cbv zeta.
  { exists t. split; [done|]. split; [by destruct t|]. rewrite Z.add_0_r. by destruct (keypair_at t k). }
  cbn [length] in Hn. cbn [assign_nonces]. unfold sendNonce_Add.
  rewrite bind_assoc, bind_get_keypair, bind_assoc, bind_upd_keypair, bind_ret.
  set (n := kp_sendNonce (keypair_at t k)) in *. destruct (sendNonce_small n) as [-> ->]; [lia|].
  rewrite (proj2 (Z.leb_gt _ _)) by lia. unfold bind at 1, modify. set (t1 := set_t_assigned _ _).
  assert (E1 : keypair_at t1 k = set_kp_sendNonce (n + 1) (keypair_at t k)).
  { unfold t1. change (keypair_at (set_t_assigned ?a ?t) k) with (keypair_at t k). by rewrite keypair_at_put_keypair, decide_True. }
  destruct (IH t1) as (t' & Ha & Hf & Hk); [rewrite E1; simpl; lia|rewrite E1; simpl; lia|].
  rewrite E1 in Ha, Hk. unfold bind. rewrite Ha. exists t'. split; [done|]. split; [by rewrite Hf|].
  rewrite Hk. cbn [kp_sendNonce set_kp_sendNonce length].
  replace (n + Z.of_nat (Datatypes.S (length l))) with (n + 1 + Z.of_nat (length l)) by lia.
  by destruct (keypair_at t k).
Qed.

(** What the steps up to the bind leave as it is. *)
Record outside t t' : Prop := {
  os_state : t_state t' = t_state t;
  os_bind : t_bind t' = t_bind t;
  os_clock : clock (t_env t') = clock (t_env t);
}.

Lemma outside_trans t t1 t2 : outside t t1 -> outside t1 t2 -> outside t t2.
Proof. intros [] []. split; congruence. Qed.

(** A container whose elements are numbered is with the workers and the sender. *)
Record loaded t p k c (x : Peer) (kp : Keypair) (elems : list QueueOutboundElement) (d : nat) (t' : W) : Prop := {
  ld_outside : outside t t';
  ld_ticks : ticks (t_env t') = (ticks (t_env t) + d)%nat;
  ld_queue : t_encryptionQ t' = t_encryptionQ t ++ [c];
  ld_content : out_at t' c = mkOutContainer true (numbered p k (kp_sendNonce kp) elems);
  ld_peer : peer_at t' p = set_p_outbound (p_outbound x ++ [Some c]) (set_p_staged [] x);
  ld_keypair : keypair_at t' k = set_kp_sendNonce (kp_sendNonce kp + Z.of_nat (length elems)) kp;
}.

(** Numbering the only staged container and handing it over. *)
Lemma hand_over fuel p k c t elems (x := peer_at t p) (kp := keypair_at t k) :
  p_staged x = [c] -> p_isRunning x = true -> out_at t c = mkOutContainer false elems -> elems <> [] ->
  0 <= kp_sendNonce kp -> kp_sendNonce kp + Z.of_nat (length elems) <= RejectAfterMessages ->
  exists t', send_staged_loop (B:=B) (S:=S) (Datatypes.S (Datatypes.S fuel)) p (Some k) t = (t', Some None) /\
    loaded t p k c x kp elems 0 t'.
Proof.
  intros Hst Hrun Hc Hne H0 Hn. cbn [send_staged_loop]. rewrite bind_get_peer. fold x. rewrite Hst.
  unfold set_staged. rewrite bind_upd_peer, bind_gets. set (t1 := put_peer p (set_p_staged []) t).
  change (out_at t1 c) with (out_at t c). rewrite Hc. cbn [oc_elems].
  destruct (assign_all p k elems t1 H0 Hn) as (t2 & Ha & Hf & Hk). unfold bind at 1. rewrite Ha.
  change (keypair_at t1 k) with kp in *. set (t3 := put_out c (fun _ => mkOutContainer true (numbered p k (kp_sendNonce kp) elems)) t2).
  assert (Ep : peer_at t3 p = set_p_staged [] x).
  { unfold t3. change (peer_at (put_out _ _ t2) p) with (peer_at t2 p). rewrite Hf.
    change (peer_at (set_t_assigned _ _) p) with (peer_at t1 p). unfold t1. by rewrite peer_at_put_peer, decide_True. }
  match goal with |- context [bind (upd_out c ?f) ?g t2] => change (bind (upd_out c f) g t2) with (g tt t3) end.
  cbv beta. rewrite bind_ret. set (t4 := set_t_encryptionQ (t_encryptionQ t3 ++ [c])
    (put_peer p (fun x => set_p_outbound (p_outbound x ++ [Some c]) x) t3)).
  assert (Ep4 : peer_at t4 p = set_p_outbound (p_outbound x ++ [Some c]) (set_p_staged [] x)).
  { unfold t4. change (peer_at (set_t_encryptionQ ?q ?t) p) with (peer_at t p). by rewrite peer_at_put_peer, decide_True, Ep. }
  exists t4. split.
  - destruct elems as [|e l]; [done|]. cbn [numbered]. unfold bind at 1, dispatch. rewrite bind_get_peer, Ep.
    change (p_isRunning (set_p_staged [] x)) with (p_isRunning x). rewrite Hrun, bind_upd_peer. cbv iota.
    change (modify ?f ?t) with (f t, tt). cbv beta iota. rewrite bind_get_peer.
    match goal with |- context [match p_staged (peer_at ?s p) with _ => _ end] => change s with t4 end. by rewrite Ep4.
  - assert (Ho : outside t t4) by (split; unfold t4, t3; simpl; by rewrite Hf).
    split; [done| | | |exact Ep4|].
    + unfold t4, t3. simpl. rewrite Hf. simpl. by rewrite Nat.add_0_r.
    + unfold t4, t3. simpl. by rewrite Hf.
    + unfold t4, t3, out_at. simpl. by rewrite lookup_insert_eq.
    + exact Hk.
Qed.

(** A session that is young passes the test at the top of [SendStagedPackets]. *)
Lemma send_staged_run p k c t elems (x := peer_at t p) (kp := keypair_at t k) :
  t_state t = transportStateUp -> current (p_keypairs x) = Some k ->
  time_Sub (clock (t_env t) (ticks (t_env t))) (kp_created kp) <= RekeyAfterTime ->
  p_staged x = [c] -> p_isRunning x = true -> out_at t c = mkOutContainer false elems -> elems <> [] ->
  0 <= kp_sendNonce kp -> kp_sendNonce kp + Z.of_nat (length elems) <= RejectAfterMessages ->
  exists t', SendStagedPackets (B:=B) (S:=S) p t = (t', None) /\ loaded t p k c x kp elems 1 t'.
Proof.
  intros Hup Hk Hy Hst Hrun Hc Hne H0 Hn. unfold SendStagedPackets. rewrite bind_get_peer. fold x.
  unfold send_staged_fuel. rewrite Hst. change (2 * length [c] + 3)%nat with (Datatypes.S 4).
  remember 4%nat as fuel eqn:Ef. unfold bind at 1. cbn [send_staged_loop]. rewrite bind_get_peer. fold x. unfold isUp. rewrite bind_gets, Hst, Hup.
  rewrite (bool_decide_false ([c] = [])), (bool_decide_true (transportStateUp = transportStateUp)) by done.
  cbn [orb negb]. rewrite Hk, bind_get_keypair. fold kp.
  destruct elems as [|e l]; [done|]. cbn [length] in Hn. rewrite (proj2 (Z.leb_gt _ _)) by lia. rewrite bind_since.
  change RekeyAfterTime with (120 * Second) in Hy.
  rewrite (proj2 (Z.leb_gt _ _)) by (change RejectAfterTime with (180 * Second); change Second with 1000000000 in *; lia).
  set (t1 := set_t_env _ t).
  subst fuel. destruct (hand_over 2 p k c t1 (e :: l) Hst Hrun Hc Hne H0) as (t2 & -> & [Ho Ht Hq Hcc Hp Hkp]); [cbn [length]; exact Hn|].
  exists t2. split; [done|]. split; try done; [destruct Ho; by split|]. rewrite Ht. simpl. lia.
Qed.

Lemma read_run pk p k b bs t : ready t pk p k (length (b :: bs)) -> Forall (fun b => (1 <= length b)%nat) (b :: bs) ->
  exists t', read_from_source (map (fun b => (b, pk)) (b :: bs)) ∅ t = (t', ∅) /\
    loaded t p k (t_fresh t) (peer_at t p) (keypair_at t k) (map fresh_elem (b :: bs)) 1 t'.
Proof.
  intros [Hup Hkm Hrun Hk H0 Hn Hy Hst Hob Hq] Hb. set (c := t_fresh t).
  destruct (group_new pk p b bs t Hkm Hb) as (t1 & E & Hf & Hc). fold c in E, Hf, Hc.
  unfold read_from_source. unfold bind at 1. rewrite E, map_to_list_singleton. cbn [stage_groups].
  assert (Ep : peer_at t1 p = peer_at t p) by (by rewrite Hf).
  rewrite bind_get_peer, Ep, Hrun. unfold StagePackets. rewrite bind_assoc, bind_get_peer, Ep, Hst.
  change (length (@nil nat) <? QueueStagedSize)%nat with true. cbv iota. unfold set_staged. rewrite bind_upd_peer.
  change ([] ++ [c]) with [c]. set (t2 := put_peer p (set_p_staged [c]) t1).
  assert (Ep2 : peer_at t2 p = set_p_staged [c] (peer_at t p)) by (unfold t2; by rewrite peer_at_put_peer, decide_True, Ep).
  assert (Ek : keypair_at t2 k = keypair_at t k) by (unfold t2; change (keypair_at (put_peer _ _ t1) k) with (keypair_at t1 k); by rewrite Hf).
  assert (Eo : outside t t2 /\ ticks (t_env t2) = ticks (t_env t)) by (unfold t2; rewrite Hf; by split).
  destruct Eo as [Eo Et].
  assert (Hlen : length (map fresh_elem (b :: bs)) = length (b :: bs)) by apply length_map.
  destruct (send_staged_run p k c t2 (map fresh_elem (b :: bs))) as (t3 & E3 & [Ho Htt Hqq Hcc Hp Hkp]);
    rewrite ?Ep2, ?Ek, ?(os_state _ _ Eo), ?(os_clock _ _ Eo), ?Et, ?Hlen; try done.
  - apply Hy. lia.
  - change RekeyAfterMessages with (2 ^ 60) in Hn. change RejectAfterMessages with (2 ^ 64 - 2 ^ 13 - 1). cbn [length] in *. lia.
  - unfold bind at 1. rewrite E3. rewrite delete_singleton_eq. exists t3. split; [done|]. split.
    + by eapply outside_trans.
    + by rewrite Htt, Et.
    + rewrite Hqq. unfold t2. by rewrite Hf.
    + by rewrite Hcc, Ek.
    + rewrite Hp, Ep2. by destruct (peer_at t p).
    + by rewrite Hkp, Ek.
Qed.

(** ** Sealing and sending *)

Lemma encrypt_run t c elems : t_encryptionQ t = [c] -> oc_elems (out_at t c) = elems ->
  exists t', RoutineEncryption t = (t', tt) /\ outside t t' /\ ticks (t_env t') = ticks (t_env t) /\ t_peers t' = t_peers t /\ t_keypairs t' = t_keypairs t /\
    t_encryptionQ t' = [] /\ out_at t' c = mkOutContainer false (map (encrypt_at t) elems).
Proof.
  intros Hq He. unfold RoutineEncryption. rewrite bind_gets, Hq. eexists. split; [reflexivity|].
  split; [by split|]. do 4 (split; [done|]).
  unfold out_at. simpl. rewrite lookup_insert_eq. simpl. by rewrite <- He.
Qed.

Lemma sealed_datagrams t p k kp bs : kp_remoteIndex (keypair_at t k) = kp_remoteIndex kp ->
  kp_send (keypair_at t k) = kp_send kp ->
  forall n, map oe_packet (map (encrypt_at t) (numbered p k n (map fresh_elem bs))) = datagrams kp n bs.
Proof.
  intros Hi Hs. induction bs as [|b bs IH]; intros n; [done|]. cbn [map numbered datagrams]. rewrite IH. f_equal.
  unfold encrypt_at. cbn [oe_keypair oe_packet fresh_elem]. unfold encrypt_elem. cbn [oe_packet oe_nonce]. by rewrite Hi, Hs.
Qed.

Lemma SendBuffers_run p bufs ep t : t_state t <> transportStateClosed -> p_endpoint (peer_at t p) = Some ep ->
  exists t' err, SendBuffers (B:=B) (S:=S) p bufs t = (t', err) /\
    alike (set_t_bind (fst (bind_Send bufs ep (t_bind t))) t) t'.
Proof.
  intros Hup He. unfold SendBuffers, isClosed. rewrite bind_gets, bool_decide_false by done.
  rewrite bind_get_peer, He. unfold bind at 1, on_bind. destruct (bind_Send bufs ep (t_bind t)) as [b [err|]]; cbn [fst].
  - eexists _, _. split; [done|]. apply alike_refl.
  - rewrite bind_upd_peer. eexists _, _. split; [done|]. apply alike_put_peer; [done|apply alike_refl].
Qed.

Lemma keepKeyFreshSending_young p k t (kp := keypair_at t k) : current (p_keypairs (peer_at t p)) = Some k ->
  kp_sendNonce kp <= RekeyAfterMessages ->
  time_Sub (clock (t_env t) (ticks (t_env t))) (kp_created kp) <= RekeyAfterTime ->
  exists e, keepKeyFreshSending (B:=B) (S:=S) p t = (set_t_env e t, None) /\ clock e = clock (t_env t).
Proof.
  intros Hk Hn Hy. unfold keepKeyFreshSending. rewrite bind_get_peer, Hk, bind_get_keypair. fold kp.
  rewrite (proj2 (Z.ltb_ge _ _)) by done. destruct (kp_isInitiator kp).
  - rewrite bind_since, (proj2 (Z.ltb_ge _ _)) by exact Hy. by eexists.
  - exists (t_env t). split; [by destruct t|done].
Qed.

(** The state behind a send, compared with the one before it. *)
Record passed t (b : B) (t' : W) : Prop := {
  pa_bind : t_bind t' = b;
  pa_peer q : core (peer_at t' q) = core (peer_at t q);
  pa_keypairs : t_keypairs t' = t_keypairs t;
  pa_queue : t_encryptionQ t' = t_encryptionQ t;
}.

Lemma passed_intro t t1 b t2 c f : alike t t1 -> alike (set_t_bind b t1) t2 -> passed t b (put_out c f t2).
Proof.
  intros A1 A2. split; simpl.
  - by rewrite (alike_view t_bind _ _ A2) by done.
  - intros q. change (peer_at (put_out c f t2) q) with (peer_at t2 q). rewrite (al_peer _ _ A2). apply (al_peer _ _ A1).
  - rewrite (alike_view t_keypairs _ _ A2) by done. apply (alike_view t_keypairs _ _ A1). done.
  - rewrite (alike_view t_encryptionQ _ _ A2) by done. apply (alike_view t_encryptionQ _ _ A1). done.
Qed.

Lemma passed_peer {A} (g : Peer -> A) t b t' q : passed t b t' -> (forall x, g (core x) = g x) ->
  g (peer_at t' q) = g (peer_at t q).
Proof. intros Hp Hg. by rewrite <- (Hg (peer_at t' q)), (pa_peer _ _ _ Hp q), Hg. Qed.

Lemma passed_keypair t b t' k : passed t b t' -> keypair_at t' k = keypair_at t k.
Proof. intros Hp. unfold keypair_at. by rewrite (pa_keypairs _ _ _ Hp). Qed.

Lemma sender_run p k c q elems ep t (kp := keypair_at t k) :
  t_state t = transportStateUp -> p_isRunning (peer_at t p) = true -> p_outbound (peer_at t p) = Some c :: q ->
  out_at t c = mkOutContainer false elems -> p_endpoint (peer_at t p) = Some ep ->
  current (p_keypairs (peer_at t p)) = Some k -> kp_sendNonce kp <= RekeyAfterMessages ->
  time_Sub (clock (t_env t) (ticks (t_env t))) (kp_created kp) <= RekeyAfterTime ->
  exists t', RoutineSequentialSender (B:=B) (S:=S) p t = (t', Continue) /\
    passed (put_peer p (set_p_outbound q) t) (fst (bind_Send (map oe_packet elems) ep (t_bind t))) t'.
Proof.
  intros Hup Hrun Hq Hc He Hk Hn Hy. unfold RoutineSequentialSender. rewrite bind_get_peer, Hq, bind_gets, Hc.
  cbn [oc_locked oc_elems]. rewrite bind_upd_peer. set (t1 := put_peer p (set_p_outbound q) t).
  match goal with |- context [bind (upd_out c ?f) ?g t1] => change (bind (upd_out c f) g t1) with (g tt (put_out c f t1)) end.
  cbv beta. rewrite Hrun. cbn [negb]. set (t2 := put_out c _ t1).
  assert (Ep : peer_at t2 p = set_p_outbound q (peer_at t p)).
  { unfold t2, t1. change (peer_at (put_out _ _ ?t) p) with (peer_at t p). by rewrite peer_at_put_peer, decide_True. }
  through t2 t3 A3. through t3 t4 A4.
  pose proof (alike_trans _ _ _ A3 A4) as A. clear A3 A4.
  destruct (SendBuffers_run p (map oe_packet elems) ep t4) as (t5 & err & E5 & A5).
  { rewrite (alike_view t_state _ _ A) by done. change (t_state t2) with (t_state t). by rewrite Hup. }
  { rewrite (alike_peer p_endpoint _ _ p A) by done. by rewrite Ep. }
  rewrite (alike_view t_bind _ _ A) in A5 by done. change (t_bind t2) with (t_bind t) in A5.
  unfold bind at 1. rewrite E5. set (b := fst (bind_Send _ _ _)) in *.
  through t5 t6 A6.
  pose proof (alike_trans _ _ _ A5 A6) as A'. clear A5 A6. set (f := fun x => mkOutContainer (oc_locked x) []).
  match goal with |- context [bind (PutOutboundElementsContainer c) ?g t6] => change (bind (PutOutboundElementsContainer c) g t6) with (g tt (put_out c f t6)) end.
  cbv beta zeta. set (t7 := put_out c f t6).
  assert (P : passed t1 b t7) by (destruct (passed_intro t2 t4 b t6 c f A A'); by split).
  match goal with |- context [match ?e with Some _ => ret Continue | None => _ end] => destruct e end; [by exists t7|].
  destruct (keepKeyFreshSending_young p k t7) as (e & E8 & _).
  - rewrite (passed_peer p_keypairs _ _ _ p P) by done. unfold t1. by rewrite peer_at_put_peer, decide_True.
  - by rewrite (passed_keypair _ _ _ k P).
  - rewrite (passed_keypair _ _ _ k P). change (t_env t7) with (t_env t6).
    rewrite (al_clock _ _ A'), (al_ticks _ _ A'). change (t_env (set_t_bind b t4)) with (t_env t4).
    by rewrite (al_clock _ _ A), (al_ticks _ _ A).
  - exists (set_t_env e t7). split; [unfold bind; by rewrite E8|]. destruct P. by split.
Qed.

(** The packets one read of the source yields for a peer with a
    young session leave the transport in one batch, in order: a turn of the
    reading routine, one of an encryption worker and one of the peer's sender
    hand to the bind, in a single [Send] to the peer's endpoint, exactly the
    transport messages of these packets, padded, sealed with the sending key and
    numbered consecutively from the keypair's counter, which ends behind them;
    nothing of the batch is left staged or queued. *)
Theorem packets_leave s pk p k ep bs (t := sys_t s) (kp := keypair_at t k) :
  ready t pk p k (length bs) -> bs <> [] -> Forall (fun b => (1 <= length b)%nat) bs ->
  p_endpoint (peer_at t p) = Some ep -> sys_groups s = ∅ ->
  let s' := exec_all [ActRead (map (fun b => (b, pk)) bs); ActEncrypt; ActSender p] s in
  t_bind (sys_t s') = fst (bind_Send (datagrams kp (kp_sendNonce kp) bs) ep (t_bind t)) /\
  kp_sendNonce (keypair_at (sys_t s') k) = kp_sendNonce kp + Z.of_nat (length bs) /\
  p_staged (peer_at (sys_t s') p) = [] /\ p_outbound (peer_at (sys_t s') p) = [] /\
  t_encryptionQ (sys_t s') = [] /\ sys_groups s' = ∅.
Proof.
  intros Hr Hne Hb He Hg. destruct bs as [|b bs]; [done|].
  destruct (read_run pk p k b bs t Hr Hb) as (t1 & E1 & [Ho Ht Hq Hc Hp Hk]). destruct Hr as [Hup _ Hrun Hcur _ Hn Hy _ Hob Hqe].
  rewrite Hqe in Hq. rewrite Hob in Hp. fold kp in Hk, Hc. rewrite length_map in Hk.
  destruct (encrypt_run t1 _ _ Hq eq_refl) as (t2 & E2 & Ho2 & Ht2 & Hp2 & Hk2 & Hq2 & Hc2). pose proof (outside_trans _ _ _ Ho Ho2) as Hot.
  assert (Ep : peer_at t2 p = set_p_outbound [Some (t_fresh t)] (set_p_staged [] (peer_at t p))).
  { unfold peer_at at 1. rewrite Hp2. exact Hp. }
  assert (Ek : keypair_at t2 k = set_kp_sendNonce (kp_sendNonce kp + Z.of_nat (length (b :: bs))) kp).
  { unfold keypair_at at 1. rewrite Hk2. exact Hk. }
  rewrite Hc in Hc2. cbn [oc_elems] in Hc2.
  set (l := map (encrypt_at t1) _) in Hc2. destruct (sender_run p k (t_fresh t) [] l ep t2) as (t3 & E3 & P3);
    try exact Hc2; rewrite ?Ep, ?Ek, ?(os_state _ _ Hot), ?(os_clock _ _ Hot), ?Ht2, ?Ht; try done.
  { apply Hy. lia. }
  cbv zeta. assert (Es : sys_t (exec_all [ActRead (map (fun b => (b, pk)) (b :: bs)); ActEncrypt; ActSender p] s) = t3 /\
     sys_groups (exec_all [ActRead (map (fun b => (b, pk)) (b :: bs)); ActEncrypt; ActSender p] s) = ∅).
  { cbn [exec_all exec]. rewrite Hg. fold t. rewrite E1. unfold on_t. cbn [sys_t sys_groups]. rewrite E2. cbn [fst]. by rewrite E3. }
  destruct Es as [-> ->]. rewrite (passed_keypair _ _ _ k P3), !(passed_peer _ _ _ _ p P3) by done.
  rewrite (pa_bind _ _ _ P3), (pa_queue _ _ _ P3), (os_bind _ _ Hot), peer_at_put_peer, decide_True, Ep by done.
  change (keypair_at (put_peer _ _ t2) k) with (keypair_at t2 k). rewrite Ek.
  split; [|done]. unfold l. rewrite (sealed_datagrams t1 p k kp); [done|by rewrite Hk..].
Qed.

End Sending.
(** ** Receiving *)

Section Receiving.
Context {C : Crypto} {Laws : CryptoLaws} {B S : Type} `{!Bind B} `{!SourceSink S}.
Abbreviation W := (Transport B S).
Implicit Types t : W.

(** A datagram that is a transport message for index [i]. *)
Record message (i : Z) (d : bytes) : Prop := {
  ms_length : (MessageTransportSize <= length d)%nat;
  ms_type : le_get (slice 0 4 d) = MessageTransportType;
  ms_receiver : le_get (slice 4 8 d) = i;
}.

(** Index [i] stands for keypair [k] of peer [p], which is not too old whenever
    the clock is read for one of [m] messages. *)
Record routed t (i : Z) (p : PeerId) (k : KeypairId) (m : nat) : Prop := {
  ro_entry : exists e, t_indexTable t !! i = Some e /\ e_keypair e = Some k /\ e_peer e = Some p;
  ro_young j : (ticks (t_env t) <= j < ticks (t_env t) + m)%nat ->
    clock (t_env t) j <= time_Add (kp_created (keypair_at t k)) RejectAfterTime;
}.

Definition in_elem (k : KeypairId) (ep : Endpoint) (d : bytes) : QueueInboundElement := mkInElem d (Some d) 0 k ep.

(** What sorting a batch changes. *)
Record sorted_out t (d : nat) t' : Prop := {
  so_rest : t' = set_t_env (t_env t') (set_t_inContainers (t_inContainers t') (set_t_fresh (t_fresh t') t));
  so_clock : clock (t_env t') = clock (t_env t);
  so_ticks : ticks (t_env t') = (ticks (t_env t) + d)%nat;
}.

Lemma routed_sorted t t' i p k m : sorted_out t 1 t' -> routed t i p k (Datatypes.S m) -> routed t' i p k m.
Proof.
  intros [E Ec Et] [He Hy]. split; [by rewrite E|]. intros j. rewrite Ec, Et. intros Hj.
  change (keypair_at t' k) with (keypair_at t' k). rewrite E. apply Hy. lia.
Qed.

Lemma in_at_put_in c f t j : in_at (put_in c f t) j = if decide (c = j) then f (in_at t c) else in_at t j.
Proof. unfold in_at, put_in. simpl. rewrite lookup_insert. by case_decide. Qed.

Lemma receive_message t i p k n ep d m : routed t i p k (Datatypes.S n) -> message i d ->
  receive_packet (d, ep) m t =
  (match m !! p with
   | Some c => upd_in c (fun x => mkInContainer (ic_locked x) (ic_elems x ++ [in_elem k ep d])) ;;; ret m
   | None => let* c := new_in_container [in_elem k ep d] in ret (<[p := c]> m)
   end) (set_t_env (fst (time_Now (t_env t))) t).
Proof.
  intros [(e & He & Hek & Hep) Hy] [Hl Ht Hr]. unfold receive_packet.
  rewrite (proj2 (Nat.ltb_ge _ _)) by exact Hl. rewrite Ht, Z.eqb_refl. unfold receive_transport.
  rewrite (proj2 (Nat.ltb_ge _ _)) by done. unfold MessageTransportOffsetReceiver, MessageTransportOffsetCounter.
  rewrite Hr. unfold table_Lookup. rewrite bind_gets, He. cbn [default]. cbn [from_option id]. rewrite Hek, Hep, bind_get_keypair, bind_now.
  by rewrite (proj2 (Z.ltb_ge _ _)) by (apply Hy; lia).
Qed.

Lemma receive_known i p k ep ds : forall t c l, routed t i p k (length ds) -> Forall (message i) ds ->
  in_at t c = mkInContainer true l ->
  exists t', receive_packets (map (fun d => (d, ep)) ds) {[p := c]} t = (t', {[p := c]}) /\ sorted_out t (length ds) t' /\
    in_at t' c = mkInContainer true (l ++ map (in_elem k ep) ds).
Proof.
  induction ds as [|d ds IH]; intros t c l Hr Hd Hc.
  { exists t. split; [done|]. split; [|by rewrite app_nil_r]. split; [by destruct t|done|simpl; lia]. }
  apply Forall_cons in Hd as [Hd1 Hd]. cbn [map receive_packets]. unfold bind at 1.
  rewrite (receive_message t i p k (length ds) ep d _ Hr Hd1), lookup_singleton_eq.
  set (t1 := put_in c (fun x => mkInContainer (ic_locked x) (ic_elems x ++ [in_elem k ep d])) (set_t_env (fst (time_Now (t_env t))) t)).
  assert (Hs : sorted_out t 1 t1) by (split; [by destruct t|done|simpl; lia]).
  destruct (IH t1 c (l ++ [in_elem k ep d])) as (t' & E & [Hf Hcl Htk] & Ho); [by eapply routed_sorted|done| |].
  { unfold t1. rewrite in_at_put_in, decide_True by done. change (in_at (set_t_env ?e t) c) with (in_at t c). by rewrite Hc. }
  exists t'. split; [exact E|]. split; [|by rewrite Ho, <- app_assoc].
  split; [by rewrite Hf|by rewrite Hcl|]. rewrite Htk. simpl. lia.
Qed.

Lemma receive_new i p k ep d ds t : routed t i p k (length (d :: ds)) -> Forall (message i) (d :: ds) ->
  exists t', receive_packets (map (fun d => (d, ep)) (d :: ds)) ∅ t = (t', {[p := t_fresh t]}) /\ sorted_out t (length (d :: ds)) t' /\
    in_at t' (t_fresh t) = mkInContainer true (map (in_elem k ep) (d :: ds)).
Proof.
  intros Hr [Hd1 Hd]%Forall_cons. cbn [map receive_packets]. unfold bind at 1.
  rewrite (receive_message t i p k (length ds) ep d _ Hr Hd1), lookup_empty.
  set (t1 := set_t_inContainers (<[t_fresh t := mkInContainer true [in_elem k ep d]]> (t_inContainers t))
    (set_t_fresh (Datatypes.S (t_fresh t)) (set_t_env (fst (time_Now (t_env t))) t))).
  change ((let* c := new_in_container [in_elem k ep d] in ret (<[p := c]> ∅)) (set_t_env (fst (time_Now (t_env t))) t))
    with (t1, ({[p := t_fresh t]} : gmap PeerId ContainerId)).
  assert (Hs : sorted_out t 1 t1) by (split; [by destruct t|done|simpl; lia]).
  destruct (receive_known i p k ep ds t1 (t_fresh t) [in_elem k ep d]) as (t' & E & [Hf Hcl Htk] & Ho); [by eapply routed_sorted|done| |].
  { unfold t1, in_at. simpl. by rewrite lookup_insert_eq. }
  exists t'. split; [exact E|]. split; [|exact Ho]. split; [by rewrite Hf|by rewrite Hcl|].
  rewrite Htk. simpl. lia.
Qed.

(** What the steps up to the sequential receiver leave as it is. *)
Record inside t (d : nat) t' : Prop := {
  is_sink : t_sink t' = t_sink t;
  is_bind : t_bind t' = t_bind t;
  is_keypairs : t_keypairs t' = t_keypairs t;
  is_accepted : t_accepted t' = t_accepted t;
  is_clock : clock (t_env t') = clock (t_env t);
  is_ticks : ticks (t_env t') = (ticks (t_env t) + d)%nat;
}.

Lemma receive_run i p k ep d ds t : routed t i p k (length (d :: ds)) -> Forall (message i) (d :: ds) ->
  p_isRunning (peer_at t p) = true -> t_decryptionQ t = [] ->
  exists t' c r, RoutineReceiveIncoming [inr (map (fun d => (d, ep)) (d :: ds))] 0 t = (t', r) /\
    inside t (length (d :: ds)) t' /\ peer_at t' p = set_p_inbound (p_inbound (peer_at t p) ++ [Some c]) (peer_at t p) /\
    t_decryptionQ t' = [c] /\ in_at t' c = mkInContainer true (map (in_elem k ep) (d :: ds)).
Proof.
  intros Hr Hd Hrun Hq. destruct (receive_new i p k ep d ds t Hr Hd) as (t1 & E & [Hf Hcl Htk] & Ho).
  set (c := t_fresh t) in *. assert (Ep : peer_at t1 p = peer_at t p) by (by rewrite Hf).
  cbn [RoutineReceiveIncoming]. unfold receive_batch. rewrite bind_assoc. unfold bind at 1. rewrite E, map_to_list_singleton.
  cbn [forM deliver_group]. rewrite bind_assoc, bind_assoc, bind_get_peer, Ep, Hrun, bind_assoc, bind_upd_peer.
  match goal with |- context [put_peer p ?f t1] => set (t2 := put_peer p f t1) end.
  match goal with |- context [bind (modify ?f) ?g t2] => change (bind (modify f) g t2) with (g tt (f t2)) end. cbv beta.
  eexists _, c, _. split; [reflexivity|]. split; [|split; [|split]].
  - split; unfold t2; simpl; first [exact Hcl|exact Htk|by rewrite Hf].
  - unfold t2. change (peer_at (set_t_decryptionQ ?q ?t) p) with (peer_at t p). by rewrite peer_at_put_peer, decide_True, Ep.
  - unfold t2. simpl. rewrite Hf. simpl. by rewrite Hq.
  - exact Ho.
Qed.

Lemma decrypt_run t c elems : t_decryptionQ t = [c] -> ic_elems (in_at t c) = elems ->
  exists t', RoutineDecryption t = (t', tt) /\ inside t 0 t' /\ t_peers t' = t_peers t /\
    in_at t' c = mkInContainer false (map (decrypt_at t) elems).
Proof.
  intros Hq He. unfold RoutineDecryption. rewrite bind_gets, Hq. eexists. split; [reflexivity|].
  split; [split; try done; simpl; lia|]. split; [done|]. unfold in_at. simpl. rewrite lookup_insert_eq. simpl. by rewrite <- He.
Qed.

(** The elements a worker makes of the datagrams, and what goes to the sink. *)
Fixpoint opened (kp : Keypair) (k : KeypairId) (ep : Endpoint) (n : Z) (bs : list bytes) : list QueueInboundElement :=
  match bs with
  | [] => []
  | b :: bs => mkInElem (splice 16 (padded b) (transport_header (kp_remoteIndex kp) n ++
                 aead_Seal (kp_send kp) (aead_nonce n) (padded b) [])) (Some (padded b)) n k ep
               :: opened kp k ep (n + 1) bs
  end.

Fixpoint written (kp : Keypair) (n : Z) (bs : list bytes) : list bytes :=
  match bs with
  | [] => []
  | b :: bs => (transport_header (kp_remoteIndex kp) n ++ padded b) :: written kp (n + 1) bs
  end.

Lemma drop_written kp bs : forall n, map (drop 16) (written kp n bs) = map padded bs.
Proof. induction bs as [|b bs IH]; intros n; [done|]. cbn [written map]. by rewrite IH, drop_transport_header. Qed.

Lemma datagrams_messages kp bs : forall n, is_u32 (kp_remoteIndex kp) -> 0 <= n -> n + Z.of_nat (length bs) <= RejectAfterMessages ->
  Forall (message (kp_remoteIndex kp)) (datagrams kp n bs).
Proof.
  induction bs as [|b bs IH]; intros n Hr H0 Hn; [constructor|]. cbn [datagrams length] in *.
  assert (Hu : Replay.is_u64 n) by (unfold Replay.is_u64, two64; change RejectAfterMessages with (2 ^ 64 - 2 ^ 13 - 1) in Hn; lia).
  constructor; [|apply IH; [done|lia|lia]].
  destruct (sealed_message (kp_send kp) (kp_remoteIndex kp) n (padded b) Hu Hr) as (H1 & H2 & _ & H4).
  split; [|exact H1|exact H2]. rewrite H4. change MessageTransportSize with 32%nat. lia.
Qed.

Lemma decrypt_datagrams t kp k ep bs : kp_send kp = kp_receive (keypair_at t k) -> is_u32 (kp_remoteIndex kp) ->
  forall n, 0 <= n -> n + Z.of_nat (length bs) <= RejectAfterMessages ->
  map (decrypt_at t) (map (in_elem k ep) (datagrams kp n bs)) = opened kp k ep n bs.
Proof.
  intros Hk Hr. induction bs as [|b bs IH]; intros n H0 Hn; [done|]. cbn [datagrams length map opened] in *.
  assert (Hu : Replay.is_u64 n) by (unfold Replay.is_u64, two64; change RejectAfterMessages with (2 ^ 64 - 2 ^ 13 - 1) in Hn; lia).
  rewrite IH by lia. f_equal. unfold decrypt_at. cbn [ie_keypair in_elem]. rewrite Hk.
  apply (decrypt_sealed (keypair_at t k) (kp_remoteIndex kp) n (padded b) k ep Hu Hr).
Qed.

(** ** The sequential receiver *)

(** The replay filter expects counters from [n] on. *)
Definition expects (f : Replay.Filter) (n : Z) : Prop :=
  exists w, Replay.simulates f w /\ Replay.w_last w <= n /\ n ∉ Replay.w_seen w.

Lemma validate_expected f n : expects f n -> 0 <= n < RejectAfterMessages ->
  exists f', Replay.validate f n RejectAfterMessages = (f', true) /\ expects f' (n + 1).
Proof.
  intros (w & Hs & Hl & Hw) Hn.
  assert (Hu : Replay.is_u64 n) by (unfold Replay.is_u64, two64; change RejectAfterMessages with (2 ^ 64 - 2 ^ 13 - 1) in Hn; lia).
  destruct (Replay.ValidateCounter_step f w n RejectAfterMessages Hs Hu) as (f' & b & E & Hs' & ->).
  exists f'. unfold Replay.validate. rewrite E. cbn [default from_option id]. unfold Replay.spec_validate in *.
  rewrite (proj2 (Z.leb_gt _ _)) in * by lia. destruct Hs as (_ & _ & Hseen & _).
  assert (Hnew : forall c, c ∈ Replay.w_seen w -> c <= Replay.w_last w) by (intros c Hc; apply Hseen in Hc; lia).
  destruct (Z.ltb_spec (Replay.w_last w) n) as [Hlt|Hge].
  - split; [done|]. exists (fst (Replay.mkWindow n ({[n]} ∪ Replay.w_seen w), true)). split; [done|]. simpl.
    split; [lia|]. intros [H1%elem_of_singleton|H1%Hnew]%elem_of_union; lia.
  - assert (Replay.w_last w = n) as Hen by lia. rewrite Hen, Z.sub_diag in *. cbn [Z.ltb] in *.
    change (Replay.windowSize <? 0) with false in *. rewrite bool_decide_false in * by done.
    split; [done|]. eexists. split; [exact Hs'|]. simpl. split; [lia|].
    intros [H1%elem_of_singleton|H1%Hnew]%elem_of_union; lia.
Qed.

(** The counters a batch of [m] messages adds, latest first. *)
Fixpoint counters (k : KeypairId) (n : Z) (m : nat) : list (KeypairId * Z) :=
  match m with
  | O => []
  | Datatypes.S m => counters k (n + 1) m ++ [(k, n)]
  end.

(** The locals after data packets from [ep]. *)
Definition got_data (ep : Endpoint) (l : RecvLocals) : Prop :=
  (exists e, validTail l = Some e /\ ie_endpoint e = ep) /\ dataPacketReceived l = true.

Record taken_in kp t p k n bs (t' : W) : Prop := {
  ti_rest : t' = set_t_peers (t_peers t') (set_t_keypairs (t_keypairs t') (set_t_accepted (t_accepted t') t));
  ti_peer : peer_at t' p = set_p_bufs (p_bufs (peer_at t p) ++ written kp n bs) (peer_at t p);
  ti_filter : exists f', keypair_at t' k = set_kp_replayFilter f' (keypair_at t k) /\ expects f' (n + Z.of_nat (length bs));
  ti_accepted : t_accepted t' = counters k n (length bs) ++ t_accepted t;
}.

Lemma padded_nonempty b : (1 <= length b)%nat -> (length (padded b) =? 0)%nat = false.
Proof. intros Hb. apply Nat.eqb_neq. unfold padded. rewrite length_app. lia. Qed.

Lemma receive_opened kp k ep p b l n t : next (p_keypairs (peer_at t p)) <> Some k ->
  expects (kp_replayFilter (keypair_at t k)) n -> 0 <= n < RejectAfterMessages -> (1 <= length b)%nat ->
  exists t' l' f', receive_elem p (mkInElem (splice 16 (padded b) (transport_header (kp_remoteIndex kp) n ++
                 aead_Seal (kp_send kp) (aead_nonce n) (padded b) [])) (Some (padded b)) n k ep) l t = (t', l') /\
    t' = put_peer p (fun x => set_p_bufs (p_bufs x ++ [transport_header (kp_remoteIndex kp) n ++ padded b]) x)
          (set_t_accepted ((k, n) :: t_accepted t) (put_keypair k (set_kp_replayFilter f') t)) /\
    expects f' (n + 1) /\ got_data ep l'.
Proof.
  intros Hnx Hf Hn Hb. destruct (validate_expected _ n Hf Hn) as (f' & Ev & Hf').
  unfold receive_elem. cbn [ie_packet ie_keypair ie_counter ie_endpoint ie_buffer]. unfold validate_counter.
  rewrite bind_assoc, bind_get_keypair, Ev, bind_assoc, bind_upd_keypair.
  cbn [whenM]. set (t1 := put_keypair k (set_kp_replayFilter f') t).
  match goal with |- context [bind (bind (modify ?f) ?h) ?g t1] => change (bind (bind (modify f) h) g t1) with (g true (f t1)) end.
  cbv beta. cbn [negb]. set (t2 := set_t_accepted _ t1).
  unfold ReceivedWithKeypair. rewrite bind_assoc, bind_get_peer. change (peer_at t2 p) with (peer_at t p).
  rewrite bool_decide_false by done. cbn [negb]. rewrite !bind_ret, padded_nonempty by done. rewrite bind_upd_peer.
  change MessageTransportOffsetContent with 16%nat. rewrite splice_sealed.
  eexists _, _, f'. split; [reflexivity|]. split; [done|]. split; [done|]. split; [by eexists|done].
Qed.

Lemma receive_all kp k ep p bs : forall t n l, next (p_keypairs (peer_at t p)) <> Some k ->
  expects (kp_replayFilter (keypair_at t k)) n -> 0 <= n -> n + Z.of_nat (length bs) <= RejectAfterMessages ->
  Forall (fun b => (1 <= length b)%nat) bs ->
  exists t' l', receive_elems p (opened kp k ep n bs) l t = (t', l') /\ taken_in kp t p k n bs t' /\
    (bs <> [] \/ got_data ep l -> got_data ep l').
Proof.
  induction bs as [|b bs IH]; intros t n l Hnx Hf H0 Hn Hb.
  { exists t, l. split; [done|]. split; [|by intros []]. split; [by destruct t| | |done].
    - simpl. rewrite app_nil_r. by destruct (peer_at t p).
    - exists (kp_replayFilter (keypair_at t k)). simpl. rewrite Z.add_0_r. split; [by destruct (keypair_at t k)|done]. }
  apply Forall_cons in Hb as [Hb1 Hb]. cbn [length opened receive_elems] in *.
  destruct (receive_opened kp k ep p b l n t Hnx Hf ltac:(lia) Hb1) as (t1 & l1 & f1 & E1 & Et1 & Hf1 & Hl1).
  unfold bind at 1. rewrite E1. set (buf := transport_header (kp_remoteIndex kp) n ++ padded b) in *.
  assert (Ep : peer_at t1 p = set_p_bufs (p_bufs (peer_at t p) ++ [buf]) (peer_at t p))
    by (rewrite Et1, peer_at_put_peer, decide_True by done; done).
  assert (Ek : keypair_at t1 k = set_kp_replayFilter f1 (keypair_at t k)).
  { rewrite Et1. change (keypair_at (put_peer _ _ (set_t_accepted _ ?t)) k) with (keypair_at t k).
    by rewrite keypair_at_put_keypair, decide_True. }
  destruct (IH t1 (n + 1) l1) as (t2 & l2 & E2 & [Hr2 Hp2 (f2 & Hk2 & Hf2) Ha2] & Hl2); rewrite ?Ep, ?Ek; try done; try lia.
  exists t2, l2. split; [done|]. split; [|intros _; apply Hl2; by right]. rewrite Ep in Hp2. rewrite Ek in Hk2. split.
  - rewrite Hr2, Et1. done.
  - rewrite Hp2. cbn [p_bufs set_p_bufs written]. fold buf. by rewrite <- app_assoc.
  - exists f2. split; [by rewrite Hk2|]. cbn [length]. by replace (n + Z.of_nat (Datatypes.S (length bs))) with (n + 1 + Z.of_nat (length bs)) by lia.
  - rewrite Ha2, Et1. cbn [length counters]. by rewrite <- app_assoc.
Qed.

Lemma keepKeyFreshReceiving_young p k t (kp := keypair_at t k) : current (p_keypairs (peer_at t p)) = Some k ->
  time_Sub (clock (t_env t) (ticks (t_env t))) (kp_created kp) <= RejectAfterTime - KeepaliveTimeout - RekeyTimeout ->
  exists e, keepKeyFreshReceiving (B:=B) (S:=S) p t = (set_t_env e t, None).
Proof.
  intros Hk Hy. unfold keepKeyFreshReceiving. rewrite bind_get_peer, Hk.
  assert (Et : set_t_env (t_env t) t = t) by (by destruct t).
  destruct (tm_sentLastMinuteHandshake _); [exists (t_env t); by rewrite Et|].
  rewrite bind_get_keypair. fold kp. destruct (kp_isInitiator kp); [|exists (t_env t); by rewrite Et].
  rewrite bind_since, (proj2 (Z.ltb_ge _ _)) by exact Hy. by eexists.
Qed.

(** The end of a turn with data: the packets are written to the sink. *)
Lemma flush_run p l c t bufs : dataPacketReceived l = true -> p_bufs (peer_at t p) = bufs -> bufs <> [] ->
  exists t', flush_received p l c t = (t', tt) /\
    t_sink t' = fst (sink_Write bufs (replicate (Z.to_nat (BatchSize t)) (p_pk (peer_at t p))) 16 (t_sink t)) /\
    core (peer_at t' p) = core (set_p_bufs [] (peer_at t p)) /\ t_accepted t' = t_accepted t /\ t_bind t' = t_bind t.
Proof.
  intros Hl Hb Hne. unfold flush_received. rewrite Hl. through t t1 A.
  assert (Eb : p_bufs (peer_at t1 p) = bufs) by (by rewrite (alike_peer p_bufs _ _ p A)).
  assert (Ek : p_pk (peer_at t1 p) = p_pk (peer_at t p)) by (by apply (alike_peer p_pk _ _ p A)).
  rewrite bind_get_peer, Eb, Ek.
  assert (Hlt : (0 <? length bufs)%nat = true) by (apply Nat.ltb_lt; destruct bufs; [done|simpl; lia]).
  rewrite Hlt. cbn [whenM]. rewrite bind_assoc, bind_gets.
  assert (EB : BatchSize t1 = BatchSize t) by (by apply (alike_view BatchSize _ _ A)). rewrite EB.
  set (peers := replicate _ _). unfold bind at 1. unfold bind at 1. unfold on_sink.
  assert (Es : t_sink t1 = t_sink t) by (by apply (alike_view t_sink _ _ A)). rewrite Es.
  destruct (sink_Write bufs peers MessageTransportOffsetContent (t_sink t)) as [sk r] eqn:E.
  change 16%nat with MessageTransportOffsetContent. rewrite E.
  unfold ret at 1. cbv beta iota. rewrite bind_upd_peer. eexists. split; [reflexivity|]. split; [done|]. split; [|split].
  - change (peer_at (put_in _ _ ?t) p) with (peer_at t p). rewrite peer_at_put_peer, decide_True by done.
    change (peer_at (set_t_sink sk t1) p) with (peer_at t1 p).
    change (set_p_bufs [] (core (peer_at t1 p)) = set_p_bufs [] (core (peer_at t p))). by rewrite (al_peer _ _ A).
  - by apply (alike_view t_accepted _ _ A).
  - by apply (alike_view t_bind _ _ A).
Qed.

Lemma receiver_run kp p k c q ep n bs t (x := peer_at t p) :
  p_inbound x = Some c :: q -> in_at t c = mkInContainer false (opened kp k ep n bs) ->
  current (p_keypairs x) = Some k -> next (p_keypairs x) <> Some k -> p_bufs x = [] ->
  expects (kp_replayFilter (keypair_at t k)) n -> 0 <= n -> n + Z.of_nat (length bs) <= RejectAfterMessages ->
  bs <> [] -> Forall (fun b => (1 <= length b)%nat) bs ->
  time_Sub (clock (t_env t) (ticks (t_env t))) (kp_created (keypair_at t k)) <= RejectAfterTime - KeepaliveTimeout - RekeyTimeout ->
  exists t', RoutineSequentialReceiver p t = (t', Continue) /\
    t_sink t' = fst (sink_Write (written kp n bs) (replicate (Z.to_nat (BatchSize t)) (p_pk x)) 16 (t_sink t)) /\
    core (peer_at t' p) = core (set_p_endpoint (Some ep) (set_p_inbound q x)) /\
    t_accepted t' = counters k n (length bs) ++ t_accepted t /\ t_bind t' = t_bind t.
Proof.
  intros Hq Hc Hk Hnx Hbf Hf H0 Hn Hne Hb Hy. unfold RoutineSequentialReceiver. rewrite bind_get_peer. fold x.
  rewrite Hq, bind_gets, Hc. cbn [ic_locked ic_elems]. rewrite bind_upd_peer. set (t1 := put_peer p (set_p_inbound q) t).
  match goal with |- context [bind (upd_in c ?f) ?g t1] => change (bind (upd_in c f) g t1) with (g tt (put_in c f t1)) end.
  cbv beta. set (t2 := put_in c _ t1).
  assert (Ep : peer_at t2 p = set_p_inbound q x) by (unfold t2, t1; change (peer_at (put_in _ _ ?t) p) with (peer_at t p); by rewrite peer_at_put_peer, decide_True).
  destruct (receive_all kp k ep p bs t2 n (mkLocals None false 0)) as (t3 & l & E3 & [Hr3 Hp3 (f3 & Hk3 & _) Ha3] & Hl); rewrite ?Ep; try done.
  specialize (Hl (or_introl Hne)) as [(e & He & Hee) Hd]. unfold bind at 1. rewrite E3. rewrite Ep in Hp3.
  cbn [p_bufs set_p_inbound] in Hp3. rewrite Hbf in Hp3. cbn [app] in Hp3. change (keypair_at t2 k) with (keypair_at t k) in Hk3.
  through t3 t4 A4. rewrite He, Hee. unfold SetEndpointFromPacket. rewrite bind_upd_peer. set (t5 := put_peer p _ t4).
  assert (Ep5 : core (peer_at t5 p) = core (set_p_endpoint (Some ep) (set_p_bufs (written kp n bs) (set_p_inbound q x)))).
  { unfold t5. rewrite peer_at_put_peer, decide_True by done.
    change (set_p_endpoint (Some ep) (core (peer_at t4 p)) = set_p_endpoint (Some ep) (core (set_p_bufs (written kp n bs) (set_p_inbound q x)))).
    by rewrite (al_peer _ _ A4), Hp3. }
  assert (Ek5 : keypair_at t5 k = keypair_at t3 k) by exact (alike_view (fun t => keypair_at t k) _ _ A4 (fun _ _ => eq_refl)).
  destruct (keepKeyFreshReceiving_young p k t5) as (e6 & E6).
  { assert (Hcore : p_keypairs (core (peer_at t5 p)) = p_keypairs x) by (by rewrite Ep5). cbn in Hcore. by rewrite <- Hk, <- Hcore. }
  { rewrite Ek5, Hk3. change (t_env t5) with (t_env t4). by rewrite (al_clock _ _ A4), (al_ticks _ _ A4), Hr3. }
  unfold bind at 1. rewrite E6. set (t6 := set_t_env e6 t5). through t6 t7 A7. through t7 t8 A8.
  pose proof (alike_trans _ _ _ A7 A8) as A.
  assert (Ec8 : core (peer_at t8 p) = core (set_p_endpoint (Some ep) (set_p_bufs (written kp n bs) (set_p_inbound q x))))
    by (by rewrite (al_peer _ _ A)).
  destruct (flush_run p l c t8 (written kp n bs) Hd) as (t9 & E9 & Hs & Hpe & Hac & Hbi).
  { assert (Hcore : p_bufs (core (peer_at t8 p)) = written kp n bs) by (by rewrite Ec8). exact Hcore. }
  { by destruct bs. }
  assert (V : forall X (f : W -> X), (forall e m t, f (set_t_env e (set_t_peers m t)) = f t) ->
    (forall i t, f (put_in c i t) = f t) -> f t8 = f t3).
  { intros X f Hf1 _. rewrite (alike_view f _ _ A) by done. etrans; [|exact (alike_view f _ _ A4 (fun e m => Hf1 e m t3))].
    rewrite <- (Hf1 e6 (t_peers t5) t4). by unfold t6, t5; destruct t4. }
  assert (Vb : t_bind t8 = t_bind t) by (rewrite (V _ t_bind) by done; by rewrite Hr3).
  assert (Vs : t_sink t8 = t_sink t) by (rewrite (V _ t_sink) by done; by rewrite Hr3).
  exists t9. split; [unfold bind; by rewrite E9|]. split; [|split; [|split]].
  - rewrite Hs, Vs. unfold BatchSize. rewrite Vs, Vb.
    assert (Hcore : p_pk (core (peer_at t8 p)) = p_pk x) by (by rewrite Ec8). cbn in Hcore. by rewrite Hcore.
  - rewrite Hpe. change (core (set_p_bufs [] (peer_at t8 p))) with (set_p_bufs [] (core (peer_at t8 p))).
    rewrite Ec8. transitivity (set_p_bufs (p_bufs x) (core (set_p_endpoint (Some ep) (set_p_inbound q x)))); [by rewrite Hbf|done].
  - rewrite Hac, (V _ t_accepted), Ha3 by done. done.
  - by rewrite Hbi.
Qed.

(** Transport [t] has a session with peer [p] for the messages [n], ... that are
    sealed under [kp], [m] of them, young enough, and nothing under way from it. *)
Record expecting t (p : PeerId) (k : KeypairId) (kp : Keypair) (n : Z) (m : nat) : Prop := {
  ex_key : kp_send kp = kp_receive (keypair_at t k);
  ex_index : is_u32 (kp_remoteIndex kp);
  ex_routed : routed t (kp_remoteIndex kp) p k m;
  ex_current : current (p_keypairs (peer_at t p)) = Some k;
  ex_next : next (p_keypairs (peer_at t p)) <> Some k;
  ex_filter : expects (kp_replayFilter (keypair_at t k)) n;
  ex_young : time_Sub (clock (t_env t) (ticks (t_env t) + m)) (kp_created (keypair_at t k)) <= RejectAfterTime - KeepaliveTimeout - RekeyTimeout;
  ex_running : p_isRunning (peer_at t p) = true;
  ex_inbound : p_inbound (peer_at t p) = [];
  ex_bufs : p_bufs (peer_at t p) = [];
  ex_queue : t_decryptionQ t = [];
  ex_first : 0 <= n;
  ex_room : n + Z.of_nat m <= RejectAfterMessages;
}.

Lemma delivered_run s p k ep kp n bs (t := sys_t s) (x := peer_at t p) (kr := keypair_at t k) :
  expecting t p k kp n (length bs) -> bs <> [] -> Forall (fun b => (1 <= length b)%nat) bs ->
  let s' := exec_all [ActReceive [inr (map (fun d => (d, ep)) (datagrams kp n bs))]; ActDecrypt; ActReceiver p] s in
  exists bufs, map (drop 16) bufs = map padded bs /\
    t_sink (sys_t s') = fst (sink_Write bufs (replicate (Z.to_nat (BatchSize t)) (p_pk x)) 16 (t_sink t)) /\
    t_accepted (sys_t s') = counters k n (length bs) ++ t_accepted t /\
    p_endpoint (peer_at (sys_t s') p) = Some ep /\ p_inbound (peer_at (sys_t s') p) = [] /\
    p_bufs (peer_at (sys_t s') p) = [].
Proof.
  intros [Hkey Hi Hr Hk Hnx Hf Hy Hrun Hin Hbf Hdq H0 Hn] Hne Hb. fold x in Hk, Hnx, Hrun, Hin, Hbf. fold kr in Hkey, Hf, Hy. cbv zeta. exists (written kp n bs). split; [apply drop_written|].
  pose proof (datagrams_messages kp bs n Hi H0 Hn) as Hd.
  assert (Hlen : length (datagrams kp n bs) = length bs) by (generalize n; clear; induction bs as [|b bs IH]; intros n; simpl; by rewrite ?IH).
  destruct (datagrams kp n bs) as [|d ds] eqn:Eds; [by destruct bs|]. rewrite <- Hlen in Hr, Hy.
  destruct (receive_run (kp_remoteIndex kp) p k ep d ds t Hr Hd Hrun Hdq) as (t1 & c & r & E1 & [S1 B1 K1 A1 C1 T1] & P1 & Q1 & I1).
  destruct (decrypt_run t1 c _ Q1 eq_refl) as (t2 & E2 & [S2 B2 K2 A2 C2 T2] & P2 & I2). fold x in P1. rewrite Hin in P1.
  rewrite I1 in I2. cbn [ic_elems] in I2. rewrite <- Eds in I2.
  assert (Ek1 : keypair_at t1 k = kr) by (unfold keypair_at; by rewrite K1).
  assert (Ek : keypair_at t2 k = kr) by (unfold keypair_at; by rewrite K2, K1).
  assert (Ep : peer_at t2 p = set_p_inbound [Some c] x) by (unfold peer_at at 1; rewrite P2; exact P1).
  rewrite (decrypt_datagrams t1 kp k ep bs) in I2; [|by rewrite Ek1|done..].
  destruct (receiver_run kp p k c [] ep n bs t2) as (t3 & E3 & S3 & P3 & A3 & _); rewrite ?Ep, ?Ek, ?C2, ?C1, ?T2, ?T1, ?Nat.add_0_r; try done.
  assert (Es : sys_t (exec_all [ActReceive [inr (map (fun d => (d, ep)) (d :: ds))]; ActDecrypt; ActReceiver p] s) = t3).
  { cbn [exec_all exec]. unfold on_t. cbn [sys_t]. fold t. rewrite E1. cbn [fst]. rewrite E2. cbn [fst]. by rewrite E3. }
  rewrite Es. rewrite Ep in S3, P3. split; [|split; [by rewrite A3, A2, A1|]].
  - rewrite S3. unfold BatchSize. by rewrite B2, B1, S2, S1.
  - assert (E : p_endpoint (core (peer_at t3 p)) = Some ep /\ p_inbound (core (peer_at t3 p)) = [] /\ p_bufs (core (peer_at t3 p)) = p_bufs x)
      by (by rewrite P3). by rewrite Hbf in E.
Qed.

(** C3. What one side's source has read the other side's sink is
    given: the datagrams of a batch, sealed under a keypair whose sending key is
    the receiving key of the receiver's current session and whose remote index is
    the local one of that session, are sorted to the peer by one turn of
    [RoutineReceiveIncoming], opened by one of a decryption worker, and written by
    one of the peer's sequential receiver, in one [Write] and in order: behind 16
    bytes for the header, exactly the packets that were sent with their zero
    padding.  Each counter is recorded as accepted, and the sender's address
    becomes the peer's endpoint. *)
Theorem packets_delivered s p k ep kp n bs (t := sys_t s) (x := peer_at t p) (kr := keypair_at t k) :
  kp_send kp = kp_receive kr -> is_u32 (kp_remoteIndex kp) -> routed t (kp_remoteIndex kp) p k (length bs) ->
  current (p_keypairs x) = Some k -> next (p_keypairs x) <> Some k -> expects (kp_replayFilter kr) n ->
  time_Sub (clock (t_env t) (ticks (t_env t) + length bs)) (kp_created kr) <= RejectAfterTime - KeepaliveTimeout - RekeyTimeout ->
  p_isRunning x = true -> p_inbound x = [] -> p_bufs x = [] -> t_decryptionQ t = [] ->
  0 <= n -> n + Z.of_nat (length bs) <= RejectAfterMessages -> bs <> [] -> Forall (fun b => (1 <= length b)%nat) bs ->
  let s' := exec_all [ActReceive [inr (map (fun d => (d, ep)) (datagrams kp n bs))]; ActDecrypt; ActReceiver p] s in
  exists bufs, map (drop 16) bufs = map padded bs /\
    t_sink (sys_t s') = fst (sink_Write bufs (replicate (Z.to_nat (BatchSize t)) (p_pk x)) 16 (t_sink t)) /\
    t_accepted (sys_t s') = counters k n (length bs) ++ t_accepted t /\
    p_endpoint (peer_at (sys_t s') p) = Some ep /\ p_inbound (peer_at (sys_t s') p) = [] /\
    p_bufs (peer_at (sys_t s') p) = [].
Proof. intros. by apply delivered_run. Qed.

End Receiving.
(** *** Witnesses *)

#[local] Instance toy : Crypto := Toy.toy_crypto.

(** Alice and Bob when her first packet has arrived, with nothing under way. *)
Definition alice_idle : DSys := exec_all (take 7 alice_acts2 ++ [ActEncrypt; ActSender 0]) alice0.
Definition bob_idle : DSys :=
  exec_all (bob_acts1 ++ [ActReceive [inr [(last_sent alice_idle, demo_endpoint 1)]]; ActDecrypt; ActReceiver 0]) bob0.

Definition two_packets : list bytes := [packet1; packet2].
Definition alice_sends : DSys :=
  exec_all [ActRead (map (fun b => (b, PublicKey (demo_sk 2))) two_packets); ActEncrypt; ActSender 0] alice_idle.

(** What the witnesses need to know of the two, each evaluated once. *)
Lemma ten_equal {A1 A2 A3 A4 A5 A6 A7 A8 A9 A10} (a1 b1 : A1) (a2 b2 : A2) (a3 b3 : A3) (a4 b4 : A4) (a5 b5 : A5)
    (a6 b6 : A6) (a7 b7 : A7) (a8 b8 : A8) (a9 b9 : A9) (a10 b10 : A10) :
  (a1, a2, a3, a4, a5, a6, a7, a8, a9, a10) = (b1, b2, b3, b4, b5, b6, b7, b8, b9, b10) ->
  a1 = b1 /\ a2 = b2 /\ a3 = b3 /\ a4 = b4 /\ a5 = b5 /\ a6 = b6 /\ a7 = b7 /\ a8 = b8 /\ a9 = b9 /\ a10 = b10.
Proof. intros [= -> -> -> -> -> -> -> -> -> ->]. by split_and!. Qed.

Lemma alice_idle_facts (t := sys_t alice_idle) (x := peer_at t 0) (kp := keypair_at t 2) :
  (t_state t, t_keyMap t !! PublicKey (demo_sk 2), current (p_keypairs x), kp_sendNonce kp,
   p_staged x, p_outbound x, t_encryptionQ t, p_endpoint x, map_to_list (sys_groups alice_idle),
   (p_isRunning x && (time_Sub (clock (t_env t) (ticks (t_env t))) (kp_created kp) <=? RekeyAfterTime) &&
    (time_Sub (clock (t_env t) (Datatypes.S (ticks (t_env t)))) (kp_created kp) <=? RekeyAfterTime) &&
    ((0 <=? kp_remoteIndex kp) && (kp_remoteIndex kp <? 2 ^ 32)))) =
  (transportStateUp, Some 0%nat, Some 2%nat, 1, [], [], [], Some (demo_endpoint 2), [], true).
Proof. vm_compute. reflexivity. Qed.

Lemma bob_idle_facts (t := sys_t bob_idle) (x := peer_at t 0) (kp := keypair_at t 1) :
  (kp_send (keypair_at (sys_t alice_idle) 2), t_indexTable t !! kp_remoteIndex (keypair_at (sys_t alice_idle) 2), p_keypairs x,
   kp_replayFilter kp, p_inbound x, p_bufs x, t_decryptionQ t, t_sink t, p_isRunning x,
   ((clock (t_env t) (ticks (t_env t)) <=? time_Add (kp_created kp) RejectAfterTime) &&
    (clock (t_env t) (Datatypes.S (ticks (t_env t))) <=? time_Add (kp_created kp) RejectAfterTime) &&
    (time_Sub (clock (t_env t) (ticks (t_env t) + length two_packets)) (kp_created kp) <=? RejectAfterTime - KeepaliveTimeout - RekeyTimeout))) =
  (kp_receive kp, Some (mkIndexEntry (Some 0%nat) None (Some 1%nat)), mkKeypairs (Some 1%nat) None None,
   fst (Replay.validate (Replay.Reset Replay.zeroFilter) 0 RejectAfterMessages), [], [], [], [padded packet1], true, true).
Proof. vm_compute. reflexivity. Qed.

(** A fact about one of two numbers. *)
Lemma one_of_two (P : nat -> Prop) n : P n -> P (Datatypes.S n) -> forall i, (n <= i <= n + 1)%nat -> P i.
Proof. intros H0 H1 i Hi. assert (i = n \/ i = Datatypes.S n) as [-> | ->] by lia; done. Qed.

Lemma alice_ready : ready (sys_t alice_idle) (PublicKey (demo_sk 2)) 0 2 (length two_packets).
Proof.
  pose proof alice_idle_facts as F. cbv zeta in F. apply ten_equal in F as (H1 & H2 & H3 & H4 & H5 & H6 & H7 & H8 & H9 & Hb).
  apply andb_true_iff in Hb as [[[Hr Hy1]%andb_true_iff Hy2]%andb_true_iff _].
  refine (Build_ready _ _ _ _ _ H1 H2 Hr H3 _ _ _ H5 H6 H7).
  - rewrite H4. discriminate.
  - rewrite H4. discriminate.
  - apply one_of_two; [exact (proj1 (Z.leb_le _ _) Hy1)|exact (proj1 (Z.leb_le _ _) Hy2)].
Qed.

Lemma packets_leave_witness :
  kp_sendNonce (keypair_at (sys_t alice_idle) 2) = 1 /\
  t_bind (sys_t alice_sends) =
  fst (bind_Send (datagrams (keypair_at (sys_t alice_idle) 2) (kp_sendNonce (keypair_at (sys_t alice_idle) 2)) two_packets)
    (demo_endpoint 2) (t_bind (sys_t alice_idle))).
Proof.
  pose proof alice_idle_facts as F. cbv zeta in F. apply ten_equal in F as (_ & _ & _ & H4 & _ & _ & _ & H8 & H9 & _).
  assert (Hl : Forall (fun b : bytes => (1 <= length b)%nat) two_packets) by (repeat constructor; vm_compute; lia).
  split; [exact H4|].
  exact (proj1 (packets_leave (C:=Toy.toy_crypto) alice_idle (PublicKey (demo_sk 2)) 0 2 (demo_endpoint 2) two_packets
    alice_ready ltac:(discriminate) Hl H8 (proj1 (map_to_list_empty_iff _) H9))).
Defined.

(** Bob's filter after the first packet. *)
Lemma bob_expects : expects (kp_replayFilter (keypair_at (sys_t bob_idle) 1)) 1.
Proof.
  pose proof bob_idle_facts as F. cbv zeta in F. apply ten_equal in F as (_ & _ & _ & E & _). rewrite E.
  destruct (validate_expected (Replay.Reset Replay.zeroFilter) 0) as (f & E' & Hf); [|split; [discriminate|reflexivity]|rewrite E'; exact Hf].
  exists Replay.empty_window. split; [by apply Replay.simulates_Reset|]. split; [done|apply not_elem_of_empty].
Qed.

Lemma bob_routed : routed (sys_t bob_idle) (kp_remoteIndex (keypair_at (sys_t alice_idle) 2)) 0 1 (length two_packets).
Proof.
  pose proof bob_idle_facts as F. cbv zeta in F. apply ten_equal in F as (_ & H2 & _ & _ & _ & _ & _ & _ & _ & Hb).
  apply andb_true_iff in Hb as [[Hy1 Hy2]%andb_true_iff _].
  split; [exists (mkIndexEntry (Some 0%nat) None (Some 1%nat)); split; [exact H2|by split]|].
  change (length two_packets) with 2%nat. intros j Hj.
  apply (one_of_two (fun j => clock (t_env (sys_t bob_idle)) j <= time_Add (kp_created (keypair_at (sys_t bob_idle) 1)) RejectAfterTime)
    (ticks (t_env (sys_t bob_idle)))); [exact (proj1 (Z.leb_le _ _) Hy1)|exact (proj1 (Z.leb_le _ _) Hy2)|lia].
Qed.

Definition bob_receives : DSys :=
  exec_all [ActReceive [inr (map (fun d => (d, demo_endpoint 1)) (datagrams (keypair_at (sys_t alice_idle) 2) 1 two_packets))];
            ActDecrypt; ActReceiver 0] bob_idle.

Lemma packets_delivered_witness :
  t_sink (sys_t bob_idle) = [padded packet1] /\
  exists bufs, map (drop 16) bufs = map padded two_packets /\
    t_sink (sys_t bob_receives) = rev (map (drop 16) bufs) ++ t_sink (sys_t bob_idle).
Proof.
  pose proof bob_idle_facts as F. cbv zeta in F. apply ten_equal in F as (H1 & _ & H3 & _ & H5 & H6 & H7 & H8 & H9 & Hb).
  apply andb_true_iff in Hb as [_ Hy].
  pose proof alice_idle_facts as F. cbv zeta in F. apply ten_equal in F as (_ & _ & _ & _ & _ & _ & _ & _ & _ & Ha).
  apply andb_true_iff in Ha as [_ [Hi1 Hi2]%andb_true_iff].
  assert (Hl : Forall (fun b : bytes => (1 <= length b)%nat) two_packets) by (repeat constructor; vm_compute; lia).
  assert (Hn : 1 + Z.of_nat (length two_packets) <= RejectAfterMessages) by (vm_compute; discriminate).
  assert (Hc : current (p_keypairs (peer_at (sys_t bob_idle) 0)) = Some 1%nat) by (rewrite H3; reflexivity).
  assert (Hx : next (p_keypairs (peer_at (sys_t bob_idle) 0)) <> Some 1%nat) by (rewrite H3; discriminate).
  split; [exact H8|].
  destruct (packets_delivered (C:=Toy.toy_crypto) (Laws:=Toy.toy_laws) bob_idle 0 1 (demo_endpoint 1)
    (keypair_at (sys_t alice_idle) 2) 1 two_packets H1 (conj (proj1 (Z.leb_le _ _) Hi1) (proj1 (Z.ltb_lt _ _) Hi2))
    bob_routed Hc Hx bob_expects (proj1 (Z.leb_le _ _) Hy) H9 H5 H6 H7 Z.le_0_1 Hn ltac:(discriminate) Hl) as (bufs & Hbf & Hsink & _).
  exists bufs. split; [exact Hbf|exact Hsink].
Defined.

End Delivery.
