(* ===== verification/Erasure.v ===== *)
(** What is left of a peer that is stopped: no session, no handshake, nothing
    staged.  Stopping other peers does not touch it, so that this holds of every
    running peer when the transport is taken down or closed. *)
From S2P Require Import Prelude Replay RateLimiter Env Crypto Wire Cookie State Demo IndexTable Noise Timers Send Receive Lifecycle Invariant Keys Flow System Behaviour Scenario.
From stdpp Require Import prelude gmap list.
Open Scope Z_scope.

Module Erasure.
Import Env.Env Crypto.Noise_helpers Cookie.Cookie State.State Demo.Demo IndexTable.IndexTable Noise.Noise Timers.Timers
  Send.Send Receive.Receive Lifecycle.Lifecycle Invariant.Invariant Keys.Keys Flow.Flow System.System Behaviour.Behaviour Scenario.Scenario.

Section Others.
Context {C : Crypto} {B S : Type} `{!Bind B} `{!SourceSink S}.
Abbreviation W := (Transport B S).
Implicit Types t : W.

(** Peer [q] is as it was. *)
Definition stays (q : PeerId) (x : Peer) t : Prop := peer_at t q = x.

Context (q : PeerId) (x : Peer) (p : PeerId) (Hpq : p <> q).
Abbreviation keeps m := (preserves (stays q x) m) (only parsing).

Lemma stays_upd_peer f : keeps (upd_peer (B:=B) (S:=S) p f).
Proof. intros t Ht. unfold stays in *. change (peer_at (put_peer p f t) q = x). by rewrite peer_at_put_peer, decide_False. Qed.
Lemma stays_upd_handshake f : keeps (upd_handshake (B:=B) (S:=S) p f).
Proof. apply stays_upd_peer. Qed.
Lemma stays_upd_timers f : keeps (upd_timers (B:=B) (S:=S) p f).
Proof. apply stays_upd_peer. Qed.
Lemma stays_modify f : (forall t, t_peers (f t) = t_peers t) -> keeps (modify f).
Proof. intros Hf t Ht. unfold stays, peer_at in *. simpl. by rewrite Hf. Qed.
Lemma stays_upd_keypair k f : keeps (upd_keypair (B:=B) (S:=S) k f).
Proof. by apply stays_modify. Qed.
Lemma stays_upd_out c f : keeps (upd_out (B:=B) (S:=S) c f).
Proof. by apply stays_modify. Qed.
Lemma stays_upd_in c f : keeps (upd_in (B:=B) (S:=S) c f).
Proof. by apply stays_modify. Qed.
Lemma stays_upd_table f : keeps (upd_table (B:=B) (S:=S) f).
Proof. by apply stays_modify. Qed.
Lemma stays_on_env {A} (m : M Env A) : keeps (on_env (B:=B) (S:=S) m).
Proof. intros t Ht. unfold on_env. by destruct (m (t_env t)). Qed.
Lemma stays_on_bind {A} (m : M B A) : keeps (on_bind (B:=B) (S:=S) m).
Proof. intros t Ht. unfold on_bind. by destruct (m (t_bind t)). Qed.
Lemma stays_on_sink {A} (m : M S A) : keeps (on_sink (B:=B) (S:=S) m).
Proof. intros t Ht. unfold on_sink. by destruct (m (t_sink t)). Qed.
Lemma stays_now : keeps (now (B:=B) (S:=S)).
Proof. apply stays_on_env. Qed.
Lemma stays_since u : keeps (since (B:=B) (S:=S) u).
Proof. apply stays_on_env. Qed.
Lemma stays_fresh : keeps (fresh (B:=B) (S:=S)).
Proof. by intros t Ht. Qed.

End Others.

#[export] Hint Resolve stays_upd_peer stays_upd_handshake stays_upd_timers stays_upd_keypair stays_upd_out stays_upd_in
  stays_upd_table stays_on_env stays_on_bind stays_on_sink stays_now stays_since stays_fresh : preserves.
#[export] Hint Extern 2 (preserves (stays _ _) (modify _)) => (apply stays_modify; reflexivity) : preserves.
#[export] Hint Extern 1 (preserves (stays _ _) (get_peer _)) => apply preserves_gets : preserves.
#[export] Hint Extern 1 (preserves (stays _ _) (get_keypair _)) => apply preserves_gets : preserves.
#[export] Hint Extern 1 (preserves (stays _ _) (get_handshake _)) => apply preserves_gets : preserves.
#[export] Hint Extern 1 (preserves (stays _ _) isClosed) => apply preserves_gets : preserves.
#[export] Hint Extern 1 (preserves (stays _ _) isUp) => apply preserves_gets : preserves.
#[export] Hint Extern 1 (preserves (stays _ _) (table_Delete _)) => apply stays_upd_table : preserves.
#[export] Hint Extern 1 (preserves (stays _ _) (table_Lookup _)) => apply preserves_gets : preserves.

(** ** The handlers of one peer leave the others alone *)

Section Handlers.
Context {C : Crypto} {B S : Type} `{!Bind B} `{!SourceSink S}.
Abbreviation W := (Transport B S).
Implicit Types t : W.
Context (q : PeerId) (x : Peer) (p : PeerId) (Hpq : p <> q).
Abbreviation keeps m := (preserves (stays q x) m) (only parsing).

Lemma timersActive_stays : keeps (timersActive (B:=B) (S:=S) p).
Proof. unfold timersActive. preserves_tac. Qed.
Lemma jitter_stays : keeps (jitter (B:=B) (S:=S)).
Proof. unfold jitter. preserves_tac. Qed.
#[local] Hint Resolve timersActive_stays jitter_stays : preserves.
Lemma new_index_stays : keeps (NewIndexForHandshake (B:=B) (S:=S) p).
Proof. unfold NewIndexForHandshake. induction index_fuel as [|n IH]; cbn [new_index_loop]; preserves_tac. Qed.
Lemma DeleteKeypair_stays k : keeps (DeleteKeypair (B:=B) (S:=S) k).
Proof. unfold DeleteKeypair. preserves_tac. Qed.
Lemma peer_AddMacs_stays m : keeps (peer_AddMacs (B:=B) (S:=S) p m).
Proof. unfold peer_AddMacs. preserves_tac. Qed.
Lemma SendBuffers_stays bufs : keeps (SendBuffers (B:=B) (S:=S) p bufs).
Proof. unfold SendBuffers. preserves_tac. Qed.
#[local] Hint Resolve new_index_stays DeleteKeypair_stays peer_AddMacs_stays SendBuffers_stays : preserves.
Lemma SendHandshakeInitiation_stays r : keeps (SendHandshakeInitiation (B:=B) (S:=S) p r).
Proof.
  unfold SendHandshakeInitiation, CreateMessageInitiation, timersAnyAuthenticatedPacketTraversal,
    timersAnyAuthenticatedPacketSent, timersHandshakeInitiated. preserves_tac.
Qed.
#[local] Hint Resolve SendHandshakeInitiation_stays : preserves.
Lemma StagePackets_stays c : keeps (StagePackets (B:=B) (S:=S) p c).
Proof. unfold StagePackets, PutOutboundElementsContainer, set_staged. preserves_tac. Qed.
Lemma assign_stays k l : keeps (assign_nonces (B:=B) (S:=S) p k l).
Proof. induction l; cbn [assign_nonces]; unfold sendNonce_Add; preserves_tac. Qed.
#[local] Hint Resolve StagePackets_stays assign_stays : preserves.
Lemma send_staged_stays fuel : forall a, keeps (send_staged_loop (B:=B) (S:=S) fuel p a).
Proof.
  induction fuel as [|fuel IH]; intros a; cbn [send_staged_loop]; [apply preserves_ret|].
  unfold dispatch, set_staged, new_out_container, PutOutboundElementsContainer. preserves_tac.
Qed.
Lemma SendStagedPackets_stays : keeps (SendStagedPackets (B:=B) (S:=S) p).
Proof. unfold SendStagedPackets. preserves_tac. apply send_staged_stays. Qed.
#[local] Hint Resolve SendStagedPackets_stays : preserves.

Lemma receive_elems_stays es : forall l, keeps (receive_elems (B:=B) (S:=S) p es l).
Proof.
  induction es as [|e es IH]; intros l; cbn [receive_elems]; [apply preserves_ret|].
  unfold receive_elem, validate_counter, ReceivedWithKeypair, SetEndpointFromPacket, timersHandshakeComplete. preserves_tac.
Qed.
#[local] Hint Resolve receive_elems_stays : preserves.
Lemma Receiver_stays : keeps (RoutineSequentialReceiver (B:=B) (S:=S) p).
Proof.
  unfold RoutineSequentialReceiver, flush_received, rxBytes_Add, SetEndpointFromPacket, keepKeyFreshReceiving, timersDataReceived,
    timersAnyAuthenticatedPacketTraversal, timersAnyAuthenticatedPacketReceived, PutInboundElementsContainer. preserves_tac.
Qed.
Lemma Sender_stays : keeps (RoutineSequentialSender (B:=B) (S:=S) p).
Proof.
  unfold RoutineSequentialSender, timersDataSent, timersAnyAuthenticatedPacketTraversal, timersAnyAuthenticatedPacketSent,
    PutOutboundElementsContainer, keepKeyFreshSending. preserves_tac.
Qed.
Lemma Encryption_stays : keeps (RoutineEncryption (B:=B) (S:=S)).
Proof. unfold RoutineEncryption. preserves_tac. Qed.
Lemma Decryption_stays : keeps (RoutineDecryption (B:=B) (S:=S)).
Proof. unfold RoutineDecryption. preserves_tac. Qed.
Lemma turns_stays n (m : M W Progress) : keeps m -> keeps (turns n m).
Proof. intros Hm. induction n; simpl; preserves_tac. Qed.
Lemma repeatM_stays n (m : M W unit) : keeps m -> keeps (repeatM n m).
Proof. intros Hm. induction n; simpl; preserves_tac. Qed.
#[local] Hint Resolve Receiver_stays Sender_stays Encryption_stays Decryption_stays turns_stays repeatM_stays : preserves.
Lemma ZeroAndFlushAll_stays : keeps (ZeroAndFlushAll (B:=B) (S:=S) p).
Proof. unfold ZeroAndFlushAll, FlushStagedPackets, PutOutboundElementsContainer, set_staged. preserves_tac. Qed.
#[local] Hint Resolve ZeroAndFlushAll_stays : preserves.
Lemma Stop_stays : keeps (Stop (B:=B) (S:=S) p).
Proof. unfold Stop, timersStop, stopping_Wait. preserves_tac. Qed.

End Handlers.

(** ** Erasure *)

Section Erased.
Context {C : Crypto} {B S : Type} `{!Bind B} `{!SourceSink S}.
Abbreviation W := (Transport B S).
Implicit Types t : W.

(** No keypair in a slot, the secrets of the handshake overwritten, nothing staged. *)
Record erased (x : Peer) : Prop := {
  er_keypairs : p_keypairs x = zeroKeypairs;
  er_ephemeral : isZero (hs_localEphemeral (p_handshake x)) = true;
  er_chainKey : isZero (hs_chainKey (p_handshake x)) = true;
  er_hash : isZero (hs_hash (p_handshake x)) = true;
  er_state : hs_state (p_handshake x) = handshakeZeroed;
  er_index : hs_localIndex (p_handshake x) = 0;
  er_staged : p_staged x = [];
}.

Definition wiped (p : PeerId) t : Prop := erased (peer_at t p).

Lemma stays_wiped {A} p (m : M W A) : (forall x, preserves (stays p x) m) -> preserves (wiped p) m.
Proof. intros Hm t Ht. unfold wiped. by rewrite (Hm (peer_at t p) t eq_refl). Qed.

Lemma isZero_setZero b : isZero (setZero b) = true.
Proof.
  unfold isZero. assert (H : fold_left (fun acc b => Z.land acc (ConstantTimeByteEq b Byte.x00)) (setZero b) 1 = 1); [|by rewrite H].
  induction b as [|b bs IH]; [done|]. exact IH.
Qed.

Lemma ZeroAndFlushAll_wipes p t : wiped p (fst (ZeroAndFlushAll (B:=B) (S:=S) p t)).
Proof.
  unfold ZeroAndFlushAll. rewrite bind_get_peer, !bind_DeleteKeypair, bind_upd_peer, bind_get_handshake,
    bind_table_Delete, bind_upd_handshake.
  match goal with |- wiped p (fst (FlushStagedPackets p ?t)) => destruct (FlushStagedPackets_run p t) as (m & ->) end.
  unfold wiped. cbn [fst]. rewrite peer_at_put_peer, decide_True by done.
  match goal with |- context [peer_at (set_t_outContainers m ?t) p] => change (peer_at (set_t_outContainers m t) p) with (peer_at t p) end.
  unfold put_handshake. rewrite peer_at_put_peer, decide_True by done.
  match goal with |- context [peer_at (set_t_indexTable ?i ?t) p] => change (peer_at (set_t_indexTable i t) p) with (peer_at t p) end.
  rewrite peer_at_put_peer, decide_True by done. split; try done; apply isZero_setZero.
Qed.

(** A peer that runs is wiped when it is stopped; one that is wiped stays so,
    whichever peer is stopped. *)
Lemma Stop_wipes p t : p_isRunning (peer_at t p) = true -> wiped p (fst (Stop (B:=B) (S:=S) p t)).
Proof.
  intros Hr. unfold Stop. rewrite bind_get_peer, bind_upd_peer, Hr. cbn [negb].
  unfold bind at 1. destruct (timersStop p _) as [t1 u1]. rewrite !bind_upd_peer.
  unfold bind. destruct (stopping_Wait p _) as [t2 u2]. apply ZeroAndFlushAll_wipes.
Qed.

Lemma Stop_keeps q p : preserves (wiped q) (Stop (B:=B) (S:=S) p).
Proof.
  destruct (decide (p = q)) as [->|Hne]; [|apply stays_wiped; intros; by apply Stop_stays].
  intros t Ht. destruct (p_isRunning (peer_at t q)) eqn:Hr; [by apply Stop_wipes|].
  unfold Stop. rewrite bind_get_peer, bind_upd_peer, Hr. unfold wiped. cbn [negb ret fst].
  rewrite peer_at_put_peer, decide_True by done. destruct Ht. by split.
Qed.

Lemma stop_all_wipes p ps : p ∈ ps -> forall t, p_isRunning (peer_at t p) = true \/ wiped p t ->
  wiped p (fst (forM ps (Stop (B:=B) (S:=S)) t)).
Proof.
  induction ps as [|a ps IH]; [by intros ?%elem_of_nil|]. intros Hin t Ht. cbn [forM]. unfold bind.
  assert (Hw : wiped p t -> wiped p (fst (Stop (B:=B) (S:=S) a t))) by apply Stop_keeps.
  assert (Hall : forall t', wiped p t' -> wiped p (fst (forM ps (Stop (B:=B) (S:=S)) t')))
    by (apply preserves_forM; intros; apply Stop_keeps).
  destruct (decide (a = p)) as [->|Hne].
  - assert (Hs : wiped p (fst (Stop (B:=B) (S:=S) p t))) by (destruct Ht; [by apply Stop_wipes|auto]).
    destruct (Stop p t) as [t1 u]. by apply Hall.
  - apply elem_of_cons in Hin as [->|Hin]; [done|].
    pose proof (Stop_stays p (peer_at t p) a Hne t eq_refl) as Hst. unfold stays in Hst.
    destruct (Stop a t) as [t1 u]. simpl in *. apply IH; [done|]. rewrite Hst. destruct Ht as [?|Ht]; [by left|right; auto].
Qed.

Lemma downLocked_wipes p pk t : t_keyMap t !! pk = Some p -> p_isRunning (peer_at t p) = true ->
  wiped p (fst (downLocked (B:=B) (S:=S) t)).
Proof.
  intros Hk Hr. unfold downLocked, BindClose, closeBindLocked, all_peers, on_bind, bind at 1.
  destruct (bind_Close (t_bind t)) as [b err]. rewrite bind_gets. unfold bind.
  change (t_keyMap (set_t_bind b t)) with (t_keyMap t).
  pose proof (stop_all_wipes p (map snd (map_to_list (t_keyMap t)))) as H. specialize (H ltac:(
    apply list_elem_of_fmap; exists (pk, p); split; [done|by apply elem_of_map_to_list]) (set_t_bind b t) (or_introl Hr)).
  by destruct (forM _ Stop _) as [t1 u].
Qed.

Lemma RemoveAllPeers_keeps p : preserves (wiped p) (RemoveAllPeers (B:=B) (S:=S)).
Proof.
  unfold RemoveAllPeers, removePeerLocked. apply preserves_bind; [apply preserves_gets|intros m].
  apply preserves_bind; [|by intros _ t].
  apply preserves_forM. intros kp. apply preserves_bind; [apply Stop_keeps|by intros _ t].
Qed.

Lemma RemoveAllPeers_map t : t_keyMap (fst (RemoveAllPeers (B:=B) (S:=S) t)) = ∅.
Proof.
  unfold RemoveAllPeers. rewrite bind_gets. unfold bind.
  match goal with |- context [forM ?l ?f t] => destruct (forM l f t) as [t1 u] end. done.
Qed.


End Erased.


End Erasure.
