(* ===== verification/OnWire.v ===== *)
(** The transport over the UDP bind: what one read of the source yields for a
    peer is on the wire, encrypted, in order and addressed to the peer. *)
From S2P Require Import Prelude Replay RateLimiter Env Crypto Wire Cookie State Demo Gso StdNetBind IndexTable Noise Timers Send Receive Lifecycle System Behaviour Scenario Delivery.
From stdpp Require Import prelude gmap list strings.
Open Scope Z_scope.

Module OnWire.
Import Env.Env Crypto.Noise_helpers Wire.Wire State.State Demo.Demo Gso.Gso Noise.Noise Send.Send Receive.Receive Lifecycle.Lifecycle
  System.System Scenario.Scenario Delivery.Delivery.

Section OnWire.
Context {C : Crypto} {Laws : CryptoLaws} {Sock Control K : Type} {os : @StdNetBind.OS Sock Control K}.
Context (wire : K -> list (Sock * option UDPAddr * bytes)) (gso_of : Control -> nat) {laws : StdNetBind.OSLaws wire gso_of}.
Context {S : Type} `{!SourceSink S} (spare : nat).
#[local] Instance bind : Bind (StdNetBind.StdNetBind (Sock:=Sock) * K) := StdNetBind.std_bind spare.

(** The length of a transport message. *)
Lemma length_datagrams kp bs : forall n,
  length (datagrams kp n bs) = length bs /\
  Forall2 (fun d b => length d = (32 + length (padded b))%nat) (datagrams kp n bs) bs.
Proof.
  induction bs as [|b bs IH]; intros n; [done|]. destruct (IH (n + 1)) as [H1 H2]. cbn [datagrams length].
  split; [by rewrite H1|]. constructor; [|done].
  rewrite length_app, Behaviour.length_transport_header, length_aead_Seal. lia.
Qed.

(** A socket is open for the address of an endpoint, and the buffer for addresses
    that is next in its pool is large enough. *)
Record connected (b : StdNetBind.StdNetBind (Sock:=Sock)) (ep : Endpoint) (conn : Sock) (offload : bool) (dst : bytes) : Prop := {
  cn_route : StdNetBind.route b (addr_Is6 (DstIP ep)) = (false, Some conn, offload);
  cn_address : StdNetBind.addr_bytes (DstIP ep) = Some dst;
  cn_length : (length dst <= 16)%nat;
  cn_pool ip : head (StdNetBind.udpAddrPool b) = Some ip -> (length dst <= StdNetBind.ip_len ip)%nat;
}.

(** The packets one read of the source yields for a peer with a young session and
    an open socket for its address go out on that socket, to the peer's address,
    one datagram each and in order, whether the bind coalesces them or not: the
    transport messages of the packets, padded, sealed and numbered consecutively
    from the keypair's counter, which ends behind them.  When the bind reports an
    error of the system, a first part of them went out; it never panics.  In each
    case nothing of the batch is left staged or queued. *)
Lemma on_wire_run s pk p k ep bs conn offload dst (t := sys_t s) (kp := keypair_at t k) (w := t_bind t)
    (is6 := addr_Is6 (DstIP ep)) :
  ready t pk p k (length bs) -> bs <> [] -> p_endpoint (peer_at t p) = Some ep -> sys_groups s = ∅ ->
  (length bs <= Z.to_nat IdealBatchSize)%nat ->
  Forall (fun b => (1 <= length b)%nat /\ Z.of_nat (32 + length (padded b)) <= max_payload ep) bs ->
  connected (fst w) ep conn offload dst ->
  let t' := sys_t (exec_all [ActRead (map (fun b => (b, pk)) bs); ActEncrypt; ActSender p] s) in
  let ds := datagrams kp (kp_sendNonce kp) bs in
  let sent := StdNetBind.Send (map (fun d => mkBuffer d (length d + spare)) ds) ep w in
  t_bind t' = fst sent /\
  StdNetBind.Send_result wire offload is6
    (map (fun d => (conn, Some (mkUDPAddr dst (ep_port ep) EmptyString), d)) ds) w (fst sent) (snd sent) /\
  kp_sendNonce (keypair_at t' k) = kp_sendNonce kp + Z.of_nat (length bs) /\
  p_staged (peer_at t' p) = [] /\ p_outbound (peer_at t' p) = [] /\ t_encryptionQ t' = [].
Proof.
  intros Hr Hne He Hg Hlen Hb [Hroute Hdst Hdst16 Hip]. fold is6 in Hroute. cbv zeta.
  destruct (packets_leave s pk p k ep bs Hr Hne) as (Hbind & Hn & Hst & Hob & Hq & _); [|done|done|].
  { eapply Forall_impl; [exact Hb|]. by intros b []. }
  fold t kp w in Hbind, Hn. rewrite Hbind. set (ds := datagrams kp (kp_sendNonce kp) bs) in *.
  destruct (length_datagrams kp bs (kp_sendNonce kp)) as [Hl Hd]. fold ds in Hl, Hd.
  pose proof (StdNetBind.Send_wire wire gso_of w (map (fun d => mkBuffer d (length d + spare)) ds) ep conn offload dst
    Hroute Hdst Hdst16 Hip) as Hs. unfold StdNetBind.batch_to in Hs. rewrite !map_map in Hs. cbn [data] in Hs.
  unfold bind, StdNetBind.std_bind. cbn [bind_Send].
  destruct (StdNetBind.Send _ ep w) as [w' r]. cbn [fst snd]. split; [by destruct r|]. split; [|done].
  apply Hs; [|by rewrite length_map, Hl].
  apply Forall_map. apply Forall_forall. intros d Hin. rewrite Forall_forall in Hb.
  apply list_elem_of_lookup in Hin as [i Hi]. destruct (Forall2_lookup_l _ _ _ _ _ Hd Hi) as (b & Hbi & Hlb).
  destruct (Hb b) as [_ Hmax]; [by eapply list_elem_of_lookup_2|]. split; cbn [data capacity]; lia.
Qed.

End OnWire.

End OnWire.
