(* ===== verification/EndToEnd.v ===== *)
(** The whole way of a packet between two programs: it waits in the network stack
    of the one, is routed, sealed and sent, and what arrives of it is injected into
    the network stack of the other. *)
From S2P Require Import Prelude Replay RateLimiter Env Crypto Wire Cookie State Demo Gso StdNetBind IndexTable Noise Timers Send NetSink Receive Lifecycle System Behaviour Scenario Delivery OnWire.
From stdpp Require Import prelude gmap list strings.
Open Scope Z_scope.

Module EndToEnd.
Import Env.Env Crypto.Noise_helpers Wire.Wire State.State Demo.Demo Gso.Gso Noise.Noise Send.Send Receive.Receive Lifecycle.Lifecycle
  System.System Scenario.Scenario Delivery.Delivery OnWire.OnWire.

Section EndToEnd.
Context {C : Crypto} {Laws : CryptoLaws} {Sock Control K : Type} {os : @StdNetBind.OS Sock Control K}.
Context (wire : K -> list (Sock * option UDPAddr * bytes)) (gso_of : Control -> nat) {laws : StdNetBind.OSLaws wire gso_of}.
Context {P N : Type} {stk : @NetSink.Stack P N} (spare : nat).
#[local] Instance udp_bind : Bind (StdNetBind.StdNetBind (Sock:=Sock) * K) := OnWire.bind spare.
Abbreviation Host := (Sys (B:=StdNetBind.StdNetBind (Sock:=Sock) * K) (S:=@NetSink.sourceSink P N)).

(** The bytes a buffer has for a packet behind the header. *)
Definition packet_room : nat := Z.to_nat MaxMessageSize - MessageTransportHeaderSize.

(** A turn of [RoutineReadFromSourceSink] over the network stack: a batch is read,
    as many packets as there are buffers, and staged. *)
Definition source_turn (s : Host) : Host :=
  let t := sys_t s in
  match NetSink.Read (Z.to_nat (BatchSize t)) packet_room (t_sink t) with
  | None => s
  | Some (ss, (pkts, _)) => exec (ActRead pkts) (mkSys (set_t_sink ss t) (sys_groups s))
  end.

(** A packet that the sink takes for the peer with key [pk]. *)
Record bound_for (ss : @NetSink.sourceSink P N) (pk : bytes) (pkt : P) : Prop := {
  bf_owner : exists a, NetSink.peer_addr pkt = inr a /\ NetSink.fromPeerAddress ss !! a = Some pk;
  bf_room : (1 <= length (NetSink.pkt_view pkt) <= packet_room)%nat;
}.

Lemma packetFn_owned ss pk pkt : bound_for ss pk pkt -> NetSink.packetFn ss packet_room pkt = inr (NetSink.pkt_view pkt, pk).
Proof.
  intros [(a & Ha & Hpk) Hr]. unfold NetSink.packetFn. rewrite Ha, Hpk.
  destruct (NetSink.pkt_view pkt) as [|b v]; [simpl in Hr; lia|]. by rewrite take_ge by lia.
Qed.

Definition sent_to (pk : bytes) (l : list P) : list (bytes * bytes) := map (fun pkt => (NetSink.pkt_view pkt, pk)) l.

(** A batch that fits is read whole. *)
Lemma read_all ss pk l nbufs : NetSink.incoming ss = l -> l <> [] -> NetSink.incoming_closed ss = false ->
  (length l <= nbufs)%nat -> Forall (bound_for ss pk) l ->
  NetSink.Read nbufs packet_room ss = Some (NetSink.set_incoming [] ss, (sent_to pk l, None)).
Proof.
  intros Hi Hne Hc Hl Hb. unfold NetSink.Read. rewrite Hi.
  assert (E : NetSink.read_loop ss packet_room nbufs l = ([], (sent_to pk l, None))).
  { clear Hi Hne. revert nbufs Hl. induction Hb as [|pkt l Hp Hb IH]; intros [|n] Hl; simpl in *; try lia; [done|by rewrite Hc|].
    rewrite (packetFn_owned _ _ _ Hp), IH by lia. done. }
  destruct l; [done|]. by rewrite E.
Qed.

(** What [Write] does with an IP packet. *)
Definition inject (st : N) (pkt : bytes) : N :=
  match pkt with
  | [] => st
  | b :: _ => NetSink.InjectInbound (if NetSink.version b =? 4 then NetSink.IPv4ProtocolNumber else NetSink.IPv6ProtocolNumber) pkt st
  end.

Definition ip_packet (pkt : bytes) : Prop :=
  match pkt with
  | [] => False
  | b :: _ => NetSink.version b = 4 \/ NetSink.version b = 6
  end.

Lemma write_injects offset bufs : forall ss : @NetSink.sourceSink P N, Forall ip_packet (map (drop offset) bufs) ->
  NetSink.stack (fst (NetSink.write_loop bufs offset ss)) = fold_left inject (map (drop offset) bufs) (NetSink.stack ss).
Proof.
  induction bufs as [|buf bufs IH]; intros ss Hip; [done|]. cbn [map NetSink.write_loop fold_left] in *.
  apply Forall_cons in Hip as [Hip1 Hip]. destruct (drop offset buf) as [|b pkt]; [done|]. cbn [inject ip_packet] in *.
  destruct Hip1 as [-> | ->]; (etrans; [by apply IH|reflexivity]).
Qed.

Lemma Write_injects bufs offset (ss : @NetSink.sourceSink P N) : Forall ip_packet (map (drop offset) bufs) ->
  NetSink.stack (fst (NetSink.Write bufs offset ss)) = fold_left inject (map (drop offset) bufs) (NetSink.stack ss).
Proof. intros H. unfold NetSink.Write. rewrite <- (write_injects _ _ _ H). by destruct (NetSink.write_loop bufs offset ss). Qed.

Lemma ip_packet_padded b : ip_packet b -> ip_packet (padded b).
Proof. by destruct b. Qed.

Lemma datagrams_take kp m : forall n bs, datagrams kp n (take m bs) = take m (datagrams kp n bs).
Proof. induction m as [|m IH]; intros n [|b bs]; [done..|]. cbn [take datagrams]. by rewrite IH. Qed.

(** The host behind a turn of its source, and what arrives at a host. *)
Definition sending_turns (p : PeerId) (s : Host) : Host := exec_all [ActEncrypt; ActSender p] (source_turn s).
Definition arrival_turns (ep : Endpoint) (q : PeerId) (ds : list bytes) (s : Host) : Host :=
  exec_all [ActReceive [inr (map (fun d => (d, ep)) ds)]; ActDecrypt; ActReceiver q] s.

(** The datagrams a host sends from socket [conn] to endpoint [ep]. *)
Definition addressed (conn : Sock) (dst : bytes) (ep : Endpoint) (ds : list bytes) : list (Sock * option UDPAddr * bytes) :=
  map (fun d => (conn, Some (mkUDPAddr dst (ep_port ep) EmptyString), d)) ds.

(** What the bind answers. *)
Definition send_answer (ds : list bytes) (ep : Endpoint) (w : StdNetBind.StdNetBind (Sock:=Sock) * K) : StdNetBind.Sent :=
  snd (StdNetBind.Send (map (fun d => mkBuffer d (length d + spare)) ds) ep w).

Lemma sending_run sA p pk k ep l conn offload dst (tA := sys_t sA) (kp := keypair_at tA k) (bs := map NetSink.pkt_view l) :
  NetSink.incoming (t_sink tA) = l -> NetSink.incoming_closed (t_sink tA) = false -> l <> [] ->
  (length l <= Z.to_nat IdealBatchSize)%nat -> Forall (bound_for (t_sink tA) pk) l ->
  Forall (fun b => Z.of_nat (32 + length (padded b)) <= max_payload ep) bs ->
  ready tA pk p k (length l) -> p_endpoint (peer_at tA p) = Some ep -> sys_groups sA = ∅ ->
  connected (fst (t_bind tA)) ep conn offload dst ->
  let sA' := sending_turns p sA in
  let ds := datagrams kp (kp_sendNonce kp) bs in
  StdNetBind.Send_result wire offload (addr_Is6 (DstIP ep)) (addressed conn dst ep ds) (t_bind tA) (t_bind (sys_t sA'))
    (send_answer ds ep (t_bind tA)) /\
  kp_sendNonce (keypair_at (sys_t sA') k) = kp_sendNonce kp + Z.of_nat (length l).
Proof.
  intros Hi Hc Hne Hl Hb Hfit Hr He Hg Hcn. cbv zeta.
  assert (HB : (length l <= Z.to_nat (BatchSize tA))%nat).
  { unfold BatchSize. cbn [sink_BatchSize NetSink.net_sink]. unfold NetSink.BatchSize. case_match eqn:E; lia. }
  assert (Es : source_turn sA = exec (ActRead (sent_to pk l)) (mkSys (set_t_sink (NetSink.set_incoming [] (t_sink tA)) tA) ∅)).
  { unfold source_turn. fold tA. by rewrite (read_all _ pk l _ Hi Hne Hc HB Hb), Hg. }
  set (s1 := mkSys (set_t_sink (NetSink.set_incoming [] (t_sink tA)) tA) ∅) in Es.
  assert (Ebs : sent_to pk l = map (fun b => (b, pk)) bs) by (unfold sent_to, bs; by rewrite map_map).
  assert (Hr1 : ready (sys_t s1) pk p k (length bs)) by (unfold bs; rewrite length_map; destruct Hr; by split).
  assert (Hb1 : Forall (fun b => (1 <= length b)%nat /\ Z.of_nat (32 + length (padded b)) <= max_payload ep) bs).
  { apply Forall_and. split; [|done]. apply Forall_map. eapply Forall_impl; [exact Hb|]. intros pkt [_ ?]. lia. }
  destruct (on_wire_run wire gso_of spare s1 pk p k ep bs conn offload dst Hr1) as (Hbind & Hres & Hn & _);
    [by destruct l|done|done|by unfold bs; rewrite length_map|done|done|].
  unfold sending_turns. rewrite Es, Ebs. split; [|unfold bs in Hn; by rewrite length_map in Hn].
  rewrite <- Hbind in Hres. exact Hres.
Qed.

(** What arrives of a batch is injected. *)
Lemma arrival_run sB q k ep kp n bs (tB := sys_t sB) :
  expecting tB q k kp n (length bs) -> bs <> [] -> Forall ip_packet bs ->
  let tB' := sys_t (arrival_turns ep q (datagrams kp n bs) sB) in
  NetSink.stack (t_sink tB') = fold_left inject (map padded bs) (NetSink.stack (t_sink tB)) /\
  p_endpoint (peer_at tB' q) = Some ep.
Proof.
  intros He Hne Hip. cbv zeta.
  destruct (delivered_run sB q k ep kp n bs He Hne) as (bufs & Hb & Hs & _ & Hep & _).
  { eapply Forall_impl; [exact Hip|]. intros [|b l]; simpl; [done|lia]. }
  unfold arrival_turns. split; [|exact Hep]. rewrite Hs. cbn [sink_Write NetSink.net_sink].
  rewrite <- Hb. apply Write_injects. rewrite Hb. apply Forall_map. eapply Forall_impl; [exact Hip|]. apply ip_packet_padded.
Qed.

End EndToEnd.

(** *** Witness

    Alice's stack has two IPv4 packets for Bob's address; both hosts are over the
    UDP bind and the small operating system, behind a first packet. *)

#[local] Instance toy : Crypto := Toy.toy_crypto.
#[local] Existing Instance NetSink.demo_stack.
#[local] Hint Extern 0 (Bind (StdNetBind.StdNetBind (Sock:=bool) * StdNetBind.Kernel)) => exact (udp_bind 100) : typeclass_instances.
Abbreviation NHost := (Sys (B:=StdNetBind.StdNetBind (Sock:=bool) * StdNetBind.Kernel) (S:=@NetSink.sourceSink (bytes * bytes) (list bytes))).

Definition pool_ok (dst : bytes) (b : StdNetBind.StdNetBind (Sock:=bool)) : bool :=
  match head (StdNetBind.udpAddrPool b) with Some ip => (length dst <=? StdNetBind.ip_len ip)%nat | None => true end.

Definition bob_ip : bytes := map byte_of_Z [10; 0; 0; 2].

Lemma pool_ok_head dst b ip : pool_ok dst b = true -> head (StdNetBind.udpAddrPool b) = Some ip -> (length dst <= StdNetBind.ip_len ip)%nat.
Proof. unfold pool_ok. intros H E. rewrite E in H. exact (proj1 (Nat.leb_le _ _) H). Qed.

Definition ip_header (n : nat) : bytes := byte_of_Z 69 :: zero_bytes n.
Definition waiting : list (bytes * bytes) := [(NetSink.addr_b, ip_header 19); (NetSink.addr_b, ip_header 39)].
Definition two_views : list bytes := [ip_header 19; ip_header 39].

Definition host_start (me other : Z) (addr : bytes) (l : list (bytes * bytes)) (now : Z) : NHost :=
  initial (NetSink.set_incoming l (NetSink.configure [("peer"%string, PublicKey (demo_sk other), [Addr4 addr])]
             (NetSink.new_sink [] (PublicKey (demo_sk me)) None)))
    (StdNetBind.NewStdNetBind, StdNetBind.mkKernel [] true true []) (demo_env_at now).

Definition alice_host : NHost :=
  exec_all (take 7 alice_acts2 ++ [ActEncrypt; ActSender 0]) (host_start 1 2 NetSink.addr_b waiting 1000).
Definition bob_host : NHost :=
  exec_all (bob_acts1 ++ [ActReceive [inr [(last_sent alice_idle, demo_endpoint 1)]]; ActDecrypt; ActReceiver 0])
    (host_start 2 1 NetSink.addr_a [] 2000).

Lemma alice_host_facts (t := sys_t alice_host) (x := peer_at t 0) (kp := keypair_at t 2) :
  (t_state t, t_keyMap t !! PublicKey (demo_sk 2), current (p_keypairs x), kp_sendNonce kp,
   (p_staged x, p_outbound x, t_encryptionQ t), p_endpoint x, map_to_list (sys_groups alice_host),
   (StdNetBind.route (fst (t_bind t)) (addr_Is6 (DstIP (demo_endpoint 2))),
    send_answer 100 (datagrams kp (kp_sendNonce kp) two_views) (demo_endpoint 2) (t_bind t)),
   (NetSink.incoming (t_sink t), NetSink.incoming_closed (t_sink t), NetSink.fromPeerAddress (t_sink t) !! Addr4 NetSink.addr_b),
   (p_isRunning x && (time_Sub (clock (t_env t) (ticks (t_env t))) (kp_created kp) <=? RekeyAfterTime) &&
    (time_Sub (clock (t_env t) (Datatypes.S (ticks (t_env t)))) (kp_created kp) <=? RekeyAfterTime) &&
    (pool_ok bob_ip (fst (t_bind t)) && ((0 <=? kp_remoteIndex kp) && (kp_remoteIndex kp <? 2 ^ 32))))) =
  (transportStateUp, Some 0%nat, Some 2%nat, 1, ([], [], []), Some (demo_endpoint 2), [],
   ((false, Some false, true), StdNetBind.Returned None), (waiting, false, Some (PublicKey (demo_sk 2))), true).
Proof. vm_compute. reflexivity. Qed.

Lemma bob_host_facts (t := sys_t bob_host) (x := peer_at t 0) (kp := keypair_at t 1) (ka := keypair_at (sys_t alice_host) 2) :
  (kp_send ka, t_indexTable t !! kp_remoteIndex ka, p_keypairs x,
   kp_replayFilter kp, p_inbound x, p_bufs x, t_decryptionQ t, NetSink.stack (t_sink t), p_isRunning x,
   ((clock (t_env t) (ticks (t_env t)) <=? time_Add (kp_created kp) RejectAfterTime) &&
    (clock (t_env t) (Datatypes.S (ticks (t_env t))) <=? time_Add (kp_created kp) RejectAfterTime) &&
    (time_Sub (clock (t_env t) (ticks (t_env t) + 2)) (kp_created kp) <=? RejectAfterTime - KeepaliveTimeout - RekeyTimeout))) =
  (kp_receive kp, Some (mkIndexEntry (Some 0%nat) None (Some 1%nat)), mkKeypairs (Some 1%nat) None None,
   fst (Replay.validate (Replay.Reset Replay.zeroFilter) 0 RejectAfterMessages), [], [], [], [padded packet1], true, true).
Proof. vm_compute. reflexivity. Qed.

Lemma alice_host_ready : ready (sys_t alice_host) (PublicKey (demo_sk 2)) 0 2 (length waiting).
Proof.
  pose proof alice_host_facts as F. cbv zeta in F. apply ten_equal in F as (H1 & H2 & H3 & H4 & Hq & _ & _ & _ & _ & Hb).
  apply pair_equal_spec in Hq as [Hq H7]. apply pair_equal_spec in Hq as [H5 H6].
  apply andb_true_iff in Hb as [[[Hrun Hy1]%andb_true_iff Hy2]%andb_true_iff _].
  refine (Build_ready _ _ _ _ _ H1 H2 Hrun H3 _ _ _ H5 H6 H7); [rewrite H4; discriminate..|].
  apply one_of_two; [exact (proj1 (Z.leb_le _ _) Hy1)|exact (proj1 (Z.leb_le _ _) Hy2)].
Qed.

Lemma alice_host_connected : connected (fst (t_bind (sys_t alice_host))) (demo_endpoint 2) false true bob_ip.
Proof.
  pose proof alice_host_facts as F. cbv zeta in F. apply ten_equal in F as (_ & _ & _ & _ & _ & _ & _ & H8 & _ & Hb).
  apply andb_true_iff in Hb as [_ [Hp _]%andb_true_iff].
  split; [exact (f_equal fst H8)|reflexivity|vm_compute; lia|intros ip; by apply pool_ok_head].
Qed.

Lemma bob_host_expects : expects (kp_replayFilter (keypair_at (sys_t bob_host) 1)) 1.
Proof.
  pose proof bob_host_facts as F. cbv zeta in F. apply ten_equal in F as (_ & _ & _ & E & _). rewrite E.
  destruct (validate_expected (Replay.Reset Replay.zeroFilter) 0) as (f & E' & Hf); [|split; [discriminate|reflexivity]|rewrite E'; exact Hf].
  exists Replay.empty_window. split; [by apply Replay.simulates_Reset|]. split; [done|apply not_elem_of_empty].
Qed.

Lemma bob_host_expecting : expecting (sys_t bob_host) 0 1 (keypair_at (sys_t alice_host) 2) (kp_sendNonce (keypair_at (sys_t alice_host) 2)) 2.
Proof.
  pose proof alice_host_facts as F. cbv zeta in F. apply ten_equal in F as (_ & _ & _ & H4 & _ & _ & _ & _ & _ & Ha).
  apply andb_true_iff in Ha as [_ [_ [Hi1 Hi2]%andb_true_iff]%andb_true_iff]. rewrite H4.
  pose proof bob_host_facts as F. cbv zeta in F. apply ten_equal in F as (H1 & H2 & H3 & _ & H5 & H6 & H7 & _ & H9 & Hb).
  apply andb_true_iff in Hb as [[Hy1 Hy2]%andb_true_iff Hy].
  refine (Build_expecting _ _ _ _ _ _ H1 (conj (proj1 (Z.leb_le _ _) Hi1) (proj1 (Z.ltb_lt _ _) Hi2)) _ _ _
    bob_host_expects (proj1 (Z.leb_le _ _) Hy) H9 H5 H6 H7 Z.le_0_1 _); [|rewrite H3; reflexivity|rewrite H3; discriminate|vm_compute; discriminate].
  split; [exists (mkIndexEntry (Some 0%nat) None (Some 1%nat)); exact (conj H2 (conj eq_refl eq_refl))|]. intros j Hj.
  apply (one_of_two (fun j => clock (t_env (sys_t bob_host)) j <= time_Add (kp_created (keypair_at (sys_t bob_host) 1)) RejectAfterTime)
    (ticks (t_env (sys_t bob_host)))); [exact (proj1 (Z.leb_le _ _) Hy1)|exact (proj1 (Z.leb_le _ _) Hy2)|lia].
Qed.

Lemma waiting_bound : Forall (bound_for (t_sink (sys_t alice_host)) (PublicKey (demo_sk 2))) waiting.
Proof.
  pose proof alice_host_facts as F. cbv zeta in F. apply ten_equal in F as (_ & _ & _ & _ & _ & _ & _ & _ & H9 & _).
  apply pair_equal_spec in H9 as [_ H9].
  apply Forall_cons; split; [|apply Forall_cons; split; [|apply Forall_nil]]; split; try (eexists; split; [reflexivity|exact H9]);
    split; apply Nat.leb_le; vm_compute; reflexivity.
Qed.


End EndToEnd.
